(** * The exclusion step of the FoundationDB Kubernetes operator

    A shallow embedding of [controllers/exclude_processes.go] (the
    [excludeProcesses] sub-reconciler with its helpers
    [getProcessesToExclude], [getAllowedExclusionsAndMissingProcesses] and
    [getAllowedExclusions]) and of [getDatabaseClientProvider] from
    [controllers/backup_controller.go], followed by the properties of the
    specification that concern them.

    Conventions.
    - A Go [int] is a 64-bit two's-complement integer: a [Z] together with
      [wrap64] wherever the source does arithmetic on it.
    - A Go [map] used as a dictionary is a [gmap]; a [map[string]None] is a
      [gset string]; a slice is a [list].
    - The collaborators the step talks to (admin client, lock client, event
      recorder, the [coordination], [coordinator] and [fdbstatus] packages)
      are records of functions; every call the step makes is appended to a
      trace of [Event]s, so that "which calls were issued, in which order"
      is a property of the value [reconcile] returns. *)

From stdpp Require Import base gmap strings list fin_maps.
From Stdlib Require Import ZArith Lia PrimFloat.

Local Open Scope Z_scope.

(** ** Machine integers and durations *)

Module Int64.

Definition min_int : Z := - 2 ^ 63.
Definition max_int : Z := 2 ^ 63 - 1.

(** Two's-complement wrap-around of a 64-bit signed integer. *)
Definition wrap64 (z : Z) : Z := (z + 2 ^ 63) mod 2 ^ 64 - 2 ^ 63.

Definition in_range (z : Z) : Prop := min_int <= z <= max_int.

Definition add (a b : Z) : Z := wrap64 (a + b).
Definition sub (a b : Z) : Z := wrap64 (a - b).
(** [x++] *)
Definition incr (a : Z) : Z := add a 1.

End Int64.

Module Duration.
(** [time.Duration] counts nanoseconds in an [int64]. *)
Definition Nanosecond : Z := 1.
Definition Second : Z := 1000000000 * Nanosecond.
Definition Minute : Z := 60 * Second.

(** [t.Sub(u)] saturates at the ends of the [int64] range. *)
Definition sub_saturating (t u : Z) : Z :=
  Z.max Int64.min_int (Z.min Int64.max_int (t - u)).
End Duration.

(** ** [getAllowedExclusions] (exclude_processes.go, lines 536-551) *)

Definition getAllowedExclusions
    (validProcesses desiredProcessCount ongoingExclusions faultTolerance : Z) : Z :=
  let allowedExclusions :=
    Int64.sub
      (Int64.sub (Int64.add validProcesses faultTolerance) desiredProcessCount)
      ongoingExclusions in
  if allowedExclusions <? 0 then 0 else allowedExclusions.

(** ** [getDatabaseClientProvider] (backup_controller.go, lines 115-121) *)

(** What a Go call does: it returns a value or it panics with a message. *)
Inductive GoResult (A : Type) : Type :=
| Returns (a : A)
| Panics (msg : string).
Arguments Returns {A} a.
Arguments Panics {A} msg.

Module Backup.
Section Reconciler.
(** The interface type [fdbadminclient.DatabaseClientProvider]; the
    reconciler only stores it and hands it out. *)
Variable DatabaseClientProvider : Type.

(** The one field of [FoundationDBBackupReconciler] the function reads;
    [None] is the nil interface value. *)
Record FoundationDBBackupReconciler := {
  DatabaseClientProvider_field : option DatabaseClientProvider
}.

Definition getDatabaseClientProvider (r : FoundationDBBackupReconciler)
    : GoResult DatabaseClientProvider :=
  match DatabaseClientProvider_field r with
  | Some p => Returns p
  | None => Panics "Backup reconciler does not have a DatabaseClientProvider defined"
  end.
End Reconciler.
Arguments DatabaseClientProvider_field {_} _.
Arguments getDatabaseClientProvider {_} _.
End Backup.

(** ** Data model

    The declarations of package [api/v1beta2] are not among the sources.
    Each struct below has the fields the step reads, and, for every method
    of the struct that the step calls and whose body is not among the
    sources, one field holding the value that method returns.  Nothing is
    assumed about these values. *)

(** [error]: the message of a Go error value. *)
Abbreviation error := string (only parsing).
(** [fdbv1beta2.ProcessGroupID] and [fdbv1beta2.ProcessClass] are string
    types; [time.Time] values stored in the coordination maps are opaque
    to the step. *)
Abbreviation ProcessGroupID := string (only parsing).
Abbreviation ProcessClass := string (only parsing).
Abbreviation Time := Z (only parsing).
(** [net.IP] is a byte slice; the nil slice is [[]]. *)
Abbreviation IP := (list Byte.byte) (only parsing).
(** [float64] *)
Abbreviation float64 := PrimFloat.float (only parsing).

(** [fdbv1beta2.ProcessAddress], with the two fields the step sets. *)
Record ProcessAddress := {
  IPAddress : IP;
  StringAddress : string
}.

(** [fdbv1beta2.ProcessAddress{StringAddress: s}] *)
Definition addressOfString (s : string) : ProcessAddress :=
  {| IPAddress := []; StringAddress := s |}.
(** [fdbv1beta2.ProcessAddress{IPAddress: ip}] *)
Definition addressOfIP (ip : IP) : ProcessAddress :=
  {| IPAddress := ip; StringAddress := "" |}.

(** [fdbv1beta2.UpdateAction] *)
Inductive UpdateAction := UpdateActionAdd | UpdateActionDelete.

(** [fdbv1beta2.ProcessGroupStatus] *)
Record ProcessGroupStatus := {
  ProcessGroupID_ : ProcessGroupID;
  ProcessClass_ : ProcessClass;
  Addresses : list string;
  (** [IsMarkedForRemoval()] *)
  IsMarkedForRemoval : bool;
  (** [IsExcluded()] *)
  IsExcluded : bool;
  (** [GetExclusionString()] *)
  GetExclusionString : string;
  (** [GetConditionTime(conditionType)]: [None] is the nil pointer, [Some t]
      points to the Unix time [t] (in seconds) of the condition, an
      [int64]. *)
  GetConditionTime : string -> option Z
}.

(** [fdbv1beta2.FoundationDBCluster] *)
Record FoundationDBCluster := {
  (** [cluster.Spec.ProcessGroupIDPrefix] *)
  ProcessGroupIDPrefix : string;
  (** [cluster.Status.ProcessGroups] *)
  ProcessGroups : list ProcessGroupStatus;
  (** [GetSynchronizationMode()] *)
  GetSynchronizationMode : string;
  (** [UseLocalitiesForExclusion()] *)
  UseLocalitiesForExclusion : bool;
  (** [GetProcessCountsWithDefaults()], followed by [Map()] *)
  GetProcessCountsWithDefaults : error + gmap ProcessClass Z;
  (** [DesiredFaultTolerance()] *)
  DesiredFaultTolerance : Z;
  (** [ShouldUseLocks()] *)
  ShouldUseLocks : bool
}.

(** [fdbv1beta2.FoundationDBStatus] *)
Record FoundationDBStatus := {
  (** [status.Cluster.RecoveryState.SecondsSinceLastRecovered] *)
  SecondsSinceLastRecovered : float64;
  (** [fdbstatus.GetExclusions(status)] *)
  GetExclusions : error + list ProcessAddress;
  (** [fdbstatus.GetCoordinatorsFromStatus(status)] *)
  GetCoordinatorsFromStatus : gset string
}.

(** [status.Cluster.RecoveryState.SecondsSinceLastRecovered = v] *)
Definition setSecondsSinceLastRecovered (v : float64) (s : FoundationDBStatus)
    : FoundationDBStatus :=
  {| SecondsSinceLastRecovered := v;
     GetExclusions := GetExclusions s;
     GetCoordinatorsFromStatus := GetCoordinatorsFromStatus s |}.

(** Constants and functions of [api/v1beta2], [net] and [coordination]
    that the step uses and whose definitions are not among the sources. *)
Class Api := {
  (** [fdbv1beta2.ProcessClassTest] *)
  ProcessClassTest : ProcessClass;
  (** [fdbv1beta2.MissingProcesses] *)
  MissingProcesses : string;
  (** [fdbv1beta2.SynchronizationModeGlobal] *)
  SynchronizationModeGlobal : string;
  (** [ProcessClass.IsTransaction()] *)
  IsTransaction : ProcessClass -> bool;
  (** [ProcessAddress.String()] *)
  AddressString : ProcessAddress -> string;
  (** [net.ParseIP] *)
  ParseIP : string -> IP
}.

(** Modelled from the spec: [coordination.IgnoreMissingProcessDuration] is
    declared in package [internal/coordination], which is not among the
    sources; the grace window is "a fixed grace window (5 minutes)", as
    also the log line of [getAllowedExclusionsAndMissingProcesses] says. *)
Definition IgnoreMissingProcessDuration : Z := 5 * Duration.Minute.

(** [excludeEntry] (exclude_processes.go, lines 42-46) *)
Record excludeEntry := {
  processGroupID : ProcessGroupID;
  addresses : list ProcessAddress
}.

(** Reading a Go map at a key that may be absent gives the zero value. *)
Definition entriesOf (m : gmap ProcessClass (list excludeEntry)) (c : ProcessClass)
    : list excludeEntry := default [] (m !! c).
Definition countOf (m : gmap ProcessClass Z) (c : ProcessClass) : Z :=
  default 0 (m !! c).

(** [len(s)] *)
Definition len {A} (l : list A) : Z := Z.of_nat (length l).

Section ExcludeProcesses.
Context `{Api}.

(** ** [getProcessesToExclude] (exclude_processes.go, lines 358-467) *)

(** The three maps the loop over the process groups writes to. *)
Record candidates := {
  fdbProcessesToExcludeByClass : gmap ProcessClass (list excludeEntry);
  ongoingExclusionsByClass : gmap ProcessClass Z;
  updatePendingExclusions : gmap ProcessGroupID UpdateAction
}.

(** [currentExclusionMap] (lines 368-371) *)
Definition currentExclusionMapOf (exclusions : list ProcessAddress) : gset string :=
  foldl (fun m exclusion => {[ AddressString exclusion ]} ∪ m) ∅ exclusions.

(** [ongoingExclusionsByClass[c]++] *)
Definition countOngoing (c : ProcessClass) (st : candidates) : candidates :=
  {| fdbProcessesToExcludeByClass := fdbProcessesToExcludeByClass st;
     ongoingExclusionsByClass :=
       <[ c := Int64.incr (countOf (ongoingExclusionsByClass st) c) ]>
         (ongoingExclusionsByClass st);
     updatePendingExclusions := updatePendingExclusions st |}.

(** [fdbProcessesToExcludeByClass[c] = append(fdbProcessesToExcludeByClass[c], e)] *)
Definition appendEntry (c : ProcessClass) (e : excludeEntry) (st : candidates)
    : candidates :=
  {| fdbProcessesToExcludeByClass :=
       <[ c := entriesOf (fdbProcessesToExcludeByClass st) c ++ [e] ]>
         (fdbProcessesToExcludeByClass st);
     ongoingExclusionsByClass := ongoingExclusionsByClass st;
     updatePendingExclusions := updatePendingExclusions st |}.

(** [updatePendingExclusions[id] = UpdateActionAdd] *)
Definition markPending (id : ProcessGroupID) (st : candidates) : candidates :=
  {| fdbProcessesToExcludeByClass := fdbProcessesToExcludeByClass st;
     ongoingExclusionsByClass := ongoingExclusionsByClass st;
     updatePendingExclusions := <[ id := UpdateActionAdd ]> (updatePendingExclusions st) |}.

(** The inner loop over [processGroup.Addresses] (lines 438-449), on the
    pair [(allAddressesExcluded, addresses)]. *)
Definition addressLoop (currentExclusionMap : gset string) (addrs : list string)
    : bool * list ProcessAddress :=
  foldl (fun '(allAddressesExcluded, addresses) address =>
           if bool_decide (address ∈ currentExclusionMap)
           then (allAddressesExcluded, addresses)
           else (false, addresses ++ [addressOfIP (ParseIP address)]))
        (true, []) addrs.

(** One iteration of the loop over [cluster.Status.ProcessGroups]
    (lines 373-464). *)
Definition processGroupStep
    (cluster : FoundationDBCluster)
    (currentExclusionMap : gset string)
    (pendingExclusions : gmap ProcessGroupID Time)
    (st : candidates) (processGroup : ProcessGroupStatus) : candidates :=
  let class := ProcessClass_ processGroup in
  if bool_decide (class = ProcessClassTest) then st
  else if negb (IsMarkedForRemoval processGroup) then st
  else if IsExcluded processGroup then st
  else if bool_decide (GetExclusionString processGroup ∈ currentExclusionMap)
  then countOngoing class st
  else
    let st :=
      match pendingExclusions !! ProcessGroupID_ processGroup with
      | Some _ => st
      | None => markPending (ProcessGroupID_ processGroup) st
      end in
    if UseLocalitiesForExclusion cluster then
      if bool_decide (GetExclusionString processGroup ∈ currentExclusionMap) then st
      else
        let entry :=
          {| processGroupID := ProcessGroupID_ processGroup;
             addresses := [addressOfString (GetExclusionString processGroup)] |} in
        if len (entriesOf (fdbProcessesToExcludeByClass st) class) =? 0
        then appendEntry class entry st
        else appendEntry class entry st
    else
      let '(allAddressesExcluded, addresses) :=
        addressLoop currentExclusionMap (Addresses processGroup) in
      let st :=
        if len addresses >? 0
        then appendEntry class
               {| processGroupID := ProcessGroupID_ processGroup;
                  addresses := addresses |} st
        else st in
      if allAddressesExcluded then countOngoing class st else st.

(** [updatePendingExclusions] is the caller's map, written in place: it
    is taken as an argument and returned with the two new maps. *)
Definition getProcessesToExclude
    (exclusions : list ProcessAddress)
    (cluster : FoundationDBCluster)
    (pendingExclusions : gmap ProcessGroupID Time)
    (updatePending : gmap ProcessGroupID UpdateAction) : candidates :=
  foldl (processGroupStep cluster (currentExclusionMapOf exclusions) pendingExclusions)
        {| fdbProcessesToExcludeByClass := ∅;
           ongoingExclusionsByClass := ∅;
           updatePendingExclusions := updatePending |}
        (ProcessGroups cluster).

(** ** [getAllowedExclusionsAndMissingProcesses] (lines 474-530) *)

(** The variables of the loop over the process groups. *)
Record missingState := {
  missingProcesses : list ProcessGroupID;
  validProcesses : Z;
  exclusionsAllowed : bool
}.

(** Package [time] counts the seconds of a [Time] from January 1 of the
    year 1; [unixToInternal] is the number of seconds from there to the
    Unix epoch. *)
Definition unixToInternal : Z := 62135596800.

(** [time.Unix(sec, 0)], as the seconds the [Time] holds:
    [sec + unixToInternal] in an [int64], which wraps around for the
    timestamps above [MaxInt64 - unixToInternal]. *)
Definition Unix (sec : Z) : Z := Int64.add sec unixToInternal.

(** [time.Since(time.Unix(missingTimestamp, 0))], when the clock reads
    [now] nanoseconds after the Unix epoch: the difference of the two
    times, saturated by [Sub]. *)
Definition sinceUnix (now missingTimestamp : Z) : Z :=
  Duration.sub_saturating (now + unixToInternal * Duration.Second)
                          (Unix missingTimestamp * Duration.Second).

(** One iteration of the loop (lines 488-512); [now] is what the clock
    reads if this iteration comes to call [time.Since]. *)
Definition missingStep (processClass : ProcessClass) (inSimulation : bool)
    (now : Z) (st : missingState) (processGroup : ProcessGroupStatus) : missingState :=
  if negb (bool_decide (ProcessClass_ processGroup = processClass)) then st
  else if IsMarkedForRemoval processGroup && IsExcluded processGroup then st
  else
    match GetConditionTime processGroup MissingProcesses, inSimulation with
    | Some missingTimestamp, false =>
        {| missingProcesses := missingProcesses st ++ [ProcessGroupID_ processGroup];
           validProcesses := validProcesses st;
           exclusionsAllowed :=
             if sinceUnix now missingTimestamp <? IgnoreMissingProcessDuration
             then false else exclusionsAllowed st |}
    | _, _ =>
        {| missingProcesses := missingProcesses st;
           validProcesses := Int64.incr (validProcesses st);
           exclusionsAllowed := exclusionsAllowed st |}
    end.

(** The loop; [clock i] is the reading of the clock during the iteration
    on the [i]-th process group. *)
Fixpoint missingLoop (processClass : ProcessClass) (inSimulation : bool)
    (clock : nat -> Z) (i : nat) (groups : list ProcessGroupStatus)
    (st : missingState) : missingState :=
  match groups with
  | [] => st
  | processGroup :: rest =>
      missingLoop processClass inSimulation clock (S i) rest
        (missingStep processClass inSimulation (clock i) st processGroup)
  end.

Definition missingInit : missingState :=
  {| missingProcesses := []; validProcesses := 0; exclusionsAllowed := true |}.

Definition getAllowedExclusionsAndMissingProcesses
    (clock : nat -> Z)
    (cluster : FoundationDBCluster) (processClass : ProcessClass)
    (desiredProcessCount ongoingExclusions : Z) (inSimulation : bool)
    : Z * list ProcessGroupID :=
  let st := missingLoop processClass inSimulation clock 0 (ProcessGroups cluster)
              missingInit in
  if negb (exclusionsAllowed st) then (0, missingProcesses st)
  else (getAllowedExclusions (validProcesses st) desiredProcessCount
          ongoingExclusions (DesiredFaultTolerance cluster),
        missingProcesses st).

End ExcludeProcesses.

(** ** The pass as a computation

    [requeue] is declared in a file of package [controllers] that is not
    among the sources; the record has the four fields the composite
    literals of the step set, unset fields holding Go's zero value. *)
Record requeue := {
  delay : Z;
  curError : option error;
  message : string;
  delayedRequeue : bool
}.

(** The calls of a pass to its collaborators, in the order they are made. *)
Inductive Event :=
| CallGetAdminClientWithLogger
| CallClose
| CallGetStatus
| CallGetPendingForExclusion (prefix : string)
| CallUpdatePendingForExclusion (updates : gmap ProcessGroupID UpdateAction)
| CallGetReadyForExclusion (prefix : string)
| CallUpdateReadyForExclusion (updates : gmap ProcessGroupID UpdateAction)
| CallGetLockClientWithLogger
| CallTakeLock
| CallGetAddressesFromCoordinationState
    (allowedExclusions : gmap ProcessGroupID Time) (includeLocalities includeAddresses : bool)
| CallRecorderEvent (reason : string) (excluding : list ProcessAddress)
| CallExcludeProcessesWithNoWait (addrs : list ProcessAddress) (wait : bool)
| CallChangeCoordinators (status : FoundationDBStatus)
| CallUpdateOrApply.

(** The interfaces of package [fdbadminclient].  What a method answers may
    depend on its arguments and on everything the pass did before the call
    (the first argument). *)
Record AdminClient := {
  GetStatus : list Event -> error + FoundationDBStatus;
  GetPendingForExclusion : list Event -> string -> error + gmap ProcessGroupID Time;
  UpdatePendingForExclusion :
    list Event -> gmap ProcessGroupID UpdateAction -> option error;
  GetReadyForExclusion : list Event -> string -> error + gmap ProcessGroupID Time;
  UpdateReadyForExclusion :
    list Event -> gmap ProcessGroupID UpdateAction -> option error;
  ExcludeProcessesWithNoWait :
    list Event -> list ProcessAddress -> bool -> option error
}.

Record LockClient := {
  TakeLock : list Event -> option error
}.

Record DatabaseClientProvider := {
  GetAdminClientWithLogger : list Event -> FoundationDBCluster -> error + AdminClient;
  GetLockClientWithLogger : list Event -> FoundationDBCluster -> error + LockClient
}.

(** [FoundationDBClusterReconciler] (cluster_controller.go), with the
    fields the step reads; [updateOrApply] stands for the method of that
    name, which writes the cluster through the Kubernetes client. *)
Record FoundationDBClusterReconciler := {
  DatabaseClientProvider_ : option DatabaseClientProvider;
  MinimumRecoveryTimeForExclusion : float64;
  GlobalSynchronizationWaitDuration : Z;
  (** [r.SimulationOptions.SimulateTime] *)
  SimulateTime : bool;
  updateOrApply : list Event -> FoundationDBCluster -> option error
}.

(** What else a pass depends on: the clock, the order in which [range]
    visits the keys of a map (Go leaves it unspecified), and the functions
    of packages [fdbstatus], [coordination] and [coordinator], none of
    which is among the sources. *)
Record Environment := {
  (** [clock c i]: the reading of the clock, in nanoseconds since the Unix
      epoch, in the [i]-th iteration of the missing-process loop for
      class [c]. *)
  clock : ProcessClass -> nat -> Z;
  rangeOrder : gmap ProcessClass (list excludeEntry) -> list ProcessClass;
  CanSafelyExcludeProcessesWithRecoveryState :
    FoundationDBCluster -> FoundationDBStatus -> float64 -> option error;
  AllProcessesReadyForExclusion :
    list Event -> gmap ProcessGroupID Time -> gmap ProcessGroupID Time -> Z ->
    error + gmap ProcessGroupID Time;
  GetAddressesFromCoordinationState :
    list Event -> gmap ProcessGroupID Time -> bool -> bool ->
    error + list ProcessAddress;
  ChangeCoordinators :
    list Event -> FoundationDBCluster -> FoundationDBStatus -> option error
}.

(** [range] visits every key of the map once. *)
Definition rangeVisitsEachKeyOnce (env : Environment) : Prop :=
  forall m, rangeOrder env m ≡ₚ (map_to_list m).*1.

(** The state of a pass: the calls made so far, oldest first, and the
    object the parameter [status] points to ([None]: the nil pointer).
    When the caller passes a status, this is the caller's object. *)
Record passState := {
  trace : list Event;
  statusObject : option FoundationDBStatus
}.

(** How a piece of the body of [reconcile] ends: it falls through with a
    value, it executes [return], or it panics. *)
Inductive Outcome (A : Type) :=
| Continue (a : A)
| Return (r : option requeue)
| Panic (msg : string).
Arguments Continue {A} a.
Arguments Return {A} r.
Arguments Panic {A} msg.

Definition M (A : Type) : Type := passState -> passState * Outcome A.

#[global] Instance M_ret : MRet M := fun A a s => (s, Continue a).
#[global] Instance M_bind : MBind M := fun A B f m s =>
  match m s with
  | (s', Continue a) => f a s'
  | (s', Return r) => (s', Return r)
  | (s', Panic msg) => (s', Panic msg)
  end.

(** [return r] *)
Definition returnWith {A} (r : option requeue) : M A := fun s => (s, Return r).
(** [panic(msg)] *)
Definition panic {A} (msg : string) : M A := fun s => (s, Panic msg).
(** A call to a collaborator: it is recorded, and answered from what the
    pass did before it. *)
Definition call {R} (ev : Event) (answer : list Event -> R) : M R := fun s =>
  ({| trace := trace s ++ [ev]; statusObject := statusObject s |},
   Continue (answer (trace s))).
(** What the pass did so far. *)
Definition history : M (list Event) := fun s => (s, Continue (trace s)).
(** Reading and writing the object behind [status]. *)
Definition readStatus : M (option FoundationDBStatus) := fun s =>
  (s, Continue (statusObject s)).
Definition writeStatus (st : FoundationDBStatus) : M unit := fun s =>
  ({| trace := trace s; statusObject := Some st |}, Continue tt).
(** [defer cleanup]: the cleanup runs when the body is left, however it is
    left. *)
Definition deferring {A} (cleanup : Event) (body : M A) : M A := fun s =>
  let '(s', o) := body s in
  ({| trace := trace s' ++ [cleanup]; statusObject := statusObject s' |}, o).

(** [&requeue{curError: err}] *)
Definition requeueError (err : error) : requeue :=
  {| delay := 0; curError := Some err; message := ""; delayedRequeue := false |}.
(** [&requeue{curError: err, delayedRequeue: true}] *)
Definition requeueDelayedError (err : error) : requeue :=
  {| delay := 0; curError := Some err; message := ""; delayedRequeue := true |}.
(** [&requeue{message: msg, delayedRequeue: true}] *)
Definition requeueMessage (msg : string) : requeue :=
  {| delay := 0; curError := None; message := msg; delayedRequeue := true |}.

(** [if err != nil { return &requeue{curError: err, delayedRequeue: true} }] *)
Definition orRequeue {A} (res : error + A) : M A :=
  match res with
  | inl err => returnWith (Some (requeueDelayedError err))
  | inr a => mret a
  end.
Definition nilOrRequeue (res : option error) : M unit :=
  match res with
  | Some err => returnWith (Some (requeueDelayedError err))
  | None => mret tt
  end.

Section Reconcile.
Context `{Api}.

(** ** Helpers of the reconciler (cluster_controller.go) *)

Definition getDatabaseClientProvider (r : FoundationDBClusterReconciler)
    : M DatabaseClientProvider :=
  match DatabaseClientProvider_ r with
  | Some provider => mret provider
  | None => panic "Cluster reconciler does not have a DatabaseClientProvider defined"
  end.

Definition getAdminClient (r : FoundationDBClusterReconciler)
    (cluster : FoundationDBCluster) : M (error + AdminClient) :=
  provider ← getDatabaseClientProvider r;
  call CallGetAdminClientWithLogger
       (fun h => GetAdminClientWithLogger provider h cluster).

Definition getLockClient (r : FoundationDBClusterReconciler)
    (cluster : FoundationDBCluster) : M (error + LockClient) :=
  provider ← getDatabaseClientProvider r;
  call CallGetLockClientWithLogger
       (fun h => GetLockClientWithLogger provider h cluster).

Definition takeLock (r : FoundationDBClusterReconciler)
    (cluster : FoundationDBCluster) : M (option error) :=
  if negb (ShouldUseLocks cluster) then mret None
  else
    res ← getLockClient r cluster;
    match res with
    | inl err => mret (Some err)
    | inr lockClient => call CallTakeLock (TakeLock lockClient)
    end.

(** ** [excludeProcesses.reconcile] (exclude_processes.go, lines 49-356) *)

(** [cluster.GetSynchronizationMode() == fdbv1beta2.SynchronizationModeGlobal] *)
Definition globalMode (cluster : FoundationDBCluster) : bool :=
  bool_decide (GetSynchronizationMode cluster = SynchronizationModeGlobal).

(** Lines 66-71: the status is fetched when the caller passed none. *)
Definition fetchStatus (adminClient : AdminClient) : M FoundationDBStatus :=
  cached ← readStatus;
  match cached with
  | Some status => mret status
  | None =>
      res ← call CallGetStatus (GetStatus adminClient);
      match res with
      | inl err => returnWith (Some (requeueError err))
      | inr status => writeStatus status ;; mret status
      end
  end.

(** Lines 66-106: from the status to the candidates of this pass. *)
Definition gatherCandidates (cluster : FoundationDBCluster)
    (adminClient : AdminClient) : M (FoundationDBStatus * candidates) :=
  status ← fetchStatus adminClient;
  exclusions ← orRequeue (GetExclusions status);
  pendingExclusions ←
    (if globalMode cluster then
       res ← call (CallGetPendingForExclusion (ProcessGroupIDPrefix cluster))
                  (fun h => GetPendingForExclusion adminClient h
                              (ProcessGroupIDPrefix cluster));
       orRequeue res
     else mret ∅);
  let cands := getProcessesToExclude exclusions cluster pendingExclusions ∅ in
  if Z.of_nat (size (fdbProcessesToExcludeByClass cands)) =? 0
  then returnWith None
  else
    (if globalMode cluster then
       res ← call (CallUpdatePendingForExclusion (updatePendingExclusions cands))
                  (fun h => UpdatePendingForExclusion adminClient h
                              (updatePendingExclusions cands));
       nilOrRequeue res
     else mret tt) ;;
    mret (status, cands).

(** Lines 110-123: [(coordinatorsExclusionString, coordinatorsAddress)]. *)
Definition coordinatorSets (cluster : FoundationDBCluster)
    (status : FoundationDBStatus) : gset string * gset string :=
  let coordinators := GetCoordinatorsFromStatus status in
  foldl (fun '(coordinatorsExclusionString, coordinatorsAddress) processGroup =>
           if bool_decide (ProcessGroupID_ processGroup ∈ coordinators)
           then ({[ GetExclusionString processGroup ]} ∪ coordinatorsExclusionString,
                 foldl (fun m addr => {[ addr ]} ∪ m) coordinatorsAddress
                       (Addresses processGroup))
           else (coordinatorsExclusionString, coordinatorsAddress))
        (∅, ∅) (ProcessGroups cluster).

(** The variables the loop over the classes writes (lines 135-157). *)
Record loopState := {
  transactionSystemExclusionAllowed : bool;
  allProcessesExcluded : bool;
  updateReadyExclusions : gmap ProcessGroupID UpdateAction;
  fdbProcessesToExclude : list ProcessAddress
}.

Definition loopInit : loopState :=
  {| transactionSystemExclusionAllowed := true;
     allProcessesExcluded := true;
     updateReadyExclusions := ∅;
     fdbProcessesToExclude := [] |}.

(** Lines 212-220: [processesToExclude[exclusionIdx]] for [exclusionIdx]
    from [0] up to [allowedExclusions], which is at most the length of the
    slice. *)
Definition takeEntries (readyExclusions : gmap ProcessGroupID Time)
    (allowedExclusions : Z) (processesToExclude : list excludeEntry)
    (st : loopState) : loopState :=
  foldl (fun st entry =>
           {| transactionSystemExclusionAllowed := transactionSystemExclusionAllowed st;
              allProcessesExcluded := allProcessesExcluded st;
              updateReadyExclusions :=
                match readyExclusions !! processGroupID entry with
                | Some _ => updateReadyExclusions st
                | None => <[ processGroupID entry := UpdateActionAdd ]>
                            (updateReadyExclusions st)
                end;
              fdbProcessesToExclude := fdbProcessesToExclude st ++ addresses entry |})
        st (take (Z.to_nat allowedExclusions) processesToExclude).

(** One iteration of the loop over the classes (lines 158-221). *)
Definition classStep (env : Environment) (r : FoundationDBClusterReconciler)
    (cluster : FoundationDBCluster) (cands : candidates)
    (desiredProcessesMap : gmap ProcessClass Z)
    (readyExclusions : gmap ProcessGroupID Time)
    (st : loopState) (processClass : ProcessClass) : loopState :=
  let ongoingExclusions := countOf (ongoingExclusionsByClass cands) processClass in
  let processesToExclude := entriesOf (fdbProcessesToExcludeByClass cands) processClass in
  let '(allowedExclusions, _) :=
    getAllowedExclusionsAndMissingProcesses (clock env processClass) cluster
      processClass (countOf desiredProcessesMap processClass) ongoingExclusions
      (SimulateTime r) in
  if allowedExclusions <=? 0 then
    {| transactionSystemExclusionAllowed :=
         if IsTransaction processClass then false
         else transactionSystemExclusionAllowed st;
       allProcessesExcluded := false;
       updateReadyExclusions := updateReadyExclusions st;
       fdbProcessesToExclude := fdbProcessesToExclude st |}
  else
    let st :=
      if len processesToExclude >? allowedExclusions
      then {| transactionSystemExclusionAllowed := transactionSystemExclusionAllowed st;
              allProcessesExcluded := false;
              updateReadyExclusions := updateReadyExclusions st;
              fdbProcessesToExclude := fdbProcessesToExclude st |}
      else st in
    let allowedExclusions :=
      if len processesToExclude <? allowedExclusions
      then len processesToExclude else allowedExclusions in
    takeEntries readyExclusions allowedExclusions processesToExclude st.

Definition classLoop (env : Environment) (r : FoundationDBClusterReconciler)
    (cluster : FoundationDBCluster) (cands : candidates)
    (desiredProcessesMap : gmap ProcessClass Z)
    (readyExclusions : gmap ProcessGroupID Time) : loopState :=
  foldl (classStep env r cluster cands desiredProcessesMap readyExclusions)
        loopInit (rangeOrder env (fdbProcessesToExcludeByClass cands)).

(** Lines 254-295: under global synchronization the addresses to exclude
    come from the coordination state. *)
Definition globalSynchronization (env : Environment)
    (r : FoundationDBClusterReconciler) (cluster : FoundationDBCluster)
    (adminClient : AdminClient) (allExcluded : bool)
    : M (bool * list ProcessAddress) :=
  res ← call (CallGetPendingForExclusion "")
             (fun h => GetPendingForExclusion adminClient h "");
  pendingExclusions ← orRequeue res;
  res ← call (CallGetReadyForExclusion "")
             (fun h => GetReadyForExclusion adminClient h "");
  readyExclusions ← orRequeue res;
  h ← history;
  allowedExclusions ←
    orRequeue (AllProcessesReadyForExclusion env h pendingExclusions readyExclusions
                 (GlobalSynchronizationWaitDuration r));
  let allExcluded :=
    if negb (Z.of_nat (size allowedExclusions) =? Z.of_nat (size readyExclusions))
    then false else allExcluded in
  let useLocalities := UseLocalitiesForExclusion cluster in
  res ← call (CallGetAddressesFromCoordinationState allowedExclusions useLocalities
                (negb useLocalities))
             (fun h => GetAddressesFromCoordinationState env h allowedExclusions
                         useLocalities (negb useLocalities));
  toExclude ← orRequeue res;
  mret (allExcluded, toExclude).

(** Lines 315-329 *)
Definition coordinatorExcluded (coordinatorsExclusionString coordinatorsAddress : gset string)
    (toExclude : list ProcessAddress) : bool :=
  foldl (fun found excludeProcess =>
           let excludeString := AddressString excludeProcess in
           let excludedLocality := bool_decide (excludeString ∈ coordinatorsExclusionString) in
           let excludedAddress := bool_decide (excludeString ∈ coordinatorsAddress) in
           if excludedAddress || excludedLocality then true else found)
        false toExclude.

(** Lines 297-355: the exclusion itself and what follows it. *)
Definition excludeAndRotate (env : Environment) (r : FoundationDBClusterReconciler)
    (cluster : FoundationDBCluster) (adminClient : AdminClient)
    (status : FoundationDBStatus) (coordinatorsExclusionString coordinatorsAddress : gset string)
    (allExcluded : bool) (toExclude : list ProcessAddress) : M unit :=
  call (CallRecorderEvent "ExcludingProcesses" toExclude) (fun _ => tt) ;;
  err ← call (CallExcludeProcessesWithNoWait toExclude true)
             (fun h => ExcludeProcessesWithNoWait adminClient h toExclude true);
  let status := setSecondsSinceLastRecovered 0%float status in
  writeStatus status ;;
  nilOrRequeue err ;;
  (if coordinatorExcluded coordinatorsExclusionString coordinatorsAddress toExclude then
     coordinatorErr ← call (CallChangeCoordinators status)
                           (fun h => ChangeCoordinators env h cluster status);
     nilOrRequeue coordinatorErr ;;
     err ← call CallUpdateOrApply (fun h => updateOrApply r h cluster);
     nilOrRequeue err
   else mret tt) ;;
  if negb allExcluded then
    returnWith (Some {| delay := 5 * Duration.Minute;
                        curError := None;
                        message := "Additional processes must be excluded";
                        delayedRequeue := true |})
  else returnWith None.

(** Lines 125-295: from the candidates to the addresses handed to the
    exclude call, with the final value of [allProcessesExcluded]. *)
Definition decideExclusions (env : Environment) (r : FoundationDBClusterReconciler)
    (cluster : FoundationDBCluster) (adminClient : AdminClient)
    (status : FoundationDBStatus) (cands : candidates)
    : M (bool * list ProcessAddress) :=
  match CanSafelyExcludeProcessesWithRecoveryState env cluster status
          (MinimumRecoveryTimeForExclusion r) with
  | Some err =>
      returnWith (Some {| delay := 10 * Duration.Second;
                          curError := Some err;
                          message := "";
                          delayedRequeue := true |})
  | None =>
  desiredProcessesMap ← orRequeue (GetProcessCountsWithDefaults cluster);
  readyExclusions ←
    (if globalMode cluster then
       res ← call (CallGetReadyForExclusion (ProcessGroupIDPrefix cluster))
                  (fun h => GetReadyForExclusion adminClient h
                              (ProcessGroupIDPrefix cluster));
       orRequeue res
     else mret ∅);
  let loop := classLoop env r cluster cands desiredProcessesMap readyExclusions in
  if len (fdbProcessesToExclude loop) =? 0 then
    returnWith (Some (requeueMessage
      "more exclusions needed but not allowed, have to wait for new processes to come up"))
  else if negb (transactionSystemExclusionAllowed loop) then
    returnWith (Some (requeueMessage
      "more exclusions needed but not allowed, have to wait until new processes for the transaction system are up to reduce number of recoveries."))
  else
    (if globalMode cluster then
       res ← call (CallUpdateReadyForExclusion (updateReadyExclusions loop))
                  (fun h => UpdateReadyForExclusion adminClient h
                              (updateReadyExclusions loop));
       nilOrRequeue res
     else mret tt) ;;
    lockErr ← takeLock r cluster;
    nilOrRequeue lockErr ;;
    if globalMode cluster
    then globalSynchronization env r cluster adminClient (allProcessesExcluded loop)
    else mret (allProcessesExcluded loop, fdbProcessesToExclude loop)
  end.

(** Lines 108-355: what the pass does once it has candidates.  The
    coordinator sets are computed first (lines 110-123) and used last. *)
Definition exclusionPhase (env : Environment) (r : FoundationDBClusterReconciler)
    (cluster : FoundationDBCluster) (adminClient : AdminClient)
    (status : FoundationDBStatus) (cands : candidates) : M unit :=
  let '(coordinatorsExclusionString, coordinatorsAddress) :=
    coordinatorSets cluster status in
  '(allExcluded, toExclude) ← decideExclusions env r cluster adminClient status cands;
  excludeAndRotate env r cluster adminClient status
    coordinatorsExclusionString coordinatorsAddress allExcluded toExclude.

Definition reconcile (env : Environment) (r : FoundationDBClusterReconciler)
    (cluster : FoundationDBCluster) : M unit :=
  res ← getAdminClient r cluster;
  match res with
  | inl err => returnWith (Some (requeueError err))
  | inr adminClient =>
      deferring CallClose
        ('(status, cands) ← gatherCandidates cluster adminClient;
         exclusionPhase env r cluster adminClient status cands)
  end.

(** A pass started with the caller's [status] pointer ([None]: nil). *)
Definition runPass (env : Environment) (r : FoundationDBClusterReconciler)
    (cluster : FoundationDBCluster) (status : option FoundationDBStatus)
    : passState * Outcome unit :=
  reconcile env r cluster {| trace := []; statusObject := status |}.

End Reconcile.

(** ** Vocabulary of the properties *)

Section Vocabulary.
Context `{Api}.

(** The process groups of class [c] that the missing-process loop looks
    at: it skips those that are both marked for removal and excluded. *)
Definition considered (c : ProcessClass) (pg : ProcessGroupStatus) : bool :=
  bool_decide (ProcessClass_ pg = c) && negb (IsMarkedForRemoval pg && IsExcluded pg).

(** The group carries a [MissingProcesses] condition. *)
Definition hasMissingCondition (pg : ProcessGroupStatus) : bool :=
  match GetConditionTime pg MissingProcesses with Some _ => true | None => false end.

(** The string is in the exclusion list the cluster reports. *)
Definition alreadyExcluded (exclusions : list ProcessAddress) (s : string) : Prop :=
  exists a, a ∈ exclusions /\ AddressString a = s.

(** No exclude call among the calls. *)
Definition noExcludeCall (calls : list Event) : Prop :=
  forall addrs wait, CallExcludeProcessesWithNoWait addrs wait ∉ calls.

(** The pass started with the caller's [status0] obtains the admin client
    [adminClient] and gets as far as having candidates (line 106): it is
    then in state [s1], works on [status] and has the candidates [cands]. *)
Definition hasCandidates (r : FoundationDBClusterReconciler)
    (cluster : FoundationDBCluster) (status0 : option FoundationDBStatus)
    (adminClient : AdminClient) (s1 : passState)
    (status : FoundationDBStatus) (cands : candidates) : Prop :=
  exists provider,
    DatabaseClientProvider_ r = Some provider /\
    GetAdminClientWithLogger provider [] cluster = inr adminClient /\
    gatherCandidates cluster adminClient
      {| trace := [CallGetAdminClientWithLogger]; statusObject := status0 |}
    = (s1, Continue (status, cands)).

(** What [getAllowedExclusionsAndMissingProcesses] allows for class [c] in
    the loop over the classes. *)
Definition allowedFor (env : Environment) (r : FoundationDBClusterReconciler)
    (cluster : FoundationDBCluster) (cands : candidates)
    (desiredProcessesMap : gmap ProcessClass Z) (c : ProcessClass) : Z :=
  fst (getAllowedExclusionsAndMissingProcesses (clock env c) cluster c
         (countOf desiredProcessesMap c) (countOf (ongoingExclusionsByClass cands) c)
         (SimulateTime r)).

(** The requeue of lines 348-352. *)
Definition requeueFiveMinutes : requeue :=
  {| delay := 5 * Duration.Minute;
     curError := None;
     message := "Additional processes must be excluded";
     delayedRequeue := true |}.

(** The requeue of line 132. *)
Definition requeueTenSeconds (err : error) : requeue :=
  {| delay := 10 * Duration.Second;
     curError := Some err;
     message := "";
     delayedRequeue := true |}.

End Vocabulary.

(** ** Sample data

    A concrete [Api] and concrete clusters, on which the definitions above
    are evaluated in the examples below. *)

Module Sample.

(** An address prints as its string form when it has one, and as the
    text its IP was parsed from otherwise. *)
#[export] Instance api : Api := {|
  ProcessClassTest := "test";
  MissingProcesses := "MissingProcesses";
  SynchronizationModeGlobal := "global";
  IsTransaction := fun c =>
    negb (bool_decide (c = "storage")) && negb (bool_decide (c = "general"));
  AddressString := fun a =>
    if bool_decide (StringAddress a = "") then String.string_of_list_byte (IPAddress a)
    else StringAddress a;
  ParseIP := String.list_byte_of_string
|}.

(** A process group that has no conditions and is not being removed. *)
Definition group (id class address : string) : ProcessGroupStatus :=
  {| ProcessGroupID_ := id;
     ProcessClass_ := class;
     Addresses := [address];
     IsMarkedForRemoval := false;
     IsExcluded := false;
     GetExclusionString := "locality_instance_id:" +:+ id;
     GetConditionTime := fun _ => None |}.

(** The same group once it is marked for removal. *)
Definition removing (g : ProcessGroupStatus) : ProcessGroupStatus :=
  {| ProcessGroupID_ := ProcessGroupID_ g;
     ProcessClass_ := ProcessClass_ g;
     Addresses := Addresses g;
     IsMarkedForRemoval := true;
     IsExcluded := IsExcluded g;
     GetExclusionString := GetExclusionString g;
     GetConditionTime := GetConditionTime g |}.

(** The same group once it is fully excluded. *)
Definition excluded (g : ProcessGroupStatus) : ProcessGroupStatus :=
  {| ProcessGroupID_ := ProcessGroupID_ g;
     ProcessClass_ := ProcessClass_ g;
     Addresses := Addresses g;
     IsMarkedForRemoval := IsMarkedForRemoval g;
     IsExcluded := true;
     GetExclusionString := GetExclusionString g;
     GetConditionTime := GetConditionTime g |}.

(** The same group with a [MissingProcesses] condition set at Unix time
    [since]. *)
Definition missingSince (since : Z) (g : ProcessGroupStatus) : ProcessGroupStatus :=
  {| ProcessGroupID_ := ProcessGroupID_ g;
     ProcessClass_ := ProcessClass_ g;
     Addresses := Addresses g;
     IsMarkedForRemoval := IsMarkedForRemoval g;
     IsExcluded := IsExcluded g;
     GetExclusionString := GetExclusionString g;
     GetConditionTime := fun ty =>
       if bool_decide (ty = "MissingProcesses") then Some since
       else GetConditionTime g ty |}.

(** The same group with one more address. *)
Definition withAddress (address : string) (g : ProcessGroupStatus) : ProcessGroupStatus :=
  {| ProcessGroupID_ := ProcessGroupID_ g;
     ProcessClass_ := ProcessClass_ g;
     Addresses := Addresses g ++ [address];
     IsMarkedForRemoval := IsMarkedForRemoval g;
     IsExcluded := IsExcluded g;
     GetExclusionString := GetExclusionString g;
     GetConditionTime := GetConditionTime g |}.

(** A single-instance cluster that excludes by address, wants [counts]
    processes per class and tolerates one fault. *)
Definition clusterOf (groups : list ProcessGroupStatus)
    (counts : list (ProcessClass * Z)) : FoundationDBCluster :=
  {| ProcessGroupIDPrefix := "";
     ProcessGroups := groups;
     GetSynchronizationMode := "local";
     UseLocalitiesForExclusion := false;
     GetProcessCountsWithDefaults := inr (list_to_map counts);
     DesiredFaultTolerance := 1;
     ShouldUseLocks := false |}.

(** The clock stands at 1000 seconds after the epoch. *)
Definition at1000 : nat -> Z := fun _ => 1000 * Duration.Second.

(** Five storage processes: one has been missing for long, one is
    excluded and has gone missing a moment ago, one is being removed. *)
Definition five : FoundationDBCluster :=
  clusterOf [ group "storage-1" "storage" "10.0.0.1";
              group "storage-2" "storage" "10.0.0.2";
              missingSince 100 (group "storage-3" "storage" "10.0.0.3");
              excluded (removing (missingSince 900 (group "storage-4" "storage" "10.0.0.4")));
              removing (group "storage-5" "storage" "10.0.0.5") ]
            [("storage", 5)].

(** A group that is being removed and whose pod came back under a second
    address. *)
Definition readdressed : ProcessGroupStatus :=
  withAddress "10.0.0.9" (removing (group "storage-5" "storage" "10.0.0.5")).

(** *** Collaborators *)

(** An admin client that knows no pending and no ready exclusions, whose
    updates succeed and whose exclude call answers [excludeAnswer]. *)
Definition adminClient (excludeAnswer : option error) : AdminClient :=
  {| GetStatus := fun _ => inl "status unavailable";
     GetPendingForExclusion := fun _ _ => inr ∅;
     UpdatePendingForExclusion := fun _ _ => None;
     GetReadyForExclusion := fun _ _ => inr ∅;
     UpdateReadyForExclusion := fun _ _ => None;
     ExcludeProcessesWithNoWait := fun _ _ _ => excludeAnswer |}.

Definition provider (excludeAnswer : option error) : DatabaseClientProvider :=
  {| GetAdminClientWithLogger := fun _ _ => inr (adminClient excludeAnswer);
     GetLockClientWithLogger := fun _ _ => inl "no lock client" |}.

Definition reconciler (excludeAnswer : option error) : FoundationDBClusterReconciler :=
  {| DatabaseClientProvider_ := Some (provider excludeAnswer);
     MinimumRecoveryTimeForExclusion := 120%float;
     GlobalSynchronizationWaitDuration := 30 * Duration.Second;
     SimulateTime := false;
     updateOrApply := fun _ _ => None |}.

(** The recovery check answers [check], the change of coordinators
    [rotation]; [range] visits the classes in the order of the map. *)
Definition environment (check rotation : option error) : Environment :=
  {| clock := fun _ => at1000;
     rangeOrder := fun m => (map_to_list m).*1;
     CanSafelyExcludeProcessesWithRecoveryState := fun _ _ _ => check;
     AllProcessesReadyForExclusion := fun _ _ ready _ => inr ready;
     GetAddressesFromCoordinationState := fun _ _ _ _ => inr [];
     ChangeCoordinators := fun _ _ _ => rotation |}.

(** A status without exclusions, ten minutes after the last recovery. *)
Definition statusWith (coordinators : list string) : FoundationDBStatus :=
  {| SecondsSinceLastRecovered := 600%float;
     GetExclusions := inr [];
     GetCoordinatorsFromStatus := list_to_set coordinators |}.

(** *** Scenarios *)

(** Five valid storage processes of five desired, three of them marked
    for removal: one exclusion is allowed. *)
Definition threeOfFive : FoundationDBCluster :=
  clusterOf [ group "storage-1" "storage" "10.0.0.1";
              group "storage-2" "storage" "10.0.0.2";
              removing (group "storage-3" "storage" "10.0.0.3");
              removing (group "storage-4" "storage" "10.0.0.4");
              removing (group "storage-5" "storage" "10.0.0.5") ]
            [("storage", 5)].

(** One log process and one storage process are marked for removal; no
    exclusion is allowed for class log (two valid of three desired), two
    are allowed for class storage (four valid of three desired). *)
Definition logAndStorage : FoundationDBCluster :=
  clusterOf [ removing (group "log-1" "log" "10.0.1.1");
              group "log-2" "log" "10.0.1.2";
              removing (group "storage-1" "storage" "10.0.0.1");
              group "storage-2" "storage" "10.0.0.2";
              group "storage-3" "storage" "10.0.0.3";
              group "storage-4" "storage" "10.0.0.4" ]
            [("log", 3); ("storage", 3)].

(** The state of a pass that was handed [status] and has its admin client. *)
Definition started (status : FoundationDBStatus) : passState :=
  {| trace := [CallGetAdminClientWithLogger]; statusObject := Some status |}.

(** The address of the pod with the given IP. *)
Definition ip (address : string) : ProcessAddress := addressOfIP (ParseIP address).

End Sample.

(** * More of the code

    What follows covers the rest of the exclusion step and the code around
    it: the driver of the cluster controller that runs the step, the
    status it hands to it, the backup controller and its [stopBackup]
    step, the steps that add volume claims and update the config map, the
    mapping from a node to the clusters to reconcile, the cordon command
    of the kubectl plugin, and helpers of the end-to-end fixtures. *)

(** ** More vocabulary for the exclusion step *)

Section CandidateVocabulary.
Context `{Api}.

(** The addresses of a process group that the exclusion list does not
    hold yet (lines 438-449). *)
Definition addressesLeft (cur : gset string) (pg : ProcessGroupStatus)
    : list ProcessAddress :=
  map (fun a => addressOfIP (ParseIP a))
      (List.filter (fun a => negb (bool_decide (a ∈ cur))) (Addresses pg)).

(** The process groups that the loop of [getProcessesToExclude] does not
    skip (lines 375-392): not of class test, marked for removal, not
    excluded, exclusion string not in the exclusion list. *)
Definition needsExclusion (cur : gset string) (pg : ProcessGroupStatus) : bool :=
  negb (bool_decide (ProcessClass_ pg = ProcessClassTest))
  && IsMarkedForRemoval pg
  && negb (IsExcluded pg)
  && negb (bool_decide (GetExclusionString pg ∈ cur)).

(** What the loop lists for one process group. *)
Definition candidateEntry (cluster : FoundationDBCluster) (cur : gset string)
    (pg : ProcessGroupStatus) : option excludeEntry :=
  if needsExclusion cur pg then
    if UseLocalitiesForExclusion cluster then
      Some {| processGroupID := ProcessGroupID_ pg;
              addresses := [addressOfString (GetExclusionString pg)] |}
    else
      match addressesLeft cur pg with
      | [] => None
      | remaining =>
          Some {| processGroupID := ProcessGroupID_ pg; addresses := remaining |}
      end
  else None.

(** The process groups the loop counts as ongoing exclusions (lines
    389-392 and 459-463). *)
Definition countsAsOngoing (cluster : FoundationDBCluster) (cur : gset string)
    (pg : ProcessGroupStatus) : bool :=
  negb (bool_decide (ProcessClass_ pg = ProcessClassTest))
  && IsMarkedForRemoval pg
  && negb (IsExcluded pg)
  && (bool_decide (GetExclusionString pg ∈ cur)
      || (negb (UseLocalitiesForExclusion cluster)
          && forallb (fun a => bool_decide (a ∈ cur)) (Addresses pg))).

(** The addresses the loop over the classes takes from class [c]: those of
    its first [allowed] candidates. *)
Definition addressesTaken (env : Environment) (r : FoundationDBClusterReconciler)
    (cluster : FoundationDBCluster) (cands : candidates)
    (desiredProcessesMap : gmap ProcessClass Z) (c : ProcessClass)
    : list ProcessAddress :=
  concat (addresses <$>
            take (Z.to_nat (allowedFor env r cluster cands desiredProcessesMap c))
                 (entriesOf (fdbProcessesToExcludeByClass cands) c)).

End CandidateVocabulary.

(** ** The calls of a pass, by phase *)

(** The calls made while the candidates are gathered (lines 66-106). *)
Definition gatherCall (ev : Event) : bool :=
  match ev with
  | CallGetStatus | CallGetPendingForExclusion _ | CallUpdatePendingForExclusion _ => true
  | _ => false
  end.

(** The calls made between the recovery check and the exclude call (lines
    125-295). *)
Definition decideCall (ev : Event) : bool :=
  match ev with
  | CallGetReadyForExclusion _ | CallUpdateReadyForExclusion _
  | CallGetLockClientWithLogger | CallTakeLock
  | CallGetPendingForExclusion _ | CallGetAddressesFromCoordinationState _ _ _ => true
  | _ => false
  end.

(** The calls of the exclusion itself (lines 297-344). *)
Definition excludeCall (ev : Event) : bool :=
  match ev with
  | CallRecorderEvent _ _ | CallExcludeProcessesWithNoWait _ _
  | CallChangeCoordinators _ | CallUpdateOrApply => true
  | _ => false
  end.

(** The calls that concern the lock. *)
Definition lockCall (ev : Event) : bool :=
  match ev with
  | CallGetLockClientWithLogger | CallTakeLock => true
  | _ => false
  end.

(** The calls that concern the coordination state of the global
    synchronization mode. *)
Definition coordinationCall (ev : Event) : bool :=
  match ev with
  | CallGetPendingForExclusion _ | CallUpdatePendingForExclusion _
  | CallGetReadyForExclusion _ | CallUpdateReadyForExclusion _
  | CallGetAddressesFromCoordinationState _ _ _ => true
  | _ => false
  end.

(** ** The driver of the cluster controller (cluster_controller.go)

    [FoundationDBClusterReconciler.Reconcile] with
    [runClusterSubReconciler].  The file is the second document of
    [controllers/remove_incompatible_processes_test.go]; the line numbers
    are those of that file, where [Reconcile] is at lines 486-706 and
    [runClusterSubReconciler] at lines 709-729.

    The sub-reconcilers, [processRequeue], the Kubernetes client, the
    packages [internal], [net] and [os] and the methods of the cluster are
    not among the sources: they are the fields of [Packages] and
    [Collaborators].  Logging is left out. *)

Module Driver.

(** [ctrl.Result] *)
Record Result := {
  Requeue : bool;
  RequeueAfter : Z
}.

(** [ctrl.Result{}] *)
Definition emptyResult : Result := {| Requeue := false; RequeueAfter := 0 |}.

(** [strings.Contains(s, substr)] *)
Definition Contains (s substr : string) : bool :=
  match String.index 0 substr s with
  | Some _ => true
  | None => false
  end.

(** The ordered list of the sub-reconcilers (lines 387-414),
    by the name of their type. *)
Definition subReconcilerNames : list string :=
  [ "updateStatus"; "updateLockConfiguration"; "updateConfigMap";
    "checkClientCompatibility"; "deletePodsForBuggification";
    "replaceMisconfiguredProcessGroups"; "replaceFailedProcessGroups";
    "addProcessGroups"; "addServices"; "addPVCs"; "addPods";
    "generateInitialClusterFile"; "removeIncompatibleProcesses";
    "updateSidecarVersions"; "updatePodConfig"; "updateMetadata";
    "updateDatabaseConfiguration"; "chooseRemovals"; "excludeProcesses";
    "changeCoordinators"; "bounceProcesses"; "maintenanceModeChecker";
    "updatePods"; "removeProcessGroups"; "removeServices"; "updateStatus" ].

Section ClusterController.
(** The spec of a cluster, the rest of its status, the machine-readable
    status of the database and a parsed process address. *)
Context {Spec OtherStatus Status Address : Type}.

(** The cluster object, as far as the driver reads and writes it. *)
Record Cluster := {
  Generation : Z;              (* ObjectMeta.Generation *)
  Spec_ : Spec;                (* Spec *)
  Reconciled : Z;              (* Status.Generations.Reconciled *)
  ConnectionString : string;   (* Status.ConnectionString *)
  otherStatus : OtherStatus
}.

(** [cluster.Spec = spec] *)
Definition withSpec (spec : Spec) (cluster : Cluster) : Cluster :=
  {| Generation := Generation cluster;
     Spec_ := spec;
     Reconciled := Reconciled cluster;
     ConnectionString := ConnectionString cluster;
     otherStatus := otherStatus cluster |}.

(** The calls of [Reconcile] to its collaborators.  A sub-reconciler is
    recorded with the cluster and the status it was handed. *)
Inductive Event :=
| CallGet (request : string)
| CallRecorderEvent (eventtype reason message : string)
| CallGetAdminClient
| CallClose
| CallVersionSupported (version : string)
| CallSubReconciler (typeName : string) (given : Cluster) (status : option Status)
| CallGetStatusFromClusterOrDummyStatus
| CallLookupIPAddr (name : string)
| CallFindProcess
| CallSignal (signal : string)
| CallProcessRequeue (req : requeue) (typeName : string).

(** Functions of other packages that have no effect of their own. *)
Record Packages := {
  IsNotFound : error -> bool;
  Skip : Spec -> bool;
  Version : Spec -> string;
  CacheDatabaseStatusForReconciliation : Cluster -> bool -> bool;
  (** [internal.NormalizeClusterSpec] changes the cluster it is given. *)
  NormalizeClusterSpec : Cluster -> Cluster * option error;
  Validate : Cluster -> option error;
  UseDNSInClusterFile : Cluster -> bool;
  (** The coordinators of the parsed connection string. *)
  ParseConnectionString : string -> error + list string;
  ParseProcessAddress : string -> error + Address;
  IsEmpty : Address -> bool;
  MachineAddress : Address -> string;
  (** [fmt.Sprintf("Reconciled generation %d", generation)] *)
  reconciledGeneration : Z -> string
}.

(** What a sub-reconciler does when it is run after the calls [h] on a
    cluster and a status: it may change the cluster and the status object
    (when it is handed one), and answers with a requeue or nil. *)
Record clusterSubReconciler := {
  typeName : string;
  reconcile : list Event -> Cluster -> option Status ->
              Cluster * (Status -> Status) * option requeue
}.

(** The collaborators with effects; what they answer may depend on the
    calls made before (the first argument). *)
Record Collaborators := {
  Get : list Event -> string -> error + Cluster;
  (** [r.getAdminClient]: it panics without a provider. *)
  getAdminClient : list Event -> Cluster -> GoResult (option error);
  VersionSupported : list Event -> string -> error + bool;
  (** The implementation of the sub-reconciler of a given type. *)
  implementation : string -> list Event -> Cluster -> option Status ->
                   Cluster * (Status -> Status) * option requeue;
  getStatusFromClusterOrDummyStatus : list Event -> Cluster -> Cluster * (error + Status);
  (** [resolver.LookupIPAddr]: the addresses ([None]: a nil slice) and the
      error. *)
  LookupIPAddr : list Event -> string -> option (list string) * option error;
  (** [os.FindProcess(os.Getpid())] *)
  FindProcess : list Event -> option error;
  (** [process.Signal(syscall.SIGTERM)] *)
  Signal : list Event -> option error;
  processRequeue : list Event -> requeue -> string -> Cluster -> Result * option error
}.

Context (pkg : Packages) (co : Collaborators)
        (CacheDatabaseStatusForReconciliationDefault : bool).

Definition subReconcilerOf (name : string) : clusterSubReconciler :=
  {| typeName := name; reconcile := implementation co name |}.

(** [var addPodsReconciler = addPods{}] *)
Definition addPodsReconciler : clusterSubReconciler := subReconcilerOf "addPods".

(** [var subReconcilers] *)
Definition subReconcilers : list clusterSubReconciler :=
  subReconcilerOf <$> subReconcilerNames.

(** The state of a run of [Reconcile]: the cluster object, the object
    behind the variable [status] ([None]: the variable is nil) and the
    calls made so far. *)
Record State := {
  cluster : Cluster;
  status : option Status;
  calls : list Event
}.

(** How a piece of the body ends: it falls through with a value, it
    executes [return], or it panics. *)
Inductive Flow (A : Type) :=
| Next (a : A)
| Exit (result : Result) (err : option error)
| Crash (msg : string).
#[global] Arguments Next {A} a.
#[global] Arguments Exit {A} result err.
#[global] Arguments Crash {A} msg.

Definition D (A : Type) : Type := State -> State * Flow A.

Definition ret {A} (a : A) : D A := fun s => (s, Next a).
Definition bind {A B} (m : D A) (f : A -> D B) : D B := fun s =>
  match m s with
  | (s', Next a) => f a s'
  | (s', Exit result err) => (s', Exit result err)
  | (s', Crash msg) => (s', Crash msg)
  end.

(** [return result, err] *)
Definition exit {A} (result : Result) (err : option error) : D A := fun s =>
  (s, Exit result err).
Definition crash {A} (msg : string) : D A := fun s => (s, Crash msg).
Definition call {R} (ev : Event) (answer : list Event -> R) : D R := fun s =>
  ({| cluster := cluster s; status := status s; calls := calls s ++ [ev] |},
   Next (answer (calls s))).
Definition getCluster : D Cluster := fun s => (s, Next (cluster s)).
Definition setCluster (c : Cluster) : D unit := fun s =>
  ({| cluster := c; status := status s; calls := calls s |}, Next tt).
Definition setStatus (st : option Status) : D unit := fun s =>
  ({| cluster := cluster s; status := st; calls := calls s |}, Next tt).
(** [defer cleanup]: the cleanup runs when the body is left, after the
    operands of its [return] have been evaluated. *)
Definition deferring {A} (cleanup : Event) (body : D A) : D A := fun s =>
  let '(s', o) := body s in
  ({| cluster := cluster s'; status := status s'; calls := calls s' ++ [cleanup] |}, o).

(** [runClusterSubReconciler] (lines 709-729);
    [passStatus] tells whether the caller passes its variable [status] or
    the literal [nil]. *)
Definition runClusterSubReconciler (subReconciler : clusterSubReconciler)
    (passStatus : bool) : D (option requeue) := fun s =>
  let given := if passStatus then status s else None in
  let '(cluster', touch, req) := reconcile subReconciler (calls s) (cluster s) given in
  ({| cluster := cluster';
      status := if passStatus then touch <$> status s else status s;
      calls := calls s ++ [CallSubReconciler (typeName subReconciler) (cluster s) given] |},
   Next req).

(** [return processRequeue(req, subReconciler, cluster, r.Recorder, log)] *)
Definition returnProcessRequeue {A} (req : requeue)
    (subReconciler : clusterSubReconciler) : D A :=
  bind getCluster (fun cl =>
  bind (call (CallProcessRequeue req (typeName subReconciler))
             (fun h => processRequeue co h req (typeName subReconciler) cl))
       (fun res => exit (fst res) (snd res))).

(** Lines 548-554: the admin client is asked whether the version is
    supported. *)
Definition checkVersion : D unit :=
  bind getCluster (fun cl =>
  bind (call (CallVersionSupported (Version pkg (Spec_ cl)))
             (fun h => VersionSupported co h (Version pkg (Spec_ cl))))
       (fun res =>
          match res with
          | inl err => exit emptyResult (Some err)
          | inr supportedVersion =>
              if negb supportedVersion
              then exit emptyResult
                     (Some ("version " +:+ Version pkg (Spec_ cl) +:+ " is not supported"))
              else ret tt
          end)).

(** Lines 560-565: the pods are added first when the
    cluster file uses DNS names. *)
Definition addPodsFirst : D unit :=
  bind getCluster (fun cl =>
  if UseDNSInClusterFile pkg cl then
    bind (runClusterSubReconciler addPodsReconciler false) (fun req =>
      match req with
      | Some req =>
          if negb (delayedRequeue req)
          then returnProcessRequeue req addPodsReconciler
          else ret tt
      | None => ret tt
      end)
  else ret tt).

(** One iteration of the loop over the coordinators (lines 600-622). *)
Definition resolveStep (coordinatorsResolvable : bool) (coordinator : string) : D bool :=
  match ParseProcessAddress pkg coordinator with
  | inl _ => ret coordinatorsResolvable
  | inr addr =>
      if negb (IsEmpty pkg addr) then ret coordinatorsResolvable
      else
        let name := MachineAddress pkg addr in
        bind (call (CallLookupIPAddr name) (fun h => LookupIPAddr co h name))
             (fun '(ip, err) =>
                ret (match err, ip with
                     | None, Some _ => coordinatorsResolvable
                     | _, _ => false
                     end))
  end.

Fixpoint resolveLoop (coordinators : list string) (coordinatorsResolvable : bool)
    : D bool :=
  match coordinators with
  | [] => ret coordinatorsResolvable
  | coordinator :: rest =>
      bind (resolveStep coordinatorsResolvable coordinator) (resolveLoop rest)
  end.

(** Lines 626-640: the operator sends itself a SIGTERM. *)
Definition shutdown : D unit :=
  bind (call CallFindProcess (FindProcess co)) (fun err =>
    match err with
    | Some err =>
        exit {| Requeue := false; RequeueAfter := 5 * Duration.Second |} (Some err)
    | None =>
        bind (call (CallSignal "SIGTERM") (Signal co)) (fun err =>
          match err with
          | Some err =>
              exit {| Requeue := false; RequeueAfter := 5 * Duration.Second |} (Some err)
          | None => ret tt
          end)
    end).

(** Lines 567-643: the status is fetched once for all
    sub-reconcilers when the cluster asks for it. *)
Definition cacheStatusBlock (cacheStatus : bool) : D unit :=
  if negb cacheStatus then ret tt
  else
    bind getCluster (fun cl =>
    bind (call CallGetStatusFromClusterOrDummyStatus
               (fun h => getStatusFromClusterOrDummyStatus co h cl))
         (fun '(cl, res) =>
            bind (setCluster cl) (fun _ =>
            match res with
            | inr st => setStatus (Some st)
            | inl err =>
                bind (setStatus None) (fun _ =>
                if UseDNSInClusterFile pkg cl
                   && Contains err "FoundationDB error code 1512"
                then
                  match ParseConnectionString pkg (ConnectionString cl) with
                  | inl _ => ret tt
                  | inr coordinators =>
                      bind (resolveLoop coordinators true)
                           (fun coordinatorsResolvable =>
                              if coordinatorsResolvable then shutdown else ret tt)
                  end
                else ret tt)
            end))).

(** The loop over the sub-reconcilers (lines 650-675),
    with its variables [delayedRequeueDuration] and [delayedRequeue]. *)
Fixpoint pipeline (normalizedSpec : Spec) (todo : list clusterSubReconciler)
    (delayedRequeueDuration : Z) (delayedRequeue_ : bool) : D (Z * bool) :=
  match todo with
  | [] => ret (delayedRequeueDuration, delayedRequeue_)
  | subReconciler :: rest =>
      bind getCluster (fun cl =>
      bind (setCluster (withSpec normalizedSpec cl)) (fun _ =>
      bind (runClusterSubReconciler subReconciler true) (fun req =>
        match req with
        | None => pipeline normalizedSpec rest delayedRequeueDuration delayedRequeue_
        | Some req =>
            if delayedRequeue req then
              pipeline normalizedSpec rest
                (if delayedRequeueDuration <? delay req then delay req
                 else delayedRequeueDuration)
                true
            else returnProcessRequeue req subReconciler
        end)))
  end.

(** Lines 677-705: what [Reconcile] returns when no
    sub-reconciler stopped it. *)
Definition conclude (originalGeneration : Z) (delayedRequeueDuration : Z)
    (delayedRequeue_ : bool) : D unit :=
  bind getCluster (fun cl =>
  if (Reconciled cl <? originalGeneration) || delayedRequeue_ then
    exit {| Requeue := false;
            RequeueAfter := if delayedRequeueDuration =? 0 then 2 * Duration.Second
                            else delayedRequeueDuration |}
         None
  else
    bind (call (CallRecorderEvent "Normal" "ReconciliationComplete"
                  (reconciledGeneration pkg (Reconciled cl)))
               (fun _ => tt))
         (fun _ => exit emptyResult None)).

(** Lines 645-705: the sub-reconcilers [todo] are run on
    the normalized spec, and the result is concluded. *)
Definition runSubReconcilers (todo : list clusterSubReconciler) : D unit :=
  bind getCluster (fun cl =>
  let originalGeneration := Generation cl in
  let normalizedSpec := Spec_ cl in
  bind (pipeline normalizedSpec todo 0 false)
       (fun '(delayedRequeueDuration, delayedRequeue_) =>
          conclude originalGeneration delayedRequeueDuration delayedRequeue_)).

(** Lines 502-705: [Reconcile] once it has the cluster. *)
Definition reconcileCluster : D unit :=
  bind getCluster (fun cl =>
  let cacheStatus :=
    CacheDatabaseStatusForReconciliation pkg cl
      CacheDatabaseStatusForReconciliationDefault in
  if Skip pkg (Spec_ cl) then exit emptyResult None
  else
    let '(cl, err) := NormalizeClusterSpec pkg cl in
    bind (setCluster cl) (fun _ =>
    match err with
    | Some err => exit emptyResult (Some err)
    | None =>
        match Validate pkg cl with
        | Some err =>
            bind (call (CallRecorderEvent "Warning" "ClusterSpec not valid" err)
                       (fun _ => tt))
                 (fun _ => exit emptyResult (Some ("ClusterSpec is not valid: " +:+ err)))
        | None =>
            bind (call CallGetAdminClient (fun h => getAdminClient co h cl)) (fun res =>
              match res with
              | Panics msg => crash msg
              | Returns (Some err) => exit emptyResult (Some err)
              | Returns None =>
                  deferring CallClose
                    (bind checkVersion (fun _ =>
                     bind addPodsFirst (fun _ =>
                     bind (cacheStatusBlock cacheStatus) (fun _ =>
                     runSubReconcilers subReconcilers))))
              end)
        end
    end)).

(** [Reconcile] (lines 486-706): the calls it makes and
    what it returns. *)
Definition Reconcile (request : string) : list Event * Flow unit :=
  match Get co [] request with
  | inl err =>
      ([CallGet request],
       if IsNotFound pkg err then Exit emptyResult None
       else Exit emptyResult (Some err))
  | inr cl =>
      let '(s, o) := reconcileCluster
                       {| cluster := cl; status := None; calls := [CallGet request] |} in
      (calls s, o)
  end.

(** *** Vocabulary of the properties *)

(** The call runs a sub-reconciler. *)
Definition isSubCall (ev : Event) : bool :=
  match ev with CallSubReconciler _ _ _ => true | _ => false end.

(** The sub-reconcilers run by the calls [evs], which come after the calls
    [h], each with what it answered. *)
Fixpoint answersFrom (h evs : list Event) : list (string * option requeue) :=
  match evs with
  | [] => []
  | ev :: rest =>
      match ev with
      | CallSubReconciler name given st => [(name, (implementation co name h given st).2)]
      | _ => []
      end ++ answersFrom (h ++ [ev]) rest
  end.

(** The answer stops the pipeline: a requeue that is not delayed. *)
Definition terminal (answer : option requeue) : bool :=
  match answer with
  | Some req => negb (delayedRequeue req)
  | None => false
  end.

(** The longest delay that the requeues among the answers ask for, 0 when
    none asks for a positive one. *)
Definition longestDelay (answers : list (string * option requeue)) : Z :=
  foldr Z.max 0 (omap (fun a => delay <$> a.2) answers).

(** The names the loop over the coordinators looks up: those of the
    coordinators that parse as an address without an IP. *)
Definition namesToResolve (coordinators : list string) : list string :=
  omap (fun coordinator =>
          match ParseProcessAddress pkg coordinator with
          | inr addr => if IsEmpty pkg addr then Some (MachineAddress pkg addr) else None
          | inl _ => None
          end) coordinators.

(** Every lookup of the names, made one after the other after the calls
    [h], answers with addresses and without an error. *)
Fixpoint allResolve (h : list Event) (names : list string) : bool :=
  match names with
  | [] => true
  | name :: rest =>
      match LookupIPAddr co h name with
      | (Some _, None) => true
      | _ => false
      end && allResolve (h ++ [CallLookupIPAddr name]) rest
  end.

(** The calls [Reconcile] makes between the check of the version and the
    deferred [Close]. *)
Definition bodyCall (ev : Event) : bool :=
  match ev with
  | CallSubReconciler _ _ _ | CallGetStatusFromClusterOrDummyStatus
  | CallLookupIPAddr _ | CallFindProcess | CallSignal _
  | CallProcessRequeue _ _ | CallRecorderEvent _ _ _ => true
  | _ => false
  end.

End ClusterController.

#[global] Arguments Cluster : clear implicits.
#[global] Arguments Event : clear implicits.
#[global] Arguments Packages : clear implicits.
#[global] Arguments clusterSubReconciler : clear implicits.
#[global] Arguments Collaborators : clear implicits.
#[global] Arguments State : clear implicits.

End Driver.

(** ** [getStatusFromClusterOrDummyStatus] (cluster_controller.go)

    Lines 1095-1182 of [controllers/remove_incompatible_processes_test.go],
    with [getDatabaseClientProvider] (lines 951-957) and [getAdminClient]
    (lines 960-965). *)

Module StatusFetch.

Section GetStatus.
(** The spec of the cluster and the rest of the machine-readable status,
    with its zero value. *)
Context {Spec Other : Type} (zero : Other).

(** The machine-readable status, as far as the function reads and writes
    it. *)
Record FoundationDBStatus := {
  Cluster_ConnectionString : string;   (* Cluster.ConnectionString *)
  Cluster_Layers_Error : string;       (* Cluster.Layers.Error *)
  other : Other
}.

(** The cluster object, as far as the function reads and writes it. *)
Record FoundationDBCluster := {
  Spec_ : Spec;
  ConnectionString : string;   (* Status.ConnectionString *)
  Configured : bool;           (* Status.Configured *)
  RunningVersion : string      (* Status.RunningVersion *)
}.

Inductive Event :=
| CallGetAdminClientWithLogger
| CallSetTimeout (timeout : Z)
| CallGetStatus
| CallRecorderEvent (eventtype reason message : string)
| CallGetVersionFromReachableCoordinators
| CallClose.

(** The methods of the admin client the function calls; [SetTimeout] and
    [Close] give nothing the function looks at. *)
Record AdminClient := {
  GetStatus : list Event -> error + FoundationDBStatus;
  GetVersionFromReachableCoordinators : list Event -> string
}.

Record DatabaseClientProvider := {
  GetAdminClientWithLogger : list Event -> FoundationDBCluster -> error + AdminClient
}.

Record FoundationDBClusterReconciler := {
  DatabaseClientProvider_ : option DatabaseClientProvider
}.

(** [cluster.IsBeingUpgradedWithVersionIncompatibleVersion()], a method of
    package [v1beta2]. *)
Context (IsBeingUpgradedWithVersionIncompatibleVersion : FoundationDBCluster -> bool).

(** The status that says that the configuration is missing (lines
    1100-1106 and 1175-1181). *)
Definition dummyStatus : FoundationDBStatus :=
  {| Cluster_ConnectionString := "";
     Cluster_Layers_Error := "configurationMissing";
     other := zero |}.

(** [cluster.Status.ConnectionString = connectionString] *)
Definition withConnectionString (connectionString : string)
    (cluster : FoundationDBCluster) : FoundationDBCluster :=
  {| Spec_ := Spec_ cluster;
     ConnectionString := connectionString;
     Configured := Configured cluster;
     RunningVersion := RunningVersion cluster |}.

(** [cluster.Status.RunningVersion = version] *)
Definition withRunningVersion (version : string)
    (cluster : FoundationDBCluster) : FoundationDBCluster :=
  {| Spec_ := Spec_ cluster;
     ConnectionString := ConnectionString cluster;
     Configured := Configured cluster;
     RunningVersion := version |}.

(** [getDatabaseClientProvider] (lines 951-957) *)
Definition getDatabaseClientProvider (r : FoundationDBClusterReconciler)
    : GoResult DatabaseClientProvider :=
  match DatabaseClientProvider_ r with
  | Some provider => Returns provider
  | None => Panics "Cluster reconciler does not have a DatabaseClientProvider defined"
  end.

(** [getAdminClient] (lines 960-965), called after the calls [h]. *)
Definition getAdminClient (r : FoundationDBClusterReconciler)
    (cluster : FoundationDBCluster) (h : list Event)
    : list Event * GoResult (error + AdminClient) :=
  match getDatabaseClientProvider r with
  | Panics msg => (h, Panics msg)
  | Returns provider =>
      (h ++ [CallGetAdminClientWithLogger],
       Returns (GetAdminClientWithLogger provider h cluster))
  end.

(** Lines 1124-1147: the status was fetched. *)
Definition fetched (cluster : FoundationDBCluster) (status : FoundationDBStatus)
    (h : list Event) : FoundationDBCluster * list Event :=
  if negb (bool_decide (ConnectionString cluster = Cluster_ConnectionString status))
     && negb (bool_decide (Cluster_ConnectionString status = ""))
  then
    (withConnectionString (Cluster_ConnectionString status) cluster,
     h ++ [CallRecorderEvent "Normal" "UpdatingConnectionString"
             ("Setting connection string to " +:+ Cluster_ConnectionString status)])
  else (cluster, h).

(** Lines 1149-1172: the fetch failed on a configured cluster. *)
Definition notFetched (adminClient : AdminClient) (cluster : FoundationDBCluster)
    (h : list Event) : FoundationDBCluster * list Event :=
  if IsBeingUpgradedWithVersionIncompatibleVersion cluster then
    let versionFromReachableCoordinators :=
      GetVersionFromReachableCoordinators adminClient h in
    (if negb (bool_decide (versionFromReachableCoordinators = ""))
        && negb (bool_decide (versionFromReachableCoordinators = RunningVersion cluster))
     then withRunningVersion versionFromReachableCoordinators cluster
     else cluster,
     h ++ [CallGetVersionFromReachableCoordinators])
  else (cluster, h).

(** [getStatusFromClusterOrDummyStatus] (lines 1095-1182), called after
    the calls [h]: the cluster as it leaves it, the calls made, and the
    pair it returns. *)
Definition getStatusFromClusterOrDummyStatus (r : FoundationDBClusterReconciler)
    (cluster : FoundationDBCluster) (h : list Event)
    : FoundationDBCluster * list Event
      * GoResult (option FoundationDBStatus * option error) :=
  if bool_decide (ConnectionString cluster = "") then
    (cluster, h, Returns (Some dummyStatus, None))
  else
    match getAdminClient r cluster h with
    | (h, Panics msg) => (cluster, h, Panics msg)
    | (h, Returns (inl err)) => (cluster, h, Returns (None, Some err))
    | (h, Returns (inr adminClient)) =>
        (* [defer adminClient.Close()] *)
        let h := if negb (Configured cluster)
                 then h ++ [CallSetTimeout (10 * Duration.Second)] else h in
        match GetStatus adminClient h with
        | inr status =>
            let '(cluster, h) := fetched cluster status (h ++ [CallGetStatus]) in
            (cluster, h ++ [CallClose], Returns (Some status, None))
        | inl err =>
            if Configured cluster then
              let '(cluster, h) := notFetched adminClient cluster (h ++ [CallGetStatus]) in
              (cluster, h ++ [CallClose], Returns (None, Some err))
            else
              (cluster, h ++ [CallGetStatus; CallClose], Returns (Some dummyStatus, None))
        end
    end.

End GetStatus.

#[global] Arguments FoundationDBStatus : clear implicits.
#[global] Arguments FoundationDBCluster : clear implicits.
#[global] Arguments Event : clear implicits.
#[global] Arguments AdminClient : clear implicits.
#[global] Arguments DatabaseClientProvider : clear implicits.
#[global] Arguments FoundationDBClusterReconciler : clear implicits.

End StatusFetch.

(** ** The backup controller (backup_controller.go, stop_backup.go)

    [FoundationDBBackupReconciler.Reconcile] (lines 59-113 of
    [unnamed/part_005]) and [adminClientForBackup] (lines 124-146), with
    the step [stopBackup.reconcile] (lines 34-58 of
    [controllers/stop_backup.go]).  The other steps, [processRequeue] and
    the Kubernetes client are not among the sources: they are the fields
    of [Collaborators]. *)

Module BackupController.

Section Reconciler.
(** The cluster object that [adminClientForBackup] fetches. *)
Context {Cluster : Type}.

(** [FoundationDBBackupStatusBackupDetails], as far as the step reads it. *)
Record BackupDetails := {
  Running : bool
}.

(** The backup object, as far as the controller reads it. *)
Record FoundationDBBackup := {
  Namespace : string;                      (* ObjectMeta.Namespace *)
  Generation : Z;                          (* ObjectMeta.Generation *)
  ClusterName : string;                    (* Spec.ClusterName *)
  GetKnobsForCLI : list string;            (* Spec.CustomParameters.GetKnobsForCLI() *)
  ShouldRun : bool;                        (* ShouldRun() *)
  BackupURL : string;                      (* BackupURL() *)
  Reconciled : Z;                          (* Status.Generations.Reconciled *)
  BackupDetails_ : option BackupDetails    (* Status.BackupDetails *)
}.

(** The types of the steps of the controller. *)
Inductive backupSubReconciler :=
| updateBackupStatus
| updateBackupAgents
| startBackup
| stopBackup
| toggleBackupPaused
| modifyBackup.

(** The calls of the controller.  The run of a step is recorded with the
    backup it is handed; the calls of the step follow it. *)
Inductive Event :=
| CallGetBackup (request : string)
| CallSubReconciler (subReconciler : backupSubReconciler) (given : FoundationDBBackup)
| CallProcessRequeue (req : requeue) (subReconciler : backupSubReconciler)
| CallGetCluster (namespace name : string)
| CallGetAdminClient
| CallSetKnobs (knobs : list string)
| CallStopBackup (url : string)
| CallClose.

(** The method of the admin client the step calls; [SetKnobs] and [Close]
    give nothing the step looks at. *)
Record AdminClient := {
  StopBackup : list Event -> string -> option error
}.

Record DatabaseClientProvider := {
  GetAdminClient : list Event -> Cluster -> error + AdminClient
}.

Record Collaborators := {
  IsNotFound : error -> bool;
  GetBackup : list Event -> string -> error + FoundationDBBackup;
  GetCluster : list Event -> string -> string -> error + Cluster;
  (** What a step other than [stopBackup] does to the backup and answers. *)
  implementation : backupSubReconciler -> list Event -> FoundationDBBackup ->
                   FoundationDBBackup * option requeue;
  processRequeue : list Event -> requeue -> backupSubReconciler -> FoundationDBBackup ->
                   Driver.Result * option error
}.

Context (r : Backup.FoundationDBBackupReconciler DatabaseClientProvider)
        (co : Collaborators).

(** [adminClientForBackup] (lines 124-146), called after the calls [h]. *)
Definition adminClientForBackup (backup : FoundationDBBackup) (h : list Event)
    : list Event * GoResult (error + AdminClient) :=
  match GetCluster co h (Namespace backup) (ClusterName backup) with
  | inl err => (h ++ [CallGetCluster (Namespace backup) (ClusterName backup)],
                Returns (inl err))
  | inr cluster =>
      let h := h ++ [CallGetCluster (Namespace backup) (ClusterName backup)] in
      match Backup.getDatabaseClientProvider r with
      | Panics msg => (h, Panics msg)
      | Returns provider =>
          match GetAdminClient provider h cluster with
          | inl err => (h ++ [CallGetAdminClient], Returns (inl err))
          | inr adminClient =>
              (h ++ [CallGetAdminClient; CallSetKnobs (GetKnobsForCLI backup)],
               Returns (inr adminClient))
          end
      end
  end.

(** The condition of line 39-40 under which the step does nothing. *)
Definition nothingToStop (backup : FoundationDBBackup) : bool :=
  ShouldRun backup
  || match BackupDetails_ backup with
     | None => true
     | Some details => negb (Running details)
     end.

(** [stopBackup.reconcile] (stop_backup.go, lines 34-58), called after
    the calls [h]. *)
Definition stopBackup_reconcile (backup : FoundationDBBackup) (h : list Event)
    : list Event * GoResult (option requeue) :=
  if nothingToStop backup then (h, Returns None)
  else
    match adminClientForBackup backup h with
    | (h, Panics msg) => (h, Panics msg)
    | (h, Returns (inl err)) => (h, Returns (Some (requeueError err)))
    | (h, Returns (inr adminClient)) =>
        (* [defer adminClient.Close()] *)
        (h ++ [CallStopBackup (BackupURL backup); CallClose],
         Returns match StopBackup adminClient h (BackupURL backup) with
                 | Some err => Some (requeueError err)
                 | None => None
                 end)
    end.

(** [subReconciler.reconcile(ctx, r, backup)] after the calls [h]: the
    backup as the step leaves it, the calls, and the answer. *)
Definition reconcileOf (subReconciler : backupSubReconciler)
    (backup : FoundationDBBackup) (h : list Event)
    : FoundationDBBackup * list Event * GoResult (option requeue) :=
  let h' := h ++ [CallSubReconciler subReconciler backup] in
  match subReconciler with
  | stopBackup =>
      let '(h', answer) := stopBackup_reconcile backup h' in (backup, h', answer)
  | _ =>
      let '(backup', answer) := implementation co subReconciler h backup in
      (backup', h', Returns answer)
  end.

(** Lines 86-94 *)
Definition subReconcilers : list backupSubReconciler :=
  [ updateBackupStatus; updateBackupAgents; startBackup; stopBackup;
    toggleBackupPaused; modifyBackup; updateBackupStatus ].

(** The loop of lines 96-103; it ends with the requeue that stopped it and
    the step that gave it, or with nil. *)
Fixpoint pipeline (todo : list backupSubReconciler) (backup : FoundationDBBackup)
    (h : list Event)
    : FoundationDBBackup * list Event * GoResult (option (requeue * backupSubReconciler)) :=
  match todo with
  | [] => (backup, h, Returns None)
  | subReconciler :: rest =>
      match reconcileOf subReconciler backup h with
      | (backup, h, Panics msg) => (backup, h, Panics msg)
      | (backup, h, Returns (Some req)) => (backup, h, Returns (Some (req, subReconciler)))
      | (backup, h, Returns None) => pipeline rest backup h
      end
  end.

(** Lines 65-112: [Reconcile] once it has the backup. *)
Definition reconcileBackup (backup : FoundationDBBackup) (h : list Event)
    : FoundationDBBackup * list Event * GoResult (Driver.Result * option error) :=
  let originalGeneration := Generation backup in
  match pipeline subReconcilers backup h with
  | (backup, h, Panics msg) => (backup, h, Panics msg)
  | (backup, h, Returns (Some (req, subReconciler))) =>
      (backup, h ++ [CallProcessRequeue req subReconciler],
       Returns (processRequeue co h req subReconciler backup))
  | (backup, h, Returns None) =>
      (backup, h,
       Returns (if Reconciled backup <? originalGeneration
                then ({| Driver.Requeue := true; Driver.RequeueAfter := 0 |}, None)
                else (Driver.emptyResult, None)))
  end.

(** [Reconcile] (lines 59-113): the calls it makes and what it returns. *)
Definition Reconcile (request : string)
    : list Event * GoResult (Driver.Result * option error) :=
  match GetBackup co [] request with
  | inl err =>
      ([CallGetBackup request],
       Returns (Driver.emptyResult, if IsNotFound co err then None else Some err))
  | inr backup =>
      let '(_, h, result) := reconcileBackup backup [CallGetBackup request] in
      (h, result)
  end.

(** *** Vocabulary of the properties *)

(** The steps run by the calls [evs], which come after the calls [h],
    each with what it answered. *)
Fixpoint answersFrom (h evs : list Event)
    : list (backupSubReconciler * GoResult (option requeue)) :=
  match evs with
  | [] => []
  | ev :: rest =>
      match ev with
      | CallSubReconciler subReconciler given =>
          [(subReconciler, (reconcileOf subReconciler given h).2)]
      | _ => []
      end ++ answersFrom (h ++ [ev]) rest
  end.

(** The call is one a step makes. *)
Definition stepCall (ev : Event) : bool :=
  match ev with
  | CallGetCluster _ _ | CallGetAdminClient | CallSetKnobs _ | CallStopBackup _
  | CallClose => true
  | _ => false
  end.

End Reconciler.

#[global] Arguments FoundationDBBackup : clear implicits.
#[global] Arguments Event : clear implicits.
#[global] Arguments AdminClient : clear implicits.
#[global] Arguments DatabaseClientProvider : clear implicits.
#[global] Arguments Collaborators : clear implicits.

End BackupController.

(** ** The step that adds volume claims (add_pvcs.go)

    [addPVCs.reconcile] (lines 40-79 of [controllers/add_pvcs.go]).  The
    functions of package [internal] and the Kubernetes client are not
    among the sources: they are the fields of [Collaborators]. *)

Module AddPVCs.

Section Step.
(** The owner references and the rest of a volume claim. *)
Context {OwnerReferences Rest : Type}.

(** [corev1.PersistentVolumeClaim], as far as the step reads and writes
    it. *)
Record PersistentVolumeClaim := {
  Namespace : string;
  Name : string;
  OwnerReferences_ : OwnerReferences;
  rest : Rest
}.

(** [pvc.ObjectMeta.OwnerReferences = owner] *)
Definition withOwner (owner : OwnerReferences) (pvc : PersistentVolumeClaim)
    : PersistentVolumeClaim :=
  {| Namespace := Namespace pvc;
     Name := Name pvc;
     OwnerReferences_ := owner;
     rest := rest pvc |}.

Inductive Event :=
| CallGet (namespace name : string)
| CallCreate (pvc : PersistentVolumeClaim).

Record Collaborators := {
  (** [internal.GetPvc]: an error, no claim (nil) or the claim the process
      group wants. *)
  GetPvc : FoundationDBCluster -> ProcessGroupStatus ->
           error + option PersistentVolumeClaim;
  (** [internal.BuildOwnerReference(cluster.TypeMeta, cluster.ObjectMeta)] *)
  BuildOwnerReference : FoundationDBCluster -> OwnerReferences;
  IsNotFound : error -> bool;
  Get : list Event -> string -> string -> option error;
  Create : list Event -> PersistentVolumeClaim -> option error
}.

Context (co : Collaborators).

(** One iteration of the loop (lines 48-75), after the calls [h]: the
    calls, and the requeue the step returns with ([None]: the loop goes
    on). *)
Definition processGroupStep (cluster : FoundationDBCluster) (h : list Event)
    (processGroup : ProcessGroupStatus) : list Event * option requeue :=
  if IsMarkedForRemoval processGroup && IsExcluded processGroup then (h, None)
  else
    match GetPvc co cluster processGroup with
    | inl err => (h, Some (requeueError err))
    | inr None => (h, None)
    | inr (Some pvc) =>
        let h' := h ++ [CallGet (Namespace pvc) (Name pvc)] in
        match Get co h (Namespace pvc) (Name pvc) with
        | None => (h', None)
        | Some err =>
            if negb (IsNotFound co err) then (h', Some (requeueDelayedError err))
            else
              let pvc := withOwner (BuildOwnerReference co cluster) pvc in
              (h' ++ [CallCreate pvc],
               match Create co h' pvc with
               | Some err => Some (requeueDelayedError err)
               | None => None
               end)
        end
    end.

(** The loop over the process groups (lines 47-76). *)
Fixpoint loop (cluster : FoundationDBCluster) (processGroups : list ProcessGroupStatus)
    (h : list Event) : list Event * option requeue :=
  match processGroups with
  | [] => (h, None)
  | processGroup :: rest =>
      match processGroupStep cluster h processGroup with
      | (h, Some req) => (h, Some req)
      | (h, None) => loop cluster rest h
      end
  end.

(** [addPVCs.reconcile] (lines 40-79), after the calls [h]. *)
Definition reconcile (cluster : FoundationDBCluster) (h : list Event)
    : list Event * option requeue :=
  loop cluster (ProcessGroups cluster) h.

(** *** Vocabulary of the properties *)

(** The step looks at the process group: it is not both marked for
    removal and excluded. *)
Definition looksAt (processGroup : ProcessGroupStatus) : bool :=
  negb (IsMarkedForRemoval processGroup && IsExcluded processGroup).

End Step.

#[global] Arguments PersistentVolumeClaim : clear implicits.
#[global] Arguments Event : clear implicits.
#[global] Arguments Collaborators : clear implicits.

End AddPVCs.

(** ** The step that updates the config map (update_config_map.go)

    [updateConfigMap.reconcile] (lines 40-86 of [unnamed/part_006]).  The
    functions of package [internal] and the Kubernetes client are not
    among the sources: they are the fields of [Collaborators]. *)

Module UpdateConfigMap.

Section Step.
(** The cluster and the metadata of an object. *)
Context {Cluster ObjectMeta : Type}.

(** [corev1.ConfigMap], as far as the step reads and writes it. *)
Record ConfigMap := {
  Namespace : string;
  Name : string;
  ObjectMeta_ : ObjectMeta;
  Data : gmap string string
}.

Inductive Event :=
| CallGet (namespace name : string)
| CallCreate (configMap : ConfigMap)
| CallRecorderEvent (eventtype reason message : string)
| CallUpdate (configMap : ConfigMap).

Record Collaborators := {
  GetConfigMap : Cluster -> error + ConfigMap;
  (** [internal.MergeLabels] and [internal.MergeAnnotations] change the
      metadata they are given first, and tell whether they did. *)
  MergeLabels : ObjectMeta -> ObjectMeta -> ObjectMeta * bool;
  MergeAnnotations : ObjectMeta -> ObjectMeta -> ObjectMeta * bool;
  IsNotFound : error -> bool;
  Get : list Event -> string -> string -> error + ConfigMap;
  Create : list Event -> ConfigMap -> option error;
  Update : list Event -> ConfigMap -> option error
}.

Context (co : Collaborators).

(** [&requeue{curError: err}] or nil *)
Definition requeueIfError (err : option error) : option requeue :=
  match err with
  | Some err => Some (requeueError err)
  | None => None
  end.

(** The metadata of [existing] once the labels and the annotations of
    [configMap] are merged into it, and the value of [metadataCorrect]
    (lines 70-73). *)
Definition merged (existing configMap : ConfigMap) : ObjectMeta * bool :=
  let '(meta, labelsChanged) :=
    MergeLabels co (ObjectMeta_ existing) (ObjectMeta_ configMap) in
  let metadataCorrect := negb labelsChanged in
  let '(meta, annotationsChanged) := MergeAnnotations co meta (ObjectMeta_ configMap) in
  (meta, if annotationsChanged then false else metadataCorrect).

(** [existing], with its metadata merged, once [existing.Data =
    configMap.Data] (line 78). *)
Definition updated (existing configMap : ConfigMap) : ConfigMap :=
  {| Namespace := Namespace existing;
     Name := Name existing;
     ObjectMeta_ := (merged existing configMap).1;
     Data := Data configMap |}.

(** [updateConfigMap.reconcile] (lines 40-86), after the calls [h]. *)
Definition reconcile (cluster : Cluster) (h : list Event)
    : list Event * option requeue :=
  match GetConfigMap co cluster with
  | inl err => (h, Some (requeueError err))
  | inr configMap =>
      let h' := h ++ [CallGet (Namespace configMap) (Name configMap)] in
      match Get co h (Namespace configMap) (Name configMap) with
      | inl err =>
          if IsNotFound co err then
            (h' ++ [CallCreate configMap], requeueIfError (Create co h' configMap))
          else (h', Some (requeueError err))
      | inr existing =>
          if negb (bool_decide (Data existing = Data configMap))
             || negb (merged existing configMap).2
          then
            let h'' := h' ++ [CallRecorderEvent "Normal" "UpdatingConfigMap" ""] in
            (h'' ++ [CallUpdate (updated existing configMap)],
             requeueIfError (Update co h'' (updated existing configMap)))
          else (h', None)
      end
  end.

End Step.

#[global] Arguments ConfigMap : clear implicits.
#[global] Arguments Event : clear implicits.
#[global] Arguments Collaborators : clear implicits.

End UpdateConfigMap.

(** ** From a node to the clusters to reconcile (cluster_controller.go)

    [findFoundationDBClusterForNode] (lines 808-861 of
    [controllers/remove_incompatible_processes_test.go]). *)

Module NodeTrigger.

(** [corev1.Pod], as far as the function reads it. *)
Record Pod := {
  Name : string;
  Namespace : string;
  Labels : gmap string string
}.

(** [reconcile.Request] *)
Record Request := {
  RequestName : string;        (* NamespacedName.Name *)
  RequestNamespace : string    (* NamespacedName.Namespace *)
}.

(** The zero value of [reconcile.Request]. *)
Definition zeroRequest : Request := {| RequestName := ""; RequestNamespace := "" |}.

(** The options of the call of [List] (lines 815-826). *)
Record ListOptions := {
  nodeName : string;              (* the selector on [spec.nodeName] *)
  HasLabels : list string;
  InNamespace : option string
}.

(** The fields of the reconciler the function reads, and [r.List]. *)
Record FoundationDBClusterReconciler := {
  ClusterLabelKeyForNodeTrigger : string;
  ReconcilerNamespace : string;    (* Namespace *)
  List_ : ListOptions -> error + list Pod
}.

(** The loop of lines 841-858, from index [i] on, on the slice
    [requests]. *)
Fixpoint fill (key : string) (i : nat) (items : list Pod) (requests : list Request)
    : list Request :=
  match items with
  | [] => requests
  | item :: rest =>
      fill key (S i) rest
        match Labels item !! key with
        | None => requests
        | Some clusterName =>
            <[ i := {| RequestName := clusterName;
                       RequestNamespace := Namespace item |} ]> requests
        end
  end.

(** The options the function lists the pods with. *)
Definition listOptions (r : FoundationDBClusterReconciler) (node : string)
    : ListOptions :=
  {| nodeName := node;
     HasLabels := [ClusterLabelKeyForNodeTrigger r];
     InNamespace := if bool_decide (ReconcilerNamespace r = "") then None
                    else Some (ReconcilerNamespace r) |}.

(** [findFoundationDBClusterForNode] (lines 808-861), for the node of the
    given name. *)
Definition findFoundationDBClusterForNode (r : FoundationDBClusterReconciler)
    (node : string) : list Request :=
  match List_ r (listOptions r node) with
  | inl _ => []
  | inr items =>
      if Z.of_nat (length items) =? 0 then []
      else fill (ClusterLabelKeyForNodeTrigger r) 0 items
                (replicate (length items) zeroRequest)
  end.

(** *** Vocabulary of the properties *)

(** The request for the cluster of a pod; the zero request when the pod
    has no label that names its cluster. *)
Definition requestOf (key : string) (pod : Pod) : Request :=
  match Labels pod !! key with
  | Some clusterName => {| RequestName := clusterName; RequestNamespace := Namespace pod |}
  | None => zeroRequest
  end.

End NodeTrigger.

(** ** The cordon command of the plugin (kubectl-fdb/cmd/cordon.go)

    [getClusterNames] (lines 130-156) and [cordonNode] (lines 158-215).
    [loadCluster] and [replaceProcessGroups] are defined in other files of
    the package, which are not among the sources: with the Kubernetes
    client they are the fields of [Collaborators].  What the command
    prints is left out. *)

Module Cordon.

(** [corev1.Pod], as far as the command reads it. *)
Record Pod := {
  Name : string;
  NodeName : string;                 (* Spec.NodeName *)
  Labels : gmap string string
}.

(** The cluster object, as far as the command reads it. *)
Record Cluster := {
  ClusterName : string;                       (* Name *)
  GetMatchLabels : gmap string string;
  GetProcessGroupIDLabel : string
}.

(** The options of a call of [kubeClient.List]. *)
Record ListOptions := {
  InNamespace : string;
  HasLabels : option (list string);
  MatchingLabels : option (gmap string string);
  nodeName : string                  (* the selector on [spec.nodeName] *)
}.

Inductive Event :=
| CallList (options : ListOptions)
| CallLoadCluster (namespace clusterName : string)
| CallReplaceProcessGroups (clusterName : string) (processGroups : list string)
    (namespace : string) (withExclusion wait seventh eighth : bool)
    (sleep : Z).

Record Collaborators := {
  List_ : list Event -> ListOptions -> error + list Pod;
  loadCluster : list Event -> string -> string -> error + Cluster;
  (** The arguments of [replaceProcessGroups] after the client, in the
      order of the call of line 199. *)
  replaceProcessGroups :
    list Event -> string -> list string -> string -> bool -> bool -> bool -> bool -> Z ->
    option error;
  (** [fmt.Errorf("error fetching pods with custom labels %v", customLabels)] *)
  errorFetchingPods : list string -> error
}.

Section Command.
Context (co : Collaborators).

(** [getClusterNames] (lines 130-156), after the calls [h]. *)
Definition getClusterNames (inputClusterName namespace node : string)
    (customLabels : list string) (h : list Event)
    : list Event * (error + list string) :=
  if negb (Z.of_nat (String.length inputClusterName) =? 0) then
    (h, inr [inputClusterName])
  else
    let options := {| InNamespace := namespace;
                      HasLabels := Some customLabels;
                      MatchingLabels := None;
                      nodeName := node |} in
    (h ++ [CallList options],
     match List_ co h options with
     | inl _ => inl (errorFetchingPods co customLabels)
     | inr pods =>
         inr (foldl (fun clusterNames pod =>
                       match Labels pod !! "fdb-cluster-name" with
                       | Some clusterName => clusterNames ++ [clusterName]
                       | None => clusterNames
                       end) [] pods)
     end).

(** The inner loop over the pods (lines 185-198). *)
Definition processGroupsOf (cluster : Cluster) (node : string) (pods : list Pod)
    : list string :=
  foldl (fun processGroups pod =>
           if negb (bool_decide (NodeName pod = node)) then processGroups
           else
             match Labels pod !! GetProcessGroupIDLabel cluster with
             | Some processGroup => processGroups ++ [processGroup]
             | None => processGroups
             end) [] pods.

(** How the body of a loop ends: the function returns an error, or the
    loop goes on with the new value of [operationFailed]. *)
Inductive LoopResult :=
| ReturnError (err : error)
| GoOn (operationFailed : bool).

(** One iteration of the loop over the cluster names (lines 169-204). *)
Definition clusterStep (namespace node : string) (withExclusion wait : bool) (sleep : Z)
    (h : list Event) (operationFailed : bool) (clusterName : string)
    : list Event * LoopResult :=
  match loadCluster co h namespace clusterName with
  | inl _ => (h ++ [CallLoadCluster namespace clusterName], GoOn true)
  | inr cluster =>
      let h := h ++ [CallLoadCluster namespace clusterName] in
      let options := {| InNamespace := namespace;
                        HasLabels := None;
                        MatchingLabels := Some (GetMatchLabels cluster);
                        nodeName := node |} in
      match List_ co h options with
      | inl err => (h ++ [CallList options], ReturnError err)
      | inr pods =>
          let h := h ++ [CallList options] in
          let processGroups := processGroupsOf cluster node pods in
          (h ++ [CallReplaceProcessGroups (ClusterName cluster) processGroups namespace
                   withExclusion wait false true sleep],
           match replaceProcessGroups co h (ClusterName cluster) processGroups namespace
                   withExclusion wait false true sleep with
           | Some _ => GoOn true
           | None => GoOn operationFailed
           end)
      end
  end.

Fixpoint clusterLoop (namespace node : string) (withExclusion wait : bool) (sleep : Z)
    (clusterNames : list string) (h : list Event) (operationFailed : bool)
    : list Event * LoopResult :=
  match clusterNames with
  | [] => (h, GoOn operationFailed)
  | clusterName :: rest =>
      match clusterStep namespace node withExclusion wait sleep h operationFailed
              clusterName with
      | (h, ReturnError err) => (h, ReturnError err)
      | (h, GoOn operationFailed) =>
          clusterLoop namespace node withExclusion wait sleep rest h operationFailed
      end
  end.

(** The loop over the nodes (lines 165-205). *)
Fixpoint nodeLoop (inputClusterName : string) (namespace : string)
    (withExclusion wait : bool) (sleep : Z) (customLabels : list string)
    (nodes : list string) (h : list Event) (operationFailed : bool)
    : list Event * LoopResult :=
  match nodes with
  | [] => (h, GoOn operationFailed)
  | node :: rest =>
      match getClusterNames inputClusterName namespace node customLabels h with
      | (h, inl _) => (h, ReturnError "unable to fetch cluster names")
      | (h, inr clusterNames) =>
          match clusterLoop namespace node withExclusion wait sleep clusterNames h
                  operationFailed with
          | (h, ReturnError err) => (h, ReturnError err)
          | (h, GoOn operationFailed) =>
              nodeLoop inputClusterName namespace withExclusion wait sleep customLabels
                rest h operationFailed
          end
      end
  end.

(** [cordonNode] (lines 158-215): the calls it makes and the error it
    returns ([None]: nil). *)
Definition cordonNode (inputClusterName : string) (nodes : list string)
    (namespace : string) (withExclusion wait : bool) (sleep : Z)
    (customLabels : list string) : list Event * option error :=
  if Z.of_nat (length nodes) =? 0 then ([], None)
  else
    match nodeLoop inputClusterName namespace withExclusion wait sleep customLabels
            nodes [] false with
    | (h, ReturnError err) => (h, Some err)
    | (h, GoOn operationFailed) =>
        (h, if operationFailed
            then Some "one or more operation failed, please rechecka and retry"
            else None)
    end.

(** *** Vocabulary of the properties *)

(** The call succeeded when it was made after the calls [h]. *)
Definition succeeded (h : list Event) (ev : Event) : bool :=
  match ev with
  | CallList options =>
      match List_ co h options with inr _ => true | inl _ => false end
  | CallLoadCluster namespace clusterName =>
      match loadCluster co h namespace clusterName with inr _ => true | inl _ => false end
  | CallReplaceProcessGroups clusterName processGroups namespace withExclusion wait
      seventh eighth sleep =>
      match replaceProcessGroups co h clusterName processGroups namespace withExclusion
              wait seventh eighth sleep with
      | None => true
      | Some _ => false
      end
  end.

(** Every call of [evs], made after the calls [h], succeeded. *)
Fixpoint allSucceeded (h evs : list Event) : bool :=
  match evs with
  | [] => true
  | ev :: rest => succeeded h ev && allSucceeded (h ++ [ev]) rest
  end.

(** Every call of [evs], made after the calls [h], satisfies [P] of the
    calls before it. *)
Fixpoint eachCall (P : list Event -> Event -> Prop) (h evs : list Event) : Prop :=
  match evs with
  | [] => True
  | ev :: rest => P h ev /\ eachCall P (h ++ [ev]) rest
  end.

(** What holds of a call of [replaceProcessGroups] made after the calls
    [h]: it comes right after the cluster was loaded and the pods of that
    cluster on one of the nodes were listed, and it is handed the name of
    that cluster, the process groups of those pods and the flags of the
    command. *)
Definition replaceCallIsSound (namespace : string) (withExclusion wait : bool)
    (sleep : Z) (nodes : list string) (h : list Event) (ev : Event) : Prop :=
  match ev with
  | CallReplaceProcessGroups clusterName processGroups ns we w seventh eighth sl =>
      ns = namespace /\ we = withExclusion /\ w = wait /\
      seventh = false /\ eighth = true /\ sl = sleep /\
      exists pre loaded cluster node pods,
        node ∈ nodes /\
        h = pre ++ [CallLoadCluster namespace loaded;
                    CallList {| InNamespace := namespace;
                                HasLabels := None;
                                MatchingLabels := Some (GetMatchLabels cluster);
                                nodeName := node |}] /\
        loadCluster co pre namespace loaded = inr cluster /\
        List_ co (pre ++ [CallLoadCluster namespace loaded])
              {| InNamespace := namespace;
                 HasLabels := None;
                 MatchingLabels := Some (GetMatchLabels cluster);
                 nodeName := node |} = inr pods /\
        clusterName = ClusterName cluster /\
        processGroups =
          omap (fun pod => Labels pod !! GetProcessGroupIDLabel cluster)
               (List.filter (fun pod => bool_decide (NodeName pod = node)) pods)
  | _ => True
  end.

(** A listing of pods made after the calls [h] succeeded. *)
Definition listingSucceeded (h : list Event) (ev : Event) : Prop :=
  match ev with
  | CallList options => exists pods, List_ co h options = inr pods
  | _ => True
  end.

(** What a loop of the command has done when it is left after the calls
    [evs], made after the calls [h]. *)
Definition loopSpec (namespace : string) (withExclusion wait : bool) (sleep : Z)
    (nodes : list string) (h : list Event) (failed : bool) (evs : list Event)
    (res : LoopResult) : Prop :=
  eachCall (replaceCallIsSound namespace withExclusion wait sleep nodes) h evs /\
  match res with
  | GoOn failed' =>
      failed' = failed || negb (allSucceeded h evs) /\
      eachCall listingSucceeded h evs
  | ReturnError err =>
      exists pre options,
        evs = pre ++ [CallList options] /\
        eachCall listingSucceeded h pre /\
        match List_ co (h ++ pre) options with
        | inl lerr => err = lerr \/ err = "unable to fetch cluster names"
        | inr _ => False
        end
  end.

(** Every call of [evs], made after the calls [h], satisfies [P] of the
    calls before it and of the calls after it. *)
Fixpoint eachCallAndRest (P : list Event -> Event -> list Event -> Prop)
    (h evs : list Event) : Prop :=
  match evs with
  | [] => True
  | ev :: rest => P h ev rest /\ eachCallAndRest P (h ++ [ev]) rest
  end.

(** What holds of a call of [loadCluster] made after the calls [h] and
    followed by the calls [rest]: when the cluster was loaded, the next
    call lists its pods on one of the nodes, and when that listing
    succeeds, the call after it is the replacement of the process groups
    of those pods, whatever they are. *)
Definition loadIsFollowedUp (namespace : string) (withExclusion wait : bool)
    (sleep : Z) (nodes : list string) (h : list Event) (ev : Event)
    (rest : list Event) : Prop :=
  match ev with
  | CallLoadCluster ns clusterName =>
      match loadCluster co h ns clusterName with
      | inl _ => True
      | inr cluster =>
          exists node rest',
            node ∈ nodes /\
            rest = CallList {| InNamespace := namespace;
                               HasLabels := None;
                               MatchingLabels := Some (GetMatchLabels cluster);
                               nodeName := node |} :: rest' /\
            match List_ co (h ++ [ev])
                    {| InNamespace := namespace;
                       HasLabels := None;
                       MatchingLabels := Some (GetMatchLabels cluster);
                       nodeName := node |} with
            | inl _ => True
            | inr pods =>
                exists rest'',
                  rest' =
                    CallReplaceProcessGroups (ClusterName cluster)
                      (omap (fun pod => Labels pod !! GetProcessGroupIDLabel cluster)
                            (List.filter (fun pod => bool_decide (NodeName pod = node))
                                         pods))
                      namespace withExclusion wait false true sleep :: rest''
            end
      end
  | _ => True
  end.

(** The clusters that the calls load, in the order of the calls. *)
Definition loadsOf (evs : list Event) : list (string * string) :=
  omap (fun ev => match ev with
                  | CallLoadCluster namespace clusterName => Some (namespace, clusterName)
                  | _ => None
                  end) evs.

(** The calls [blocks], one block for each of the [nodes], made after the
    calls [h]: the block of a node loads the clusters that
    [getClusterNames] answers with for the node, each once and in that
    order. *)
Fixpoint visitsEveryCluster (inputClusterName namespace : string)
    (customLabels : list string) (h : list Event) (nodes : list string)
    (blocks : list (list Event)) : Prop :=
  match nodes, blocks with
  | [], [] => True
  | node :: nodes, block :: blocks =>
      (exists clusterNames,
         (getClusterNames inputClusterName namespace node customLabels h).2
           = inr clusterNames /\
         loadsOf block = (fun clusterName => (namespace, clusterName)) <$> clusterNames) /\
      visitsEveryCluster inputClusterName namespace customLabels (h ++ block) nodes blocks
  | _, _ => False
  end.

End Command.

End Cordon.

(** ** Helpers of the end-to-end fixtures (e2e/fixtures/chaos_common.go)

    [PodSelector] (lines 217-224), [PodsSelector] (lines 226-234) and
    [conditionsAreTrue] (lines 260-294) of the first document of the
    file, and [GetDcIDsFromConfig] (lines 547-563) of its second
    document. *)

Module Fixtures.

(** [corev1.Pod], as far as the selectors read it. *)
Record Pod := {
  Namespace : string;
  Name : string
}.

(** The field [Pods] of the [chaosmesh.PodSelectorSpec] that [PodSelector]
    returns: the names of the pods by namespace. *)
Definition PodSelector (pod : Pod) : gmap string (list string) :=
  <[ Namespace pod := [Name pod] ]> ∅.

(** The field [Pods] of the spec that [PodsSelector] returns; the value of
    a key that the map does not hold is the nil slice. *)
Definition PodsSelector (v1pods : list Pod) : gmap string (list string) :=
  foldl (fun pods pod =>
           <[ Namespace pod := default [] (pods !! Namespace pod) ++ [Name pod] ]> pods)
        ∅ v1pods.

(** [chaosmesh.ChaosCondition] *)
Record ChaosCondition := {
  Type_ : string;
  Status_ : string
}.

Section Conditions.
(** [chaosmesh.ConditionAllInjected], [chaosmesh.ConditionSelected] and
    [corev1.ConditionTrue], and the type [chaosmesh.ChaosStatus]. *)
Context (ConditionAllInjected ConditionSelected ConditionTrue : string)
        {ChaosStatus : Type}.

(** [conditionsAreTrue]; [None] is the nil status. *)
Definition conditionsAreTrue (status : option ChaosStatus)
    (conditions : list ChaosCondition) : bool :=
  match status with
  | None => false
  | Some _ =>
      let '(allInjected, allSelected) :=
        foldl (fun '(allInjected, allSelected) condition =>
                 (if bool_decide (Type_ condition = ConditionAllInjected)
                  then bool_decide (Status_ condition = ConditionTrue)
                  else allInjected,
                  if bool_decide (Type_ condition = ConditionSelected)
                  then bool_decide (Status_ condition = ConditionTrue)
                  else allSelected))
              (false, false) conditions in
      allInjected && allSelected
  end.

(** The last condition of the given type says true. *)
Definition lastSaysTrue (type : string) (conditions : list ChaosCondition) : bool :=
  match last (List.filter (fun condition => bool_decide (Type_ condition = type))
                          conditions) with
  | Some condition => bool_decide (Status_ condition = ConditionTrue)
  | None => false
  end.

End Conditions.

(** [fdbv1beta2.DataCenter], [Region] and [DatabaseConfiguration], as far
    as [GetDcIDsFromConfig] reads them. *)
Record DataCenter := {
  ID : string
}.

Record Region := {
  DataCenters : list DataCenter
}.

Record DatabaseConfiguration := {
  Regions : list Region
}.

(** One iteration of the inner loop of [GetDcIDsFromConfig] (lines
    552-558), on the variables [dcSet] and [dcIDs]. *)
Definition dcStep (st : gset string * list string) (dc : DataCenter)
    : gset string * list string :=
  let '(dcSet, dcIDs) := st in
  if bool_decide (ID dc ∈ dcSet) then st
  else ({[ ID dc ]} ∪ dcSet, dcIDs ++ [ID dc]).

Definition GetDcIDsFromConfig (databaseConfiguration : DatabaseConfiguration)
    : list string :=
  (foldl (fun st region => foldl dcStep st (DataCenters region))
         (∅, []) (Regions databaseConfiguration)).2.

(** The IDs of all data centers of the configuration, region by region. *)
Definition allDcIDs (databaseConfiguration : DatabaseConfiguration) : list string :=
  concat ((fun region => ID <$> DataCenters region) <$> Regions databaseConfiguration).

(** The list without the later occurrences of its elements: every element
    once, at the place where it first occurs. *)
Definition firstOccurrences (ids : list string) : list string :=
  reverse (remove_dups (reverse ids)).

(** The loops of [GetDcIDsFromConfig] keep: the set holds the IDs listed,
    no ID is listed twice, and the IDs listed are those seen, in the order
    in which they were first seen. *)
Definition dcInvariant (seen : list string) (st : gset string * list string) : Prop :=
  (forall id, id ∈ st.1 <-> id ∈ st.2) /\
  NoDup st.2 /\
  (forall id, id ∈ st.2 <-> id ∈ seen) /\
  st.2 `sublist_of` seen.

End Fixtures.

(** ** More sample data *)

Module ExclusionSample.
Import Sample.

(** The pass on [threeOfFive], which excludes one of its three
    candidates. *)
Definition excludingPass : passState * Outcome unit :=
  runPass (environment None None) (reconciler None) threeOfFive (Some (statusWith [])).

(** A cluster in which no process group is to be removed. *)
Definition settled : FoundationDBCluster :=
  clusterOf [ group "storage-1" "storage" "10.0.0.1";
              group "storage-2" "storage" "10.0.0.2" ]
            [("storage", 2)].

End ExclusionSample.

(** A cluster whose spec is one generation ahead of what is reconciled,
    with collaborators that all succeed; the status cannot be fetched, and
    the step [excludeProcesses] asks to be run again in five minutes. *)
Module DriverSample.
Import Driver.

Definition cluster0 : Cluster string unit :=
  {| Generation := 2;
     Spec_ := "spec";
     Reconciled := 1;
     ConnectionString := "test:test@coordinator-1.example:4500";
     otherStatus := tt |}.

Definition pkg : Packages string unit string :=
  {| IsNotFound := fun err => bool_decide (err = "not found");
     Skip := fun spec => bool_decide (spec = "skip");
     Version := fun _ => "7.1.26";
     CacheDatabaseStatusForReconciliation := fun _ default => default;
     NormalizeClusterSpec := fun cl => (cl, None);
     Validate := fun _ => None;
     UseDNSInClusterFile := fun _ => true;
     ParseConnectionString := fun _ => inr ["coordinator-1.example:4500"];
     ParseProcessAddress := fun coordinator => inr coordinator;
     IsEmpty := fun _ => true;
     MachineAddress := fun addr => addr;
     reconciledGeneration := fun _ => "Reconciled generation" |}.

Definition co : Collaborators string unit unit :=
  {| Get := fun _ _ => inr cluster0;
     getAdminClient := fun _ _ => Returns None;
     VersionSupported := fun _ _ => inr true;
     implementation := fun name _ cl _ =>
       (cl, fun st => st,
        if bool_decide (name = "excludeProcesses")
        then Some {| delay := 5 * Duration.Minute;
                     curError := None;
                     message := "Additional processes must be excluded";
                     delayedRequeue := true |}
        else None);
     getStatusFromClusterOrDummyStatus := fun _ cl =>
       (cl, inl "FoundationDB error code 1512");
     LookupIPAddr := fun _ _ => (Some ["10.0.0.1"], None);
     FindProcess := fun _ => None;
     Signal := fun _ => None;
     processRequeue := fun _ req _ _ => (emptyResult, curError req) |}.

Definition start : State string unit unit :=
  {| cluster := cluster0; status := None; calls := [] |}.

(** Two steps of the pipeline. *)
Definition twoSteps : State string unit unit * Flow unit :=
  runSubReconcilers pkg co (subReconcilerOf co <$> ["updateStatus"; "excludeProcesses"])
    start.

(** The block that caches the status. *)
Definition cached : State string unit unit * Flow unit :=
  cacheStatusBlock pkg co true start.

(** A whole run. *)
Definition fullRun : list (Event string unit unit) * Flow unit :=
  Reconcile pkg co true "default/test".

End DriverSample.

(** A configured cluster whose connection string is out of date. *)
Module StatusSample.
Import StatusFetch.

Definition cluster0 : FoundationDBCluster unit :=
  {| Spec_ := tt;
     ConnectionString := "test:old@10.0.0.1:4500";
     Configured := true;
     RunningVersion := "7.1.26" |}.

Definition fetchedStatus : FoundationDBStatus unit :=
  {| Cluster_ConnectionString := "test:new@10.0.0.2:4500";
     Cluster_Layers_Error := "";
     other := tt |}.

Definition reconciler : FoundationDBClusterReconciler unit unit :=
  {| DatabaseClientProvider_ :=
       Some {| GetAdminClientWithLogger := fun _ _ =>
                 inr {| GetStatus := fun _ => inr fetchedStatus;
                        GetVersionFromReachableCoordinators := fun _ => "" |} |} |}.

Definition fetch
    : FoundationDBCluster unit * list Event
      * GoResult (option (FoundationDBStatus unit) * option error) :=
  getStatusFromClusterOrDummyStatus tt (fun _ => false) reconciler cluster0 [].

End StatusSample.

(** A backup that runs and should not. *)
Module BackupSample.
Import BackupController.

Definition backup0 : FoundationDBBackup :=
  {| Namespace := "default";
     Generation := 1;
     ClusterName := "test-cluster";
     GetKnobsForCLI := ["--knob_http_verbose_level=3"];
     ShouldRun := false;
     BackupURL := "blobstore://test@test-service/test-backup?bucket=fdb-backups";
     Reconciled := 1;
     BackupDetails_ := Some {| Running := true |} |}.

Definition reconciler : Backup.FoundationDBBackupReconciler (DatabaseClientProvider unit) :=
  {| Backup.DatabaseClientProvider_field :=
       Some {| GetAdminClient := fun _ _ => inr {| StopBackup := fun _ _ => None |} |} |}.

Definition co : Collaborators unit :=
  {| IsNotFound := fun err => bool_decide (err = "not found");
     GetBackup := fun _ _ => inr backup0;
     GetCluster := fun _ _ _ => inr tt;
     implementation := fun _ _ backup => (backup, None);
     processRequeue := fun _ req _ _ => (Driver.emptyResult, curError req) |}.

Definition stopped : list Event * GoResult (option requeue) :=
  stopBackup_reconcile reconciler co backup0 [].

Definition run : FoundationDBBackup * list Event
                 * GoResult (Driver.Result * option error) :=
  reconcileBackup reconciler co backup0 [].

End BackupSample.

(** Every process group wants a volume claim of its name, and no claim
    exists yet. *)
Module PVCSample.
Import AddPVCs.

Definition co : Collaborators string unit :=
  {| GetPvc := fun _ processGroup =>
       inr (Some {| Namespace := "default";
                    Name := ProcessGroupID_ processGroup +:+ "-data";
                    OwnerReferences_ := "";
                    rest := tt |});
     BuildOwnerReference := fun _ => "test-cluster";
     IsNotFound := fun err => bool_decide (err = "not found");
     Get := fun _ _ _ => Some "not found";
     Create := fun _ _ => None |}.

Definition run : list (Event string unit) * option requeue :=
  reconcile co Sample.five [].

End PVCSample.

(** The config map exists with other data. *)
Module ConfigMapSample.
Import UpdateConfigMap.

Definition wanted : ConfigMap unit :=
  {| Namespace := "default";
     Name := "test-cluster-config";
     ObjectMeta_ := tt;
     Data := {[ "cluster-file" := "test:new@10.0.0.2:4500" ]} |}.

Definition found : ConfigMap unit :=
  {| Namespace := "default";
     Name := "test-cluster-config";
     ObjectMeta_ := tt;
     Data := {[ "cluster-file" := "test:old@10.0.0.1:4500" ]} |}.

Definition co : Collaborators unit unit :=
  {| GetConfigMap := fun _ => inr wanted;
     MergeLabels := fun meta _ => (meta, false);
     MergeAnnotations := fun meta _ => (meta, false);
     IsNotFound := fun err => bool_decide (err = "not found");
     Get := fun _ _ _ => inr found;
     Create := fun _ _ => None;
     Update := fun _ _ => None |}.

Definition run : list (Event unit) * option requeue := reconcile co tt [].

End ConfigMapSample.

(** One node with one pod of one cluster. *)
Module CordonSample.
Import Cordon.

Definition pod : Pod :=
  {| Name := "test-cluster-storage-1";
     NodeName := "node-1";
     Labels := {[ "fdb-cluster-name" := "test-cluster";
                  "fdb-process-group-id" := "storage-1" ]} |}.

Definition testCluster : Cluster :=
  {| ClusterName := "test-cluster";
     GetMatchLabels := {[ "fdb-cluster-name" := "test-cluster" ]};
     GetProcessGroupIDLabel := "fdb-process-group-id" |}.

Definition co : Collaborators :=
  {| List_ := fun _ _ => inr [pod];
     loadCluster := fun _ _ _ => inr testCluster;
     replaceProcessGroups := fun _ _ _ _ _ _ _ _ _ => None;
     errorFetchingPods := fun _ => "error fetching pods with custom labels" |}.

Definition run : list Event * option error :=
  cordonNode co "" ["node-1"] "default" true false 0 ["fdb-cluster-name"].

End CordonSample.

(** * Properties *)

(** ** Integers *)

Ltac int64_constants :=
  change (2 ^ 63) with 9223372036854775808 in *;
  change (2 ^ 64) with 18446744073709551616 in *.

Lemma wrap64_range z : Int64.in_range (Int64.wrap64 z).
Proof.
  unfold Int64.in_range, Int64.wrap64, Int64.min_int, Int64.max_int.
  pose proof (Z.mod_pos_bound (z + 2 ^ 63) (2 ^ 64) eq_refl) as Hm.
  revert Hm. generalize ((z + 2 ^ 63) mod 2 ^ 64). intros m Hm.
  int64_constants. lia.
Qed.

Lemma wrap64_small z : Int64.in_range z -> Int64.wrap64 z = z.
Proof.
  unfold Int64.in_range, Int64.wrap64, Int64.min_int, Int64.max_int. intros Hz.
  int64_constants. rewrite Z.mod_small; lia.
Qed.

(** Wrapping an intermediate result does not change the wrapped total. *)
Lemma wrap64_add_l a b : Int64.wrap64 (Int64.wrap64 a + b) = Int64.wrap64 (a + b).
Proof.
  unfold Int64.wrap64. f_equal.
  replace ((a + 2 ^ 63) mod 2 ^ 64 - 2 ^ 63 + b + 2 ^ 63)
    with ((a + 2 ^ 63) mod 2 ^ 64 + b) by lia.
  rewrite Zplus_mod_idemp_l. f_equal. lia.
Qed.

Lemma allowedExclusions_wraps v d o f :
  Int64.sub (Int64.sub (Int64.add v f) d) o = Int64.wrap64 (v + f - d - o).
Proof.
  unfold Int64.sub, Int64.add.
  rewrite <- (Z.add_opp_r _ d), <- (Z.add_opp_r _ o).
  rewrite wrap64_add_l, <- Z.add_assoc, wrap64_add_l. f_equal. lia.
Qed.

(** ** [getAllowedExclusions] *)

Lemma getAllowedExclusions_wrapped v d o f :
  getAllowedExclusions v d o f = Z.max 0 (Int64.wrap64 (v + f - d - o)).
Proof.
  unfold getAllowedExclusions. rewrite allowedExclusions_wraps.
  destruct (Z.ltb_spec (Int64.wrap64 (v + f - d - o)) 0); lia.
Qed.

(** C2, as stated, fails: the sum of the largest [int] and a fault
    tolerance of one wraps around to the smallest [int], and the function
    returns 0 where the formula over the integers gives [2 ^ 63]. *)
Lemma getAllowedExclusions_overflow :
  ~ (forall v d o f : Z,
       Int64.in_range v -> Int64.in_range d -> Int64.in_range o -> Int64.in_range f ->
       getAllowedExclusions v d o f = Z.max 0 (v + f - d - o)).
Proof.
  intros Hclaim.
  assert (Hmax : Int64.in_range Int64.max_int) by (vm_compute; split; discriminate).
  assert (H0 : Int64.in_range 0) by (vm_compute; split; discriminate).
  assert (H1 : Int64.in_range 1) by (vm_compute; split; discriminate).
  specialize (Hclaim Int64.max_int 0 0 1 Hmax H0 H0 H1).
  vm_compute in Hclaim. discriminate.
Qed.

(** C2, amended: [getAllowedExclusions] never returns a negative number,
    and whenever [validProcesses + faultTolerance - desiredProcessCount -
    ongoingExclusions] is itself a value of type [int], it returns exactly
    the maximum of 0 and that value. *)
Theorem getAllowedExclusions_spec v d o f :
  0 <= getAllowedExclusions v d o f /\
  (Int64.in_range (v + f - d - o) ->
   getAllowedExclusions v d o f = Z.max 0 (v + f - d - o)).
Proof.
  rewrite getAllowedExclusions_wrapped. split; [lia|].
  intros Hr. now rewrite wrap64_small.
Qed.

Lemma getAllowedExclusions_spec_witness :
  Int64.in_range (5 + 1 - 5 - 0) /\ getAllowedExclusions 5 5 0 1 = 1.
Proof.
  assert (Hr : Int64.in_range (5 + 1 - 5 - 0)) by (vm_compute; split; discriminate).
  split; [exact Hr|].
  exact (proj2 (getAllowedExclusions_spec 5 5 0 1) Hr).
Defined.

(** ** [getDatabaseClientProvider] of the backup reconciler *)

(** C8: without a [DatabaseClientProvider] the function panics, it neither
    returns nor retries; with one, it returns that provider. *)
Theorem getDatabaseClientProvider_panics_or_returns :
  (forall P : Type,
     Backup.getDatabaseClientProvider
       {| Backup.DatabaseClientProvider_field := @None P |}
     = Panics "Backup reconciler does not have a DatabaseClientProvider defined") /\
  (forall (P : Type) (provider : P),
     Backup.getDatabaseClientProvider
       {| Backup.DatabaseClientProvider_field := Some provider |}
     = Returns provider).
Proof. split; reflexivity. Qed.

Section PureProperties.
Context `{Api}.

(** ** [getAllowedExclusionsAndMissingProcesses] *)

Lemma incr_small v : 0 <= v -> v < Int64.max_int -> Int64.incr v = v + 1.
Proof.
  intros H0 H1. unfold Int64.incr, Int64.add. apply wrap64_small.
  unfold Int64.in_range, Int64.min_int, Int64.max_int in *. int64_constants. lia.
Qed.

Lemma len_cons {A} (x : A) l : len (x :: l) = len l + 1.
Proof. unfold len. cbn [length]. lia. Qed.

Lemma len_nonneg {A} (l : list A) : 0 <= len l.
Proof. unfold len. lia. Qed.

Lemma len_filter_le {A} (p : A -> bool) l : len (List.filter p l) <= len l.
Proof.
  induction l as [|x l IH]; [reflexivity|].
  cbn [List.filter]. destruct (p x); rewrite ?len_cons; lia.
Qed.

(** In simulation an iteration only counts. *)
Lemma missingStep_simulation c now st pg :
  0 <= validProcesses st -> validProcesses st < Int64.max_int ->
  missingStep c true now st pg =
    {| missingProcesses := missingProcesses st;
       validProcesses := validProcesses st + (if considered c pg then 1 else 0);
       exclusionsAllowed := exclusionsAllowed st |}.
Proof.
  intros H0 Hmax. unfold missingStep, considered.
  destruct (bool_decide (ProcessClass_ pg = c)); cbn [negb andb].
  - destruct (IsMarkedForRemoval pg && IsExcluded pg); cbn [negb].
    + destruct st; cbn; f_equal; lia.
    + rewrite <- (incr_small _ H0 Hmax).
      now destruct (GetConditionTime pg MissingProcesses).
  - destruct st; cbn; f_equal; lia.
Qed.

Lemma missingLoop_simulation c clock groups : forall i st,
  0 <= validProcesses st ->
  validProcesses st + len groups <= Int64.max_int ->
  missingLoop c true clock i groups st =
    {| missingProcesses := missingProcesses st;
       validProcesses := validProcesses st + len (List.filter (considered c) groups);
       exclusionsAllowed := exclusionsAllowed st |}.
Proof.
  induction groups as [|pg groups IH]; intros i st H0 Hmax.
  - cbn. destruct st; cbn. f_equal. unfold len; cbn; lia.
  - rewrite len_cons in Hmax. pose proof (len_nonneg groups) as Hlen.
    cbn [missingLoop List.filter].
    rewrite missingStep_simulation by lia.
    rewrite IH; cbn [validProcesses missingProcesses exclusionsAllowed].
    + f_equal. destruct (considered c pg); rewrite ?len_cons; lia.
    + destruct (considered c pg); lia.
    + destruct (considered c pg); lia.
Qed.

(** C9: in simulation every process group of the class that is not both
    marked for removal and excluded counts as valid, whatever its
    conditions; no group is reported missing and the grace window never
    blocks: the result is what [getAllowedExclusions] gives for that count. *)
Theorem simulation_ignores_missing_processes
    (clock : nat -> Z) (cluster : FoundationDBCluster) (c : ProcessClass) (d o : Z) :
  len (ProcessGroups cluster) <= Int64.max_int ->
  let st := missingLoop c true clock 0 (ProcessGroups cluster) missingInit in
  validProcesses st = len (List.filter (considered c) (ProcessGroups cluster)) /\
  missingProcesses st = [] /\
  exclusionsAllowed st = true /\
  getAllowedExclusionsAndMissingProcesses clock cluster c d o true =
    (getAllowedExclusions (len (List.filter (considered c) (ProcessGroups cluster)))
       d o (DesiredFaultTolerance cluster), []).
Proof.
  intros Hlen st.
  assert (Hst : st = {| missingProcesses := [];
                        validProcesses := len (List.filter (considered c) (ProcessGroups cluster));
                        exclusionsAllowed := true |}).
  { unfold st. rewrite missingLoop_simulation; cbn; [reflexivity|lia|lia]. }
  unfold getAllowedExclusionsAndMissingProcesses. fold st. rewrite Hst. cbn.
  auto.
Qed.

(** An iteration outside simulation. *)
Lemma missingStep_real c now st pg :
  missingStep c false now st pg =
    if considered c pg then
      match GetConditionTime pg MissingProcesses with
      | Some ts =>
          {| missingProcesses := missingProcesses st ++ [ProcessGroupID_ pg];
             validProcesses := validProcesses st;
             exclusionsAllowed :=
               if sinceUnix now ts <? IgnoreMissingProcessDuration
               then false else exclusionsAllowed st |}
      | None =>
          {| missingProcesses := missingProcesses st;
             validProcesses := Int64.incr (validProcesses st);
             exclusionsAllowed := exclusionsAllowed st |}
      end
    else st.
Proof.
  unfold missingStep, considered.
  destruct (bool_decide (ProcessClass_ pg = c)); cbn [negb andb]; [|reflexivity].
  now destruct (IsMarkedForRemoval pg && IsExcluded pg).
Qed.

(** Once the loop has found a blocking group, it stays blocked. *)
Lemma missingStep_blocked c sim now st pg :
  exclusionsAllowed st = false ->
  exclusionsAllowed (missingStep c sim now st pg) = false.
Proof.
  intros Hst. unfold missingStep.
  destruct (negb (bool_decide (ProcessClass_ pg = c))); [assumption|].
  destruct (IsMarkedForRemoval pg && IsExcluded pg); [assumption|].
  destruct (GetConditionTime pg MissingProcesses) as [ts|], sim; cbn; try assumption.
  now destruct (sinceUnix now ts <? IgnoreMissingProcessDuration).
Qed.

Lemma missingLoop_blocked c sim clock groups : forall i st,
  exclusionsAllowed st = false ->
  exclusionsAllowed (missingLoop c sim clock i groups st) = false.
Proof.
  induction groups as [|pg groups IH]; intros i st Hst; [assumption|].
  cbn [missingLoop]. apply IH. now apply missingStep_blocked.
Qed.

(** A considered group whose condition is younger than the grace window
    blocks. *)
Lemma missingLoop_fresh_blocks c clock groups : forall i st k pg ts,
  groups !! k = Some pg ->
  considered c pg = true ->
  GetConditionTime pg MissingProcesses = Some ts ->
  sinceUnix (clock (i + k)%nat) ts < IgnoreMissingProcessDuration ->
  exclusionsAllowed (missingLoop c false clock i groups st) = false.
Proof.
  induction groups as [|g groups IH]; intros i st k pg ts Hk Hc Hts Hfresh;
    [discriminate|].
  cbn [missingLoop]. destruct k as [|k].
  - injection Hk as ->. apply missingLoop_blocked.
    rewrite missingStep_real, Hc, Hts. cbn.
    rewrite Nat.add_0_r in Hfresh.
    apply Z.ltb_lt in Hfresh. now rewrite Hfresh.
  - apply (IH (S i) _ k pg ts); try assumption.
    now rewrite Nat.add_succ_comm.
Qed.

(** When no considered group is within the grace window, the loop does
    not block, and it counts the considered groups without the condition. *)
Lemma missingLoop_stale c clock groups : forall i st,
  (forall k pg ts,
     groups !! k = Some pg -> considered c pg = true ->
     GetConditionTime pg MissingProcesses = Some ts ->
     IgnoreMissingProcessDuration <= sinceUnix (clock (i + k)%nat) ts) ->
  0 <= validProcesses st ->
  validProcesses st + len groups <= Int64.max_int ->
  exclusionsAllowed (missingLoop c false clock i groups st) = exclusionsAllowed st /\
  validProcesses (missingLoop c false clock i groups st) =
    validProcesses st +
    len (List.filter (fun pg => considered c pg && negb (hasMissingCondition pg)) groups).
Proof.
  induction groups as [|g groups IH]; intros i st Hstale H0 Hmax.
  - cbn. unfold len; cbn. split; [reflexivity|lia].
  - rewrite len_cons in Hmax. pose proof (len_nonneg groups) as Hlen.
    cbn [missingLoop List.filter].
    assert (Hrest : forall k pg ts,
               groups !! k = Some pg -> considered c pg = true ->
               GetConditionTime pg MissingProcesses = Some ts ->
               IgnoreMissingProcessDuration <= sinceUnix (clock (S i + k)%nat) ts).
    { intros k pg ts Hk Hc Hts. rewrite Nat.add_succ_comm.
      now apply (Hstale (S k) pg ts). }
    specialize (Hstale 0%nat g). rewrite Nat.add_0_r in Hstale.
    rewrite missingStep_real. unfold hasMissingCondition at 1.
    destruct (considered c g); cbn [andb]; [|apply IH; [assumption|assumption|lia]].
    destruct (GetConditionTime g MissingProcesses) as [ts|]; cbn [negb].
    + specialize (Hstale ts eq_refl eq_refl eq_refl).
      apply Z.ltb_ge in Hstale. rewrite Hstale.
      destruct (IH (S i)
                  {| missingProcesses := missingProcesses st ++ [ProcessGroupID_ g];
                     validProcesses := validProcesses st;
                     exclusionsAllowed := exclusionsAllowed st |}
                  Hrest) as [Ha Hv]; cbn; [assumption|lia|].
      split; [exact Ha|exact Hv].
    + rewrite (incr_small (validProcesses st)) by lia.
      destruct (IH (S i)
                  {| missingProcesses := missingProcesses st;
                     validProcesses := validProcesses st + 1;
                     exclusionsAllowed := exclusionsAllowed st |}
                  Hrest) as [Ha Hv]; cbn; [lia|lia|].
      split; [exact Ha|]. rewrite Hv. cbn. rewrite len_cons. lia.
Qed.

(** What [time.Since] measures for a timestamp that [time.Unix] holds
    without overflow: the time elapsed since the timestamp, saturated. *)
Lemma sinceUnix_elapsed now ts :
  Int64.min_int <= ts <= Int64.max_int - unixToInternal ->
  sinceUnix now ts = Duration.sub_saturating now (ts * Duration.Second).
Proof.
  intros Hts. unfold sinceUnix, Unix, Int64.add.
  rewrite wrap64_small.
  - unfold Duration.sub_saturating. do 2 f_equal.
    unfold Duration.Second, Duration.Nanosecond. lia.
  - revert Hts. unfold Int64.in_range, Int64.min_int, Int64.max_int, unixToInternal.
    change (2 ^ 63) with 9223372036854775808. lia.
Qed.

Lemma elapsed_within_window now ts :
  Int64.min_int <= ts <= Int64.max_int - unixToInternal ->
  sinceUnix now ts < IgnoreMissingProcessDuration <->
  now - ts * Duration.Second < IgnoreMissingProcessDuration.
Proof.
  intros Hts. rewrite (sinceUnix_elapsed now ts Hts).
  unfold Duration.sub_saturating, IgnoreMissingProcessDuration, Duration.Minute,
    Duration.Second, Duration.Nanosecond, Int64.min_int, Int64.max_int.
  change (2 ^ 63) with 9223372036854775808. lia.
Qed.

(** For a later timestamp the addition in [time.Unix] wraps around to a
    time long before the year 1, and [time.Since] saturates. *)
Lemma sinceUnix_wrapped now ts :
  Int64.max_int - unixToInternal < ts <= Int64.max_int -> 0 <= now ->
  sinceUnix now ts = Int64.max_int.
Proof.
  intros Hts Hnow. unfold sinceUnix, Unix, Int64.add, Int64.wrap64.
  revert Hts. unfold Int64.max_int, unixToInternal, Duration.sub_saturating,
    Int64.min_int, Int64.max_int, Duration.Second, Duration.Nanosecond.
  change (2 ^ 63) with 9223372036854775808.
  change (2 ^ 64) with 18446744073709551616. intros Hts.
  replace ((ts + 62135596800 + 9223372036854775808) mod 18446744073709551616)
    with (ts + 62135596800 + 9223372036854775808 - 18446744073709551616).
  - lia.
  - apply Z.mod_unique with (q := 1); lia.
Qed.

(** C3, amended: outside simulation, a process group of the class that is
    not both marked for removal and excluded, and whose [MissingProcesses]
    condition was set less than the grace window before the reading of
    the clock (or after it), makes the function return 0 allowed
    exclusions, as long as the timestamp is one that [time.Unix] holds
    without overflow.  When every such condition is at least as old as
    the window, or has a timestamp beyond that bound, which [time.Unix]
    wraps around to the far past, nothing blocks and the groups carrying
    the condition are left out of [validProcesses]. *)
Theorem missing_grace_window
    (clock : nat -> Z) (cluster : FoundationDBCluster) (c : ProcessClass) (d o : Z) :
  (forall i pg ts,
     ProcessGroups cluster !! i = Some pg ->
     ProcessClass_ pg = c ->
     IsMarkedForRemoval pg && IsExcluded pg = false ->
     GetConditionTime pg MissingProcesses = Some ts ->
     Int64.min_int <= ts <= Int64.max_int - unixToInternal ->
     clock i - ts * Duration.Second < IgnoreMissingProcessDuration ->
     fst (getAllowedExclusionsAndMissingProcesses clock cluster c d o false) = 0) /\
  (len (ProcessGroups cluster) <= Int64.max_int ->
   (forall i pg ts,
      ProcessGroups cluster !! i = Some pg ->
      ProcessClass_ pg = c ->
      IsMarkedForRemoval pg && IsExcluded pg = false ->
      GetConditionTime pg MissingProcesses = Some ts ->
      Int64.min_int <= ts <= Int64.max_int - unixToInternal /\
      IgnoreMissingProcessDuration <= clock i - ts * Duration.Second \/
      Int64.max_int - unixToInternal < ts <= Int64.max_int /\ 0 <= clock i) ->
   fst (getAllowedExclusionsAndMissingProcesses clock cluster c d o false) =
     getAllowedExclusions
       (len (List.filter (fun pg => considered c pg && negb (hasMissingCondition pg))
               (ProcessGroups cluster)))
       d o (DesiredFaultTolerance cluster)).
Proof.
  assert (Hcons : forall pg, considered c pg = true <->
            ProcessClass_ pg = c /\ IsMarkedForRemoval pg && IsExcluded pg = false).
  { intros pg. unfold considered.
    rewrite andb_true_iff, bool_decide_eq_true, negb_true_iff. reflexivity. }
  split.
  - intros i pg ts Hi Hclass Hme Hts Hrange Hfresh.
    unfold getAllowedExclusionsAndMissingProcesses.
    rewrite (missingLoop_fresh_blocks c clock _ 0%nat missingInit i pg ts);
      try assumption; [reflexivity| |].
    + apply Hcons. now split.
    + now apply elapsed_within_window.
  - intros Hlen Hstale.
    unfold getAllowedExclusionsAndMissingProcesses.
    destruct (missingLoop_stale c clock (ProcessGroups cluster) 0%nat missingInit)
      as [Ha Hv].
    + intros k pg ts Hk Hc Hts. apply Hcons in Hc as [Hclass Hme].
      change (0 + k)%nat with k.
      destruct (Hstale k pg ts Hk Hclass Hme Hts) as [[Hrange Hold]|[Hrange Hnow]].
      * apply Z.nlt_ge. intros Hlt. apply elapsed_within_window in Hlt; [lia|assumption].
      * rewrite (sinceUnix_wrapped _ _ Hrange Hnow). vm_compute. discriminate.
    + reflexivity.
    + cbn. lia.
    + rewrite Ha, Hv. reflexivity.
Qed.

(** ** [getProcessesToExclude] *)

Lemma foldl_invariant {A S} (step : S -> A -> S) (I : list A -> S -> Prop) :
  (forall seen st x, I seen st -> I (seen ++ [x]) (step st x)) ->
  forall l seen st, I seen st -> I (seen ++ l) (foldl step st l).
Proof.
  intros Hstep. induction l as [|x l IH]; intros seen st HI.
  - now rewrite app_nil_r.
  - cbn [foldl]. replace (seen ++ x :: l) with ((seen ++ [x]) ++ l)
      by now rewrite <- app_assoc.
    apply IH, Hstep, HI.
Qed.

Lemma elem_of_currentExclusionMapOf exclusions s :
  s ∈ currentExclusionMapOf exclusions <-> alreadyExcluded exclusions s.
Proof.
  unfold currentExclusionMapOf, alreadyExcluded.
  assert (Hgen : forall l (acc : gset string),
            s ∈ foldl (fun m exclusion => {[ AddressString exclusion ]} ∪ m) acc l <->
            s ∈ acc \/ exists a, a ∈ l /\ AddressString a = s).
  { induction l as [|x l IH]; intros acc; cbn [foldl].
    - split; [auto|]. intros [Hs|(a & Ha & _)]; [assumption|]. inversion Ha.
    - rewrite IH. split.
      + intros [Hs|(a & Ha & Hs)].
        * apply elem_of_union in Hs as [Hs|Hs]; [|now left].
          apply elem_of_singleton in Hs. right. exists x. split; [left|congruence].
        * right. exists a. split; [now right|assumption].
      + intros [Hs|(a & Ha & Hs)].
        * left. apply elem_of_union. now right.
        * inversion Ha; subst.
          -- left. apply elem_of_union. left. now apply elem_of_singleton.
          -- right. exists a. now split. }
  rewrite Hgen. split.
  - intros [Hs|Hs]; [|assumption]. now apply not_elem_of_empty in Hs.
  - now right.
Qed.

Lemma addressLoop_spec cur addrs :
  addressLoop cur addrs =
    (forallb (fun a => bool_decide (a ∈ cur)) addrs,
     map (fun a => addressOfIP (ParseIP a))
         (List.filter (fun a => negb (bool_decide (a ∈ cur))) addrs)).
Proof.
  unfold addressLoop.
  assert (Hgen : forall l b acc,
            foldl (fun '(allAddressesExcluded, addresses) address =>
                     if bool_decide (address ∈ cur)
                     then (allAddressesExcluded, addresses)
                     else (false, addresses ++ [addressOfIP (ParseIP address)]))
                  (b, acc) l =
            (b && forallb (fun a => bool_decide (a ∈ cur)) l,
             acc ++ map (fun a => addressOfIP (ParseIP a))
                        (List.filter (fun a => negb (bool_decide (a ∈ cur))) l))).
  { induction l as [|x l IH]; intros b acc; cbn [foldl forallb List.filter map].
    - now rewrite andb_true_r, app_nil_r.
    - destruct (bool_decide (x ∈ cur)); cbn [negb andb]; rewrite IH.
      + reflexivity.
      + cbn [map]. rewrite andb_false_r, <- app_assoc. reflexivity. }
  apply Hgen.
Qed.

Lemma entriesOf_insert m c c' l :
  entriesOf (<[ c := l ]> m) c' = if decide (c = c') then l else entriesOf m c'.
Proof.
  unfold entriesOf. rewrite lookup_insert.
  destruct (decide (c = c')); reflexivity.
Qed.

(** What the function guarantees about an entry [e] listed under class [c]
    for the process group [pg]. *)
Lemma processGroupStep_entries cluster exclusions pending st pg c e :
  e ∈ entriesOf (fdbProcessesToExcludeByClass
                   (processGroupStep cluster (currentExclusionMapOf exclusions)
                      pending st pg)) c ->
  e ∈ entriesOf (fdbProcessesToExcludeByClass st) c \/
  (ProcessGroupID_ pg = processGroupID e /\ ProcessClass_ pg = c /\
   IsMarkedForRemoval pg = true /\ IsExcluded pg = false /\
   ~ alreadyExcluded exclusions (GetExclusionString pg) /\
   addresses e <> [] /\
   if UseLocalitiesForExclusion cluster
   then addresses e = [addressOfString (GetExclusionString pg)]
   else addresses e =
          map (fun a => addressOfIP (ParseIP a))
              (List.filter
                 (fun a => negb (bool_decide (a ∈ currentExclusionMapOf exclusions)))
                 (Addresses pg))).
Proof.
  unfold processGroupStep.
  destruct (bool_decide (ProcessClass_ pg = ProcessClassTest)); [now left|].
  destruct (IsMarkedForRemoval pg) eqn:Hm; cbn [negb]; [|now left].
  destruct (IsExcluded pg) eqn:He; [now left|].
  destruct (bool_decide (GetExclusionString pg ∈ currentExclusionMapOf exclusions))
    eqn:Hx; [now left|].
  apply bool_decide_eq_false in Hx. rewrite elem_of_currentExclusionMapOf in Hx.
  set (st' := match pending !! ProcessGroupID_ pg with
              | Some _ => st
              | None => markPending (ProcessGroupID_ pg) st
              end).
  assert (Hst' : fdbProcessesToExcludeByClass st' = fdbProcessesToExcludeByClass st)
    by (unfold st'; now destruct (pending !! ProcessGroupID_ pg)).
  destruct (UseLocalitiesForExclusion cluster).
  - assert (Hboth : forall (b : bool) (x : candidates), (if b then x else x) = x)
      by (now intros []).
    rewrite Hboth. cbn [appendEntry fdbProcessesToExcludeByClass].
    rewrite entriesOf_insert, Hst'.
    destruct (decide (ProcessClass_ pg = c)) as [Hc|Hc]; [|now left].
    intros Hin. apply elem_of_app in Hin as [Hin|Hin]; [left; now rewrite <- Hc|].
    apply list_elem_of_singleton in Hin. subst e. right. cbn.
    repeat split; try assumption; try reflexivity. discriminate.
  - rewrite addressLoop_spec.
    set (addrs := map _ _).
    assert (Hsame : forall b x,
              fdbProcessesToExcludeByClass (if b : bool then countOngoing (ProcessClass_ pg) x else x)
              = fdbProcessesToExcludeByClass x) by (now intros []).
    rewrite Hsame.
    destruct (Z.gtb_spec (len addrs) 0) as [Hlen|Hlen].
    + cbn [appendEntry fdbProcessesToExcludeByClass].
      rewrite entriesOf_insert, Hst'.
      destruct (decide (ProcessClass_ pg = c)) as [Hc|Hc]; [|now left].
      intros Hin. apply elem_of_app in Hin as [Hin|Hin]; [left; now rewrite <- Hc|].
      apply list_elem_of_singleton in Hin. subst e. right. cbn.
      repeat split; try assumption; try reflexivity.
      intros Hnil. rewrite Hnil in Hlen. unfold len in Hlen. cbn in Hlen. lia.
    + rewrite Hst'. now left.
Qed.

(** C4, amended: a process group is listed as a candidate only if, in the
    status the pass started from, it is marked for removal and not flagged
    as excluded and its exclusion string is not the text of any entry of
    the exclusion list the cluster reports.  What is listed for it is its
    exclusion string when excluding by locality, otherwise the addresses
    parsed from those of its address texts that are not the text of any
    entry of that list, of which there is at least one.  The comparison is
    on texts: a listed address is known not to be in the list only when
    it prints as the text it was made from. *)
Theorem candidates_need_exclusion
    (exclusions : list ProcessAddress) (cluster : FoundationDBCluster)
    (pending : gmap ProcessGroupID Time) (upd : gmap ProcessGroupID UpdateAction)
    (c : ProcessClass) (entry : excludeEntry) :
  entry ∈ entriesOf (fdbProcessesToExcludeByClass
                       (getProcessesToExclude exclusions cluster pending upd)) c ->
  exists pg,
    pg ∈ ProcessGroups cluster /\
    ProcessGroupID_ pg = processGroupID entry /\
    ProcessClass_ pg = c /\
    IsMarkedForRemoval pg = true /\
    IsExcluded pg = false /\
    ~ alreadyExcluded exclusions (GetExclusionString pg) /\
    addresses entry <> [] /\
    forall a, a ∈ addresses entry ->
      exists s,
        (if UseLocalitiesForExclusion cluster
         then s = GetExclusionString pg /\ a = addressOfString s
         else s ∈ Addresses pg /\ a = addressOfIP (ParseIP s)) /\
        ~ alreadyExcluded exclusions s /\
        (AddressString a = s -> ~ alreadyExcluded exclusions (AddressString a)).
Proof.
  unfold getProcessesToExclude.
  set (good := fun (pg : ProcessGroupStatus) (e : excludeEntry) =>
         ProcessGroupID_ pg = processGroupID e /\ ProcessClass_ pg = c /\
         IsMarkedForRemoval pg = true /\ IsExcluded pg = false /\
         ~ alreadyExcluded exclusions (GetExclusionString pg) /\
         addresses e <> [] /\
         if UseLocalitiesForExclusion cluster
         then addresses e = [addressOfString (GetExclusionString pg)]
         else addresses e =
                map (fun a => addressOfIP (ParseIP a))
                    (List.filter
                       (fun a => negb (bool_decide (a ∈ currentExclusionMapOf exclusions)))
                       (Addresses pg))).
  pose (I := fun (seen : list ProcessGroupStatus) (st : candidates) =>
         forall e, e ∈ entriesOf (fdbProcessesToExcludeByClass st) c ->
                   exists pg, pg ∈ seen /\ good pg e).
  assert (Hinv : I ([] ++ ProcessGroups cluster)
                   (foldl (processGroupStep cluster (currentExclusionMapOf exclusions) pending)
                      {| fdbProcessesToExcludeByClass := ∅;
                         ongoingExclusionsByClass := ∅;
                         updatePendingExclusions := upd |}
                      (ProcessGroups cluster))).
  { apply foldl_invariant.
    - intros seen st pg HI e He.
      apply processGroupStep_entries in He as [He|He].
      + destruct (HI e He) as (pg' & Hin & Hgood).
        exists pg'. split; [apply elem_of_app; now left|assumption].
      + exists pg. split; [apply elem_of_app; right; now left|exact He].
    - intros e He. unfold entriesOf in He. cbn in He.
      rewrite lookup_empty in He. inversion He. }
  intros Hentry. destruct (Hinv entry Hentry) as (pg & Hin & Hgood).
  destruct Hgood as (Hid & Hclass & Hm & He & Hx & Hne & Haddrs).
  exists pg. repeat (split; [assumption|]).
  intros a Ha. destruct (UseLocalitiesForExclusion cluster).
  - rewrite Haddrs in Ha. apply list_elem_of_singleton in Ha as ->.
    exists (GetExclusionString pg). split; [now split|]. split; [assumption|].
    intros Hprint. now rewrite Hprint.
  - rewrite Haddrs in Ha. apply list_elem_of_fmap in Ha as (s & -> & Hs).
    apply list_elem_of_In, filter_In in Hs as [Hs Hnot].
    apply negb_true_iff, bool_decide_eq_false in Hnot.
    rewrite elem_of_currentExclusionMapOf in Hnot.
    exists s. split; [split; [now apply list_elem_of_In|reflexivity]|].
    split; [assumption|]. intros Hprint. now rewrite Hprint.
Qed.

End PureProperties.

(** ** The properties above on sample data *)

Module PureExamples.
Import Sample.

Lemma simulation_ignores_missing_processes_witness :
  getAllowedExclusionsAndMissingProcesses at1000 five "storage" 3 0 true = (2, []).
Proof.
  assert (Hlen : len (ProcessGroups five) <= Int64.max_int) by (vm_compute; discriminate).
  exact (proj2 (proj2 (proj2
           (simulation_ignores_missing_processes at1000 five "storage" 3 0 Hlen)))).
Defined.

(** C3, as stated, fails: [storage-4] is of class storage and has been
    missing for 100 seconds only, yet two exclusions are allowed, because
    the loop skips a group that is marked for removal and excluded before
    it looks at its conditions. *)
Lemma excluded_missing_group_does_not_block :
  let recent := excluded (removing (missingSince 900 (group "storage-4" "storage" "10.0.0.4"))) in
  let cluster := clusterOf [ group "storage-1" "storage" "10.0.0.1";
                             group "storage-2" "storage" "10.0.0.2";
                             group "storage-3" "storage" "10.0.0.3";
                             recent ] [("storage", 2)] in
  (ProcessGroups cluster !! 3%nat = Some recent /\
   ProcessClass_ recent = "storage" /\
   GetConditionTime recent MissingProcesses = Some 900 /\
   sinceUnix (at1000 3%nat) 900 < IgnoreMissingProcessDuration) /\
  getAllowedExclusionsAndMissingProcesses at1000 cluster "storage" 2 0 false = (2, []).
Proof. vm_compute. repeat split. Qed.

(** A timestamp that [time.Unix] cannot hold is taken for one of the far
    past: the group with the largest timestamp there is does not block. *)
Lemma wrapped_timestamp_does_not_block :
  let latest := missingSince Int64.max_int (group "storage-3" "storage" "10.0.0.3") in
  let cluster := clusterOf [ group "storage-1" "storage" "10.0.0.1";
                             group "storage-2" "storage" "10.0.0.2";
                             latest ] [("storage", 1)] in
  at1000 2%nat - Int64.max_int * Duration.Second < IgnoreMissingProcessDuration /\
  getAllowedExclusionsAndMissingProcesses at1000 cluster "storage" 1 0 false
    = (2, ["storage-3"]).
Proof. vm_compute. split; reflexivity. Qed.

Lemma missing_grace_window_witness :
  (* storage-3, missing since 900, blocks at time 1000 *)
  fst (getAllowedExclusionsAndMissingProcesses at1000
         (clusterOf [ group "storage-1" "storage" "10.0.0.1";
                      missingSince 900 (group "storage-3" "storage" "10.0.0.3") ] [])
         "storage" 1 0 false) = 0 /\
  (* storage-3, missing since 100, does not block and is not counted *)
  fst (getAllowedExclusionsAndMissingProcesses at1000 five "storage" 1 0 false) = 3.
Proof.
  split.
  - refine (proj1 (missing_grace_window at1000 _ "storage" 1 0) 1%nat
              (missingSince 900 (group "storage-3" "storage" "10.0.0.3")) 900 _ _ _ _ _ _);
      try reflexivity.
    vm_compute. split; discriminate.
  - refine (proj2 (missing_grace_window at1000 five "storage" 1 0) _ _).
    + vm_compute. discriminate.
    + intros [|[|[|[|[|i]]]]] pg ts Hi; try discriminate Hi;
        injection Hi as <-; intros _ Hme Hts; try discriminate Hme;
        try discriminate Hts.
      injection Hts as <-. left. vm_compute. repeat split; discriminate.
Defined.

(** C4, as stated, fails: [storage-5] is being removed, its first address
    is in the exclusion list already, and its pod came back under a second
    address; the group is a candidate, listed with the second address, so
    that it is excluded once more for the same removal. *)
Lemma readdressed_group_is_excluded_again :
  let exclusions := [ip "10.0.0.5"] in
  let cluster := clusterOf [group "storage-1" "storage" "10.0.0.1"; readdressed] [] in
  entriesOf (fdbProcessesToExcludeByClass (getProcessesToExclude exclusions cluster ∅ ∅))
            "storage"
    = [{| processGroupID := ProcessGroupID_ readdressed; addresses := [ip "10.0.0.9"] |}] /\
  "10.0.0.5" ∈ Addresses readdressed /\
  alreadyExcluded exclusions "10.0.0.5".
Proof.
  split; [vm_compute; reflexivity|]. split; [left|].
  exists (ip "10.0.0.5"). split; [left|reflexivity].
Qed.

Lemma candidates_need_exclusion_witness :
  exists pg,
    pg ∈ [group "storage-1" "storage" "10.0.0.1"; readdressed] /\
    ProcessGroupID_ pg = "storage-5" /\
    ProcessClass_ pg = "storage" /\
    IsMarkedForRemoval pg = true /\
    IsExcluded pg = false /\
    ~ alreadyExcluded [addressOfIP (ParseIP "10.0.0.5")] (GetExclusionString pg) /\
    [addressOfIP (ParseIP "10.0.0.9")] <> [] /\
    forall a, a ∈ [addressOfIP (ParseIP "10.0.0.9")] ->
      exists s,
        (s ∈ Addresses pg /\ a = addressOfIP (ParseIP s)) /\
        ~ alreadyExcluded [addressOfIP (ParseIP "10.0.0.5")] s /\
        (AddressString a = s ->
         ~ alreadyExcluded [addressOfIP (ParseIP "10.0.0.5")] (AddressString a)).
Proof.
  refine (candidates_need_exclusion
            [addressOfIP (ParseIP "10.0.0.5")]
            (clusterOf [group "storage-1" "storage" "10.0.0.1"; readdressed] [])
            ∅ ∅ "storage"
            {| processGroupID := "storage-5";
               addresses := [addressOfIP (ParseIP "10.0.0.9")] |} _).
  vm_compute. left.
Defined.

End PureExamples.

(** ** The pass *)

Section PassProperties.
Context `{Api}.

Ltac unfold_pass :=
  unfold mbind, mret, M_bind, M_ret, call, returnWith, panic, readStatus,
    writeStatus, history, orRequeue, nilOrRequeue in *.

(** Runs the pieces of a pass in the hypothesis [Hrun], case by case. *)
Ltac run_pass Hrun :=
  repeat first [ progress unfold_pass
               | progress cbn in Hrun
               | case_match; simplify_eq ];
  simplify_eq; cbn.

Lemma noExcludeCall_nil : noExcludeCall [].
Proof. intros a w Hin. inversion Hin. Qed.

Lemma noExcludeCall_app l1 l2 :
  noExcludeCall l1 -> noExcludeCall l2 -> noExcludeCall (l1 ++ l2).
Proof.
  intros H1 H2 a w Hin. apply elem_of_app in Hin as [Hin|Hin];
    [exact (H1 a w Hin)|exact (H2 a w Hin)].
Qed.

Lemma noExcludeCall_cons ev l :
  (forall a w, ev <> CallExcludeProcessesWithNoWait a w) ->
  noExcludeCall l -> noExcludeCall (ev :: l).
Proof.
  intros Hev Hl a w Hin. inversion Hin; subst; [now apply (Hev a w)|].
  now apply (Hl a w).
Qed.

(** The calls a computation adds are no exclude calls. *)
Ltac quiet_suffix :=
  repeat first
    [ apply noExcludeCall_nil
    | apply noExcludeCall_cons; [intros ? ?; discriminate|]
    | apply noExcludeCall_app ].

Ltac solve_suffix :=
  rewrite <- ?app_assoc;
  first [ eexists; split; [reflexivity|quiet_suffix]
        | exists []; split; [symmetry; apply app_nil_r|apply noExcludeCall_nil] ].

Lemma gatherCandidates_spec cluster adminClient s s' o :
  gatherCandidates cluster adminClient s = (s', o) ->
  (exists evs, trace s' = trace s ++ evs /\ noExcludeCall evs) /\
  (forall status cands, o = Continue (status, cands) ->
     statusObject s' = Some status /\
     fdbProcessesToExcludeByClass cands <> ∅ /\
     exists exclusions pending,
       GetExclusions status = inr exclusions /\
       cands = getProcessesToExclude exclusions cluster pending ∅).
Proof.
  intros Hrun. unfold gatherCandidates, fetchStatus in Hrun.
  destruct s as [tr so]. run_pass Hrun.
  all: split; [solve_suffix|].
  all: intros status cands Ho; try discriminate Ho.
  all: injection Ho as <- <-; split; [reflexivity|]; split;
    [intros Hempty;
     match goal with
     | Hz : (Z.of_nat (size _) =? 0) = false |- _ =>
         rewrite Hempty, map_size_empty in Hz; discriminate Hz
     end
    |do 2 eexists; split; [eassumption|reflexivity]].
Qed.

(** *** The loop over the classes *)

Lemma takeEntries_flags ready n l st :
  transactionSystemExclusionAllowed (takeEntries ready n l st)
    = transactionSystemExclusionAllowed st /\
  allProcessesExcluded (takeEntries ready n l st) = allProcessesExcluded st.
Proof.
  unfold takeEntries. generalize (take (Z.to_nat n) l). intros es. revert st.
  induction es as [|e es IH]; intros st; cbn [foldl]; [now split|].
  destruct (IH {| transactionSystemExclusionAllowed := transactionSystemExclusionAllowed st;
                  allProcessesExcluded := allProcessesExcluded st;
                  updateReadyExclusions :=
                    match ready !! processGroupID e with
                    | Some _ => updateReadyExclusions st
                    | None => <[processGroupID e:=UpdateActionAdd]> (updateReadyExclusions st)
                    end;
                  fdbProcessesToExclude := fdbProcessesToExclude st ++ addresses e |})
    as [IH1 IH2].
  split; [exact IH1|exact IH2].
Qed.

(** [classStep], with the result of the call at its head named. *)
Lemma classStep_unfold env r cluster cands desired ready st c :
  classStep env r cluster cands desired ready st c =
    let allowed := allowedFor env r cluster cands desired c in
    let todo := entriesOf (fdbProcessesToExcludeByClass cands) c in
    if allowed <=? 0 then
      {| transactionSystemExclusionAllowed :=
           if IsTransaction c then false else transactionSystemExclusionAllowed st;
         allProcessesExcluded := false;
         updateReadyExclusions := updateReadyExclusions st;
         fdbProcessesToExclude := fdbProcessesToExclude st |}
    else
      takeEntries ready (if len todo <? allowed then len todo else allowed) todo
        (if len todo >? allowed
         then {| transactionSystemExclusionAllowed := transactionSystemExclusionAllowed st;
                 allProcessesExcluded := false;
                 updateReadyExclusions := updateReadyExclusions st;
                 fdbProcessesToExclude := fdbProcessesToExclude st |}
         else st).
Proof.
  unfold classStep, allowedFor.
  now destruct (getAllowedExclusionsAndMissingProcesses _ _ _ _ _ _).
Qed.

Lemma classStep_keeps_blocked env r cluster cands desired ready st c :
  transactionSystemExclusionAllowed st = false ->
  transactionSystemExclusionAllowed (classStep env r cluster cands desired ready st c)
    = false.
Proof.
  intros Hst. rewrite classStep_unfold. cbn zeta.
  destruct (_ <=? 0); cbn.
  - now destruct (IsTransaction c).
  - rewrite (proj1 (takeEntries_flags _ _ _ _)). now destruct (_ >? _).
Qed.


Lemma classStep_blocks env r cluster cands desired ready st c :
  IsTransaction c = true ->
  allowedFor env r cluster cands desired c <= 0 ->
  transactionSystemExclusionAllowed (classStep env r cluster cands desired ready st c)
    = false.
Proof.
  intros Htx Hallowed. rewrite classStep_unfold. cbn zeta.
  apply Z.leb_le in Hallowed. rewrite Hallowed. cbn. now rewrite Htx.
Qed.


(** A flag that an iteration clears and no iteration sets is cleared at
    the end of the loop. *)
Lemma foldl_cleared {S A} (step : S -> A -> S) (flag : S -> bool) (x : A) :
  (forall st y, flag st = false -> flag (step st y) = false) ->
  (forall st, flag (step st x) = false) ->
  forall l st, x ∈ l -> flag (foldl step st l) = false.
Proof.
  intros Hkeep Hclear.
  assert (Hstay : forall l st, flag st = false -> flag (foldl step st l) = false).
  { induction l as [|y l IH]; intros st Hst; [assumption|].
    cbn [foldl]. now apply IH, Hkeep. }
  induction l as [|y l IH]; intros st Hin; [inversion Hin|].
  cbn [foldl]. inversion Hin; subst.
  - apply Hstay, Hclear.
  - now apply IH.
Qed.

Lemma rangeOrder_visits env (m : gmap ProcessClass (list excludeEntry)) c :
  rangeVisitsEachKeyOnce env -> entriesOf m c <> [] -> c ∈ rangeOrder env m.
Proof.
  intros Hrange Hc. rewrite (Hrange m).
  unfold entriesOf in Hc. destruct (m !! c) as [es|] eqn:Hm; [|now cbn in Hc].
  apply list_elem_of_fmap. exists (c, es). split; [reflexivity|].
  now apply elem_of_map_to_list.
Qed.

Lemma classLoop_blocks env r cluster cands desired ready c :
  rangeVisitsEachKeyOnce env ->
  entriesOf (fdbProcessesToExcludeByClass cands) c <> [] ->
  IsTransaction c = true ->
  allowedFor env r cluster cands desired c <= 0 ->
  transactionSystemExclusionAllowed (classLoop env r cluster cands desired ready) = false.
Proof.
  intros Hrange Hc Htx Hallowed. unfold classLoop.
  apply (foldl_cleared _ transactionSystemExclusionAllowed c).
  - intros st y. apply classStep_keeps_blocked.
  - intros st. now apply classStep_blocks.
  - now apply rangeOrder_visits.
Qed.

Lemma allowedFor_nonneg env r cluster cands desired c :
  0 <= allowedFor env r cluster cands desired c.
Proof.
  unfold allowedFor, getAllowedExclusionsAndMissingProcesses.
  destruct (negb _); cbn [fst]; [reflexivity|].
  rewrite getAllowedExclusions_wrapped. lia.
Qed.


(** *** The coordinator sets *)

Lemma coordinatorExcluded_true ce ca l a :
  a ∈ l -> AddressString a ∈ ce \/ AddressString a ∈ ca ->
  coordinatorExcluded ce ca l = true.
Proof.
  intros Hin Hmatch. unfold coordinatorExcluded.
  match goal with |- context [foldl ?f _ _] => set (step := f) end.
  assert (Hstay : forall l', foldl step true l' = true).
  { induction l' as [|x l' IH]; [reflexivity|]. cbn [foldl].
    replace (step true x) with true; [exact IH|].
    unfold step. now destruct (_ || _). }
  assert (Hhit : forall found, step found a = true).
  { intros found. unfold step.
    destruct Hmatch as [Hm|Hm].
    - rewrite (bool_decide_eq_true_2 _ Hm). now rewrite orb_true_r.
    - now rewrite (bool_decide_eq_true_2 _ Hm). }
  generalize false. induction l as [|x l IH]; intros found; [inversion Hin|].
  cbn [foldl]. apply elem_of_cons in Hin as [<-|Hin].
  - rewrite Hhit. apply Hstay.
  - now apply IH.
Qed.

Lemma elem_of_foldl_add (l : list string) (acc : gset string) s :
  s ∈ foldl (fun m addr => {[ addr ]} ∪ m) acc l <-> s ∈ acc \/ s ∈ l.
Proof.
  revert acc. induction l as [|x l IH]; intros acc; cbn [foldl].
  - split; [now left|]. intros [Hs|Hs]; [assumption|inversion Hs].
  - rewrite IH, elem_of_union, elem_of_singleton, elem_of_cons. tauto.
Qed.

Lemma coordinatorSets_complete cluster status pg :
  pg ∈ ProcessGroups cluster ->
  ProcessGroupID_ pg ∈ GetCoordinatorsFromStatus status ->
  GetExclusionString pg ∈ (coordinatorSets cluster status).1 /\
  forall a, a ∈ Addresses pg -> a ∈ (coordinatorSets cluster status).2.
Proof.
  intros Hin Hcoord. unfold coordinatorSets.
  match goal with |- context [foldl ?f _ _] => set (step := f) end.
  assert (Hmono : forall l acc,
            (forall s, s ∈ acc.1 -> s ∈ (foldl step acc l).1) /\
            (forall s, s ∈ acc.2 -> s ∈ (foldl step acc l).2)).
  { induction l as [|x l IH]; intros acc; [now split|]. cbn [foldl].
    destruct (IH (step acc x)) as [IH1 IH2].
    split; intros s Hs; [apply IH1|apply IH2].
    - unfold step. destruct acc as [ce ca].
      destruct (bool_decide _); cbn in *; [|assumption].
      apply elem_of_union. now right.
    - unfold step. destruct acc as [ce ca].
      destruct (bool_decide _); cbn in *; [|assumption].
      apply elem_of_foldl_add. now left. }
  generalize (∅ : gset string, ∅ : gset string).
  revert Hin. generalize (ProcessGroups cluster).
  induction l as [|x l IH]; intros Hin acc; [inversion Hin|].
  cbn [foldl]. apply elem_of_cons in Hin as [<-|Hin].
  - destruct (Hmono l (step acc pg)) as [H1 H2].
    assert (Hstep : GetExclusionString pg ∈ (step acc pg).1 /\
                    forall a, a ∈ Addresses pg -> a ∈ (step acc pg).2).
    { unfold step. destruct acc as [ce ca].
      rewrite (bool_decide_eq_true_2 _ Hcoord). cbn. split.
      - apply elem_of_union. left. now apply elem_of_singleton.
      - intros a Ha. apply elem_of_foldl_add. now right. }
    destruct Hstep as [Hs1 Hs2]. split; [now apply H1|].
    intros a Ha. now apply H2, Hs2.
  - now apply IH.
Qed.

(** *** From the candidates to the exclude call *)

#[local] Arguments classLoop : simpl never.
#[local] Arguments globalMode : simpl never.
#[local] Arguments coordinatorSets : simpl never.
#[local] Arguments coordinatorExcluded : simpl never.
#[local] Arguments setSecondsSinceLastRecovered : simpl never.
#[local] Arguments len : simpl never.

Lemma decideExclusions_spec env r cluster adminClient status cands s s' o :
  decideExclusions env r cluster adminClient status cands s = (s', o) ->
  (exists evs, trace s' = trace s ++ evs /\ noExcludeCall evs) /\
  statusObject s' = statusObject s /\
  match o with
  | Continue (allExcluded, toExclude) =>
      CanSafelyExcludeProcessesWithRecoveryState env cluster status
        (MinimumRecoveryTimeForExclusion r) = None /\
      exists desired ready,
        GetProcessCountsWithDefaults cluster = inr desired /\
        transactionSystemExclusionAllowed
          (classLoop env r cluster cands desired ready) = true /\
        (allProcessesExcluded (classLoop env r cluster cands desired ready) = false ->
         allExcluded = false) /\
        (globalMode cluster = false ->
         toExclude = fdbProcessesToExclude (classLoop env r cluster cands desired ready))
  | Return rq => exists q, rq = Some q /\ delayedRequeue q = true
  | Panic _ => DatabaseClientProvider_ r = None
  end.
Proof.
  intros Hrun.
  unfold decideExclusions, takeLock, getLockClient, getDatabaseClientProvider,
    globalSynchronization in Hrun.
  destruct s as [tr so]. run_pass Hrun.
  all: split; [solve_suffix|].
  all: split; [reflexivity|].
  all: try (eexists; split; reflexivity).
  all: try assumption.
  all: split; [first [reflexivity|assumption]|]; do 2 eexists;
    split; [first [reflexivity|eassumption]|];
    split; [apply negb_false_iff; eassumption|]; split.
  all: try (intros Hg; congruence).
  all: try (intros Hall; first [exact Hall | rewrite Hall; now destruct (negb _)]).
  all: try reflexivity.
Qed.

(** *** The exclude call and what follows it *)

Lemma excludeAndRotate_spec env r cluster adminClient status ce ca allExcluded toExclude
    s s' o :
  excludeAndRotate env r cluster adminClient status ce ca allExcluded toExclude s
    = (s', o) ->
  let zeroed := setSecondsSinceLastRecovered 0%float status in
  let pre := trace s ++ [CallRecorderEvent "ExcludingProcesses" toExclude] in
  exists post,
    trace s' = pre ++ CallExcludeProcessesWithNoWait toExclude true :: post /\
    noExcludeCall post /\
    (forall st, CallChangeCoordinators st ∈ post -> st = zeroed) /\
    statusObject s' = Some zeroed /\
    match ExcludeProcessesWithNoWait adminClient pre toExclude true with
    | Some err => post = [] /\ o = Return (Some (requeueDelayedError err))
    | None =>
        (if coordinatorExcluded ce ca toExclude
         then exists post', post = CallChangeCoordinators zeroed :: post'
         else post = []) /\
        ((exists err, o = Return (Some (requeueDelayedError err))) \/
         o = Return (if allExcluded then None else Some requeueFiveMinutes))
    end.
Proof.
  intros Hrun zeroed pre. subst zeroed pre.
  unfold excludeAndRotate in Hrun.
  destruct s as [tr so]. cbn [trace statusObject].
  run_pass Hrun.
  all: eexists; rewrite <- ?app_assoc; cbn [app]; split; [reflexivity|].
  all: split; [quiet_suffix|].
  all: split;
    [intros st Hin;
     repeat (apply elem_of_cons in Hin as [Hin|Hin];
             [try discriminate Hin; try (injection Hin as ->; reflexivity)|]);
     inversion Hin|].
  all: split; [reflexivity|].
  all: split;
    [first [reflexivity | eexists; reflexivity]
    |first [reflexivity | left; eexists; reflexivity | right; reflexivity]].
Qed.


(** *** The whole pass *)

Lemma runPass_with_candidates env r cluster status0 adminClient s1 status cands :
  hasCandidates r cluster status0 adminClient s1 status cands ->
  runPass env r cluster status0 =
    let '(s', o) := exclusionPhase env r cluster adminClient status cands s1 in
    ({| trace := trace s' ++ [CallClose]; statusObject := statusObject s' |}, o).
Proof.
  intros (provider & Hp & Hac & Hg).
  unfold runPass, reconcile, getAdminClient, getDatabaseClientProvider, deferring.
  rewrite Hp. unfold_pass. cbn. rewrite Hac, Hg. reflexivity.
Qed.

Lemma runPass_cases env r cluster status0 sf o :
  runPass env r cluster status0 = (sf, o) ->
  noExcludeCall (trace sf) \/
  exists adminClient s1 status cands,
    hasCandidates r cluster status0 adminClient s1 status cands.
Proof.
  intros Hrun.
  unfold runPass, reconcile, getAdminClient, getDatabaseClientProvider, deferring in Hrun.
  destruct (DatabaseClientProvider_ r) as [provider|] eqn:Hp.
  - unfold_pass. cbn in Hrun.
    destruct (GetAdminClientWithLogger provider [] cluster) as [err|adminClient] eqn:Hac.
    + simplify_eq. left. cbn. quiet_suffix.
    + destruct (gatherCandidates cluster adminClient _) as [s1 o1] eqn:Hg.
      destruct (gatherCandidates_spec _ _ _ _ _ Hg) as [(evs & Htr & Hquiet) _].
      destruct o1 as [[status cands]| |].
      * right. exists adminClient, s1, status, cands, provider. now repeat split.
      * simplify_eq. left. cbn. rewrite Htr. cbn. quiet_suffix. exact Hquiet.
      * simplify_eq. left. cbn. rewrite Htr. cbn. quiet_suffix. exact Hquiet.
  - unfold_pass. cbn in Hrun. simplify_eq. left. cbn. quiet_suffix.
Qed.

Lemma hasCandidates_quiet r cluster status0 adminClient s1 status cands :
  hasCandidates r cluster status0 adminClient s1 status cands ->
  noExcludeCall (trace s1) /\ statusObject s1 = Some status /\
  DatabaseClientProvider_ r <> None.
Proof.
  intros (provider & Hp & Hac & Hg).
  destruct (gatherCandidates_spec _ _ _ _ _ Hg) as [(evs & Htr & Hquiet) Hc].
  destruct (Hc status cands eq_refl) as (Hso & _).
  split; [|split; [assumption|congruence]].
  rewrite Htr. cbn. quiet_suffix. exact Hquiet.
Qed.

(** Either the exclusion phase stops before the exclude call, with a
    delayed requeue, or it gets to [excludeAndRotate]. *)
Lemma exclusionPhase_cases env r cluster adminClient status cands s1 s' o :
  DatabaseClientProvider_ r <> None ->
  exclusionPhase env r cluster adminClient status cands s1 = (s', o) ->
  ((exists evs, trace s' = trace s1 ++ evs /\ noExcludeCall evs) /\
   statusObject s' = statusObject s1 /\
   exists q, o = Return (Some q) /\ delayedRequeue q = true /\
     (forall err, CanSafelyExcludeProcessesWithRecoveryState env cluster status
                    (MinimumRecoveryTimeForExclusion r) = Some err ->
                  q = requeueTenSeconds err /\ s' = s1)) \/
  (exists s2 allExcluded toExclude,
     decideExclusions env r cluster adminClient status cands s1
       = (s2, Continue (allExcluded, toExclude)) /\
     excludeAndRotate env r cluster adminClient status
       (coordinatorSets cluster status).1 (coordinatorSets cluster status).2
       allExcluded toExclude s2 = (s', o)).
Proof.
  intros Hprovider Hrun. unfold exclusionPhase in Hrun.
  destruct (coordinatorSets cluster status) as [ce ca]. cbn [fst snd].
  unfold mbind, M_bind in Hrun.
  destruct (decideExclusions env r cluster adminClient status cands s1)
    as [s2 o1] eqn:Hd.
  pose proof (decideExclusions_spec _ _ _ _ _ _ _ _ _ Hd) as (Hsuffix & Hso & Ho).
  destruct o1 as [[allExcluded toExclude]|rq|msg].
  - right. exists s2, allExcluded, toExclude. now split.
  - left. simplify_eq. destruct Ho as (q & -> & Hq).
    split; [assumption|]. split; [assumption|].
    exists q. split; [reflexivity|]. split; [assumption|].
    intros err Herr. unfold decideExclusions in Hd. rewrite Herr in Hd.
    unfold returnWith in Hd. now simplify_eq.
  - contradiction.
Qed.

(** C6: when the pass has candidates and the check on the recovery state
    fails, the pass makes no further call but the deferred [Close]; it has
    issued no exclude call, and it returns a delayed requeue that carries
    the error of the check with a delay of ten seconds. *)
Theorem recovery_check_delays_ten_seconds
    env r cluster status0 adminClient s1 status cands err :
  hasCandidates r cluster status0 adminClient s1 status cands ->
  CanSafelyExcludeProcessesWithRecoveryState env cluster status
    (MinimumRecoveryTimeForExclusion r) = Some err ->
  runPass env r cluster status0 =
    ({| trace := trace s1 ++ [CallClose]; statusObject := statusObject s1 |},
     Return (Some {| delay := 10 * Duration.Second;
                     curError := Some err;
                     message := "";
                     delayedRequeue := true |})) /\
  noExcludeCall (trace s1 ++ [CallClose]).
Proof.
  intros Hc Herr. pose proof (hasCandidates_quiet _ _ _ _ _ _ _ Hc) as (Hquiet & _ & Hp).
  rewrite (runPass_with_candidates _ _ _ _ _ _ _ _ Hc).
  destruct (exclusionPhase env r cluster adminClient status cands s1) as [s' o] eqn:Hphase.
  destruct (exclusionPhase_cases _ _ _ _ _ _ _ _ _ Hp Hphase)
    as [(_ & _ & q & -> & _ & Hten)|(s2 & a & t & Hd & _)].
  - destruct (Hten err Herr) as [-> ->]. split; [reflexivity|].
    apply noExcludeCall_app; [assumption|]. quiet_suffix.
  - unfold decideExclusions in Hd. rewrite Herr in Hd. discriminate Hd.
Qed.

(** C1, amended: when a class of the transaction system has candidates and
    no exclusion is allowed for it, the pass issues no exclude call at
    all: the candidates of the other classes, allowed or not, are not
    excluded in this pass either, and the pass returns a delayed requeue. *)
Theorem blocked_transaction_class_suppresses_the_exclusion
    env r cluster status0 adminClient s1 status cands desired c sf o :
  rangeVisitsEachKeyOnce env ->
  hasCandidates r cluster status0 adminClient s1 status cands ->
  GetProcessCountsWithDefaults cluster = inr desired ->
  entriesOf (fdbProcessesToExcludeByClass cands) c <> [] ->
  IsTransaction c = true ->
  allowedFor env r cluster cands desired c <= 0 ->
  runPass env r cluster status0 = (sf, o) ->
  noExcludeCall (trace sf) /\
  exists q, o = Return (Some q) /\ delayedRequeue q = true.
Proof.
  intros Hrange Hc Hdesired Hcands Htx Hallowed Hrun.
  pose proof (hasCandidates_quiet _ _ _ _ _ _ _ Hc) as (Hquiet & _ & Hp).
  rewrite (runPass_with_candidates _ _ _ _ _ _ _ _ Hc) in Hrun.
  destruct (exclusionPhase env r cluster adminClient status cands s1) as [s' o'] eqn:Hphase.
  simplify_eq.
  destruct (exclusionPhase_cases _ _ _ _ _ _ _ _ _ Hp Hphase)
    as [((evs & Htr & Hevs) & _ & q & -> & Hq & _)|(s2 & a & t & Hd & _)].
  - split; [|now exists q]. cbn. rewrite Htr.
    repeat apply noExcludeCall_app; try assumption. quiet_suffix.
  - pose proof (decideExclusions_spec _ _ _ _ _ _ _ _ _ Hd)
      as (_ & _ & _ & desired' & ready & Hdesired' & Hallowed' & _).
    rewrite Hdesired in Hdesired'. injection Hdesired' as <-.
    rewrite (classLoop_blocks env r cluster cands desired ready c) in Hallowed';
      try assumption.
    discriminate Hallowed'.
Qed.


(** C10: in a pass that issues the exclude call, the status the pass works
    on has [SecondsSinceLastRecovered] set to 0 when the pass returns,
    whatever the exclude call answered: also when it answered with an
    error. *)
Theorem exclude_call_resets_seconds_since_last_recovered
    env r cluster status0 sf o addrs wait :
  runPass env r cluster status0 = (sf, o) ->
  CallExcludeProcessesWithNoWait addrs wait ∈ trace sf ->
  exists status, statusObject sf = Some status /\
                 SecondsSinceLastRecovered status = 0%float.
Proof.
  intros Hrun Hcall.
  destruct (runPass_cases _ _ _ _ _ _ Hrun)
    as [Hquiet|(adminClient & s1 & status & cands & Hc)];
    [now apply Hquiet in Hcall|].
  pose proof (hasCandidates_quiet _ _ _ _ _ _ _ Hc) as (Hquiet & _ & Hp).
  rewrite (runPass_with_candidates _ _ _ _ _ _ _ _ Hc) in Hrun.
  destruct (exclusionPhase env r cluster adminClient status cands s1) as [s' o'] eqn:Hphase.
  simplify_eq.
  destruct (exclusionPhase_cases _ _ _ _ _ _ _ _ _ Hp Hphase)
    as [((evs & Htr & Hevs) & _)|(s2 & allExcluded & toExclude & Hd & Hx)].
  - exfalso. cbn in Hcall. rewrite Htr in Hcall.
    revert Hcall. repeat apply noExcludeCall_app; try assumption. quiet_suffix.
  - destruct (excludeAndRotate_spec _ _ _ _ _ _ _ _ _ _ _ _ Hx)
      as (post & _ & _ & _ & Hso & _).
    exists (setSecondsSinceLastRecovered 0%float status). split; [exact Hso|reflexivity].
Qed.

(** Where the one exclude call of a list of calls sits. *)
Lemma exclude_call_position l1 l2 l1' l2' x addrs wait :
  l1 ++ x :: l2 = l1' ++ CallExcludeProcessesWithNoWait addrs wait :: l2' ->
  noExcludeCall l1 -> noExcludeCall l2 ->
  l1' = l1 /\ x = CallExcludeProcessesWithNoWait addrs wait /\ l2' = l2.
Proof.
  revert l1'. induction l1 as [|a l1 IH]; intros l1' Heq H1 H2.
  - destruct l1' as [|y l1']; cbn in Heq.
    + injection Heq as -> ->. now repeat split.
    + injection Heq as -> ->. exfalso. apply (H2 addrs wait).
      apply elem_of_app. right. left.
  - destruct l1' as [|y l1']; cbn in Heq.
    + injection Heq as -> _. exfalso. apply (H1 addrs wait). left.
    + injection Heq as -> Heq.
      destruct (IH l1' Heq) as (-> & -> & ->); [|assumption|now repeat split].
      intros a w Hin. apply (H1 a w). now right.
Qed.

(** C5: when the exclude call of a pass succeeds and one of the excluded
    addresses is the exclusion string or an address of a process group
    that the status lists as a coordinator, the next call of the pass is
    the change of coordinators. *)
Theorem excluded_coordinator_triggers_change_of_coordinators
    env r cluster status0 provider adminClient sf o pre post addrs wait status a pg :
  DatabaseClientProvider_ r = Some provider ->
  GetAdminClientWithLogger provider [] cluster = inr adminClient ->
  runPass env r cluster status0 = (sf, o) ->
  trace sf = pre ++ CallExcludeProcessesWithNoWait addrs wait :: post ->
  ExcludeProcessesWithNoWait adminClient pre addrs wait = None ->
  statusObject sf = Some status ->
  a ∈ addrs ->
  pg ∈ ProcessGroups cluster ->
  ProcessGroupID_ pg ∈ GetCoordinatorsFromStatus status ->
  AddressString a = GetExclusionString pg \/ AddressString a ∈ Addresses pg ->
  exists status' post', post = CallChangeCoordinators status' :: post'.
Proof.
  intros Hprovider Hclient Hrun Htrace Hok Hstatus Ha Hpg Hcoord Hmatch.
  destruct (runPass_cases _ _ _ _ _ _ Hrun)
    as [Hquiet|(adminClient' & s1 & status1 & cands & Hc)].
  { exfalso. apply (Hquiet addrs wait). rewrite Htrace.
    apply elem_of_app. right. left. }
  assert (adminClient' = adminClient) as ->.
  { destruct Hc as (provider' & Hp' & Hac' & _). congruence. }
  pose proof (hasCandidates_quiet _ _ _ _ _ _ _ Hc) as (Hquiet & _ & Hp).
  rewrite (runPass_with_candidates _ _ _ _ _ _ _ _ Hc) in Hrun.
  destruct (exclusionPhase env r cluster adminClient status1 cands s1) as [s' o'] eqn:Hphase.
  simplify_eq.
  destruct (exclusionPhase_cases _ _ _ _ _ _ _ _ _ Hp Hphase)
    as [((evs & Htr & Hevs) & _)|(s2 & allExcluded & toExclude & Hd & Hx)].
  { exfalso. cbn in Htrace.
    assert (Hin : CallExcludeProcessesWithNoWait addrs wait ∈ trace s' ++ [CallClose])
      by (rewrite Htrace; apply elem_of_app; right; left).
    rewrite Htr in Hin. revert Hin.
    repeat apply noExcludeCall_app; try assumption. quiet_suffix. }
  pose proof (decideExclusions_spec _ _ _ _ _ _ _ _ _ Hd) as ((evs & Htr2 & Hevs) & _).
  destruct (excludeAndRotate_spec _ _ _ _ _ _ _ _ _ _ _ _ Hx)
    as (post0 & Htr & Hpost0 & _ & Hso & Hanswer).
  cbn in Htrace, Hstatus. rewrite Hso in Hstatus. injection Hstatus as <-.
  rewrite Htr, <- app_assoc in Htrace. cbn [app] in Htrace.
  apply exclude_call_position in Htrace as (-> & Hcall & ->).
  - injection Hcall as <- <-. rewrite Hok in Hanswer.
    destruct Hanswer as [Hrotate _].
    destruct (coordinatorSets_complete cluster status1 pg Hpg Hcoord) as [Hce Hca].
    rewrite (coordinatorExcluded_true _ _ toExclude a Ha) in Hrotate.
    + destruct Hrotate as (post' & ->). now eexists _, _.
    + destruct Hmatch as [->|Hm]; [now left|right; now apply Hca].
  - rewrite Htr2. repeat apply noExcludeCall_app; try assumption. quiet_suffix.
  - apply noExcludeCall_app; [assumption|]. quiet_suffix.
Qed.

End PassProperties.

(** ** The pass on sample data *)

Module PassExamples.
Import Sample.

Lemma sample_range check rotation : rangeVisitsEachKeyOnce (environment check rotation).
Proof. intros m. reflexivity. Qed.

Ltac sample_candidates :=
  eexists; split; [reflexivity|]; split; [reflexivity|]; vm_compute; reflexivity.

Lemma threeOfFive_candidates excludeAnswer coordinators :
  hasCandidates (reconciler excludeAnswer) threeOfFive (Some (statusWith coordinators))
    (adminClient excludeAnswer) (started (statusWith coordinators))
    (statusWith coordinators) (getProcessesToExclude [] threeOfFive ∅ ∅).
Proof. sample_candidates. Qed.

Lemma logAndStorage_candidates excludeAnswer coordinators :
  hasCandidates (reconciler excludeAnswer) logAndStorage (Some (statusWith coordinators))
    (adminClient excludeAnswer) (started (statusWith coordinators))
    (statusWith coordinators) (getProcessesToExclude [] logAndStorage ∅ ∅).
Proof. sample_candidates. Qed.

Lemma run_is_pair {A B} (p : A * B) : p = (p.1, p.2).
Proof. now destruct p. Qed.

(** C1, as stated, fails: no exclusion is allowed for class log, which has
    a candidate, and two are allowed for class storage, which has one; the
    pass ends without any call but [Close]: the storage candidate is not
    excluded, and the pass returns the requeue of lines 233-236. *)
Lemma storage_waits_for_the_transaction_system :
  let env := environment None None in
  let r := reconciler None in
  let cands := getProcessesToExclude [] logAndStorage ∅ ∅ in
  let desired := list_to_map [("log", 3); ("storage", 3)] in
  (IsTransaction "log" = true /\ IsTransaction "storage" = false /\
   len (entriesOf (fdbProcessesToExcludeByClass cands) "log") = 1 /\
   allowedFor env r logAndStorage cands desired "log" = 0 /\
   len (entriesOf (fdbProcessesToExcludeByClass cands) "storage") = 1 /\
   allowedFor env r logAndStorage cands desired "storage" = 2) /\
  runPass env r logAndStorage (Some (statusWith [])) =
    ({| trace := [CallGetAdminClientWithLogger; CallClose];
        statusObject := Some (statusWith []) |},
     Return (Some (requeueMessage
       "more exclusions needed but not allowed, have to wait until new processes for the transaction system are up to reduce number of recoveries."))).
Proof. vm_compute. repeat split. Qed.

Lemma blocked_transaction_class_suppresses_the_exclusion_witness :
  let run := runPass (environment None None) (reconciler None) logAndStorage
               (Some (statusWith [])) in
  noExcludeCall (trace run.1) /\
  exists q, run.2 = Return (Some q) /\ delayedRequeue q = true.
Proof.
  intros run.
  refine (blocked_transaction_class_suppresses_the_exclusion
            (environment None None) (reconciler None) logAndStorage
            (Some (statusWith [])) (adminClient None) (started (statusWith []))
            (statusWith []) (getProcessesToExclude [] logAndStorage ∅ ∅)
            (list_to_map [("log", 3); ("storage", 3)]) "log" run.1 run.2
            (sample_range None None) (logAndStorage_candidates None [])
            eq_refl _ eq_refl _ (run_is_pair run)).
  - vm_compute. discriminate.
  - vm_compute. discriminate.
Defined.

Lemma recovery_check_delays_ten_seconds_witness :
  runPass (environment (Some "cluster has recovered 5 seconds ago") None)
          (reconciler None) threeOfFive (Some (statusWith [])) =
    ({| trace := trace (started (statusWith [])) ++ [CallClose];
        statusObject := statusObject (started (statusWith [])) |},
     Return (Some {| delay := 10 * Duration.Second;
                     curError := Some "cluster has recovered 5 seconds ago";
                     message := "";
                     delayedRequeue := true |})) /\
  noExcludeCall (trace (started (statusWith [])) ++ [CallClose]).
Proof.
  exact (recovery_check_delays_ten_seconds
           (environment (Some "cluster has recovered 5 seconds ago") None)
           (reconciler None) threeOfFive (Some (statusWith [])) (adminClient None)
           (started (statusWith [])) (statusWith [])
           (getProcessesToExclude [] threeOfFive ∅ ∅)
           "cluster has recovered 5 seconds ago"
           (threeOfFive_candidates None []) eq_refl).
Defined.

(** The scenario of the specification: five valid processes of five
    desired with a fault tolerance of one allow one exclusion; of the
    three candidates the first is excluded, and the pass asks to be run
    again in five minutes. *)
Lemma one_of_three_is_excluded :
  allowedFor (environment None None) (reconciler None) threeOfFive
    (getProcessesToExclude [] threeOfFive ∅ ∅) (list_to_map [("storage", 5)]) "storage" = 1 /\
  len (entriesOf (fdbProcessesToExcludeByClass (getProcessesToExclude [] threeOfFive ∅ ∅))
         "storage") = 3 /\
  runPass (environment None None) (reconciler None) threeOfFive (Some (statusWith [])) =
    ({| trace := [CallGetAdminClientWithLogger;
                  CallRecorderEvent "ExcludingProcesses" [ip "10.0.0.3"];
                  CallExcludeProcessesWithNoWait [ip "10.0.0.3"] true;
                  CallClose];
        statusObject := Some (setSecondsSinceLastRecovered 0%float (statusWith [])) |},
     Return (Some requeueFiveMinutes)).
Proof. vm_compute. repeat split. Qed.



Lemma exclude_call_resets_seconds_since_last_recovered_witness :
  let run := runPass (environment None None) (reconciler (Some "exclude timed out"))
               threeOfFive (Some (statusWith [])) in
  run.2 = Return (Some (requeueDelayedError "exclude timed out")) /\
  exists status, statusObject run.1 = Some status /\
                 SecondsSinceLastRecovered status = 0%float.
Proof.
  intros run. split; [vm_compute; reflexivity|].
  refine (exclude_call_resets_seconds_since_last_recovered
            (environment None None) (reconciler (Some "exclude timed out"))
            threeOfFive (Some (statusWith [])) run.1 run.2 [ip "10.0.0.3"] true
            (run_is_pair run) _).
  vm_compute. right. right. left.
Defined.

Lemma excluded_coordinator_triggers_change_of_coordinators_witness :
  exists status' post',
    [CallChangeCoordinators (setSecondsSinceLastRecovered 0%float (statusWith ["storage-3"]));
     CallUpdateOrApply; CallClose]
    = CallChangeCoordinators status' :: post'.
Proof.
  refine (excluded_coordinator_triggers_change_of_coordinators
            (environment None None) (reconciler None) threeOfFive
            (Some (statusWith ["storage-3"])) (provider None) (adminClient None)
            (runPass (environment None None) (reconciler None) threeOfFive
               (Some (statusWith ["storage-3"]))).1
            (runPass (environment None None) (reconciler None) threeOfFive
               (Some (statusWith ["storage-3"]))).2
            [CallGetAdminClientWithLogger;
             CallRecorderEvent "ExcludingProcesses" [ip "10.0.0.3"]]
            _ [ip "10.0.0.3"] true
            (setSecondsSinceLastRecovered 0%float (statusWith ["storage-3"]))
            (ip "10.0.0.3") (removing (group "storage-3" "storage" "10.0.0.3"))
            eq_refl eq_refl (run_is_pair _) _ eq_refl _ _ _ _ _).
  - vm_compute. reflexivity.
  - vm_compute. reflexivity.
  - left.
  - vm_compute. right. right. left.
  - apply (bool_decide_unpack _). vm_compute. exact I.
  - right. vm_compute. left.
Defined.

End PassExamples.

(** * More properties *)

(** ** The candidates of the exclusion step *)

Section CandidateProperties.
Context `{Api}.

Lemma addressLoop_left cur pg :
  addressLoop cur (Addresses pg) =
    (forallb (fun a => bool_decide (a ∈ cur)) (Addresses pg), addressesLeft cur pg).
Proof. apply addressLoop_spec. Qed.

Lemma entriesOf_countOngoing c c' st :
  entriesOf (fdbProcessesToExcludeByClass (countOngoing c st)) c'
  = entriesOf (fdbProcessesToExcludeByClass st) c'.
Proof. reflexivity. Qed.

(** One iteration appends what [candidateEntry] gives, under the class of
    the process group. *)
Lemma processGroupStep_appends cluster cur pending st pg c :
  entriesOf (fdbProcessesToExcludeByClass
               (processGroupStep cluster cur pending st pg)) c =
  entriesOf (fdbProcessesToExcludeByClass st) c ++
  (if bool_decide (ProcessClass_ pg = c)
   then option_list (candidateEntry cluster cur pg) else []).
Proof.
  assert (Hnone : entriesOf (fdbProcessesToExcludeByClass st) c =
                  entriesOf (fdbProcessesToExcludeByClass st) c ++
                  (if bool_decide (ProcessClass_ pg = c) then [] else []))
    by (destruct (bool_decide _); now rewrite app_nil_r).
  unfold processGroupStep, candidateEntry, needsExclusion.
  destruct (bool_decide (ProcessClass_ pg = ProcessClassTest)); cbn [negb andb];
    [exact Hnone|].
  destruct (IsMarkedForRemoval pg); cbn [negb andb]; [|exact Hnone].
  destruct (IsExcluded pg); cbn [negb andb]; [exact Hnone|].
  destruct (bool_decide (GetExclusionString pg ∈ cur)); cbn [negb andb];
    [exact Hnone|].
  set (st' := match pending !! ProcessGroupID_ pg with
              | Some _ => st
              | None => markPending (ProcessGroupID_ pg) st
              end).
  assert (Hst' : fdbProcessesToExcludeByClass st' = fdbProcessesToExcludeByClass st)
    by (unfold st'; now destruct (pending !! ProcessGroupID_ pg)).
  destruct (UseLocalitiesForExclusion cluster).
  - assert (Hboth : forall (b : bool) (x : candidates), (if b then x else x) = x)
      by (now intros []).
    rewrite Hboth. cbn [appendEntry fdbProcessesToExcludeByClass option_list].
    rewrite entriesOf_insert, Hst'.
    destruct (decide (ProcessClass_ pg = c)) as [Hc|Hc].
    + rewrite (bool_decide_eq_true_2 _ Hc). now rewrite Hc.
    + rewrite (bool_decide_eq_false_2 _ Hc). now rewrite app_nil_r.
  - rewrite addressLoop_left.
    assert (Hsame : forall b x,
              fdbProcessesToExcludeByClass
                (if b : bool then countOngoing (ProcessClass_ pg) x else x)
              = fdbProcessesToExcludeByClass x) by (now intros []).
    rewrite Hsame.
    destruct (addressesLeft cur pg) as [|a rest] eqn:Hleft.
    + change (len (@nil ProcessAddress) >? 0) with false. cbv iota.
      rewrite Hst'. exact Hnone.
    + replace (len (a :: rest) >? 0) with true
        by (symmetry; apply Z.gtb_gt; unfold len; cbn; lia).
      cbn [appendEntry fdbProcessesToExcludeByClass option_list].
      rewrite entriesOf_insert, Hst'.
      destruct (decide (ProcessClass_ pg = c)) as [Hc|Hc].
      * rewrite (bool_decide_eq_true_2 _ Hc). now rewrite Hc.
      * rewrite (bool_decide_eq_false_2 _ Hc). now rewrite app_nil_r.
Qed.

(** The entries of a class are what the process groups of that class
    give, one after the other. *)
Lemma candidates_by_class exclusions cluster pending upd c :
  entriesOf (fdbProcessesToExcludeByClass
               (getProcessesToExclude exclusions cluster pending upd)) c =
  omap (candidateEntry cluster (currentExclusionMapOf exclusions))
       (List.filter (fun pg => bool_decide (ProcessClass_ pg = c)) (ProcessGroups cluster)).
Proof.
  unfold getProcessesToExclude.
  set (cur := currentExclusionMapOf exclusions).
  assert (Hgen : forall groups st,
            entriesOf (fdbProcessesToExcludeByClass
                         (foldl (processGroupStep cluster cur pending) st groups)) c =
            entriesOf (fdbProcessesToExcludeByClass st) c ++
            omap (candidateEntry cluster cur)
                 (List.filter (fun pg => bool_decide (ProcessClass_ pg = c)) groups)).
  { induction groups as [|pg groups IH]; intros st; cbn [foldl List.filter].
    - now rewrite app_nil_r.
    - rewrite IH, processGroupStep_appends, <- app_assoc. f_equal.
      destruct (bool_decide (ProcessClass_ pg = c)); [|reflexivity].
      cbn [omap list_omap]. now destruct (candidateEntry cluster cur pg). }
  rewrite Hgen. reflexivity.
Qed.

(** X1: a process group that is not of class test, is marked for removal,
    is not excluded and whose exclusion string is not in the exclusion
    list is a candidate of its class whenever the cluster excludes by
    locality or one of its addresses is not in the list yet; it is listed
    with its exclusion string, respectively with exactly the addresses
    that are not in the list. *)
Theorem process_groups_to_exclude_are_candidates
    (exclusions : list ProcessAddress) (cluster : FoundationDBCluster)
    (pending : gmap ProcessGroupID Time) (upd : gmap ProcessGroupID UpdateAction)
    (pg : ProcessGroupStatus) :
  pg ∈ ProcessGroups cluster ->
  ProcessClass_ pg <> ProcessClassTest ->
  IsMarkedForRemoval pg = true ->
  IsExcluded pg = false ->
  ~ alreadyExcluded exclusions (GetExclusionString pg) ->
  (UseLocalitiesForExclusion cluster = true \/
   exists a, a ∈ Addresses pg /\ ~ alreadyExcluded exclusions a) ->
  {| processGroupID := ProcessGroupID_ pg;
     addresses :=
       if UseLocalitiesForExclusion cluster
       then [addressOfString (GetExclusionString pg)]
       else addressesLeft (currentExclusionMapOf exclusions) pg |}
  ∈ entriesOf (fdbProcessesToExcludeByClass
                 (getProcessesToExclude exclusions cluster pending upd))
              (ProcessClass_ pg).
Proof.
  intros Hin Htest Hm He Hx Hleft. rewrite candidates_by_class.
  apply list_elem_of_omap. exists pg. split.
  - apply list_elem_of_In, filter_In. split; [now apply list_elem_of_In|].
    now apply bool_decide_eq_true_2.
  - unfold candidateEntry, needsExclusion.
    rewrite (bool_decide_eq_false_2 _ Htest), Hm, He.
    rewrite <- elem_of_currentExclusionMapOf in Hx.
    rewrite (bool_decide_eq_false_2 _ Hx). cbn [negb andb].
    destruct (UseLocalitiesForExclusion cluster); [reflexivity|].
    destruct Hleft as [Hl|(a & Ha & Hnot)]; [discriminate Hl|].
    destruct (addressesLeft (currentExclusionMapOf exclusions) pg) eqn:Hleft;
      [|reflexivity].
    exfalso. unfold addressesLeft in Hleft. apply map_eq_nil in Hleft.
    assert (Hin' : In a (List.filter
                           (fun a => negb (bool_decide (a ∈ currentExclusionMapOf exclusions)))
                           (Addresses pg))).
    { apply filter_In. split; [now apply list_elem_of_In|].
      apply negb_true_iff, bool_decide_eq_false_2.
      now rewrite elem_of_currentExclusionMapOf. }
    rewrite Hleft in Hin'. destruct Hin'.
Qed.

Lemma candidateEntry_id cluster cur pg e :
  candidateEntry cluster cur pg = Some e -> processGroupID e = ProcessGroupID_ pg.
Proof.
  unfold candidateEntry. destruct (needsExclusion cur pg); [|discriminate].
  destruct (UseLocalitiesForExclusion cluster).
  - now intros [= <-].
  - destruct (addressesLeft cur pg); [discriminate|]. now intros [= <-].
Qed.

(** X2: the candidates of a class are listed in the order in which the
    status lists their process groups, each process group at most as often
    as the status lists it; and the candidates do not depend on the
    pending exclusions of the coordination state. *)
Theorem candidates_keep_discovery_order
    (exclusions : list ProcessAddress) (cluster : FoundationDBCluster)
    (pending pending' : gmap ProcessGroupID Time)
    (upd upd' : gmap ProcessGroupID UpdateAction) (c : ProcessClass) :
  processGroupID <$>
    entriesOf (fdbProcessesToExcludeByClass
                 (getProcessesToExclude exclusions cluster pending upd)) c
  `sublist_of` ProcessGroupID_ <$> ProcessGroups cluster /\
  entriesOf (fdbProcessesToExcludeByClass
               (getProcessesToExclude exclusions cluster pending upd)) c
  = entriesOf (fdbProcessesToExcludeByClass
                 (getProcessesToExclude exclusions cluster pending' upd')) c.
Proof.
  split; [|now rewrite !candidates_by_class].
  rewrite candidates_by_class.
  generalize (ProcessGroups cluster). intros groups.
  induction groups as [|pg groups IH]; cbn [List.filter]; [constructor|].
  destruct (bool_decide (ProcessClass_ pg = c)).
  - cbn [omap list_omap].
    destruct (candidateEntry cluster (currentExclusionMapOf exclusions) pg) as [e|] eqn:He.
    + rewrite !fmap_cons, (candidateEntry_id _ _ _ _ He). now constructor.
    + rewrite fmap_cons. now constructor.
  - rewrite fmap_cons. now constructor.
Qed.

(** The keys of the candidate map are classes other than test, and each
    comes with at least one entry. *)
Lemma candidate_map_entries exclusions cluster pending upd c l :
  fdbProcessesToExcludeByClass (getProcessesToExclude exclusions cluster pending upd) !! c
    = Some l ->
  l <> [] /\ c <> ProcessClassTest.
Proof.
  unfold getProcessesToExclude.
  pose (I := fun (_ : list ProcessGroupStatus) (st : candidates) =>
          forall c l, fdbProcessesToExcludeByClass st !! c = Some l ->
                      l <> [] /\ c <> ProcessClassTest).
  assert (Hinv : I ([] ++ ProcessGroups cluster)
                   (foldl (processGroupStep cluster (currentExclusionMapOf exclusions) pending)
                      {| fdbProcessesToExcludeByClass := ∅;
                         ongoingExclusionsByClass := ∅;
                         updatePendingExclusions := upd |}
                      (ProcessGroups cluster))).
  { apply foldl_invariant.
    - intros seen st pg HI c' l'. unfold processGroupStep.
      destruct (bool_decide (ProcessClass_ pg = ProcessClassTest)) eqn:Htest;
        [apply HI|].
      apply bool_decide_eq_false in Htest.
      destruct (negb (IsMarkedForRemoval pg)); [apply HI|].
      destruct (IsExcluded pg); [apply HI|].
      destruct (bool_decide (GetExclusionString pg ∈ currentExclusionMapOf exclusions))
        eqn:Hx; [apply HI|].
      set (st' := match pending !! ProcessGroupID_ pg with
                  | Some _ => st
                  | None => markPending (ProcessGroupID_ pg) st
                  end).
      assert (Hst' : fdbProcessesToExcludeByClass st' = fdbProcessesToExcludeByClass st)
        by (unfold st'; now destruct (pending !! ProcessGroupID_ pg)).
      assert (Happend : forall e,
                fdbProcessesToExcludeByClass (appendEntry (ProcessClass_ pg) e st') !! c'
                  = Some l' -> l' <> [] /\ c' <> ProcessClassTest).
      { intros e. cbn [appendEntry fdbProcessesToExcludeByClass].
        rewrite lookup_insert. destruct (decide (ProcessClass_ pg = c')) as [<-|Hne].
        - intros [= <-]. split; [|assumption]. now destruct (entriesOf _ _).
        - rewrite Hst'. apply HI. }
      destruct (UseLocalitiesForExclusion cluster).
      + destruct (_ =? 0); apply Happend.
      + destruct (addressLoop _ _) as [allExcluded addrs].
        assert (Hsame : forall b x,
                  fdbProcessesToExcludeByClass
                    (if b : bool then countOngoing (ProcessClass_ pg) x else x)
                  = fdbProcessesToExcludeByClass x) by (now intros []).
        rewrite Hsame. destruct (_ >? 0); [apply Happend|rewrite Hst'; apply HI].
    - intros c' l'. cbn. now rewrite lookup_empty. }
  apply Hinv.
Qed.

(** X3: no process group of class test is ever a candidate, and every
    class of the candidate map has at least one candidate, so that an
    empty map is the same as having no candidate at all. *)
Theorem candidate_map_has_no_empty_class
    (exclusions : list ProcessAddress) (cluster : FoundationDBCluster)
    (pending : gmap ProcessGroupID Time) (upd : gmap ProcessGroupID UpdateAction) :
  let byClass := fdbProcessesToExcludeByClass
                   (getProcessesToExclude exclusions cluster pending upd) in
  byClass !! ProcessClassTest = None /\
  (forall c, byClass !! c <> Some []) /\
  (byClass = ∅ <-> forall c, entriesOf byClass c = []).
Proof.
  intros byClass.
  assert (Hentries : forall c l, byClass !! c = Some l -> l <> [] /\ c <> ProcessClassTest)
    by (intros c l; apply candidate_map_entries).
  split; [|split].
  - destruct (byClass !! ProcessClassTest) as [l|] eqn:Hl; [|reflexivity].
    now destruct (Hentries _ _ Hl).
  - intros c Hc. now destruct (Hentries _ _ Hc).
  - split.
    + intros -> c. unfold entriesOf. now rewrite lookup_empty.
    + intros Hall. apply map_empty. intros c.
      destruct (byClass !! c) as [l|] eqn:Hl; [|reflexivity].
      specialize (Hall c). unfold entriesOf in Hall. rewrite Hl in Hall. cbn in Hall.
      subst l. now destruct (Hentries _ _ Hl).
Qed.

(** *** Ongoing exclusions and pending registrations *)

Lemma countOf_insert (m : gmap ProcessClass Z) c c' v :
  countOf (<[ c := v ]> m) c' = if decide (c = c') then v else countOf m c'.
Proof.
  unfold countOf. rewrite lookup_insert. now destruct (decide (c = c')).
Qed.

Lemma processGroupStep_ongoing cluster cur pending st pg c :
  countOf (ongoingExclusionsByClass (processGroupStep cluster cur pending st pg)) c =
  if bool_decide (ProcessClass_ pg = c) && countsAsOngoing cluster cur pg
  then Int64.incr (countOf (ongoingExclusionsByClass st) c)
  else countOf (ongoingExclusionsByClass st) c.
Proof.
  assert (Hcount : forall x,
            countOf (ongoingExclusionsByClass (countOngoing (ProcessClass_ pg) x)) c =
            if bool_decide (ProcessClass_ pg = c)
            then Int64.incr (countOf (ongoingExclusionsByClass x) c)
            else countOf (ongoingExclusionsByClass x) c).
  { intros x. cbn [countOngoing ongoingExclusionsByClass]. rewrite countOf_insert.
    destruct (decide (ProcessClass_ pg = c)) as [Hc|Hc].
    - rewrite (bool_decide_eq_true_2 _ Hc). now rewrite Hc.
    - now rewrite (bool_decide_eq_false_2 _ Hc). }
  unfold processGroupStep, countsAsOngoing.
  destruct (bool_decide (ProcessClass_ pg = ProcessClassTest)); cbn [negb andb];
    [now rewrite andb_false_r|].
  destruct (IsMarkedForRemoval pg); cbn [negb andb]; [|now rewrite andb_false_r].
  destruct (IsExcluded pg); cbn [negb andb]; [now rewrite andb_false_r|].
  destruct (bool_decide (GetExclusionString pg ∈ cur)); cbn [negb andb orb].
  { rewrite Hcount. now rewrite andb_true_r. }
  set (st' := match pending !! ProcessGroupID_ pg with
              | Some _ => st
              | None => markPending (ProcessGroupID_ pg) st
              end).
  assert (Hst' : ongoingExclusionsByClass st' = ongoingExclusionsByClass st)
    by (unfold st'; now destruct (pending !! ProcessGroupID_ pg)).
  destruct (UseLocalitiesForExclusion cluster); cbn [negb andb].
  - assert (Hboth : forall (b : bool) (x : candidates), (if b then x else x) = x)
      by (now intros []).
    rewrite Hboth. cbn [appendEntry ongoingExclusionsByClass].
    now rewrite Hst', andb_false_r.
  - rewrite addressLoop_left.
    assert (Hkeep : forall (b : bool) e x,
              ongoingExclusionsByClass (if b then appendEntry (ProcessClass_ pg) e x else x)
              = ongoingExclusionsByClass x) by (now intros []).
    destruct (forallb _ (Addresses pg)).
    + rewrite Hcount, Hkeep, Hst'. now rewrite andb_true_r.
    + rewrite Hkeep, Hst'. now rewrite andb_false_r.
Qed.

(** X4: the ongoing exclusions of a class are the process groups of that
    class (not of class test) that are marked for removal and not
    excluded, and whose exclusion string is in the exclusion list or, when
    the cluster excludes by address, all of whose addresses are in the
    list: a group without any address among them. *)
Theorem ongoing_exclusions_count
    (exclusions : list ProcessAddress) (cluster : FoundationDBCluster)
    (pending : gmap ProcessGroupID Time) (upd : gmap ProcessGroupID UpdateAction)
    (c : ProcessClass) :
  len (ProcessGroups cluster) <= Int64.max_int ->
  countOf (ongoingExclusionsByClass
             (getProcessesToExclude exclusions cluster pending upd)) c =
  len (List.filter
         (fun pg => bool_decide (ProcessClass_ pg = c)
                    && countsAsOngoing cluster (currentExclusionMapOf exclusions) pg)
         (ProcessGroups cluster)).
Proof.
  unfold getProcessesToExclude. set (cur := currentExclusionMapOf exclusions).
  assert (Hgen : forall groups st,
            0 <= countOf (ongoingExclusionsByClass st) c ->
            countOf (ongoingExclusionsByClass st) c + len groups <= Int64.max_int ->
            countOf (ongoingExclusionsByClass
                       (foldl (processGroupStep cluster cur pending) st groups)) c =
            countOf (ongoingExclusionsByClass st) c +
            len (List.filter
                   (fun pg => bool_decide (ProcessClass_ pg = c)
                              && countsAsOngoing cluster cur pg) groups)).
  { induction groups as [|pg groups IH]; intros st H0 Hmax; cbn [foldl List.filter].
    - unfold len. cbn. lia.
    - rewrite len_cons in Hmax. pose proof (len_nonneg groups).
      pose proof (processGroupStep_ongoing cluster cur pending st pg c) as Hstep.
      destruct (bool_decide (ProcessClass_ pg = c) && countsAsOngoing cluster cur pg).
      + rewrite incr_small in Hstep by lia.
        rewrite IH; rewrite Hstep; rewrite ?len_cons; lia.
      + rewrite IH; rewrite Hstep; lia. }
  intros Hlen. rewrite Hgen; cbn; unfold countOf; rewrite ?lookup_empty; cbn; lia.
Qed.

Lemma processGroupStep_pending cluster cur pending st pg :
  updatePendingExclusions (processGroupStep cluster cur pending st pg) =
  if needsExclusion cur pg && bool_decide (pending !! ProcessGroupID_ pg = None)
  then <[ ProcessGroupID_ pg := UpdateActionAdd ]> (updatePendingExclusions st)
  else updatePendingExclusions st.
Proof.
  unfold processGroupStep, needsExclusion.
  destruct (bool_decide (ProcessClass_ pg = ProcessClassTest)); cbn [negb andb];
    [reflexivity|].
  destruct (IsMarkedForRemoval pg); cbn [negb andb]; [|reflexivity].
  destruct (IsExcluded pg); cbn [negb andb]; [reflexivity|].
  destruct (bool_decide (GetExclusionString pg ∈ cur)); cbn [negb andb];
    [reflexivity|].
  set (st' := match pending !! ProcessGroupID_ pg with
              | Some _ => st
              | None => markPending (ProcessGroupID_ pg) st
              end).
  assert (Hst' : updatePendingExclusions st' =
                 if bool_decide (pending !! ProcessGroupID_ pg = None)
                 then <[ ProcessGroupID_ pg := UpdateActionAdd ]> (updatePendingExclusions st)
                 else updatePendingExclusions st)
    by (unfold st'; now destruct (pending !! ProcessGroupID_ pg)).
  destruct (UseLocalitiesForExclusion cluster).
  - assert (Hboth : forall (b : bool) (x : candidates), (if b then x else x) = x)
      by (now intros []).
    rewrite Hboth. exact Hst'.
  - destruct (addressLoop cur (Addresses pg)) as [allExcluded addrs].
    destruct allExcluded, (len addrs >? 0); exact Hst'.
Qed.

(** X5: the registrations for the pending map only ever add: an entry of
    the caller's map is kept or replaced by an addition; a process group
    that is pending already is not registered again; and every process
    group that the loop does not skip and that is not pending is
    registered, whether or not it ends up a candidate. *)
Theorem pending_registrations
    (exclusions : list ProcessAddress) (cluster : FoundationDBCluster)
    (pending : gmap ProcessGroupID Time) (upd : gmap ProcessGroupID UpdateAction) :
  let registered := updatePendingExclusions
                      (getProcessesToExclude exclusions cluster pending upd) in
  (forall id, registered !! id = upd !! id \/ registered !! id = Some UpdateActionAdd) /\
  (forall id, pending !! id <> None -> registered !! id = upd !! id) /\
  (forall pg, pg ∈ ProcessGroups cluster ->
              needsExclusion (currentExclusionMapOf exclusions) pg = true ->
              pending !! ProcessGroupID_ pg = None ->
              registered !! ProcessGroupID_ pg = Some UpdateActionAdd).
Proof.
  unfold getProcessesToExclude. set (cur := currentExclusionMapOf exclusions).
  assert (Hgen : forall groups st,
            let out := updatePendingExclusions
                         (foldl (processGroupStep cluster cur pending) st groups) in
            (forall id, out !! id = updatePendingExclusions st !! id \/
                        out !! id = Some UpdateActionAdd) /\
            (forall id, pending !! id <> None ->
                        out !! id = updatePendingExclusions st !! id) /\
            (forall id, updatePendingExclusions st !! id = Some UpdateActionAdd ->
                        out !! id = Some UpdateActionAdd) /\
            (forall pg, pg ∈ groups -> needsExclusion cur pg = true ->
                        pending !! ProcessGroupID_ pg = None ->
                        out !! ProcessGroupID_ pg = Some UpdateActionAdd)).
  { induction groups as [|pg groups IH]; intros st; cbn [foldl].
    - repeat split; auto. intros pg Hin. inversion Hin.
    - destruct (IH (processGroupStep cluster cur pending st pg))
        as (Hadd & Hkeep & Hmono & Hreg).
      pose proof (processGroupStep_pending cluster cur pending st pg) as Hstep.
      cbn zeta. repeat split.
      + intros id. destruct (Hadd id) as [Hsame|Hnew]; [|now right].
        rewrite Hsame, Hstep. destruct (_ && _); [|now left].
        rewrite lookup_insert. destruct (decide _); [now right|now left].
      + intros id Hid. rewrite (Hkeep id Hid), Hstep.
        destruct (needsExclusion cur pg); cbn [andb]; [|reflexivity].
        destruct (bool_decide (pending !! ProcessGroupID_ pg = None)) eqn:Hp;
          [|reflexivity].
        apply bool_decide_eq_true in Hp. rewrite lookup_insert_ne; [reflexivity|].
        intros Heq. rewrite Heq in Hp. contradiction.
      + intros id Hid. apply Hmono. rewrite Hstep. destruct (_ && _); [|assumption].
        rewrite lookup_insert. now destruct (decide _).
      + intros pg' Hin Hneeds Hp. apply elem_of_cons in Hin as [->|Hin].
        * apply Hmono. rewrite Hstep, Hneeds, (bool_decide_eq_true_2 _ Hp). cbn.
          apply lookup_insert_eq.
        * now apply Hreg. }
  cbv zeta. destruct (Hgen (ProcessGroups cluster)
                                 {| fdbProcessesToExcludeByClass := ∅;
                                    ongoingExclusionsByClass := ∅;
                                    updatePendingExclusions := upd |})
    as (Hadd & Hkeep & _ & Hreg).
  repeat split; assumption.
Qed.

End CandidateProperties.

(** ** The loop over the classes *)

Section ClassLoopProperties.
Context `{Api}.

Lemma takeEntries_addresses ready n l st :
  fdbProcessesToExclude (takeEntries ready n l st) =
  fdbProcessesToExclude st ++ concat (addresses <$> take (Z.to_nat n) l).
Proof.
  unfold takeEntries. generalize (take (Z.to_nat n) l). intros es. revert st.
  induction es as [|e es IH]; intros st; cbn [foldl].
  - cbn. now rewrite app_nil_r.
  - rewrite IH. cbn. now rewrite <- app_assoc.
Qed.

Lemma classStep_addresses env r cluster cands desired ready st c :
  fdbProcessesToExclude (classStep env r cluster cands desired ready st c) =
  fdbProcessesToExclude st ++ addressesTaken env r cluster cands desired c.
Proof.
  rewrite classStep_unfold. unfold addressesTaken. cbn zeta.
  set (allowed := allowedFor env r cluster cands desired c).
  set (todo := entriesOf (fdbProcessesToExcludeByClass cands) c).
  destruct (Z.leb_spec allowed 0) as [Hle|Hgt].
  - cbn. replace (Z.to_nat allowed) with 0%nat by lia. cbn. now rewrite app_nil_r.
  - rewrite takeEntries_addresses.
    assert (Hst : forall (b : bool),
              fdbProcessesToExclude
                (if b then {| transactionSystemExclusionAllowed :=
                                transactionSystemExclusionAllowed st;
                              allProcessesExcluded := false;
                              updateReadyExclusions := updateReadyExclusions st;
                              fdbProcessesToExclude := fdbProcessesToExclude st |}
                 else st) = fdbProcessesToExclude st) by (now intros []).
    rewrite Hst. f_equal. f_equal. f_equal.
    destruct (Z.ltb_spec (len todo) allowed) as [Hlt|Hge]; [|reflexivity].
    unfold len in *. rewrite Nat2Z.id.
    rewrite !take_ge; [reflexivity|lia|lia].
Qed.

(** X6: the loop over the classes takes from every class the addresses of
    its first allowed candidates, in the order of the candidates: never
    those of more candidates than [getAllowedExclusionsAndMissingProcesses]
    allows for the class, and the same ones whatever the coordination
    state says is ready. *)
Theorem class_loop_takes_the_first_allowed_candidates
    (env : Environment) (r : FoundationDBClusterReconciler)
    (cluster : FoundationDBCluster) (cands : candidates)
    (desired : gmap ProcessClass Z) (ready : gmap ProcessGroupID Time) :
  fdbProcessesToExclude (classLoop env r cluster cands desired ready) =
    concat (addressesTaken env r cluster cands desired <$>
              rangeOrder env (fdbProcessesToExcludeByClass cands)) /\
  forall c,
    take (Z.to_nat (allowedFor env r cluster cands desired c))
         (entriesOf (fdbProcessesToExcludeByClass cands) c)
      `prefix_of` entriesOf (fdbProcessesToExcludeByClass cands) c /\
    len (take (Z.to_nat (allowedFor env r cluster cands desired c))
              (entriesOf (fdbProcessesToExcludeByClass cands) c))
      <= allowedFor env r cluster cands desired c.
Proof.
  split.
  - unfold classLoop.
    generalize (rangeOrder env (fdbProcessesToExcludeByClass cands)). intros order.
    assert (Hgen : forall st,
              fdbProcessesToExclude
                (foldl (classStep env r cluster cands desired ready) st order) =
              fdbProcessesToExclude st ++
              concat (addressesTaken env r cluster cands desired <$> order)).
    { induction order as [|c order IH]; intros st; cbn [foldl].
      - cbn. now rewrite app_nil_r.
      - rewrite IH, classStep_addresses, fmap_cons. cbn [concat].
        now rewrite <- app_assoc. }
    now rewrite Hgen.
  - intros c. split; [apply prefix_take|].
    pose proof (allowedFor_nonneg env r cluster cands desired c).
    unfold len. rewrite length_take. lia.
Qed.

End ClassLoopProperties.

(** ** The calls of a pass *)

Section PassCalls.
Context `{Api}.

#[local] Arguments classLoop : simpl never.
#[local] Arguments globalMode : simpl never.
#[local] Arguments coordinatorSets : simpl never.
#[local] Arguments coordinatorExcluded : simpl never.
#[local] Arguments setSecondsSinceLastRecovered : simpl never.
#[local] Arguments len : simpl never.

Ltac unfold_calls :=
  unfold mbind, mret, M_bind, M_ret, call, returnWith, panic, readStatus,
    writeStatus, history, orRequeue, nilOrRequeue in *.

Ltac run_calls Hrun :=
  repeat first [ progress unfold_calls
               | progress cbn in Hrun
               | case_match; simplify_eq ];
  simplify_eq; cbn.

(** The calls added are those of the list given by unification, or none. *)
Ltac added_calls :=
  first [ exists []; split; [symmetry; apply app_nil_r|]
        | eexists; rewrite <- ?app_assoc; cbn [app]; split; [reflexivity|] ].

Lemma gatherCandidates_calls cluster adminClient s s' o :
  gatherCandidates cluster adminClient s = (s', o) ->
  exists evs,
    trace s' = trace s ++ evs /\
    Forall (fun ev => gatherCall ev = true) evs /\
    (globalMode cluster = false ->
     Forall (fun ev => coordinationCall ev = false) evs) /\
    (statusObject s <> None ->
     (CallGetStatus ∉ evs) /\ statusObject s' = statusObject s) /\
    match o with
    | Continue _ => True
    | Return None =>
        exists status exclusions pending,
          statusObject s' = Some status /\
          GetExclusions status = inr exclusions /\
          fdbProcessesToExcludeByClass
            (getProcessesToExclude exclusions cluster pending ∅) = ∅
    | Return (Some q) =>
        delayedRequeue q = true \/
        (statusObject s = None /\ evs = [CallGetStatus] /\
         exists err, GetStatus adminClient (trace s) = inl err /\ q = requeueError err)
    | Panic _ => False
    end.
Proof.
  intros Hrun. unfold gatherCandidates, fetchStatus in Hrun.
  destruct s as [tr so]. run_calls Hrun.
  all: added_calls.
  all: split; [repeat constructor|].
  all: split; [intros Hg; try congruence; repeat constructor|].
  all: split; [intros Hso;
               first [congruence
                     |split; [|reflexivity];
                      intros Hin; repeat (apply elem_of_cons in Hin as [Hin|Hin];
                                          [discriminate Hin|]); inversion Hin]|].
  all: try exact I.
  all: try (left; reflexivity).
  all: try (right; split; [reflexivity|]; split; [reflexivity|]; eexists; split;
            [first [eassumption|reflexivity]|reflexivity]).
  all: eexists _, _, _; split; [reflexivity|]; split; [eassumption|];
    apply map_size_empty_iff;
    match goal with
    | Hz : (Z.of_nat (size _) =? 0) = true |- _ =>
        apply Z.eqb_eq in Hz; apply Nat2Z.inj; exact Hz
    end.
Qed.

Ltac normalize_traces :=
  cbn [trace statusObject] in *;
  repeat match goal with
         | Hh : context [(_ ++ _) ++ _] |- _ =>
             rewrite <- app_assoc in Hh; cbn [app] in Hh
         end.

Lemma decideExclusions_calls env r cluster adminClient status cands s s' o :
  decideExclusions env r cluster adminClient status cands s = (s', o) ->
  exists evs,
    trace s' = trace s ++ evs /\
    Forall (fun ev => decideCall ev = true) evs /\
    (globalMode cluster = false ->
     Forall (fun ev => coordinationCall ev = false) evs) /\
    (ShouldUseLocks cluster = false -> Forall (fun ev => lockCall ev = false) evs) /\
    match o with
    | Continue _ =>
        ShouldUseLocks cluster = true ->
        exists p1 p2 provider lockClient,
          evs = p1 ++ CallGetLockClientWithLogger :: CallTakeLock :: p2 /\
          DatabaseClientProvider_ r = Some provider /\
          GetLockClientWithLogger provider (trace s ++ p1) cluster = inr lockClient /\
          TakeLock lockClient (trace s ++ p1 ++ [CallGetLockClientWithLogger]) = None
    | _ => True
    end.
Proof.
  intros Hrun.
  unfold decideExclusions, takeLock, getLockClient, getDatabaseClientProvider,
    globalSynchronization in Hrun.
  destruct s as [tr so]. run_calls Hrun.
  all: added_calls.
  all: split; [repeat constructor|].
  all: split; [intros Hg; try congruence; repeat constructor|].
  all: split; [intros Hl; try (rewrite Hl in *; discriminate); repeat constructor|].
  all: try exact I.
  all: intros Hlocks; try (rewrite Hlocks in *; discriminate).
  all: normalize_traces.
  all: first [ exists []; eexists _, _, _; split; [reflexivity|];
               split; [reflexivity|]; split; [cbn [app]; rewrite ?app_nil_r; eassumption|];
               cbn [app]; eassumption
             | eexists [_; _], _, _, _; split; [reflexivity|];
               split; [reflexivity|]; split; [cbn [app]; eassumption|];
               rewrite <- ?app_assoc; cbn [app]; eassumption ].
Qed.

Lemma decideExclusions_local env r cluster adminClient status cands s s' o :
  globalMode cluster = false ->
  decideExclusions env r cluster adminClient status cands s = (s', o) ->
  match o with
  | Continue (allExcluded, toExclude) =>
      toExclude <> [] /\
      exists desired,
        GetProcessCountsWithDefaults cluster = inr desired /\
        toExclude = fdbProcessesToExclude (classLoop env r cluster cands desired ∅) /\
        allExcluded = allProcessesExcluded (classLoop env r cluster cands desired ∅)
  | _ => True
  end.
Proof.
  intros Hlocal Hrun.
  unfold decideExclusions, takeLock, getLockClient, getDatabaseClientProvider,
    globalSynchronization in Hrun.
  rewrite Hlocal in Hrun.
  destruct s as [tr so]. run_calls Hrun.
  all: try exact I.
  all: split; [|eexists; split; [reflexivity|]; split; reflexivity].
  all: intros Hnil;
    match goal with
    | Hz : (len _ =? 0) = false |- _ => rewrite Hnil in Hz; discriminate Hz
    end.
Qed.

Lemma excludeAndRotate_calls env r cluster adminClient status ce ca allExcluded toExclude
    s s' o :
  excludeAndRotate env r cluster adminClient status ce ca allExcluded toExclude s
    = (s', o) ->
  (exists evs, trace s' = trace s ++ evs /\ Forall (fun ev => excludeCall ev = true) evs /\
               Forall (fun ev => coordinationCall ev = false) evs /\
               Forall (fun ev => lockCall ev = false) evs) /\
  exists rq, o = Return rq /\ forall q, rq = Some q -> delayedRequeue q = true.
Proof.
  intros Hrun. unfold excludeAndRotate in Hrun.
  destruct s as [tr so]. run_calls Hrun.
  all: split; [added_calls; repeat split; repeat constructor|].
  all: eexists; split; [reflexivity|]; intros q Hq; simplify_eq; reflexivity.
Qed.

(** The calls of a pass, phase by phase, by what the provider answers. *)
Lemma runPass_by_answer env r cluster status0 sf o :
  runPass env r cluster status0 = (sf, o) ->
  match DatabaseClientProvider_ r with
  | None => trace sf = [] /\ exists msg, o = Panic msg
  | Some provider =>
      match GetAdminClientWithLogger provider [] cluster with
      | inl err =>
          trace sf = [CallGetAdminClientWithLogger] /\
          o = Return (Some (requeueError err))
      | inr adminClient =>
          exists gather decide exclude,
            trace sf = CallGetAdminClientWithLogger ::
                         gather ++ decide ++ exclude ++ [CallClose] /\
            Forall (fun ev => gatherCall ev = true) gather /\
            Forall (fun ev => decideCall ev = true) decide /\
            Forall (fun ev => excludeCall ev = true) exclude /\
            (globalMode cluster = false ->
             Forall (fun ev => coordinationCall ev = false) (gather ++ decide ++ exclude)) /\
            (ShouldUseLocks cluster = false ->
             Forall (fun ev => lockCall ev = false) (gather ++ decide ++ exclude)) /\
            (status0 <> None -> CallGetStatus ∉ gather) /\
            exists rq, o = Return rq /\
              forall q, rq = Some q -> delayedRequeue q = false ->
                status0 = None /\ gather = [CallGetStatus] /\ decide = [] /\
                exclude = [] /\
                exists err,
                  GetStatus adminClient [CallGetAdminClientWithLogger] = inl err /\
                  q = requeueError err
      end
  end.
Proof.
  intros Hrun.
  unfold runPass, reconcile, getAdminClient, getDatabaseClientProvider, deferring in Hrun.
  destruct (DatabaseClientProvider_ r) as [provider|] eqn:Hp.
  2: { unfold_calls. cbn in Hrun. simplify_eq. cbn. eauto. }
  unfold_calls. cbn in Hrun.
  destruct (GetAdminClientWithLogger provider [] cluster) as [err|adminClient] eqn:Hac.
  { simplify_eq. cbn. eauto. }
  destruct (gatherCandidates cluster adminClient _) as [s1 o1] eqn:Hg.
  destruct (gatherCandidates_calls _ _ _ _ _ Hg)
    as (g & Hgtr & Hgcalls & Hgcoord & Hgstatus & Ho1).
  cbn in Hgtr, Hgstatus.
  assert (Hgl : Forall (fun ev => lockCall ev = false) g).
  { eapply Forall_impl; [exact Hgcalls|]. now intros []. }
  destruct o1 as [[status cands]|rq|msg]; [| |contradiction].
  2: { simplify_eq. exists g, [], []. cbn. rewrite Hgtr, !app_nil_r. cbn.
       refine (conj eq_refl (conj Hgcalls (conj _ (conj _ (conj _ (conj _ (conj _ _))))))).
       - constructor.
       - constructor.
       - exact Hgcoord.
       - intros _. exact Hgl.
       - intros Hs. now apply Hgstatus.
       - eexists. split; [reflexivity|]. intros q -> Hq.
         destruct Ho1 as [Hd|(Hs & -> & err & Herr & ->)]; [congruence|].
         cbn in Hs, Herr.
         repeat split; try assumption; try reflexivity. now exists err. }
  unfold exclusionPhase in Hrun. destruct (coordinatorSets cluster status) as [ce ca].
  unfold mbind, M_bind in Hrun.
  destruct (decideExclusions env r cluster adminClient status cands s1) as [s2 o2] eqn:Hd.
  destruct (decideExclusions_calls _ _ _ _ _ _ _ _ _ Hd)
    as (d & Hdtr & Hdcalls & Hdcoord & Hdl & _).
  pose proof (decideExclusions_spec _ _ _ _ _ _ _ _ _ Hd) as (_ & _ & Ho2).
  destruct o2 as [[allExcluded toExclude]|rq|msg].
  - destruct (excludeAndRotate env r cluster adminClient status ce ca allExcluded
                toExclude s2) as [s3 o3] eqn:Hx.
    destruct (excludeAndRotate_calls _ _ _ _ _ _ _ _ _ _ _ _ Hx)
      as ((x & Hxtr & Hxcalls & Hxcoord & Hxl) & rq & -> & Hrq).
    simplify_eq. exists g, d, x. cbn. rewrite Hxtr, Hdtr, Hgtr. cbn.
    rewrite <- !app_assoc.
    refine (conj eq_refl (conj Hgcalls (conj Hdcalls (conj Hxcalls
              (conj _ (conj _ (conj _ _))))))).
    + intros Hlocal. repeat (apply Forall_app; split); auto.
    + intros Hlocks. repeat (apply Forall_app; split); auto.
    + intros Hs. now apply Hgstatus.
    + eexists. split; [reflexivity|]. intros q -> Hq.
      rewrite (Hrq q eq_refl) in Hq. discriminate Hq.
  - simplify_eq. exists g, d, []. cbn. rewrite Hdtr, Hgtr, !app_nil_r. cbn.
    rewrite <- !app_assoc.
    refine (conj eq_refl (conj Hgcalls (conj Hdcalls (conj _
              (conj _ (conj _ (conj _ _))))))).
    + constructor.
    + intros Hlocal. repeat (apply Forall_app; split); auto.
    + intros Hlocks. repeat (apply Forall_app; split); auto.
    + intros Hs. now apply Hgstatus.
    + eexists. split; [reflexivity|]. intros q -> Hq.
      destruct Ho2 as (q' & [= <-] & Hq'). congruence.
  - congruence.
Qed.

(** The calls of a pass, phase by phase. *)
Lemma runPass_phases env r cluster status0 sf o :
  runPass env r cluster status0 = (sf, o) ->
  (DatabaseClientProvider_ r = None /\ trace sf = [] /\ exists msg, o = Panic msg) \/
  (trace sf = [CallGetAdminClientWithLogger] /\
   exists err, o = Return (Some (requeueError err))) \/
  (exists gather decide exclude,
     trace sf = CallGetAdminClientWithLogger :: gather ++ decide ++ exclude ++ [CallClose] /\
     Forall (fun ev => gatherCall ev = true) gather /\
     Forall (fun ev => decideCall ev = true) decide /\
     Forall (fun ev => excludeCall ev = true) exclude /\
     (globalMode cluster = false ->
      Forall (fun ev => coordinationCall ev = false) (gather ++ decide ++ exclude)) /\
     (ShouldUseLocks cluster = false ->
      Forall (fun ev => lockCall ev = false) (gather ++ decide ++ exclude)) /\
     (status0 <> None -> CallGetStatus ∉ gather) /\
     exists rq, o = Return rq /\
       forall q, rq = Some q -> delayedRequeue q = false ->
         status0 = None /\ gather = [CallGetStatus] /\ decide = [] /\ exclude = [] /\
         exists err, q = requeueError err).
Proof.
  intros Hrun. pose proof (runPass_by_answer _ _ _ _ _ _ Hrun) as Hcases.
  destruct (DatabaseClientProvider_ r) as [provider|]; [|left; now split].
  right.
  destruct (GetAdminClientWithLogger provider [] cluster) as [err|adminClient].
  - left. destruct Hcases as [-> ->]. split; [reflexivity|now exists err].
  - right.
    destruct Hcases as (g & d & x & Htr & Hg & Hd & Hx & Hc & Hl & Hs & rq & -> & Hq).
    exists g, d, x. refine (conj Htr (conj Hg (conj Hd (conj Hx (conj Hc (conj Hl
                              (conj Hs _))))))).
    exists rq. split; [reflexivity|]. intros q Hrq Hdel.
    destruct (Hq q Hrq Hdel) as (H1 & H2 & H3 & H4 & err & _ & H5).
    refine (conj H1 (conj H2 (conj H3 (conj H4 _)))). now exists err.
Qed.

(** X7: the calls of a pass come in phases.  Without a provider the pass
    panics before any call.  When the provider answers the call for the
    admin client with an error, the pass returns that error after this
    one call, without [Close].  When it answers with an admin client, the
    pass begins with that call and ends with the one [Close], and in
    between come first the calls that gather the candidates, then the
    calls that prepare the exclusion (coordination state and lock), then
    the exclusion with the change of coordinators; the pass then returns
    and does not panic. *)
Theorem pass_calls_come_in_phases
    (env : Environment) (r : FoundationDBClusterReconciler)
    (cluster : FoundationDBCluster) (status0 : option FoundationDBStatus)
    (sf : passState) (o : Outcome unit) :
  runPass env r cluster status0 = (sf, o) ->
  match DatabaseClientProvider_ r with
  | None => trace sf = [] /\ exists msg, o = Panic msg
  | Some provider =>
      match GetAdminClientWithLogger provider [] cluster with
      | inl err =>
          trace sf = [CallGetAdminClientWithLogger] /\
          o = Return (Some (requeueError err))
      | inr _ =>
          exists gather decide exclude,
            trace sf = CallGetAdminClientWithLogger ::
                         gather ++ decide ++ exclude ++ [CallClose] /\
            Forall (fun ev => gatherCall ev = true) gather /\
            Forall (fun ev => decideCall ev = true) decide /\
            Forall (fun ev => excludeCall ev = true) exclude /\
            exists rq, o = Return rq
      end
  end.
Proof.
  intros Hrun. pose proof (runPass_by_answer _ _ _ _ _ _ Hrun) as Hcases.
  destruct (DatabaseClientProvider_ r) as [provider|]; [|exact Hcases].
  destruct (GetAdminClientWithLogger provider [] cluster) as [err|adminClient];
    [exact Hcases|].
  destruct Hcases as (g & d & x & Htr & Hg & Hd & Hx & _ & _ & _ & rq & -> & _).
  exists g, d, x. refine (conj Htr (conj Hg (conj Hd (conj Hx _)))). now exists rq.
Qed.

(** How a pass gets to its exclude call. *)
Lemma runPass_to_exclude_call env r cluster status0 sf o pre post addrs wait :
  runPass env r cluster status0 = (sf, o) ->
  trace sf = pre ++ CallExcludeProcessesWithNoWait addrs wait :: post ->
  exists adminClient s1 status cands s2 allExcluded,
    hasCandidates r cluster status0 adminClient s1 status cands /\
    decideExclusions env r cluster adminClient status cands s1
      = (s2, Continue (allExcluded, addrs)) /\
    wait = true /\
    pre = trace s2 ++ [CallRecorderEvent "ExcludingProcesses" addrs] /\
    noExcludeCall pre /\ noExcludeCall post.
Proof.
  intros Hrun Htrace.
  destruct (runPass_cases _ _ _ _ _ _ Hrun)
    as [Hquiet|(adminClient & s1 & status & cands & Hc)].
  { exfalso. apply (Hquiet addrs wait). rewrite Htrace.
    apply elem_of_app. right. left. }
  pose proof (hasCandidates_quiet _ _ _ _ _ _ _ Hc) as (Hquiet & _ & Hp).
  rewrite (runPass_with_candidates _ _ _ _ _ _ _ _ Hc) in Hrun.
  destruct (exclusionPhase env r cluster adminClient status cands s1) as [s' o'] eqn:Hphase.
  simplify_eq.
  destruct (exclusionPhase_cases _ _ _ _ _ _ _ _ _ Hp Hphase)
    as [((evs & Htr & Hevs) & _)|(s2 & allExcluded & toExclude & Hd & Hx)].
  { exfalso. cbn in Htrace.
    assert (Hin : CallExcludeProcessesWithNoWait addrs wait ∈ trace s' ++ [CallClose])
      by (rewrite Htrace; apply elem_of_app; right; left).
    rewrite Htr in Hin. revert Hin.
    repeat apply noExcludeCall_app; try assumption.
    apply noExcludeCall_cons; [intros ? ?; discriminate|apply noExcludeCall_nil]. }
  pose proof (decideExclusions_spec _ _ _ _ _ _ _ _ _ Hd) as ((evs & Htr2 & Hevs) & _).
  destruct (excludeAndRotate_spec _ _ _ _ _ _ _ _ _ _ _ _ Hx)
    as (post0 & Htr & Hpost0 & _ & _ & _).
  cbn in Htrace. rewrite Htr, <- app_assoc in Htrace. cbn [app] in Htrace.
  assert (Hpre : noExcludeCall (trace s2 ++ [CallRecorderEvent "ExcludingProcesses" toExclude])).
  { rewrite Htr2. repeat apply noExcludeCall_app; try assumption.
    apply noExcludeCall_cons; [intros ? ?; discriminate|apply noExcludeCall_nil]. }
  assert (Hpost : noExcludeCall (post0 ++ [CallClose])).
  { apply noExcludeCall_app; [assumption|].
    apply noExcludeCall_cons; [intros ? ?; discriminate|apply noExcludeCall_nil]. }
  apply exclude_call_position in Htrace as (-> & Hcall & ->); try assumption.
  injection Hcall as <- <-.
  exists adminClient, s1, status, cands, s2, allExcluded. now repeat split.
Qed.

(** X8: a pass issues at most one exclude call; the call asks not to wait
    for the data movement, and the call right before it is the event that
    announces the same addresses. *)
Theorem one_exclude_call_per_pass
    (env : Environment) (r : FoundationDBClusterReconciler)
    (cluster : FoundationDBCluster) (status0 : option FoundationDBStatus)
    (sf : passState) (o : Outcome unit)
    (pre post : list Event) (addrs : list ProcessAddress) (wait : bool) :
  runPass env r cluster status0 = (sf, o) ->
  trace sf = pre ++ CallExcludeProcessesWithNoWait addrs wait :: post ->
  noExcludeCall pre /\ noExcludeCall post /\ wait = true /\
  exists pre', pre = pre' ++ [CallRecorderEvent "ExcludingProcesses" addrs].
Proof.
  intros Hrun Htrace.
  destruct (runPass_to_exclude_call _ _ _ _ _ _ _ _ _ _ Hrun Htrace)
    as (adminClient & s1 & status & cands & s2 & allExcluded & _ & _ & Hw & Hpre & Hq1 & Hq2).
  repeat split; try assumption. now exists (trace s2).
Qed.

(** X9: when the cluster uses locks, the exclude call of a pass comes
    after the pass has obtained the lock client and [TakeLock] has
    succeeded; when it does not, the pass never touches the lock. *)
Theorem exclusion_is_issued_under_the_lock
    (env : Environment) (r : FoundationDBClusterReconciler)
    (cluster : FoundationDBCluster) (status0 : option FoundationDBStatus)
    (sf : passState) (o : Outcome unit) :
  runPass env r cluster status0 = (sf, o) ->
  (ShouldUseLocks cluster = true ->
   forall pre post addrs wait,
     trace sf = pre ++ CallExcludeProcessesWithNoWait addrs wait :: post ->
     exists p1 p2 provider lockClient,
       pre = p1 ++ CallGetLockClientWithLogger :: CallTakeLock :: p2 /\
       DatabaseClientProvider_ r = Some provider /\
       GetLockClientWithLogger provider p1 cluster = inr lockClient /\
       TakeLock lockClient (p1 ++ [CallGetLockClientWithLogger]) = None) /\
  (ShouldUseLocks cluster = false ->
   Forall (fun ev => lockCall ev = false) (trace sf)).
Proof.
  intros Hrun. split.
  - intros Hlocks pre post addrs wait Htrace.
    destruct (runPass_to_exclude_call _ _ _ _ _ _ _ _ _ _ Hrun Htrace)
      as (adminClient & s1 & status & cands & s2 & allExcluded & _ & Hd & _ & -> & _).
    destruct (decideExclusions_calls _ _ _ _ _ _ _ _ _ Hd) as (d & Hdtr & _ & _ & _ & Ho).
    destruct (Ho Hlocks) as (p1 & p2 & provider & lockClient & -> & Hp & Hlc & Htake).
    exists (trace s1 ++ p1), (p2 ++ [CallRecorderEvent "ExcludingProcesses" addrs]),
      provider, lockClient.
    rewrite Hdtr. repeat split; try assumption.
    + rewrite <- !app_assoc. reflexivity.
    + now rewrite <- app_assoc.
  - intros Hlocks.
    destruct (runPass_phases _ _ _ _ _ _ Hrun)
      as [(_ & -> & _)|[(-> & _)|(g & d & x & -> & _ & _ & _ & _ & Hl & _)]];
      [constructor|now repeat constructor|].
    constructor; [reflexivity|]. rewrite !app_assoc. apply Forall_app. split.
    + rewrite <- !app_assoc. now apply Hl.
    + now repeat constructor.
Qed.

(** What the pass has in hand when the candidates are gathered without the
    coordination state. *)
Lemma gatherCandidates_local cluster adminClient s s' o :
  globalMode cluster = false ->
  gatherCandidates cluster adminClient s = (s', o) ->
  match o with
  | Continue (status, cands) =>
      statusObject s' = Some status /\
      (forall st, statusObject s = Some st -> status = st /\ trace s' = trace s) /\
      (statusObject s = None ->
       GetStatus adminClient (trace s) = inr status /\ trace s' = trace s ++ [CallGetStatus]) /\
      exists exclusions,
        GetExclusions status = inr exclusions /\
        cands = getProcessesToExclude exclusions cluster ∅ ∅ /\
        fdbProcessesToExcludeByClass cands <> ∅
  | Return None =>
      exists status exclusions,
        statusObject s' = Some status /\
        (forall st, statusObject s = Some st -> status = st /\ trace s' = trace s) /\
        GetExclusions status = inr exclusions /\
        fdbProcessesToExcludeByClass (getProcessesToExclude exclusions cluster ∅ ∅) = ∅
  | Return (Some q) =>
      forall st, statusObject s = Some st -> exists err, GetExclusions st = inl err
  | Panic _ => False
  end.
Proof.
  intros Hlocal Hrun. unfold gatherCandidates, fetchStatus in Hrun.
  rewrite Hlocal in Hrun. destruct s as [tr so]. run_calls Hrun.
  all: try (intros st Hst; simplify_eq; eauto; fail).
  all: try (split; [reflexivity|];
            split; [intros st Hst; simplify_eq; try (split; reflexivity)|];
            split; [intros Hnone; simplify_eq; try (split; reflexivity)|];
            eexists; split; [first [eassumption|reflexivity]|]; split; [reflexivity|];
            intros Hempty;
            match goal with
            | Hz : (Z.of_nat (size _) =? 0) = false |- _ =>
                rewrite Hempty, map_size_empty in Hz; discriminate Hz
            end).
  all: try (do 2 eexists; split; [reflexivity|]; split;
            [intros st Hst; simplify_eq; try (split; reflexivity)|];
            split; [first [eassumption|reflexivity]|];
            apply map_size_empty_iff;
            match goal with
            | Hz : (Z.of_nat (size _) =? 0) = true |- _ =>
                apply Z.eqb_eq in Hz; apply Nat2Z.inj; exact Hz
            end).
Qed.

(** X10: without global synchronization a pass never touches the
    coordination state, and the addresses it hands to the exclude call are
    never empty: they are the addresses of the first allowed candidates of
    each class, class after class in the order of the range, where the
    candidates are those the exclusion list of the status leaves; the
    status is the caller's or, when the caller passed none, the one the
    admin client answered with. *)
Theorem local_pass_excludes_the_allowed_candidates
    (env : Environment) (r : FoundationDBClusterReconciler)
    (cluster : FoundationDBCluster) (status0 : option FoundationDBStatus)
    (sf : passState) (o : Outcome unit) :
  globalMode cluster = false ->
  runPass env r cluster status0 = (sf, o) ->
  Forall (fun ev => coordinationCall ev = false) (trace sf) /\
  forall pre post addrs wait,
    trace sf = pre ++ CallExcludeProcessesWithNoWait addrs wait :: post ->
    addrs <> [] /\
    exists status exclusions desired,
      match status0 with
      | Some st => status = st
      | None =>
          exists provider adminClient,
            DatabaseClientProvider_ r = Some provider /\
            GetAdminClientWithLogger provider [] cluster = inr adminClient /\
            GetStatus adminClient [CallGetAdminClientWithLogger] = inr status
      end /\
      GetExclusions status = inr exclusions /\
      GetProcessCountsWithDefaults cluster = inr desired /\
      let cands := getProcessesToExclude exclusions cluster ∅ ∅ in
      addrs = concat (addressesTaken env r cluster cands desired <$>
                        rangeOrder env (fdbProcessesToExcludeByClass cands)).
Proof.
  intros Hlocal Hrun. split.
  - destruct (runPass_phases _ _ _ _ _ _ Hrun)
      as [(_ & -> & _)|[(-> & _)|(g & d & x & -> & _ & _ & _ & Hc & _)]];
      [constructor|now repeat constructor|].
    constructor; [reflexivity|]. rewrite !app_assoc. apply Forall_app. split.
    + rewrite <- !app_assoc. now apply Hc.
    + now repeat constructor.
  - intros pre post addrs wait Htrace.
    destruct (runPass_to_exclude_call _ _ _ _ _ _ _ _ _ _ Hrun Htrace)
      as (adminClient & s1 & status & cands & s2 & allExcluded & Hc & Hd & _).
    pose proof (decideExclusions_local _ _ _ _ _ _ _ _ _ Hlocal Hd)
      as (Hne & desired & Hdesired & -> & _).
    split; [assumption|].
    destruct Hc as (provider & Hp & Hac & Hg).
    pose proof (gatherCandidates_local _ _ _ _ _ Hlocal Hg)
      as (_ & Hsame & Hfetched & exclusions & Hex & -> & _).
    exists status, exclusions, desired. split; [|split; [assumption|split; [assumption|]]].
    + destruct status0 as [st|]; [now destruct (Hsame st eq_refl)|].
      exists provider, adminClient. split; [assumption|]. split; [assumption|].
      now destruct (Hfetched eq_refl).
    + cbv zeta. unfold classLoop.
      generalize (rangeOrder env
                    (fdbProcessesToExcludeByClass
                       (getProcessesToExclude exclusions cluster ∅ ∅))).
      intros order.
      assert (Hgen : forall st,
                fdbProcessesToExclude
                  (foldl (classStep env r cluster
                            (getProcessesToExclude exclusions cluster ∅ ∅) desired ∅)
                         st order) =
                fdbProcessesToExclude st ++
                concat (addressesTaken env r cluster
                          (getProcessesToExclude exclusions cluster ∅ ∅) desired <$> order)).
      { induction order as [|c order IH]; intros st; cbn [foldl].
        - cbn. now rewrite app_nil_r.
        - rewrite IH, classStep_addresses, fmap_cons. cbn [concat].
          now rewrite <- app_assoc. }
      now rewrite Hgen.
Qed.


(** The map of candidates is empty exactly when no process group gives an
    entry. *)
Lemma no_candidates_iff exclusions cluster pending upd :
  fdbProcessesToExcludeByClass (getProcessesToExclude exclusions cluster pending upd) = ∅
  <-> forall pg, pg ∈ ProcessGroups cluster ->
                 candidateEntry cluster (currentExclusionMapOf exclusions) pg = None.
Proof.
  split.
  - intros Hempty pg Hin.
    destruct (candidateEntry cluster (currentExclusionMapOf exclusions) pg) as [e|] eqn:He;
      [exfalso|reflexivity].
    assert (Hel : e ∈ entriesOf (fdbProcessesToExcludeByClass
                                   (getProcessesToExclude exclusions cluster pending upd))
                                (ProcessClass_ pg)).
    { rewrite candidates_by_class. apply list_elem_of_omap. exists pg. split; [|exact He].
      apply list_elem_of_In, filter_In. split; [now apply list_elem_of_In|].
      now apply bool_decide_eq_true_2. }
    rewrite Hempty in Hel. unfold entriesOf in Hel. rewrite lookup_empty in Hel.
    cbn in Hel. inversion Hel.
  - intros Hnone. apply map_empty. intros c.
    destruct (fdbProcessesToExcludeByClass
                (getProcessesToExclude exclusions cluster pending upd) !! c) as [l|] eqn:Hl;
      [exfalso|reflexivity].
    pose proof (candidate_map_entries exclusions cluster pending upd c l Hl) as (Hne & _).
    assert (Hent : entriesOf (fdbProcessesToExcludeByClass
                                (getProcessesToExclude exclusions cluster pending upd)) c = l)
      by (unfold entriesOf; now rewrite Hl).
    rewrite candidates_by_class in Hent.
    destruct l as [|e l]; [now apply Hne|].
    assert (Hel : e ∈ omap (candidateEntry cluster (currentExclusionMapOf exclusions))
                       (List.filter (fun pg => bool_decide (ProcessClass_ pg = c))
                                    (ProcessGroups cluster)))
      by (rewrite Hent; left).
    apply list_elem_of_omap in Hel as (pg & Hin & He).
    apply list_elem_of_In, filter_In in Hin as (Hin & _).
    apply list_elem_of_In in Hin. rewrite (Hnone pg Hin) in He. discriminate He.
Qed.

(** X12: a pass that is handed a status whose exclusion list can be read,
    and that needs no coordination state, succeeds after nothing but
    obtaining and closing the admin client exactly when no process group
    gives a candidate; the caller's status is then left as it was. *)
Theorem pass_without_candidates
    (env : Environment) (r : FoundationDBClusterReconciler)
    (cluster : FoundationDBCluster) (status : FoundationDBStatus)
    (provider : DatabaseClientProvider) (adminClient : AdminClient)
    (exclusions : list ProcessAddress)
    (sf : passState) (o : Outcome unit) :
  globalMode cluster = false ->
  DatabaseClientProvider_ r = Some provider ->
  GetAdminClientWithLogger provider [] cluster = inr adminClient ->
  GetExclusions status = inr exclusions ->
  runPass env r cluster (Some status) = (sf, o) ->
  (forall pg, pg ∈ ProcessGroups cluster ->
              candidateEntry cluster (currentExclusionMapOf exclusions) pg = None)
  <-> (o = Return None /\
       sf = {| trace := [CallGetAdminClientWithLogger; CallClose];
               statusObject := Some status |}).
Proof.
  intros Hlocal Hp Hac Hex Hrun.
  rewrite <- (no_candidates_iff exclusions cluster ∅ ∅).
  unfold runPass, reconcile, getAdminClient, getDatabaseClientProvider, deferring in Hrun.
  rewrite Hp in Hrun. unfold_calls. cbn in Hrun. rewrite Hac in Hrun.
  destruct (gatherCandidates cluster adminClient _) as [s1 o1] eqn:Hg.
  pose proof (gatherCandidates_calls _ _ _ _ _ Hg) as Hcalls.
  pose proof (gatherCandidates_local _ _ _ _ _ Hlocal Hg) as Hloc.
  destruct o1 as [[st cands]|[q|]|msg]; [| | |contradiction].
  - destruct Hloc as (Hso & Hsame & _ & ex & Hex' & -> & Hne).
    destruct (Hsame status eq_refl) as (-> & Htr). rewrite Hex in Hex'.
    injection Hex' as <-.
    split; [intros Hempty; contradiction|].
    intros (-> & ->). exfalso.
    unfold exclusionPhase in Hrun.
    destruct (coordinatorSets cluster status) as [ce ca].
    unfold mbind, M_bind in Hrun.
    destruct (decideExclusions env r cluster adminClient status _ s1) as [s2 o2] eqn:Hd.
    pose proof (decideExclusions_spec _ _ _ _ _ _ _ _ _ Hd) as ((evs & Htr2 & _) & _ & Ho2).
    destruct o2 as [[allExcluded toExclude]|rq|msg].
    + destruct (excludeAndRotate env r cluster adminClient status ce ca allExcluded
                  toExclude s2) as [s3 o3] eqn:Hx.
      destruct (excludeAndRotate_spec _ _ _ _ _ _ _ _ _ _ _ _ Hx)
        as (post0 & Htr3 & _).
      injection Hrun as Htrace _.
      rewrite Htr3, Htr2, Htr in Htrace. cbn in Htrace.
      injection Htrace as Htrace. apply (f_equal length) in Htrace.
      rewrite !length_app in Htrace. cbn in Htrace. lia.
    + destruct Ho2 as (q & -> & _). discriminate Hrun.
    + discriminate Hrun.
  - destruct (Hloc status eq_refl) as (err & Herr). congruence.
  - destruct Hloc as (st & ex & Hso & Hsame & Hex' & Hempty).
    destruct (Hsame status eq_refl) as (-> & Htr). rewrite Hex in Hex'.
    injection Hex' as <-.
    split; [|intros _; exact Hempty].
    intros _. simplify_eq. split; [reflexivity|].
    destruct s1 as [tr so]. cbn in *. now subst.
Qed.

End PassCalls.

(** ** Examples for the exclusion step *)

Module ExclusionExamples.
Import Sample ExclusionSample.

Lemma pair_eta {A B} (p : A * B) : p = (p.1, p.2).
Proof. now destruct p. Qed.

Lemma process_groups_to_exclude_are_candidates_witness :
  {| processGroupID := "storage-3"; addresses := [ip "10.0.0.3"] |}
  ∈ entriesOf (fdbProcessesToExcludeByClass (getProcessesToExclude [] threeOfFive ∅ ∅))
              "storage".
Proof.
  refine (process_groups_to_exclude_are_candidates [] threeOfFive ∅ ∅
            (removing (group "storage-3" "storage" "10.0.0.3")) _ _ eq_refl eq_refl _ _).
  - do 2 right. left.
  - discriminate.
  - intros (a & Hin & _). inversion Hin.
  - right. exists "10.0.0.3". split; [left|]. intros (a & Hin & _). inversion Hin.
Defined.

Lemma ongoing_exclusions_count_witness :
  countOf (ongoingExclusionsByClass
             (getProcessesToExclude [ip "10.0.0.5"] five ∅ ∅)) "storage" = 1.
Proof.
  rewrite (ongoing_exclusions_count [ip "10.0.0.5"] five ∅ ∅ "storage").
  - vm_compute. reflexivity.
  - vm_compute. discriminate.
Defined.

Lemma pass_calls_come_in_phases_witness :
  exists gather decide exclude,
    trace excludingPass.1 =
      CallGetAdminClientWithLogger :: gather ++ decide ++ exclude ++ [CallClose] /\
    Forall (fun ev => gatherCall ev = true) gather /\
    Forall (fun ev => decideCall ev = true) decide /\
    Forall (fun ev => excludeCall ev = true) exclude /\
    exists rq, excludingPass.2 = Return rq.
Proof.
  exact (pass_calls_come_in_phases (environment None None) (reconciler None)
           threeOfFive (Some (statusWith [])) excludingPass.1 excludingPass.2
           (pair_eta _)).
Defined.

Lemma one_exclude_call_per_pass_witness :
  noExcludeCall [CallGetAdminClientWithLogger;
                 CallRecorderEvent "ExcludingProcesses" [ip "10.0.0.3"]] /\
  noExcludeCall [CallClose].
Proof.
  destruct (one_exclude_call_per_pass (environment None None) (reconciler None)
              threeOfFive (Some (statusWith [])) excludingPass.1 excludingPass.2
              [CallGetAdminClientWithLogger;
               CallRecorderEvent "ExcludingProcesses" [ip "10.0.0.3"]]
              [CallClose] [ip "10.0.0.3"] true (pair_eta _) eq_refl)
    as (Hpre & Hpost & _).
  now split.
Defined.

Lemma exclusion_is_issued_under_the_lock_witness :
  Forall (fun ev => lockCall ev = false) (trace excludingPass.1).
Proof.
  apply (exclusion_is_issued_under_the_lock (environment None None) (reconciler None)
           threeOfFive (Some (statusWith [])) excludingPass.1 excludingPass.2
           (pair_eta _)).
  reflexivity.
Defined.

Lemma local_pass_excludes_the_allowed_candidates_witness :
  Forall (fun ev => coordinationCall ev = false) (trace excludingPass.1) /\
  [ip "10.0.0.3"] <> [].
Proof.
  assert (Hlocal : globalMode threeOfFive = false) by (vm_compute; reflexivity).
  assert (Htrace : trace excludingPass.1 =
                   [CallGetAdminClientWithLogger;
                    CallRecorderEvent "ExcludingProcesses" [ip "10.0.0.3"]] ++
                   CallExcludeProcessesWithNoWait [ip "10.0.0.3"] true :: [CallClose])
    by (vm_compute; reflexivity).
  destruct (local_pass_excludes_the_allowed_candidates (environment None None)
              (reconciler None) threeOfFive (Some (statusWith [])) excludingPass.1
              excludingPass.2 Hlocal (pair_eta _)) as [Hquiet Hcall].
  split; [exact Hquiet|].
  exact (proj1 (Hcall _ _ _ _ Htrace)).
Defined.


Lemma pass_without_candidates_witness :
  (forall pg, pg ∈ ProcessGroups settled ->
              candidateEntry settled (currentExclusionMapOf []) pg = None)
  <-> (Return None = Return (A := unit) None /\
       {| trace := [CallGetAdminClientWithLogger; CallClose];
          statusObject := Some (statusWith []) |} =
       {| trace := [CallGetAdminClientWithLogger; CallClose];
          statusObject := Some (statusWith []) |}).
Proof.
  assert (Hlocal : globalMode settled = false) by (vm_compute; reflexivity).
  assert (Hrun : runPass (environment None None) (reconciler None) settled
                   (Some (statusWith [])) =
                 ({| trace := [CallGetAdminClientWithLogger; CallClose];
                     statusObject := Some (statusWith []) |}, Return None))
    by (vm_compute; reflexivity).
  exact (pass_without_candidates (environment None None) (reconciler None) settled
           (statusWith []) (provider None) (adminClient None) []
           {| trace := [CallGetAdminClientWithLogger; CallClose];
              statusObject := Some (statusWith []) |}
           (Return None) Hlocal eq_refl eq_refl eq_refl Hrun).
Defined.

End ExclusionExamples.

(** ** The driver of the cluster controller *)

Module DriverProperties.
Import Driver.

Section ClusterController.
Context {Spec OtherStatus Status Address : Type}.
Context (pkg : Packages Spec OtherStatus Address)
        (co : Collaborators Spec OtherStatus Status)
        (CacheDatabaseStatusForReconciliationDefault : bool).

Ltac unfold_d :=
  unfold bind, ret, exit, crash, call, getCluster, setCluster, setStatus,
    returnProcessRequeue, runClusterSubReconciler in *.

Ltac run_d Hrun :=
  repeat first [ progress unfold_d
               | progress cbn in Hrun
               | case_match; simplify_eq ];
  simplify_eq; cbn.

Lemma answersFrom_app h evs1 evs2 :
  answersFrom co h (evs1 ++ evs2) =
  answersFrom co h evs1 ++ answersFrom co (h ++ evs1) evs2.
Proof.
  revert h. induction evs1 as [|ev evs1 IH]; intros h; cbn.
  - now rewrite app_nil_r.
  - rewrite IH, <- !app_assoc. reflexivity.
Qed.

Lemma answersFrom_sub h name given st evs :
  answersFrom co h (CallSubReconciler name given st :: evs) =
  (name, (implementation co name h given st).2)
    :: answersFrom co (h ++ [CallSubReconciler name given st]) evs.
Proof. reflexivity. Qed.

(** What the loop over the sub-reconcilers does. *)
Lemma pipeline_spec spec names : forall d dr s s' o,
  pipeline co spec (subReconcilerOf co <$> names) d dr s = (s', o) ->
  exists evs,
    calls s' = calls s ++ evs /\
    (forall n given st, CallSubReconciler n given st ∈ evs -> Spec_ given = spec) /\
    match o with
    | Next (d', dr') =>
        Forall (fun ev => isSubCall ev = true) evs /\
        (answersFrom co (calls s) evs).*1 = names /\
        Forall (fun a => terminal a.2 = false) (answersFrom co (calls s) evs) /\
        d <= d' /\
        (forall req, Some req ∈ (answersFrom co (calls s) evs).*2 -> delay req <= d') /\
        (d' = d \/ exists req, Some req ∈ (answersFrom co (calls s) evs).*2 /\ d' = delay req) /\
        (dr' = true <-> dr = true \/ exists req, Some req ∈ (answersFrom co (calls s) evs).*2)
    | Exit result err =>
        exists pre n given st req,
          evs = pre ++ [CallSubReconciler n given st; CallProcessRequeue req n] /\
          Forall (fun ev => isSubCall ev = true) pre /\
          (answersFrom co (calls s) pre).*1 ++ [n] `prefix_of` names /\
          Forall (fun a => terminal a.2 = false) (answersFrom co (calls s) pre) /\
          (implementation co n (calls s ++ pre) given st).2 = Some req /\
          delayedRequeue req = false /\
          (result, err) =
            processRequeue co (calls s ++ pre ++ [CallSubReconciler n given st]) req n
              (cluster s')
    | Crash _ => False
    end.
Proof.
  induction names as [|name names IH]; intros d dr s s' o Hrun.
  - cbn in Hrun. unfold ret in Hrun. simplify_eq. exists []. rewrite app_nil_r.
    split; [reflexivity|]. split; [intros ? ? ? Hin; inversion Hin|].
    cbn. refine (conj _ (conj _ (conj _ (conj _ (conj _ (conj _ _)))))).
    + constructor.
    + reflexivity.
    + constructor.
    + lia.
    + intros req Hin. inversion Hin.
    + now left.
    + split; [now left|]. intros [Hd|(req & Hin)]; [assumption|inversion Hin].
  - rewrite fmap_cons in Hrun. cbn [pipeline] in Hrun.
    unfold bind at 1 2 3 in Hrun. unfold getCluster, setCluster in Hrun.
    cbn in Hrun.
    unfold runClusterSubReconciler in Hrun at 1. cbn in Hrun.
    destruct (implementation co name (calls s) (withSpec spec (cluster s)) (status s))
      as [[cluster' touch] req] eqn:Himpl.
    set (ev := CallSubReconciler name (withSpec spec (cluster s)) (status s)) in *.
    assert (Hans : (implementation co name (calls s) (withSpec spec (cluster s)) (status s)).2
                   = req) by now rewrite Himpl.
    destruct req as [req|].
    + destruct (delayedRequeue req) eqn:Hdelayed.
      * apply IH in Hrun as (evs & Htr & Hspec & Ho). cbn in Htr.
        exists (ev :: evs). split; [now rewrite Htr, <- app_assoc|].
        split.
        { intros n given st Hin. apply elem_of_cons in Hin as [Heq|Hin].
          - injection Heq as -> -> ->. reflexivity.
          - now apply (Hspec n given st). }
        cbn in Ho. destruct o as [[d' dr']|result err|msg]; [| |assumption].
        -- destruct Ho as (Hsub & Hnames & Hterm & Hd & Hmax & Hfrom & Hdr).
           subst ev. rewrite answersFrom_sub, Hans, !fmap_cons. cbn [fst snd].
           split; [constructor; [reflexivity|assumption]|].
           split; [now rewrite Hnames|].
           split; [constructor; [cbn; now rewrite Hdelayed|assumption]|].
           split; [destruct (d <? delay req) eqn:Hlt; [apply Z.ltb_lt in Hlt|]; lia|].
           split.
           { intros req' Hin. apply elem_of_cons in Hin as [Heq|Hin].
             - injection Heq as ->.
               destruct (d <? delay req) eqn:Hlt; [lia|apply Z.ltb_ge in Hlt; lia].
             - now apply Hmax. }
           split.
           { destruct Hfrom as [->|(req' & Hin & ->)].
             - destruct (d <? delay req) eqn:Hlt; [right|now left].
               exists req. split; [left|reflexivity].
             - right. exists req'. split; [now right|reflexivity]. }
           split.
           { intros _. right. exists req. left. }
           { intros _. apply Hdr. now left. }
        -- destruct Ho as (pre & n & given & st & req' & -> & Hsub & Hpre & Hterm & Himp & Hdl & Hres).
           exists (ev :: pre), n, given, st, req'.
           split; [reflexivity|].
           split; [constructor; [reflexivity|assumption]|].
           subst ev. rewrite answersFrom_sub, Hans, !fmap_cons. cbn [fst snd].
           split; [now apply prefix_cons|].
           split; [constructor; [cbn; now rewrite Hdelayed|assumption]|].
           split; [rewrite <- app_assoc in Himp; exact Himp|].
           split; [assumption|]. rewrite <- !app_assoc in Hres. exact Hres.
      * unfold returnProcessRequeue, bind, getCluster, call, exit in Hrun.
        cbn in Hrun. simplify_eq. cbn.
        exists [ev; CallProcessRequeue req name]. split; [now rewrite <- app_assoc|].
        split.
        { intros n given st Hin. apply elem_of_cons in Hin as [Heq|Hin].
          - injection Heq as -> -> ->. reflexivity.
          - apply elem_of_cons in Hin as [Heq|Hin]; [discriminate Heq|inversion Hin]. }
        exists [], name, (withSpec spec (cluster s)), (status s), req.
        split; [reflexivity|]. split; [constructor|].
        split; [cbn; apply prefix_cons, prefix_nil|].
        split; [constructor|]. rewrite app_nil_r.
        split; [assumption|]. split; [assumption|].
        cbn. now destruct (processRequeue co _ req name cluster').
    + apply IH in Hrun as (evs & Htr & Hspec & Ho). cbn in Htr.
      exists (ev :: evs). split; [now rewrite Htr, <- app_assoc|].
      split.
      { intros n given st Hin. apply elem_of_cons in Hin as [Heq|Hin].
        - injection Heq as -> -> ->. reflexivity.
        - now apply (Hspec n given st). }
      cbn in Ho. destruct o as [[d' dr']|result err|msg]; [| |assumption].
      -- destruct Ho as (Hsub & Hnames & Hterm & Hd & Hmax & Hfrom & Hdr).
         subst ev. rewrite answersFrom_sub, Hans, !fmap_cons. cbn [fst snd].
         split; [constructor; [reflexivity|assumption]|].
         split; [now rewrite Hnames|].
         split; [constructor; [reflexivity|assumption]|].
         split; [assumption|].
         split.
         { intros req' Hin. apply elem_of_cons in Hin as [Heq|Hin]; [discriminate Heq|].
           now apply Hmax. }
         split.
         { destruct Hfrom as [->|(req' & Hin & ->)]; [now left|].
           right. exists req'. split; [now right|reflexivity]. }
         split.
         { intros Hdr'. apply Hdr in Hdr' as [?|(req' & Hin)]; [now left|].
           right. exists req'. now right. }
         { intros [?|(req' & Hin)]; apply Hdr; [now left|].
           apply elem_of_cons in Hin as [Heq|Hin]; [discriminate Heq|].
           right. now exists req'. }
      -- destruct Ho as (pre & n & given & st & req' & -> & Hsub & Hpre & Hterm & Himp & Hdl & Hres).
         exists (ev :: pre), n, given, st, req'.
         split; [reflexivity|].
         split; [constructor; [reflexivity|assumption]|].
         subst ev. rewrite answersFrom_sub, Hans, !fmap_cons. cbn [fst snd].
         split; [now apply prefix_cons|].
         split; [constructor; [reflexivity|assumption]|].
         split; [rewrite <- app_assoc in Himp; exact Himp|].
         split; [assumption|]. rewrite <- !app_assoc in Hres. exact Hres.
Qed.

Lemma longestDelay_bounds (answers : list (string * option requeue)) :
  0 <= longestDelay answers /\
  (forall req, Some req ∈ answers.*2 -> delay req <= longestDelay answers) /\
  (longestDelay answers = 0 \/
   exists req, Some req ∈ answers.*2 /\ longestDelay answers = delay req).
Proof.
  unfold longestDelay.
  induction answers as [|[n [req|]] answers (IH0 & IHmax & IHfrom)]; cbn.
  - split; [lia|]. split; [intros req Hin; inversion Hin|now left].
  - split; [lia|]. split.
    + intros req' Hin. apply elem_of_cons in Hin as [Heq|Hin].
      * injection Heq as ->. lia.
      * specialize (IHmax req' Hin). lia.
    + destruct (Z.max_spec (delay req)
                  (foldr Z.max 0 (omap (fun a => delay <$> a.2) answers)))
        as [(Hlt & ->)|(Hle & ->)].
      * destruct IHfrom as [Hz|(req' & Hin & Heq)]; [now left|].
        right. exists req'. split; [now right|assumption].
      * right. exists req. split; [left|reflexivity].
  - split; [assumption|]. split.
    + intros req' Hin. apply elem_of_cons in Hin as [Heq|Hin]; [discriminate Heq|].
      now apply IHmax.
    + destruct IHfrom as [Hz|(req' & Hin & Heq)]; [now left|].
      right. exists req'. split; [now right|assumption].
Qed.

Lemma longestDelay_unique (answers : list (string * option requeue)) d :
  0 <= d ->
  (forall req, Some req ∈ answers.*2 -> delay req <= d) ->
  (d = 0 \/ exists req, Some req ∈ answers.*2 /\ d = delay req) ->
  d = longestDelay answers.
Proof.
  intros H0 Hmax Hfrom.
  destruct (longestDelay_bounds answers) as (L0 & Lmax & Lfrom).
  apply Z.le_antisymm.
  - destruct Hfrom as [->|(req & Hin & ->)]; [assumption|now apply Lmax].
  - destruct Lfrom as [->|(req & Hin & ->)]; [assumption|now apply Hmax].
Qed.

(** Lines 645-705: the sub-reconcilers are run until one stops the
    pipeline, and the result is concluded. *)
Lemma runSubReconcilers_spec names s s' o :
  runSubReconcilers pkg co (subReconcilerOf co <$> names) s = (s', o) ->
  exists evs tail result err,
    calls s' = calls s ++ evs ++ tail /\
    o = Exit result err /\
    Forall (fun ev => isSubCall ev = true) evs /\
    (forall n given st, CallSubReconciler n given st ∈ evs ->
                        Spec_ given = Spec_ (cluster s)) /\
    Forall (fun a => terminal a.2 = false) (answersFrom co (calls s) evs) /\
    (((answersFrom co (calls s) evs).*1 = names /\
      err = None /\ Requeue result = false /\
      (forall req, Some req ∈ (answersFrom co (calls s) evs).*2 ->
                   delay req <= RequeueAfter result) /\
      ((tail = [] /\ 0 < RequeueAfter result /\
        (Reconciled (cluster s') < Generation (cluster s) \/
         exists req, Some req ∈ (answersFrom co (calls s) evs).*2) /\
        (RequeueAfter result = 2 * Duration.Second \/
         exists req, Some req ∈ (answersFrom co (calls s) evs).*2 /\
                     RequeueAfter result = delay req) /\
        RequeueAfter result =
          (if longestDelay (answersFrom co (calls s) evs) =? 0 then 2 * Duration.Second
           else longestDelay (answersFrom co (calls s) evs))) \/
       (tail = [CallRecorderEvent "Normal" "ReconciliationComplete"
                  (reconciledGeneration pkg (Reconciled (cluster s')))] /\
        result = emptyResult /\
        Generation (cluster s) <= Reconciled (cluster s') /\
        Forall (fun a => a.2 = None) (answersFrom co (calls s) evs)))) \/
     (exists n given st req,
        tail = [CallSubReconciler n given st; CallProcessRequeue req n] /\
        (answersFrom co (calls s) evs).*1 ++ [n] `prefix_of` names /\
        (implementation co n (calls s ++ evs) given st).2 = Some req /\
        Spec_ given = Spec_ (cluster s) /\
        delayedRequeue req = false /\
        (result, err) =
          processRequeue co (calls s ++ evs ++ [CallSubReconciler n given st]) req n
            (cluster s'))).
Proof.
  intros Hrun. unfold runSubReconcilers in Hrun.
  unfold bind at 1 2 in Hrun. unfold getCluster at 1 in Hrun. cbn in Hrun.
  destruct (pipeline co (Spec_ (cluster s)) (subReconcilerOf co <$> names) 0 false s)
    as [s1 o1] eqn:Hp.
  apply pipeline_spec in Hp as (evs & Htr & Hspec & Ho).
  destruct o1 as [[d dr]|result err|msg]; [| |contradiction].
  - destruct Ho as (Hsub & Hnames & Hterm & Hd & Hmax & Hfrom & Hdr).
    unfold conclude, bind, getCluster, call, exit in Hrun. cbn in Hrun.
    assert (Hnone : dr = false -> Forall (fun a => a.2 = None) (answersFrom co (calls s) evs)).
    { intros ->. apply Forall_forall. intros [n [req|]] Hin; [exfalso|reflexivity].
      assert (Habs : false = true); [|discriminate Habs].
      apply Hdr. right. exists req. apply list_elem_of_fmap. now exists (n, Some req). }
    set (two := 2 * Duration.Second) in *.
    assert (H2s : 0 < two) by (subst two; vm_compute; reflexivity).
    clearbody two.
    assert (Hafter : forall req, Some req ∈ (answersFrom co (calls s) evs).*2 ->
                                 delay req <= (if d =? 0 then two else d)).
    { intros req Hin. apply Hmax in Hin. destruct (d =? 0) eqn:Hz; [|assumption].
      apply Z.eqb_eq in Hz. lia. }
    assert (Hpos : 0 < (if d =? 0 then two else d)).
    { destruct (d =? 0) eqn:Hz; [assumption|]. apply Z.eqb_neq in Hz. lia. }
    assert (Hwhich : (if d =? 0 then two else d) = two \/
                     exists req, Some req ∈ (answersFrom co (calls s) evs).*2 /\
                                 (if d =? 0 then two else d) = delay req).
    { destruct (d =? 0) eqn:Hz; [now left|right].
      apply Z.eqb_neq in Hz. destruct Hfrom as [->|Hfrom]; [lia|exact Hfrom]. }
    assert (Hlongest : (if d =? 0 then two else d) =
                       (if longestDelay (answersFrom co (calls s) evs) =? 0 then two
                        else longestDelay (answersFrom co (calls s) evs))).
    { now rewrite <- (longestDelay_unique _ d Hd Hmax Hfrom). }
    destruct (Reconciled (cluster s1) <? Generation (cluster s)) eqn:Hgen; cbn in Hrun.
    + apply Z.ltb_lt in Hgen. injection Hrun as <- <-.
      eexists evs, [], _, _. rewrite app_nil_r.
      split; [assumption|]. split; [reflexivity|]. split; [assumption|].
      split; [assumption|]. split; [assumption|]. left. cbn.
      split; [assumption|]. split; [reflexivity|]. split; [reflexivity|].
      split; [assumption|]. left.
      split; [reflexivity|]. split; [assumption|]. split; [now left|].
      split; assumption.
    + apply Z.ltb_ge in Hgen. destruct dr; cbn in Hrun.
      * injection Hrun as <- <-.
        eexists evs, [], _, _. rewrite app_nil_r.
        split; [assumption|]. split; [reflexivity|]. split; [assumption|].
        split; [assumption|]. split; [assumption|]. left. cbn.
        split; [assumption|]. split; [reflexivity|]. split; [reflexivity|].
        split; [assumption|]. left.
        split; [reflexivity|]. split; [assumption|]. split; [|split; assumption].
        right. destruct (proj1 Hdr eq_refl) as [Hf|Hreq]; [discriminate Hf|exact Hreq].
      * injection Hrun as <- <-. cbn.
        eexists evs, [_], _, _.
        split; [now rewrite Htr, <- app_assoc|]. split; [reflexivity|].
        split; [assumption|]. split; [assumption|]. split; [assumption|]. left.
        pose proof (Hnone eq_refl) as Hall.
        split; [assumption|]. split; [reflexivity|]. split; [reflexivity|].
        split; [|right; split; [reflexivity|split; [reflexivity|split; assumption]]].
        intros req Hin. exfalso. rewrite Forall_forall in Hall.
        apply list_elem_of_fmap in Hin as ([n a] & Heq & Hin). cbn in Heq. subst a.
        specialize (Hall _ Hin). discriminate Hall.
  - destruct Ho as (pre & n & given & st & req & -> & Hsub & Hpre & Hterm & Himp & Hdl & Hres).
    cbn in Hrun. injection Hrun as <- <-.
    exists pre, [CallSubReconciler n given st; CallProcessRequeue req n], result, err.
    split; [assumption|]. split; [reflexivity|]. split; [assumption|].
    split; [intros n' given' st' Hin; apply (Hspec n' given' st');
            apply elem_of_app; now left|].
    split; [assumption|]. right. exists n, given, st, req.
    split; [reflexivity|]. split; [assumption|]. split; [assumption|].
    split; [apply (Hspec n given st); apply elem_of_app; right; left|].
    split; assumption.
Qed.

(** The loop over the coordinators looks up every name to resolve, also
    after a lookup has failed. *)
Lemma resolveLoop_spec coordinators : forall b s,
  resolveLoop pkg co coordinators b s =
    ({| cluster := cluster s; status := status s;
        calls := calls s ++ (CallLookupIPAddr <$> namesToResolve pkg coordinators) |},
     Next (b && allResolve co (calls s) (namesToResolve pkg coordinators))).
Proof.
  induction coordinators as [|c rest IH]; intros b s.
  - destruct s. cbn. unfold ret. now rewrite app_nil_r, andb_true_r.
  - cbn [resolveLoop]. unfold bind, resolveStep. unfold namesToResolve. cbn [omap list_omap].
    fold (namesToResolve pkg rest).
    destruct (ParseProcessAddress pkg c) as [err|addr]; [apply IH|].
    destruct (IsEmpty pkg addr); cbn [negb]; [|apply IH].
    unfold call, ret, bind. cbn.
    destruct (LookupIPAddr co (calls s) (MachineAddress pkg addr)) as [ip err] eqn:Hlookup.
    rewrite IH. cbn. rewrite <- app_assoc. cbn [app]. f_equal. f_equal.
    destruct err, ip, b; cbn; reflexivity.
Qed.

Lemma shutdown_spec s s' o :
  shutdown co s = (s', o) ->
  cluster s' = cluster s /\ status s' = status s /\
  ((calls s' = calls s ++ [CallFindProcess] /\
    exists err, o = Exit {| Requeue := false; RequeueAfter := 5 * Duration.Second |}
                         (Some err) /\
                FindProcess co (calls s) = Some err) \/
   (calls s' = calls s ++ [CallFindProcess; CallSignal "SIGTERM"] /\
    FindProcess co (calls s) = None /\
    ((o = Next tt /\ Signal co (calls s ++ [CallFindProcess]) = None) \/
     exists err, o = Exit {| Requeue := false; RequeueAfter := 5 * Duration.Second |}
                          (Some err) /\
                 Signal co (calls s ++ [CallFindProcess]) = Some err))).
Proof.
  intros Hrun. unfold shutdown in Hrun. destruct s as [cl st tr]. run_d Hrun.
  - split; [reflexivity|]. split; [reflexivity|]. left. split; [reflexivity|]. eauto.
  - split; [reflexivity|]. split; [reflexivity|]. right.
    split; [now rewrite <- app_assoc|]. split; [assumption|]. right. eauto.
  - split; [reflexivity|]. split; [reflexivity|]. right.
    split; [now rewrite <- app_assoc|]. split; [assumption|]. left. now split.
Qed.

(** Lines 567-643, case by case. *)
Lemma cacheStatusBlock_spec s s' o :
  cacheStatusBlock pkg co true s = (s', o) ->
  exists cl res,
    getStatusFromClusterOrDummyStatus co (calls s) (cluster s) = (cl, res) /\
    cluster s' = cl /\
    match res with
    | inr st =>
        status s' = Some st /\ o = Next tt /\
        calls s' = calls s ++ [CallGetStatusFromClusterOrDummyStatus]
    | inl err =>
        status s' = None /\
        match ParseConnectionString pkg (ConnectionString cl) with
        | inr coordinators =>
            let lookups := CallLookupIPAddr <$> namesToResolve pkg coordinators in
            if UseDNSInClusterFile pkg cl && Contains err "FoundationDB error code 1512"
               && allResolve co (calls s ++ [CallGetStatusFromClusterOrDummyStatus])
                             (namesToResolve pkg coordinators)
            then
              let resolved := calls s ++ CallGetStatusFromClusterOrDummyStatus :: lookups in
              exists tail,
                calls s' = resolved ++ tail /\
                match FindProcess co resolved with
                | Some err' =>
                    tail = [CallFindProcess] /\
                    o = Exit {| Requeue := false; RequeueAfter := 5 * Duration.Second |}
                             (Some err')
                | None =>
                    tail = [CallFindProcess; CallSignal "SIGTERM"] /\
                    match Signal co (resolved ++ [CallFindProcess]) with
                    | Some err' =>
                        o = Exit {| Requeue := false; RequeueAfter := 5 * Duration.Second |}
                                 (Some err')
                    | None => o = Next tt
                    end
                end
            else
              o = Next tt /\
              calls s' = calls s ++ CallGetStatusFromClusterOrDummyStatus ::
                           (if UseDNSInClusterFile pkg cl
                               && Contains err "FoundationDB error code 1512"
                            then lookups else [])
        | inl _ =>
            o = Next tt /\ calls s' = calls s ++ [CallGetStatusFromClusterOrDummyStatus]
        end
    end.
Proof.
  intros Hrun. unfold cacheStatusBlock in Hrun. cbn [negb] in Hrun.
  unfold bind at 1 2, getCluster, call at 1 in Hrun. cbn in Hrun.
  destruct (getStatusFromClusterOrDummyStatus co (calls s) (cluster s)) as [cl res] eqn:Hget.
  exists cl, res. split; [reflexivity|].
  unfold bind at 1, setCluster in Hrun. cbn in Hrun.
  destruct res as [err|st].
  - unfold bind at 1, setStatus in Hrun. cbn in Hrun.
    destruct (UseDNSInClusterFile pkg cl && Contains err "FoundationDB error code 1512")
      eqn:Hdns.
    + destruct (ParseConnectionString pkg (ConnectionString cl)) as [perr|coordinators].
      * unfold ret in Hrun. simplify_eq. cbn. auto.
      * unfold bind in Hrun. rewrite resolveLoop_spec in Hrun. cbn in Hrun.
        cbn [andb].
        destruct (allResolve co (calls s ++ [CallGetStatusFromClusterOrDummyStatus])
                    (namesToResolve pkg coordinators)).
        -- apply shutdown_spec in Hrun as (Hcl & Hst & Hcases). cbn in *.
           split; [assumption|]. split; [assumption|].
           rewrite <- ?app_assoc in *. cbn [app] in *.
           destruct Hcases as [(Htr & err' & -> & Hfind)|(Htr & Hfind & Ho)].
           ++ exists [CallFindProcess]. rewrite Htr, Hfind. split; [|now split].
              now rewrite <- app_assoc.
           ++ exists [CallFindProcess; CallSignal "SIGTERM"]. rewrite Htr, Hfind.
              split; [now rewrite <- app_assoc|]. split; [reflexivity|].
              rewrite <- ?app_assoc. cbn [app].
              destruct Ho as [(-> & ->)|(err' & -> & ->)]; reflexivity.
        -- unfold ret in Hrun. simplify_eq. cbn. rewrite <- app_assoc. auto.
    + unfold ret in Hrun. simplify_eq. cbn.
      destruct (ParseConnectionString pkg (ConnectionString cl)); auto.
  - unfold setStatus in Hrun. simplify_eq. cbn. auto.
Qed.

Lemma subCalls_are_bodyCalls (evs : list (Event Spec OtherStatus Status)) :
  Forall (fun ev => isSubCall ev = true) evs -> Forall (fun ev => bodyCall ev = true) evs.
Proof.
  intros Hsub. eapply Forall_impl; [exact Hsub|].
  intros [] Hev; try discriminate Hev; reflexivity.
Qed.

Lemma addPodsFirst_calls s s' o :
  addPodsFirst pkg co s = (s', o) ->
  exists evs,
    calls s' = calls s ++ evs /\ Forall (fun ev => bodyCall ev = true) evs /\
    match o with Crash _ => False | Exit _ _ => evs <> [] | Next _ => True end.
Proof.
  intros Hrun. unfold addPodsFirst in Hrun. destruct s as [cl st tr].
  unfold bind at 1, getCluster in Hrun. cbn in Hrun.
  destruct (UseDNSInClusterFile pkg cl).
  - unfold bind at 1, runClusterSubReconciler in Hrun. cbn in Hrun.
    destruct (implementation co "addPods" tr cl None) as [[cl' touch] req].
    destruct req as [req|]; [destruct (delayedRequeue req)|]; cbn in Hrun.
    + unfold ret in Hrun. simplify_eq. cbn.
      eexists. split; [reflexivity|]. split; [now repeat constructor|exact I].
    + unfold returnProcessRequeue, bind, getCluster, call, exit in Hrun. cbn in Hrun.
      simplify_eq. cbn.
      eexists. rewrite <- app_assoc. split; [reflexivity|].
      split; [now repeat constructor|discriminate].
    + unfold ret in Hrun. simplify_eq. cbn.
      eexists. split; [reflexivity|]. split; [now repeat constructor|exact I].
  - unfold ret in Hrun. simplify_eq. cbn.
    exists []. rewrite app_nil_r. split; [reflexivity|]. split; [constructor|exact I].
Qed.

Lemma cacheStatusBlock_calls cacheStatus s s' o :
  cacheStatusBlock pkg co cacheStatus s = (s', o) ->
  exists evs,
    calls s' = calls s ++ evs /\ Forall (fun ev => bodyCall ev = true) evs /\
    match o with Crash _ => False | Exit _ _ => evs <> [] | Next _ => True end.
Proof.
  intros Hrun. destruct cacheStatus.
  2: { unfold cacheStatusBlock, ret in Hrun. cbn in Hrun. simplify_eq.
       exists []. rewrite app_nil_r. split; [reflexivity|]. split; [constructor|exact I]. }
  apply cacheStatusBlock_spec in Hrun as (cl & res & _ & _ & Hres).
  assert (Hlookups : forall names,
            Forall (fun ev : Event Spec OtherStatus Status => bodyCall ev = true)
                   (CallLookupIPAddr <$> names)).
  { intros names. apply Forall_fmap, Forall_true. reflexivity. }
  destruct res as [err|st].
  - destruct Hres as (_ & Hres).
    destruct (ParseConnectionString pkg (ConnectionString cl)) as [perr|coordinators].
    + destruct Hres as (-> & ->).
      eexists. split; [reflexivity|]. split; [now repeat constructor|exact I].
    + cbv zeta in Hres.
      destruct (UseDNSInClusterFile pkg cl && Contains err "FoundationDB error code 1512");
        cbn [andb] in Hres.
      * destruct (allResolve co _ _).
        -- destruct Hres as (tail & -> & Htail).
           destruct (FindProcess co _) as [err'|];
             [destruct Htail as (-> & ->)
             |destruct Htail as (-> & Htail);
              destruct (Signal co _) as [err'|]; rewrite Htail].
           all: rewrite <- app_assoc; cbn [app].
           all: eexists; split; [reflexivity|].
           all: split; [|first [exact I|discriminate]].
           all: constructor; [reflexivity|]; apply Forall_app; split;
             [apply Hlookups|now repeat constructor].
        -- destruct Hres as (-> & ->).
           eexists. split; [reflexivity|].
           split; [constructor; [reflexivity|apply Hlookups]|exact I].
      * destruct Hres as (-> & ->).
        eexists. split; [reflexivity|]. split; [now repeat constructor|exact I].
  - destruct Hres as (_ & -> & ->).
    eexists. split; [reflexivity|]. split; [now repeat constructor|exact I].
Qed.

Lemma runSubReconcilers_calls names s s' o :
  runSubReconcilers pkg co (subReconcilerOf co <$> names) s = (s', o) ->
  (exists evs, calls s' = calls s ++ evs /\ Forall (fun ev => bodyCall ev = true) evs /\
               (names <> [] -> evs <> [])) /\
  exists result err, o = Exit result err.
Proof.
  intros Hrun.
  apply runSubReconcilers_spec in Hrun
    as (evs & tail & result & err & Htr & -> & Hsub & _ & _ & Hcases).
  split; [|eauto]. exists (evs ++ tail). split; [assumption|].
  apply subCalls_are_bodyCalls in Hsub.
  destruct Hcases as [(Hnames & _ & _ & _ & [(-> & _)|(-> & _)])|
                      (n & given & st & req & -> & _)].
  - rewrite app_nil_r. split; [assumption|].
    intros Hne ->. cbn in Hnames. now apply Hne.
  - split; [apply Forall_app; split; [assumption|now repeat constructor]|].
    intros _ Hnil. apply app_eq_nil in Hnil as [_ Hnil]. discriminate Hnil.
  - split; [apply Forall_app; split; [assumption|now repeat constructor]|].
    intros _ Hnil. apply app_eq_nil in Hnil as [_ Hnil]. discriminate Hnil.
Qed.

(** X13: the sub-reconcilers are run in the order of the list, each on
    the spec the loop started with, until one answers with a requeue that
    is not delayed: that one is the last to run, [processRequeue] is
    called on its requeue, and what it gives is what the driver returns.
    As long as the answers are nil or delayed requeues, every
    sub-reconciler of the list is run and [processRequeue] is not
    called. *)
Theorem pipeline_stops_at_the_first_requeue_that_is_not_delayed
    (names : list string) (s s' : State Spec OtherStatus Status) (o : Flow unit) :
  runSubReconcilers pkg co (subReconcilerOf co <$> names) s = (s', o) ->
  exists evs,
    calls s' = calls s ++ evs /\
    (forall n given st, CallSubReconciler n given st ∈ evs ->
                        Spec_ given = Spec_ (cluster s)) /\
    (answersFrom co (calls s) evs).*1 `prefix_of` names /\
    (forall i n req,
       answersFrom co (calls s) evs !! i = Some (n, Some req) ->
       delayedRequeue req = false ->
       S i = length (answersFrom co (calls s) evs) /\
       exists pre,
         evs = pre ++ [CallProcessRequeue req n] /\
         o = Exit (processRequeue co (calls s ++ pre) req n (cluster s')).1
                  (processRequeue co (calls s ++ pre) req n (cluster s')).2) /\
    (Forall (fun a => terminal a.2 = false) (answersFrom co (calls s) evs) ->
     (answersFrom co (calls s) evs).*1 = names /\
     forall req n, CallProcessRequeue req n ∉ evs).
Proof.
  intros Hrun.
  apply runSubReconcilers_spec in Hrun
    as (evs & tail & result & err & Htr & -> & Hsub & Hspec & Hterm & Hcases).
  exists (evs ++ tail). split; [assumption|].
  assert (Hquiet : forall req n, CallProcessRequeue req n ∉ evs).
  { intros req n Hin. rewrite Forall_forall in Hsub. apply Hsub in Hin. discriminate Hin. }
  assert (Hnot : forall i n req,
            answersFrom co (calls s) evs !! i = Some (n, Some req) ->
            delayedRequeue req = false -> False).
  { intros i n req Hi Hd. rewrite Forall_forall in Hterm.
    apply list_elem_of_lookup_2 in Hi. apply Hterm in Hi. cbn in Hi.
    rewrite Hd in Hi. discriminate Hi. }
  destruct Hcases as [(Hnames & _ & _ & _ & Htail)|
                      (n & given & st & req & -> & Hpre & Himp & Hgiven & Hdl & Hres)].
  - assert (Hans : answersFrom co (calls s) (evs ++ tail) = answersFrom co (calls s) evs).
    { rewrite answersFrom_app.
      destruct Htail as [(-> & _)|(-> & _)]; cbn; now rewrite app_nil_r. }
    rewrite Hans.
    split.
    { intros n given st Hin. apply elem_of_app in Hin as [Hin|Hin];
        [now apply (Hspec n given st)|].
      destruct Htail as [(-> & _)|(-> & _)]; [inversion Hin|].
      apply list_elem_of_singleton in Hin. discriminate Hin. }
    split; [now rewrite Hnames|].
    split; [intros i n req Hi Hd; exfalso; exact (Hnot i n req Hi Hd)|].
    intros _. split; [assumption|].
    intros req n Hin. apply elem_of_app in Hin as [Hin|Hin]; [exact (Hquiet req n Hin)|].
    destruct Htail as [(-> & _)|(-> & _)]; [inversion Hin|].
    apply list_elem_of_singleton in Hin. discriminate Hin.
  - assert (Hans : answersFrom co (calls s)
                     (evs ++ [CallSubReconciler n given st; CallProcessRequeue req n])
                   = answersFrom co (calls s) evs ++ [(n, Some req)]).
    { rewrite answersFrom_app. cbn. now rewrite Himp. }
    rewrite Hans.
    split.
    { intros n' given' st' Hin. apply elem_of_app in Hin as [Hin|Hin];
        [now apply (Hspec n' given' st')|].
      apply elem_of_cons in Hin as [Heq|Hin]; [now injection Heq as -> -> ->|].
      apply list_elem_of_singleton in Hin. discriminate Hin. }
    split; [now rewrite fmap_app|].
    split.
    + intros i n' req' Hi Hd.
      apply lookup_app_Some in Hi as [Hi|(Hlen & Hi)];
        [exfalso; exact (Hnot i n' req' Hi Hd)|].
      apply list_lookup_singleton_Some in Hi as (Hi & Heq). injection Heq as <- <-.
      split; [rewrite length_app; cbn; lia|].
      exists (evs ++ [CallSubReconciler n given st]).
      rewrite <- !app_assoc. cbn [app]. split; [reflexivity|].
      rewrite <- Hres. reflexivity.
    + intros Hall. exfalso. apply Forall_app in Hall as (_ & Hall).
      apply Forall_inv in Hall. cbn in Hall. rewrite Hdl in Hall. discriminate Hall.
Qed.

(** X14: when no sub-reconciler stops the pipeline, the driver returns no
    error and never asks for an immediate requeue.  When the reconciled
    generation has reached the generation the loop started with and every
    sub-reconciler answered nil, it returns the empty result, after
    recording that the reconciliation is complete.  Otherwise it makes no
    further call and asks to be requeued after the longest delay a
    sub-reconciler asked for, or after two seconds when none asked for a
    positive delay. *)
Theorem requeue_after_is_the_longest_delay_or_two_seconds
    (names : list string) (s s' : State Spec OtherStatus Status) (o : Flow unit) :
  runSubReconcilers pkg co (subReconcilerOf co <$> names) s = (s', o) ->
  exists evs,
    calls s' = calls s ++ evs /\
    (Forall (fun a => terminal a.2 = false) (answersFrom co (calls s) evs) ->
     exists result,
       o = Exit result None /\ Requeue result = false /\
       (Generation (cluster s) <= Reconciled (cluster s') /\
        Forall (fun a => a.2 = None) (answersFrom co (calls s) evs) ->
        RequeueAfter result = 0 /\
        last evs = Some (CallRecorderEvent "Normal" "ReconciliationComplete"
                           (reconciledGeneration pkg (Reconciled (cluster s'))))) /\
       (Reconciled (cluster s') < Generation (cluster s) \/
        Exists (fun a => a.2 <> None) (answersFrom co (calls s) evs) ->
        RequeueAfter result =
          (if longestDelay (answersFrom co (calls s) evs) =? 0
           then 2 * Duration.Second
           else longestDelay (answersFrom co (calls s) evs)) /\
        Forall (fun ev => isSubCall ev = true) evs)).
Proof.
  intros Hrun.
  apply runSubReconcilers_spec in Hrun
    as (evs & tail & result & err & Htr & -> & Hsub & Hspec & Hterm & Hcases).
  exists (evs ++ tail). split; [assumption|].
  destruct Hcases as [(Hnames & -> & Hrq & Hmax & Htail)|
                      (n & given & st & req & -> & Hpre & Himp & Hgiven & Hdl & Hres)].
  - assert (Hans : answersFrom co (calls s) (evs ++ tail) = answersFrom co (calls s) evs).
    { rewrite answersFrom_app.
      destruct Htail as [(-> & _)|(-> & _)]; cbn; now rewrite app_nil_r. }
    rewrite Hans. intros _. exists result.
    split; [reflexivity|]. split; [assumption|].
    destruct Htail as [(-> & Hpos & Hwhy & Hwhich & Hexact)|(-> & -> & Hgen & Hnone)].
    + rewrite app_nil_r. split.
      * intros (Hgen & Hnone). exfalso.
        destruct Hwhy as [Hlt|(req & Hin)]; [lia|].
        rewrite Forall_forall in Hnone.
        apply list_elem_of_fmap in Hin as ([n a] & Heq & Hin). cbn in Heq. subst a.
        specialize (Hnone _ Hin). discriminate Hnone.
      * intros _. split; assumption.
    + split.
      * intros _. split; [reflexivity|apply last_snoc].
      * intros [Hlt|Hsome]; exfalso; [lia|].
        apply Exists_exists in Hsome as (a & Hin & Ha).
        rewrite Forall_forall in Hnone. now apply Ha, Hnone.
  - intros Hall. exfalso.
    assert (Hans : answersFrom co (calls s)
                     (evs ++ [CallSubReconciler n given st; CallProcessRequeue req n])
                   = answersFrom co (calls s) evs ++ [(n, Some req)]).
    { rewrite answersFrom_app. cbn. now rewrite Himp. }
    rewrite Hans in Hall. apply Forall_app in Hall as (_ & Hall).
    apply Forall_inv in Hall. cbn in Hall. rewrite Hdl in Hall. discriminate Hall.
Qed.

(** When the block that caches the status sends the signal, and how it
    ends the run. *)
Lemma cacheStatusBlock_signal
    (cacheStatus : bool) (s s' : State Spec OtherStatus Status) (o : Flow unit) :
  cacheStatusBlock pkg co cacheStatus s = (s', o) ->
  exists evs,
    calls s' = calls s ++ evs /\
    (forall sig, CallSignal sig ∈ evs ->
       sig = "SIGTERM" /\ cacheStatus = true /\ status s' = None /\
       exists err coordinators,
         (getStatusFromClusterOrDummyStatus co (calls s) (cluster s)).2 = inl err /\
         UseDNSInClusterFile pkg (cluster s') = true /\
         Contains err "FoundationDB error code 1512" = true /\
         ParseConnectionString pkg (ConnectionString (cluster s')) = inr coordinators /\
         allResolve co (calls s ++ [CallGetStatusFromClusterOrDummyStatus])
                    (namesToResolve pkg coordinators) = true /\
         evs = CallGetStatusFromClusterOrDummyStatus ::
                 (CallLookupIPAddr <$> namesToResolve pkg coordinators) ++
                 [CallFindProcess; CallSignal "SIGTERM"]) /\
    (cacheStatus = true ->
     forall err,
       (getStatusFromClusterOrDummyStatus co (calls s) (cluster s)).2 = inl err ->
       status s' = None) /\
    match o with
    | Next _ => True
    | Exit result err =>
        result = {| Requeue := false; RequeueAfter := 5 * Duration.Second |} /\
        exists pre failure,
          err = Some failure /\
          (evs = pre ++ [CallFindProcess] /\
           FindProcess co (calls s ++ pre) = Some failure \/
           evs = pre ++ [CallFindProcess; CallSignal "SIGTERM"] /\
           FindProcess co (calls s ++ pre) = None /\
           Signal co (calls s ++ pre ++ [CallFindProcess]) = Some failure)
    | Crash _ => False
    end.
Proof.
  intros Hrun. destruct cacheStatus.
  2: { unfold cacheStatusBlock, ret in Hrun. cbn in Hrun. simplify_eq.
       exists []. rewrite app_nil_r. split; [reflexivity|].
       split; [intros sig Hin; inversion Hin|]. split; [discriminate|exact I]. }
  apply cacheStatusBlock_spec in Hrun as (cl & res & Hget & Hcl & Hres).
  assert (Hlookups : forall sig names,
            CallSignal sig ∈
              (CallLookupIPAddr <$> names : list (Event Spec OtherStatus Status)) -> False).
  { intros sig names Hin. apply list_elem_of_fmap in Hin as (name & Heq & _).
    discriminate Heq. }
  assert (Hone : forall sig (ev : Event Spec OtherStatus Status),
            (forall sig', ev <> CallSignal sig') -> CallSignal sig ∈ [ev] -> False).
  { intros sig ev Hne Hin. apply list_elem_of_singleton in Hin. now apply (Hne sig). }
  assert (Hnil : match res with inl _ => status s' = None | inr _ => True end).
  { destruct res; [exact (proj1 Hres)|exact I]. }
  assert (Hstatus : true = true ->
                    forall err,
                      (getStatusFromClusterOrDummyStatus co (calls s) (cluster s)).2
                        = inl err ->
                      status s' = None).
  { intros _ err Herr. rewrite Hget in Herr. cbn in Herr. now subst res. }
  rewrite Hcl. destruct res as [err|st].
  - destruct Hres as (Hst & Hres).
    destruct (ParseConnectionString pkg (ConnectionString cl)) as [perr|coordinators] eqn:Hparse.
    + destruct Hres as (-> & ->). eexists. split; [reflexivity|].
      split; [|split; [exact Hstatus|exact I]].
      intros sig Hin. exfalso. now apply Hone in Hin.
    + cbv zeta in Hres.
      destruct (UseDNSInClusterFile pkg cl && Contains err "FoundationDB error code 1512")
        eqn:Hdns; cbn [andb] in Hres.
      * apply andb_true_iff in Hdns as (Hdns & Herr).
        destruct (allResolve co _ _) eqn:Hall.
        -- destruct Hres as (tail & -> & Htail).
           rewrite <- app_assoc. cbn [app].
           eexists. split; [reflexivity|].
           destruct (FindProcess co _) as [ferr|] eqn:Hfind.
           ++ destruct Htail as (-> & ->). split.
              ** intros sig Hin. exfalso.
                 apply elem_of_cons in Hin as [Heq|Hin]; [discriminate Heq|].
                 apply elem_of_app in Hin as [Hin|Hin]; [now apply Hlookups in Hin|].
                 now apply Hone in Hin.
              ** split; [exact Hstatus|]. split; [reflexivity|].
                 eexists (CallGetStatusFromClusterOrDummyStatus :: _), ferr.
                 split; [reflexivity|]. left. split; [reflexivity|exact Hfind].
           ++ destruct Htail as (-> & Htail). split.
              ** intros sig Hin.
                 apply elem_of_cons in Hin as [Heq|Hin]; [discriminate Heq|].
                 apply elem_of_app in Hin as [Hin|Hin]; [now apply Hlookups in Hin|].
                 apply elem_of_cons in Hin as [Heq|Hin]; [discriminate Heq|].
                 apply list_elem_of_singleton in Hin. injection Hin as ->.
                 split; [reflexivity|]. split; [reflexivity|]. split; [assumption|].
                 exists err, coordinators. rewrite Hget. now repeat split.
              ** split; [exact Hstatus|].
                 destruct (Signal co _) as [serr|] eqn:Hsig; rewrite Htail; [|exact I].
                 split; [reflexivity|].
                 eexists (CallGetStatusFromClusterOrDummyStatus :: _), serr.
                 split; [reflexivity|]. right. split; [reflexivity|].
                 split; [exact Hfind|]. rewrite app_assoc. exact Hsig.
        -- destruct Hres as (-> & ->). eexists. split; [reflexivity|].
           split; [|split; [exact Hstatus|exact I]]. intros sig Hin. exfalso.
           apply elem_of_cons in Hin as [Heq|Hin]; [discriminate Heq|].
           now apply Hlookups in Hin.
      * destruct Hres as (-> & ->). eexists. split; [reflexivity|].
        split; [|split; [exact Hstatus|exact I]].
        intros sig Hin. exfalso. now apply Hone in Hin.
  - destruct Hres as (_ & -> & ->). eexists. split; [reflexivity|].
    split; [|split; [exact Hstatus|exact I]].
    intros sig Hin. exfalso. now apply Hone in Hin.
Qed.

(** The lookups of the block that caches the status. *)
Lemma cacheStatusBlock_lookups s s' o err coordinators :
  cacheStatusBlock pkg co true s = (s', o) ->
  (getStatusFromClusterOrDummyStatus co (calls s) (cluster s)).2 = inl err ->
  UseDNSInClusterFile pkg (cluster s') = true ->
  Contains err "FoundationDB error code 1512" = true ->
  ParseConnectionString pkg (ConnectionString (cluster s')) = inr coordinators ->
  exists tail,
    calls s' = calls s ++ CallGetStatusFromClusterOrDummyStatus ::
                 (CallLookupIPAddr <$> namesToResolve pkg coordinators) ++ tail /\
    (allResolve co (calls s ++ [CallGetStatusFromClusterOrDummyStatus])
                (namesToResolve pkg coordinators) = false ->
     tail = [] /\ o = Next tt).
Proof.
  intros Hrun Hfetch Hdns Herr Hparse.
  apply cacheStatusBlock_spec in Hrun as (cl & res & Hget & Hcl & Hres).
  rewrite Hget in Hfetch. cbn in Hfetch. subst res. subst cl.
  destruct Hres as (_ & Hres). rewrite Hparse in Hres. cbv zeta in Hres.
  rewrite Hdns, Herr in Hres. cbn [andb] in Hres.
  destruct (allResolve co _ _).
  - destruct Hres as (tail & Htr & _). exists tail.
    rewrite Htr, <- app_assoc. cbn [app]. split; [reflexivity|]. discriminate.
  - destruct Hres as (-> & ->). exists []. rewrite app_nil_r. now split.
Qed.

(** X15: the driver sends a signal to its own process only when it was to
    cache the status, the fetch failed with an error that names
    FoundationDB error 1512, the cluster file uses DNS names, the
    connection string parses, and every coordinator that is a name was
    looked up with success.  Under the first four of these conditions
    every such name is looked up, whatever the earlier lookups gave, and
    a coordinator that does not parse or that has an IP is not; when a
    lookup fails nothing else is called and the run goes on.  The signal
    is SIGTERM.  A failed fetch leaves the status nil and does not end
    the run by itself: the run ends here only when the look-up of the
    process fails, as the last call, or the signal that follows a
    successful look-up fails, as the last call; the driver then returns
    that error with a requeue after five seconds. *)
Theorem shutdown_needs_resolvable_coordinators
    (cacheStatus : bool) (s s' : State Spec OtherStatus Status) (o : Flow unit) :
  cacheStatusBlock pkg co cacheStatus s = (s', o) ->
  exists evs,
    calls s' = calls s ++ evs /\
    (forall sig, CallSignal sig ∈ evs ->
       sig = "SIGTERM" /\ cacheStatus = true /\ status s' = None /\
       exists err coordinators,
         (getStatusFromClusterOrDummyStatus co (calls s) (cluster s)).2 = inl err /\
         UseDNSInClusterFile pkg (cluster s') = true /\
         Contains err "FoundationDB error code 1512" = true /\
         ParseConnectionString pkg (ConnectionString (cluster s')) = inr coordinators /\
         allResolve co (calls s ++ [CallGetStatusFromClusterOrDummyStatus])
                    (namesToResolve pkg coordinators) = true /\
         evs = CallGetStatusFromClusterOrDummyStatus ::
                 (CallLookupIPAddr <$> namesToResolve pkg coordinators) ++
                 [CallFindProcess; CallSignal "SIGTERM"]) /\
    (cacheStatus = true ->
     forall err,
       (getStatusFromClusterOrDummyStatus co (calls s) (cluster s)).2 = inl err ->
       status s' = None /\
       forall coordinators,
         UseDNSInClusterFile pkg (cluster s') = true ->
         Contains err "FoundationDB error code 1512" = true ->
         ParseConnectionString pkg (ConnectionString (cluster s')) = inr coordinators ->
         exists tail,
           evs = CallGetStatusFromClusterOrDummyStatus ::
                   (CallLookupIPAddr <$> namesToResolve pkg coordinators) ++ tail /\
           (allResolve co (calls s ++ [CallGetStatusFromClusterOrDummyStatus])
                       (namesToResolve pkg coordinators) = false ->
            tail = [] /\ o = Next tt)) /\
    match o with
    | Next _ => True
    | Exit result err =>
        result = {| Requeue := false; RequeueAfter := 5 * Duration.Second |} /\
        exists pre failure,
          err = Some failure /\
          (evs = pre ++ [CallFindProcess] /\
           FindProcess co (calls s ++ pre) = Some failure \/
           evs = pre ++ [CallFindProcess; CallSignal "SIGTERM"] /\
           FindProcess co (calls s ++ pre) = None /\
           Signal co (calls s ++ pre ++ [CallFindProcess]) = Some failure)
    | Crash _ => False
    end.
Proof.
  intros Hrun.
  destruct (cacheStatusBlock_signal _ _ _ _ Hrun) as (evs & Htr & Hsignal & Hnil & Hexit).
  exists evs. split; [exact Htr|]. split; [exact Hsignal|]. split; [|exact Hexit].
  intros -> err Hfetch. split; [now apply (Hnil eq_refl err)|].
  intros coordinators Hdns Herr Hparse.
  destruct (cacheStatusBlock_lookups _ _ _ _ _ Hrun Hfetch Hdns Herr Hparse)
    as (tail & Htr' & Hfails).
  exists tail. split; [|exact Hfails].
  apply (app_inv_head (calls s)). now rewrite <- Htr.
Qed.

Lemma checkVersion_spec s s' o :
  checkVersion pkg co s = (s', o) ->
  cluster s' = cluster s /\ status s' = status s /\
  calls s' = calls s ++ [CallVersionSupported (Version pkg (Spec_ (cluster s)))] /\
  (o = Next tt \/ exists err, o = Exit emptyResult (Some err)).
Proof.
  intros Hrun. unfold checkVersion in Hrun. destruct s as [cl st tr]. run_d Hrun.
  all: repeat split; eauto.
Qed.

Lemma checkVersion_answer s s' o :
  checkVersion pkg co s = (s', o) ->
  let version := Version pkg (Spec_ (cluster s)) in
  match VersionSupported co (calls s) version with
  | inl err => o = Exit emptyResult (Some err)
  | inr supportedVersion =>
      if supportedVersion then o = Next tt
      else o = Exit emptyResult (Some ("version " +:+ version +:+ " is not supported"))
  end.
Proof.
  intros Hrun. unfold checkVersion in Hrun. destruct s as [cl st tr].
  unfold bind, getCluster, call, exit, ret in Hrun. cbn in Hrun. cbn.
  destruct (VersionSupported co tr (Version pkg (Spec_ cl))) as [err|[|]];
    cbn in Hrun; now simplify_eq.
Qed.

#[local] Arguments subReconcilers : simpl never.

(** X16: a run of [Reconcile] begins with the fetch of the cluster.  It
    ends right there, with the empty result, when the fetch fails (without
    an error when the cluster is not found), when the cluster is to be
    skipped, or when its spec cannot be normalized; after one warning
    event when the normalized spec is not valid; after the call for the
    admin client when that call fails, with its error, or panics.  When
    that call succeeds, the admin client is asked for the support of the
    version, and closed as the last call of the run, whatever happened in
    between; the run then returns and does not panic, and it makes no
    call in between exactly when the version cannot be checked or is not
    supported, which it then reports as the error. *)
Theorem reconcile_closes_the_admin_client_it_obtained
    (request : string) (evs : list (Event Spec OtherStatus Status)) (o : Flow unit) :
  Reconcile pkg co CacheDatabaseStatusForReconciliationDefault request = (evs, o) ->
  match Get co [] request with
  | inl err =>
      evs = [CallGet request] /\
      o = Exit emptyResult (if IsNotFound pkg err then None else Some err)
  | inr cl =>
      if Skip pkg (Spec_ cl) then evs = [CallGet request] /\ o = Exit emptyResult None
      else
        let normalized := (NormalizeClusterSpec pkg cl).1 in
        match (NormalizeClusterSpec pkg cl).2 with
        | Some err => evs = [CallGet request] /\ o = Exit emptyResult (Some err)
        | None =>
            match Validate pkg normalized with
            | Some err =>
                evs = [CallGet request;
                       CallRecorderEvent "Warning" "ClusterSpec not valid" err] /\
                o = Exit emptyResult (Some ("ClusterSpec is not valid: " +:+ err))
            | None =>
                match getAdminClient co [CallGet request] normalized with
                | Panics msg =>
                    evs = [CallGet request; CallGetAdminClient] /\ o = Crash msg
                | Returns (Some err) =>
                    evs = [CallGet request; CallGetAdminClient] /\
                    o = Exit emptyResult (Some err)
                | Returns None =>
                    let version := Version pkg (Spec_ normalized) in
                    exists body result err,
                      evs = CallGet request :: CallGetAdminClient ::
                              CallVersionSupported version :: body ++ [CallClose] /\
                      Forall (fun ev => bodyCall ev = true) body /\
                      o = Exit result err /\
                      match VersionSupported co [CallGet request; CallGetAdminClient]
                              version with
                      | inl failure =>
                          body = [] /\ result = emptyResult /\ err = Some failure
                      | inr false =>
                          body = [] /\ result = emptyResult /\
                          err = Some ("version " +:+ version +:+ " is not supported")
                      | inr true => body <> []
                      end
                end
            end
        end
  end.
Proof.
  intros Hrun. unfold Reconcile in Hrun.
  destruct (Get co [] request) as [err|cl] eqn:Hget.
  { destruct (IsNotFound pkg err); simplify_eq; now split. }
  unfold reconcileCluster in Hrun. unfold bind at 1, getCluster at 1 in Hrun.
  cbn in Hrun.
  destruct (Skip pkg (Spec_ cl)) eqn:Hskip.
  { unfold exit in Hrun. simplify_eq. now split. }
  destruct (NormalizeClusterSpec pkg cl) as [cl1 nerr] eqn:Hnorm.
  unfold bind at 1, setCluster at 1 in Hrun. cbn in Hrun. cbn.
  destruct nerr as [nerr|].
  { unfold exit in Hrun. simplify_eq. now split. }
  destruct (Validate pkg cl1) as [verr|].
  { unfold bind, call, exit in Hrun. cbn in Hrun. simplify_eq. now split. }
  unfold bind at 1, call at 1 in Hrun. cbn in Hrun.
  destruct (getAdminClient co [CallGet request] cl1) as [[aerr|]|msg].
  { unfold exit in Hrun. simplify_eq. now split. }
  2: { unfold crash in Hrun. simplify_eq. now split. }
  unfold deferring in Hrun.
  unfold bind at 1 in Hrun.
  destruct (checkVersion pkg co _) as [s1 o1] eqn:Hcheck.
  pose proof (checkVersion_answer _ _ _ Hcheck) as Hanswer.
  apply checkVersion_spec in Hcheck as (Hcl1 & Hst1 & Htr1 & _). cbn in Htr1, Hcl1.
  cbn in Hanswer.
  destruct (VersionSupported co [CallGet request; CallGetAdminClient]
              (Version pkg (Spec_ cl1))) as [failure|[|]]; subst o1.
  1: { simplify_eq. exists [], emptyResult, (Some failure). rewrite Htr1. cbn.
       split; [reflexivity|]. split; [constructor|]. split; [reflexivity|].
       now repeat split. }
  2: { simplify_eq. eexists [], emptyResult, _. rewrite Htr1. cbn.
       split; [reflexivity|]. split; [constructor|]. split; [reflexivity|].
       now repeat split. }
  unfold bind at 1 in Hrun.
  destruct (addPodsFirst pkg co s1) as [s2 o2] eqn:Hadd.
  apply addPodsFirst_calls in Hadd as (evs2 & Htr2 & Hbody2 & Ho2).
  destruct o2 as [[]|result err|msg]; [| |contradiction].
  2: { simplify_eq. exists evs2, result, err. rewrite Htr2, Htr1. cbn.
       split; [reflexivity|]. split; [assumption|]. split; [reflexivity|].
       assumption. }
  unfold bind at 1 in Hrun.
  destruct (cacheStatusBlock pkg co _ s2) as [s3 o3] eqn:Hcache.
  apply cacheStatusBlock_calls in Hcache as (evs3 & Htr3 & Hbody3 & Ho3).
  destruct o3 as [[]|result err|msg]; [| |contradiction].
  2: { simplify_eq. exists (evs2 ++ evs3), result, err. rewrite Htr3, Htr2, Htr1. cbn.
       rewrite <- !app_assoc.
       split; [reflexivity|]. split; [now apply Forall_app|]. split; [reflexivity|].
       intros Hnil. apply app_eq_nil in Hnil as [_ Hnil]. contradiction. }
  destruct (runSubReconcilers pkg co (subReconcilers co) s3) as [s4 o4] eqn:Hsubs.
  apply runSubReconcilers_calls in Hsubs
    as ((evs4 & Htr4 & Hbody4 & Hne4) & result & err & ->).
  simplify_eq. exists (evs2 ++ evs3 ++ evs4), result, err.
  rewrite Htr4, Htr3, Htr2, Htr1. cbn. rewrite <- !app_assoc.
  split; [reflexivity|]. split; [repeat (apply Forall_app; split); assumption|].
  split; [reflexivity|].
  intros Hnil. exfalso. apply app_eq_nil in Hnil as [_ Hnil].
  apply app_eq_nil in Hnil as [_ Hnil]. now apply Hne4.
Qed.

End ClusterController.

End DriverProperties.

(** ** The status the driver caches *)

Module StatusFetchProperties.
Import StatusFetch.

Section GetStatus.
Context {Spec Other : Type} (zero : Other).
Context (IsBeingUpgradedWithVersionIncompatibleVersion :
           FoundationDBCluster Spec -> bool).

Abbreviation run := (getStatusFromClusterOrDummyStatus zero
                   IsBeingUpgradedWithVersionIncompatibleVersion).

Ltac run_fetch Hrun :=
  unfold getStatusFromClusterOrDummyStatus, getAdminClient, getDatabaseClientProvider,
    fetched, notFetched in Hrun;
  repeat first [ progress cbn in Hrun | case_match; simplify_eq ];
  simplify_eq; cbn.

(** X17: the function returns a status or an error, never both and never
    neither.  With an empty connection string it returns the status that
    says that the configuration is missing, without any call and without
    touching the cluster, also when the reconciler has no provider: it
    panics only when the connection string is set and the provider is
    missing.  It returns an error only when the admin client cannot be
    had or when the fetch fails on a configured cluster; on a cluster that
    is not configured a failed fetch gives the same dummy status. *)
Theorem status_or_error_but_not_both
    (r : FoundationDBClusterReconciler Spec Other) (cluster cluster' : FoundationDBCluster Spec)
    (h h' : list Event)
    (result : GoResult (option (FoundationDBStatus Other) * option error)) :
  run r cluster h = (cluster', h', result) ->
  (ConnectionString cluster = "" ->
   cluster' = cluster /\ h' = h /\ result = Returns (Some (dummyStatus zero), None)) /\
  (forall msg, result = Panics msg ->
     ConnectionString cluster <> "" /\ DatabaseClientProvider_ r = None /\
     cluster' = cluster /\ h' = h) /\
  (forall status err, result = Returns (status, err) ->
     (status = None <-> err <> None) /\
     (forall e, err = Some e ->
        exists provider,
          DatabaseClientProvider_ r = Some provider /\
          (GetAdminClientWithLogger provider h cluster = inl e \/
           Configured cluster = true /\
           exists adminClient,
             GetAdminClientWithLogger provider h cluster = inr adminClient /\
             GetStatus adminClient (h ++ [CallGetAdminClientWithLogger]) = inl e)) /\
     (Configured cluster = false ->
      forall provider adminClient,
        DatabaseClientProvider_ r = Some provider ->
        GetAdminClientWithLogger provider h cluster = inr adminClient ->
        ConnectionString cluster <> "" ->
        match GetStatus adminClient
                (h ++ [CallGetAdminClientWithLogger; CallSetTimeout (10 * Duration.Second)])
        with
        | inr fetchedStatus => status = Some fetchedStatus
        | inl _ => status = Some (dummyStatus zero)
        end)).
Proof.
  intros Hrun. split; [|split].
  - intros Hempty. unfold getStatusFromClusterOrDummyStatus in Hrun.
    rewrite (bool_decide_eq_true_2 _ Hempty) in Hrun. now simplify_eq.
  - intros msg ->. run_fetch Hrun.
    repeat split; try reflexivity.
    match goal with Hd : bool_decide _ = false |- _ => now apply bool_decide_eq_false in Hd end.
  - intros status err ->.
    unfold getStatusFromClusterOrDummyStatus, getAdminClient, getDatabaseClientProvider,
      fetched, notFetched in Hrun.
    destruct (bool_decide (ConnectionString cluster = "")) eqn:Hconn.
    { simplify_eq. split; [split; [discriminate|intros Hne; now contradiction Hne]|].
      split; [discriminate|]. intros _ provider adminClient _ _ Hne.
      apply bool_decide_eq_true in Hconn. contradiction. }
    destruct (DatabaseClientProvider_ r) as [provider|]; [|discriminate Hrun].
    cbn in Hrun.
    destruct (GetAdminClientWithLogger provider h cluster) as [e|adminClient] eqn:Hac.
    { simplify_eq. split; [split; [discriminate|reflexivity]|].
      split; [intros e' [= <-]; exists provider; split; [reflexivity|now left]|].
      intros _ provider' adminClient' [= <-] Hac'. rewrite Hac in Hac'. discriminate Hac'. }
    destruct (Configured cluster) eqn:Hconf; cbn [negb] in Hrun.
    + destruct (GetStatus adminClient (h ++ [CallGetAdminClientWithLogger])) as [e|st] eqn:Hst.
      * repeat case_match; simplify_eq.
        all: split; [split; [discriminate|reflexivity]|].
        all: split; [|discriminate].
        all: intros e' [= <-]; exists provider; split; [reflexivity|right];
          split; [reflexivity|]; exists adminClient; now split.
      * repeat case_match; simplify_eq.
        all: split; [split; [discriminate|intros Hne; now contradiction Hne]|].
        all: split; [discriminate|discriminate].
    + rewrite <- app_assoc in Hrun. cbn [app] in Hrun.
      destruct (GetStatus adminClient _) as [e|st] eqn:Hst.
      * simplify_eq.
        split; [split; [discriminate|intros Hne; now contradiction Hne]|].
        split; [discriminate|].
        intros _ provider' adminClient' [= <-] Hac' _. rewrite Hac in Hac'.
        injection Hac' as <-. now rewrite Hst.
      * repeat case_match; simplify_eq.
        all: split; [split; [discriminate|intros Hne; now contradiction Hne]|].
        all: split; [discriminate|].
        all: intros _ provider' adminClient' [= <-] Hac' _; rewrite Hac in Hac';
          injection Hac' as <-; now rewrite Hst.
Qed.

Ltac unchanged :=
  split; [reflexivity|]; split; [first [reflexivity|assumption]|]; split; [tauto|];
  split; intros Hne; now contradiction Hne.

(** X18: the calls of the function and what it does to the cluster.  It
    makes no call when the connection string is empty or the provider is
    missing, and only the call for the admin client when the provider
    answers that call with an error; when the provider answers with an
    admin client, the client is closed by the last call.  The timeout is
    set, to ten seconds and before the fetch, exactly when the cluster is
    not configured.  The connection string of the cluster is replaced
    only by the one of a fetched status that is not empty and differs
    from it, after an event that announces it, so a connection string
    that is set is never cleared; the running version is replaced only
    after a failed fetch, by a version that is not empty; nothing else of
    the cluster changes. *)
Theorem status_fetch_closes_the_client_and_keeps_the_connection_string
    (r : FoundationDBClusterReconciler Spec Other) (cluster cluster' : FoundationDBCluster Spec)
    (h h' : list Event)
    (result : GoResult (option (FoundationDBStatus Other) * option error)) :
  run r cluster h = (cluster', h', result) ->
  exists evs,
    h' = h ++ evs /\
    (if bool_decide (ConnectionString cluster = "") then evs = []
     else
       match DatabaseClientProvider_ r with
       | None => evs = []
       | Some provider =>
           match GetAdminClientWithLogger provider h cluster with
           | inl _ => evs = [CallGetAdminClientWithLogger]
           | inr _ =>
               exists middle,
                 evs = CallGetAdminClientWithLogger ::
                         (if Configured cluster then []
                          else [CallSetTimeout (10 * Duration.Second)]) ++
                         CallGetStatus :: middle ++ [CallClose] /\
                 (middle = [] \/ middle = [CallGetVersionFromReachableCoordinators] \/
                  exists message,
                    middle = [CallRecorderEvent "Normal" "UpdatingConnectionString"
                                message])
           end
       end) /\
    Spec_ cluster' = Spec_ cluster /\ Configured cluster' = Configured cluster /\
    (ConnectionString cluster <> "" -> ConnectionString cluster' <> "") /\
    (ConnectionString cluster' <> ConnectionString cluster ->
     RunningVersion cluster' = RunningVersion cluster /\
     exists status,
       result = Returns (Some status, None) /\
       ConnectionString cluster' = Cluster_ConnectionString status /\
       CallRecorderEvent "Normal" "UpdatingConnectionString"
         ("Setting connection string to " +:+ ConnectionString cluster') ∈ evs) /\
    (RunningVersion cluster' <> RunningVersion cluster ->
     RunningVersion cluster' <> "" /\ Configured cluster = true /\
     IsBeingUpgradedWithVersionIncompatibleVersion cluster = true /\
     CallGetVersionFromReachableCoordinators ∈ evs /\
     exists err, result = Returns (None, Some err)).
Proof.
  intros Hrun.
  unfold getStatusFromClusterOrDummyStatus, getAdminClient, getDatabaseClientProvider,
    fetched, notFetched in Hrun.
  destruct (bool_decide (ConnectionString cluster = "")) eqn:Hconn.
  { simplify_eq. exists []. rewrite app_nil_r. split; [reflexivity|].
    split; [reflexivity|]. unchanged. }
  apply bool_decide_eq_false in Hconn.
  destruct (DatabaseClientProvider_ r) as [provider|].
  2: { simplify_eq. exists []. rewrite app_nil_r. split; [reflexivity|].
       split; [reflexivity|].
       unchanged. }
  cbn in Hrun.
  destruct (GetAdminClientWithLogger provider h cluster) as [e|adminClient].
  { simplify_eq. eexists. split; [reflexivity|]. split; [reflexivity|].
    unchanged. }
  destruct (Configured cluster) eqn:Hconf; cbn [negb] in Hrun.
  - destruct (GetStatus adminClient (h ++ [CallGetAdminClientWithLogger])) as [e|st].
    + destruct (IsBeingUpgradedWithVersionIncompatibleVersion cluster) eqn:Hup.
      * set (v := GetVersionFromReachableCoordinators adminClient
                    ((h ++ [CallGetAdminClientWithLogger]) ++ [CallGetStatus])) in *.
        destruct (bool_decide (v = "")) eqn:Hv; cbn [negb andb] in Hrun.
        -- simplify_eq. eexists. rewrite <- !app_assoc. cbn [app].
           split; [reflexivity|]. split.
           { exists [CallGetVersionFromReachableCoordinators].
             split; [reflexivity|]. right. now left. }
           unchanged.
        -- apply bool_decide_eq_false in Hv.
           destruct (bool_decide (v = RunningVersion cluster)) eqn:Hsame;
             cbn [negb] in Hrun; simplify_eq.
           ++ eexists. rewrite <- !app_assoc. cbn [app].
              split; [reflexivity|]. split.
              { exists [CallGetVersionFromReachableCoordinators].
                split; [reflexivity|]. right. now left. }
              unchanged.
           ++ eexists. rewrite <- !app_assoc. cbn [app].
              split; [reflexivity|]. split.
              { exists [CallGetVersionFromReachableCoordinators].
                split; [reflexivity|]. right. now left. }
              unfold withRunningVersion; cbn. split; [reflexivity|].
              split; [first [reflexivity|assumption]|]. split; [tauto|].
              split; [intros Hne; now contradiction Hne|].
              intros _. split; [assumption|]. split; [reflexivity|].
              split; [reflexivity|]. split; [|now exists e].
              right. right. left.
      * simplify_eq. eexists. rewrite <- !app_assoc. cbn [app].
        split; [reflexivity|]. split.
        { exists []. split; [reflexivity|]. now left. }
        unchanged.
    + destruct (bool_decide (ConnectionString cluster = Cluster_ConnectionString st))
        eqn:Hsame; cbn [negb andb] in Hrun.
      * simplify_eq. eexists. rewrite <- !app_assoc. cbn [app].
        split; [reflexivity|]. split.
        { exists []. split; [reflexivity|]. now left. }
        unchanged.
      * destruct (bool_decide (Cluster_ConnectionString st = "")) eqn:Hnew;
          cbn [negb] in Hrun; simplify_eq.
        -- eexists. rewrite <- !app_assoc. cbn [app].
           split; [reflexivity|]. split.
           { exists []. split; [reflexivity|]. now left. }
           unchanged.
        -- apply bool_decide_eq_false in Hnew.
           eexists. rewrite <- !app_assoc. cbn [app].
           split; [reflexivity|]. split.
           { eexists [_]. split; [reflexivity|]. right. right.
             eexists. reflexivity. }
           unfold withConnectionString; cbn. split; [reflexivity|].
           split; [first [reflexivity|assumption]|]. split; [now intros _|].
           split; [|intros Hne; now contradiction Hne].
           intros _. split; [reflexivity|]. exists st.
           split; [reflexivity|]. split; [reflexivity|]. right. right. left.
  - rewrite <- app_assoc in Hrun. cbn [app] in Hrun.
    destruct (GetStatus adminClient _) as [e|st].
    + simplify_eq. eexists. rewrite <- !app_assoc. cbn [app].
      split; [reflexivity|]. split.
      { exists []. split; [reflexivity|]. now left. }
      unchanged.
    + destruct (bool_decide (ConnectionString cluster = Cluster_ConnectionString st))
        eqn:Hsame; cbn [negb andb] in Hrun.
      * simplify_eq. eexists. rewrite <- !app_assoc. cbn [app].
        split; [reflexivity|]. split.
        { exists []. split; [reflexivity|]. now left. }
        unchanged.
      * destruct (bool_decide (Cluster_ConnectionString st = "")) eqn:Hnew;
          cbn [negb] in Hrun; simplify_eq.
        -- eexists. rewrite <- !app_assoc. cbn [app].
           split; [reflexivity|]. split.
           { exists []. split; [reflexivity|]. now left. }
           unchanged.
        -- apply bool_decide_eq_false in Hnew.
           eexists. rewrite <- !app_assoc. cbn [app].
           split; [reflexivity|]. split.
           { eexists [_]. split; [reflexivity|]. right. right.
             eexists. reflexivity. }
           unfold withConnectionString; cbn. split; [reflexivity|].
           split; [first [reflexivity|assumption]|]. split; [now intros _|].
           split; [|intros Hne; now contradiction Hne].
           intros _. split; [reflexivity|]. exists st.
           split; [reflexivity|]. split; [reflexivity|]. right. right. right. left.
Qed.

End GetStatus.

End StatusFetchProperties.

(** ** The backup controller *)

Module BackupControllerProperties.
Import BackupController.

Section Reconciler.
Context {Cluster : Type}.
Context (r : Backup.FoundationDBBackupReconciler (DatabaseClientProvider Cluster))
        (co : Collaborators Cluster).

(** X19: the step [stopBackup] acts only on a backup that should not run
    and whose details say that it is running: otherwise it answers nil
    without any call.  When it acts, it fetches the cluster of the backup
    first and answers with the error of a failed fetch; it panics for a
    missing provider only after that fetch has succeeded; it answers with
    the error of the provider when that gives no admin client.  When the
    provider gives an admin client, and only then, the knobs are set, the
    backup is stopped at the URL of the backup and the admin client is
    closed, in this order, and the step answers with the error of the
    stop, or nil when the stop succeeded: the client is closed also when
    the stop fails.  Every requeue the step answers with carries an error
    and is not delayed. *)
Theorem stop_backup_closes_the_client_it_obtained
    (backup : FoundationDBBackup) (h h' : list Event)
    (answer : GoResult (option requeue)) :
  stopBackup_reconcile r co backup h = (h', answer) ->
  exists evs,
    h' = h ++ evs /\
    (nothingToStop backup = true -> evs = [] /\ answer = Returns None) /\
    (nothingToStop backup = false ->
     match GetCluster co h (Namespace backup) (ClusterName backup) with
     | inl err =>
         evs = [CallGetCluster (Namespace backup) (ClusterName backup)] /\
         answer = Returns (Some (requeueError err))
     | inr cluster =>
         match Backup.DatabaseClientProvider_field r with
         | None =>
             evs = [CallGetCluster (Namespace backup) (ClusterName backup)] /\
             exists msg, answer = Panics msg
         | Some provider =>
             match GetAdminClient provider
                     (h ++ [CallGetCluster (Namespace backup) (ClusterName backup)])
                     cluster with
             | inl err =>
                 evs = [CallGetCluster (Namespace backup) (ClusterName backup);
                        CallGetAdminClient] /\
                 answer = Returns (Some (requeueError err))
             | inr adminClient =>
                 evs = [CallGetCluster (Namespace backup) (ClusterName backup);
                        CallGetAdminClient; CallSetKnobs (GetKnobsForCLI backup);
                        CallStopBackup (BackupURL backup); CallClose] /\
                 answer =
                   Returns (requeueError <$>
                              StopBackup adminClient
                                (h ++ [CallGetCluster (Namespace backup) (ClusterName backup);
                                       CallGetAdminClient;
                                       CallSetKnobs (GetKnobsForCLI backup)])
                                (BackupURL backup))
             end
         end
     end) /\
    (forall msg, answer = Panics msg ->
       Backup.DatabaseClientProvider_field r = None /\
       evs = [CallGetCluster (Namespace backup) (ClusterName backup)] /\
       exists cluster, GetCluster co h (Namespace backup) (ClusterName backup) = inr cluster) /\
    (forall req, answer = Returns (Some req) ->
       exists err, req = requeueError err) /\
    (answer = Returns None -> evs = [] \/ CallClose ∈ evs).
Proof.
  intros Hrun. unfold stopBackup_reconcile, adminClientForBackup in Hrun.
  destruct (nothingToStop backup).
  { simplify_eq. exists []. rewrite app_nil_r. split; [reflexivity|].
    split; [now intros _|]. split; [intros Heq; discriminate Heq|].
    split; [intros ? Heq; discriminate Heq|].
    split; [intros ? Heq; discriminate Heq|]. intros _. now left. }
  destruct (GetCluster co h (Namespace backup) (ClusterName backup)) as [err|cluster].
  { simplify_eq. eexists. split; [reflexivity|]. split; [intros Heq; discriminate Heq|].
    split; [intros _; now split|].
    split; [intros ? Heq; discriminate Heq|].
    split; [intros req [= <-]; now exists err|intros Heq; discriminate Heq]. }
  unfold Backup.getDatabaseClientProvider in Hrun.
  destruct (Backup.DatabaseClientProvider_field r) as [provider|].
  2: { simplify_eq. eexists. split; [reflexivity|]. split; [intros Heq; discriminate Heq|].
       split; [intros _; split; [reflexivity|]; eexists; reflexivity|].
       split; [intros msg _; split; [reflexivity|]; split; [reflexivity|];
               now exists cluster|].
       split; [intros ? Heq; discriminate Heq|intros Heq; discriminate Heq]. }
  destruct (GetAdminClient provider
              (h ++ [CallGetCluster (Namespace backup) (ClusterName backup)]) cluster)
    as [err|adminClient].
  { simplify_eq. eexists. rewrite <- app_assoc. cbn [app].
    split; [reflexivity|]. split; [intros Heq; discriminate Heq|].
    split; [intros _; now split|].
    split; [intros ? Heq; discriminate Heq|].
    split; [intros req [= <-]; now exists err|intros Heq; discriminate Heq]. }
  simplify_eq. eexists. rewrite <- !app_assoc. cbn [app].
  split; [reflexivity|]. split; [intros Heq; discriminate Heq|].
  split.
  { intros _. split; [reflexivity|].
    now destruct (StopBackup adminClient _ _). }
  split; [intros ? Heq; discriminate Heq|]. split.
  - intros req Heq. destruct (StopBackup adminClient _ _) as [err|]; [|discriminate Heq].
    injection Heq as <-. now exists err.
  - intros _. right. do 4 right. left.
Qed.

Lemma backup_answersFrom_app h evs1 evs2 :
  answersFrom r co h (evs1 ++ evs2) =
  answersFrom r co h evs1 ++ answersFrom r co (h ++ evs1) evs2.
Proof.
  revert h. induction evs1 as [|ev evs1 IH]; intros h; cbn.
  - now rewrite app_nil_r.
  - rewrite IH, <- !app_assoc. reflexivity.
Qed.

Lemma answersFrom_stepCalls evs : forall h,
  Forall (fun ev => stepCall ev = true) evs -> answersFrom r co h evs = [].
Proof.
  induction evs as [|ev evs IH]; intros h Hall; [reflexivity|].
  apply Forall_cons in Hall as (Hev & Hall). cbn. rewrite (IH _ Hall).
  destruct ev; try discriminate Hev; reflexivity.
Qed.

Lemma stopBackup_stepCalls backup h h' answer :
  stopBackup_reconcile r co backup h = (h', answer) ->
  exists evs, h' = h ++ evs /\ Forall (fun ev => stepCall ev = true) evs /\
              (forall msg, answer = Panics msg ->
                           Backup.DatabaseClientProvider_field r = None).
Proof.
  intros Hrun.
  unfold stopBackup_reconcile, adminClientForBackup, Backup.getDatabaseClientProvider in Hrun.
  repeat case_match; simplify_eq.
  all: try (exists []; rewrite app_nil_r; split; [reflexivity|]; split;
            [constructor|first [discriminate|now intros]]).
  all: rewrite <- ?app_assoc; cbn [app].
  all: eexists; split; [reflexivity|]; split;
    [now repeat constructor|first [discriminate|now intros]].
Qed.

(** A step is recorded, then come its own calls. *)
Lemma reconcileOf_calls sub backup h backup' h' answer :
  reconcileOf r co sub backup h = (backup', h', answer) ->
  exists inner,
    h' = h ++ CallSubReconciler sub backup :: inner /\
    Forall (fun ev => stepCall ev = true) inner /\
    (forall msg, answer = Panics msg ->
                 sub = stopBackup /\ Backup.DatabaseClientProvider_field r = None).
Proof.
  intros Hrun. unfold reconcileOf in Hrun.
  destruct sub.
  4: { destruct (stopBackup_reconcile r co backup _) as [h1 a1] eqn:Hstop.
       apply stopBackup_stepCalls in Hstop as (evs & -> & Hevs & Hpanic).
       simplify_eq. exists evs. rewrite <- app_assoc. cbn [app].
       split; [reflexivity|]. split; [assumption|].
       intros msg Hmsg. split; [reflexivity|]. now apply (Hpanic msg). }
  all: destruct (implementation co _ h backup) as [backup1 a1]; simplify_eq.
  all: exists []; split; [reflexivity|]; split; [constructor|discriminate].
Qed.

(** The loop over the steps. *)
Lemma backup_pipeline_spec todo : forall backup h backup' h' result,
  pipeline r co todo backup h = (backup', h', result) ->
  exists evs,
    h' = h ++ evs /\
    (forall req sub, CallProcessRequeue req sub ∉ evs) /\
    match result with
    | Returns None =>
        (answersFrom r co h evs).*1 = todo /\
        Forall (fun a => a.2 = Returns None) (answersFrom r co h evs)
    | Returns (Some (req, sub)) =>
        exists before,
          answersFrom r co h evs = before ++ [(sub, Returns (Some req))] /\
          before.*1 ++ [sub] `prefix_of` todo /\
          Forall (fun a => a.2 = Returns None) before
    | Panics msg =>
        Backup.DatabaseClientProvider_field r = None /\
        exists before,
          answersFrom r co h evs = before ++ [(stopBackup, Panics msg)] /\
          before.*1 ++ [stopBackup] `prefix_of` todo /\
          Forall (fun a => a.2 = Returns None) before
    end.
Proof.
  induction todo as [|sub todo IH]; intros backup h backup' h' result Hrun.
  - cbn in Hrun. simplify_eq. exists []. rewrite app_nil_r.
    split; [reflexivity|]. split; [intros req sub Hin; inversion Hin|].
    cbn. split; [reflexivity|constructor].
  - cbn [pipeline] in Hrun.
    destruct (reconcileOf r co sub backup h) as [[backup1 h1] a1] eqn:Hstep.
    assert (Hans : (reconcileOf r co sub backup h).2 = a1) by now rewrite Hstep.
    apply reconcileOf_calls in Hstep as (inner & -> & Hinner & Hpanic).
    assert (Hquiet : forall req sub', CallProcessRequeue req sub' ∉
                                        CallSubReconciler sub backup :: inner).
    { intros req sub' Hin. apply elem_of_cons in Hin as [Heq|Hin]; [discriminate Heq|].
      rewrite Forall_forall in Hinner. apply Hinner in Hin. discriminate Hin. }
    assert (Hhere : answersFrom r co h (CallSubReconciler sub backup :: inner) = [(sub, a1)]).
    { cbn. rewrite Hans. now rewrite answersFrom_stepCalls. }
    destruct a1 as [[req|]|msg].
    + simplify_eq. eexists. split; [reflexivity|]. split; [assumption|].
      exists []. rewrite Hhere. split; [reflexivity|].
      split; [cbn; apply prefix_cons, prefix_nil|constructor].
    + apply IH in Hrun as (evs & -> & Hquiet' & Hres).
      exists ((CallSubReconciler sub backup :: inner) ++ evs).
      split; [now rewrite <- app_assoc|].
      split.
      { intros req sub' Hin. apply elem_of_app in Hin as [Hin|Hin];
          [exact (Hquiet req sub' Hin)|exact (Hquiet' req sub' Hin)]. }
      rewrite backup_answersFrom_app, Hhere.
      destruct result as [[[req sub']|]|msg].
      * destruct Hres as (before & -> & Hpre & Hnil).
        exists ((sub, Returns None) :: before). split; [reflexivity|].
        split; [cbn; now apply prefix_cons|now constructor].
      * destruct Hres as (Hnames & Hnil). cbn.
        split; [now rewrite Hnames|now constructor].
      * destruct Hres as (Hp & before & -> & Hpre & Hnil). split; [assumption|].
        exists ((sub, Returns None) :: before). split; [reflexivity|].
        split; [cbn; now apply prefix_cons|now constructor].
    + simplify_eq. destruct (Hpanic msg eq_refl) as (-> & Hp).
      eexists. split; [reflexivity|]. split; [assumption|].
      split; [assumption|]. exists []. rewrite Hhere. split; [reflexivity|].
      split; [cbn; apply prefix_cons, prefix_nil|constructor].
Qed.

(** X20: the backup controller runs its steps in the order of the list,
    and any requeue stops it, delayed or not: the step that answers with
    a requeue, or that panics, is the last to run; [processRequeue] is
    called on that requeue as the last call, and what it gives is what
    the controller returns.  When every step answers nil, all seven steps
    have run, [processRequeue] is not called, and the controller returns
    no error and no delay: it asks for a requeue exactly when the
    reconciled generation is below the generation the backup had when it
    was fetched. *)
Theorem backup_pipeline_stops_at_any_requeue
    (backup backup' : FoundationDBBackup) (h h' : list Event)
    (result : GoResult (Driver.Result * option error)) :
  reconcileBackup r co backup h = (backup', h', result) ->
  exists evs,
    h' = h ++ evs /\
    (answersFrom r co h evs).*1 `prefix_of` subReconcilers /\
    (forall i sub answer,
       answersFrom r co h evs !! i = Some (sub, answer) ->
       answer <> Returns None ->
       S i = length (answersFrom r co h evs) /\
       match answer with
       | Returns (Some req) =>
           exists pre,
             evs = pre ++ [CallProcessRequeue req sub] /\
             result = Returns (processRequeue co (h ++ pre) req sub backup')
       | Returns None => False
       | Panics msg =>
           sub = stopBackup /\ Backup.DatabaseClientProvider_field r = None /\
           result = Panics msg
       end) /\
    (Forall (fun a => a.2 = Returns None) (answersFrom r co h evs) ->
     (answersFrom r co h evs).*1 = subReconcilers /\
     (forall req sub, CallProcessRequeue req sub ∉ evs) /\
     result = Returns ({| Driver.Requeue :=
                            bool_decide (Reconciled backup' < Generation backup);
                          Driver.RequeueAfter := 0 |}, None)).
Proof.
  intros Hrun. unfold reconcileBackup in Hrun.
  destruct (pipeline r co subReconcilers backup h) as [[backup1 h1] res] eqn:Hp.
  apply backup_pipeline_spec in Hp as (evs & -> & Hquiet & Hres).
  assert (Hnil : forall before i sub answer,
            Forall (fun a : backupSubReconciler * GoResult (option requeue) =>
                      a.2 = Returns None) before ->
            before !! i = Some (sub, answer) -> answer <> Returns None -> False).
  { intros before i sub answer Hall Hi Hne. rewrite Forall_forall in Hall.
    apply list_elem_of_lookup_2 in Hi. apply Hall in Hi. now apply Hne. }
  destruct res as [[[req sub]|]|msg].
  - destruct Hres as (before & Hans & Hpre & Hbefore). simplify_eq.
    exists (evs ++ [CallProcessRequeue req sub]). split; [now rewrite <- app_assoc|].
    assert (Hans' : answersFrom r co h (evs ++ [CallProcessRequeue req sub])
                    = before ++ [(sub, Returns (Some req))]).
    { rewrite backup_answersFrom_app, Hans. cbn. now rewrite app_nil_r. }
    rewrite Hans'. split; [now rewrite fmap_app|]. split.
    + intros i sub' answer Hi Hne.
      apply lookup_app_Some in Hi as [Hi|(Hlen & Hi)];
        [exfalso; exact (Hnil before i sub' answer Hbefore Hi Hne)|].
      apply list_lookup_singleton_Some in Hi as (Hi & Heq). injection Heq as <- <-.
      split; [rewrite length_app; cbn; lia|]. now exists evs.
    + intros Hall. exfalso. apply Forall_app in Hall as (_ & Hall).
      apply Forall_inv in Hall. discriminate Hall.
  - destruct Hres as (Hnames & Hall). simplify_eq. exists evs.
    split; [reflexivity|]. split; [now rewrite Hnames|]. split.
    + intros i sub answer Hi Hne. exfalso. exact (Hnil _ i sub answer Hall Hi Hne).
    + intros _. split; [assumption|]. split; [assumption|].
      destruct (Z.ltb_spec (Reconciled backup') (Generation backup)) as [Hlt|Hge].
      * now rewrite (bool_decide_eq_true_2 _ Hlt).
      * rewrite bool_decide_eq_false_2 by lia. reflexivity.
  - destruct Hres as (Hprov & before & Hans & Hpre & Hbefore). simplify_eq.
    exists evs. split; [reflexivity|]. rewrite Hans.
    split; [now rewrite fmap_app|]. split.
    + intros i sub' answer Hi Hne.
      apply lookup_app_Some in Hi as [Hi|(Hlen & Hi)];
        [exfalso; exact (Hnil before i sub' answer Hbefore Hi Hne)|].
      apply list_lookup_singleton_Some in Hi as (Hi & Heq). injection Heq as <- <-.
      split; [rewrite length_app; cbn; lia|]. now repeat split.
    + intros Hall. exfalso. apply Forall_app in Hall as (_ & Hall).
      apply Forall_inv in Hall. discriminate Hall.
Qed.

End Reconciler.

End BackupControllerProperties.

(** ** The step that adds volume claims *)

Module AddPVCsProperties.
Import AddPVCs.

Section Step.
Context {OwnerReferences Rest : Type}.
Context (co : Collaborators OwnerReferences Rest).

(** What one iteration calls. *)
Lemma processGroupStep_cases cluster h pg h' answer :
  processGroupStep co cluster h pg = (h', answer) ->
  (h' = h /\
   ((looksAt pg = false /\ answer = None) \/
    (looksAt pg = true /\ GetPvc co cluster pg = inr None /\ answer = None) \/
    (looksAt pg = true /\ exists err, GetPvc co cluster pg = inl err /\
                                      answer = Some (requeueError err)))) \/
  (exists wanted,
     looksAt pg = true /\ GetPvc co cluster pg = inr (Some wanted) /\
     ((h' = h ++ [CallGet (Namespace wanted) (Name wanted)] /\
       ((Get co h (Namespace wanted) (Name wanted) = None /\ answer = None) \/
        (exists err, Get co h (Namespace wanted) (Name wanted) = Some err /\
                     IsNotFound co err = false /\
                     answer = Some (requeueDelayedError err)))) \/
      (exists err,
         Get co h (Namespace wanted) (Name wanted) = Some err /\
         IsNotFound co err = true /\
         h' = h ++ [CallGet (Namespace wanted) (Name wanted);
                    CallCreate (withOwner (BuildOwnerReference co cluster) wanted)] /\
         ((Create co (h ++ [CallGet (Namespace wanted) (Name wanted)])
                  (withOwner (BuildOwnerReference co cluster) wanted) = None /\
           answer = None) \/
          (exists cerr,
             Create co (h ++ [CallGet (Namespace wanted) (Name wanted)])
                    (withOwner (BuildOwnerReference co cluster) wanted) = Some cerr /\
             answer = Some (requeueDelayedError cerr)))))).
Proof.
  intros Hrun. unfold processGroupStep in Hrun. unfold looksAt.
  destruct (IsMarkedForRemoval pg && IsExcluded pg); cbn [negb].
  { simplify_eq. left. split; [reflexivity|]. now left. }
  destruct (GetPvc co cluster pg) as [err|[wanted|]].
  - simplify_eq. left. split; [reflexivity|]. right. right. split; [reflexivity|].
    now exists err.
  - right. exists wanted. split; [reflexivity|]. split; [reflexivity|].
    destruct (Get co h (Namespace wanted) (Name wanted)) as [err|].
    + destruct (IsNotFound co err) eqn:Hnf; cbn [negb] in Hrun.
      * right. exists err. split; [reflexivity|]. split; [assumption|].
        injection Hrun as <- <-. rewrite <- app_assoc. cbn [app].
        split; [reflexivity|].
        destruct (Create co _ _) as [cerr|]; [right; now exists cerr|now left].
      * simplify_eq. left. split; [reflexivity|]. right. now exists err.
    + simplify_eq. left. split; [reflexivity|]. now left.
  - simplify_eq. left. split; [reflexivity|]. right. left. now repeat split.
Qed.

Lemma loop_creates cluster groups : forall h h' answer,
  loop co cluster groups h = (h', answer) ->
  exists evs,
    h' = h ++ evs /\
    forall pre pvc post,
      evs = pre ++ CallCreate pvc :: post ->
      exists pre' pg wanted err,
        pre = pre' ++ [CallGet (Namespace pvc) (Name pvc)] /\
        pg ∈ groups /\ looksAt pg = true /\
        GetPvc co cluster pg = inr (Some wanted) /\
        pvc = withOwner (BuildOwnerReference co cluster) wanted /\
        Get co (h ++ pre') (Namespace pvc) (Name pvc) = Some err /\
        IsNotFound co err = true.
Proof.
  induction groups as [|pg groups IH]; intros h h' answer Hrun.
  - cbn in Hrun. simplify_eq. exists []. rewrite app_nil_r. split; [reflexivity|].
    intros [|? ?] pvc post Heq; discriminate Heq.
  - cbn [loop] in Hrun.
    destruct (processGroupStep co cluster h pg) as [h1 a1] eqn:Hstep.
    assert (Hrest : exists evs2,
              h' = h1 ++ evs2 /\
              forall pre pvc post,
                evs2 = pre ++ CallCreate pvc :: post ->
                exists pre' pg' wanted err,
                  pre = pre' ++ [CallGet (Namespace pvc) (Name pvc)] /\
                  pg' ∈ pg :: groups /\ looksAt pg' = true /\
                  GetPvc co cluster pg' = inr (Some wanted) /\
                  pvc = withOwner (BuildOwnerReference co cluster) wanted /\
                  Get co (h1 ++ pre') (Namespace pvc) (Name pvc) = Some err /\
                  IsNotFound co err = true).
    { destruct a1 as [req|].
      - simplify_eq. exists []. rewrite app_nil_r. split; [reflexivity|].
        intros [|? ?] pvc post Heq; discriminate Heq.
      - apply IH in Hrun as (evs2 & -> & Hcreates). exists evs2.
        split; [reflexivity|]. intros pre pvc post Heq.
        destruct (Hcreates pre pvc post Heq)
          as (pre' & pg' & wanted & err & ? & ? & ? & ? & ? & ? & ?).
        exists pre', pg', wanted, err. repeat split; try assumption. now right. }
    destruct Hrest as (evs2 & -> & Hcreates).
    apply processGroupStep_cases in Hstep
      as [(-> & _)|(wanted & Hlooks & Hpvc &
                    [(-> & _)|(err & Hget & Hnf & -> & _)])].
    + exists evs2. split; [reflexivity|]. exact Hcreates.
    + exists (CallGet (Namespace wanted) (Name wanted) :: evs2).
      split; [now rewrite <- app_assoc|].
      intros [|e pre] pvc post Heq; [discriminate Heq|].
      cbn in Heq. injection Heq as <- Heq.
      destruct (Hcreates pre pvc post Heq)
        as (pre' & pg' & wanted' & err' & -> & ? & ? & ? & ? & Hget' & ?).
      exists (CallGet (Namespace wanted) (Name wanted) :: pre'), pg', wanted', err'.
      rewrite <- app_assoc in Hget'. repeat split; assumption.
    + exists (CallGet (Namespace wanted) (Name wanted)
                :: CallCreate (withOwner (BuildOwnerReference co cluster) wanted) :: evs2).
      split; [now rewrite <- app_assoc|].
      intros [|e [|e2 pre]] pvc post Heq; [discriminate Heq| |].
      * cbn in Heq. injection Heq as <- <- _.
        exists [], pg, wanted, err. rewrite app_nil_r. cbn.
        repeat split; try assumption. left.
      * cbn in Heq. injection Heq as <- <- Heq.
        destruct (Hcreates pre pvc post Heq)
          as (pre' & pg' & wanted' & err' & -> & ? & ? & ? & ? & Hget' & ?).
        exists (CallGet (Namespace wanted) (Name wanted)
                  :: CallCreate (withOwner (BuildOwnerReference co cluster) wanted) :: pre'),
          pg', wanted', err'.
        rewrite <- app_assoc in Hget'. repeat split; assumption.
Qed.

(** X21: the step creates a volume claim only right after it has looked
    for a claim of that name in that namespace and the answer was that
    there is none.  The claim it creates is the one a process group of the
    cluster wants, with the owner reference of the cluster set; the
    process group is not one that is both marked for removal and
    excluded. *)
Theorem claims_are_created_only_when_missing
    (cluster : FoundationDBCluster) (h h' : list (Event OwnerReferences Rest))
    (answer : option requeue) :
  reconcile co cluster h = (h', answer) ->
  exists evs,
    h' = h ++ evs /\
    forall pre pvc post,
      evs = pre ++ CallCreate pvc :: post ->
      exists pre' processGroup wanted err,
        pre = pre' ++ [CallGet (Namespace pvc) (Name pvc)] /\
        processGroup ∈ ProcessGroups cluster /\
        IsMarkedForRemoval processGroup && IsExcluded processGroup = false /\
        GetPvc co cluster processGroup = inr (Some wanted) /\
        pvc = withOwner (BuildOwnerReference co cluster) wanted /\
        Get co (h ++ pre') (Namespace pvc) (Name pvc) = Some err /\
        IsNotFound co err = true.
Proof.
  intros Hrun. apply loop_creates in Hrun as (evs & -> & Hcreates).
  exists evs. split; [reflexivity|]. intros pre pvc post Heq.
  destruct (Hcreates pre pvc post Heq)
    as (pre' & pg & wanted & err & ? & ? & Hlooks & ? & ? & ? & ?).
  exists pre', pg, wanted, err. repeat split; try assumption.
  unfold looksAt in Hlooks. now apply negb_true_iff in Hlooks.
Qed.

Lemma loop_answer cluster groups : forall h h' answer,
  loop co cluster groups h = (h', answer) ->
  exists evs,
    h' = h ++ evs /\
    match answer with
    | None =>
        forall pg, pg ∈ groups -> looksAt pg = true ->
          exists wanted,
            GetPvc co cluster pg = inr wanted /\
            forall pvc, wanted = Some pvc -> CallGet (Namespace pvc) (Name pvc) ∈ evs
    | Some req =>
        (exists pg err,
           pg ∈ groups /\ looksAt pg = true /\ GetPvc co cluster pg = inl err /\
           req = requeueError err) \/
        (exists err pre ev,
           req = requeueDelayedError err /\ evs = pre ++ [ev] /\
           match ev with
           | CallGet namespace name =>
               Get co (h ++ pre) namespace name = Some err /\ IsNotFound co err = false
           | CallCreate pvc => Create co (h ++ pre) pvc = Some err
           end)
    end.
Proof.
  induction groups as [|pg groups IH]; intros h h' answer Hrun.
  - cbn in Hrun. simplify_eq. exists []. rewrite app_nil_r. split; [reflexivity|].
    intros pg Hin. inversion Hin.
  - cbn [loop] in Hrun.
    destruct (processGroupStep co cluster h pg) as [h1 a1] eqn:Hstep.
    apply processGroupStep_cases in Hstep as Hcases.
    destruct a1 as [req|].
    + simplify_eq.
      destruct Hcases
        as [(-> & [(_ & Ha)|[(_ & _ & Ha)|(Hlooks & err & Hpvc & Ha)]])|
            (wanted & Hlooks & Hpvc &
             [(-> & [(_ & Ha)|(err & Hget & Hnf & Ha)])|
              (err & Hget & Hnf & -> & [(_ & Ha)|(cerr & Hc & Ha)])])];
        try discriminate Ha; injection Ha as ->.
      * exists []. rewrite app_nil_r. split; [reflexivity|]. left.
        exists pg, err. repeat split; try assumption. left.
      * eexists. split; [reflexivity|]. right.
        exists err, [], (CallGet (Namespace wanted) (Name wanted)).
        rewrite app_nil_r. now repeat split.
      * eexists. split; [reflexivity|]. right.
        exists cerr, [CallGet (Namespace wanted) (Name wanted)],
          (CallCreate (withOwner (BuildOwnerReference co cluster) wanted)).
        now repeat split.
    + apply IH in Hrun as (evs2 & -> & Hres).
      assert (Hgrow : exists evs1,
                h1 = h ++ evs1 /\
                (looksAt pg = true ->
                 exists wanted,
                   GetPvc co cluster pg = inr wanted /\
                   forall pvc, wanted = Some pvc ->
                               CallGet (Namespace pvc) (Name pvc) ∈ evs1)).
      { destruct Hcases
          as [(-> & [(Hlooks & _)|[(_ & Hpvc & _)|(_ & err & _ & Ha)]])|
              (wanted & Hlooks & Hpvc &
               [(-> & _)|(err & Hget & Hnf & -> & _)])].
        - exists []. rewrite app_nil_r. split; [reflexivity|]. intros Hl. congruence.
        - exists []. rewrite app_nil_r. split; [reflexivity|]. intros _.
          exists None. split; [assumption|]. intros pvc Heq. discriminate Heq.
        - discriminate Ha.
        - eexists. split; [reflexivity|]. intros _. exists (Some wanted).
          split; [assumption|]. intros pvc [= <-]. left.
        - eexists. split; [reflexivity|]. intros _. exists (Some wanted).
          split; [assumption|]. intros pvc [= <-]. left. }
      destruct Hgrow as (evs1 & -> & Hpg).
      exists (evs1 ++ evs2). split; [now rewrite <- app_assoc|].
      destruct answer as [req|].
      * destruct Hres as [(pg' & err & Hin & Hlooks & Hpvc & ->)|
                          (err & pre & ev & -> & -> & Hev)].
        -- left. exists pg', err. repeat split; try assumption. now right.
        -- right. exists err, (evs1 ++ pre), ev. split; [reflexivity|].
           split; [now rewrite <- app_assoc|]. rewrite <- app_assoc in Hev.
           rewrite app_assoc. rewrite <- app_assoc. exact Hev.
      * intros pg' Hin Hlooks. apply elem_of_cons in Hin as [->|Hin].
        -- destruct (Hpg Hlooks) as (wanted & Hpvc & Hget). exists wanted.
           split; [assumption|]. intros pvc Heq. apply elem_of_app. left.
           now apply Hget.
        -- destruct (Hres pg' Hin Hlooks) as (wanted & Hpvc & Hget). exists wanted.
           split; [assumption|]. intros pvc Heq. apply elem_of_app. right.
           now apply Hget.
Qed.

(** X22: when the step answers nil, it has gone through all the process
    groups: for every process group that is not both marked for removal
    and excluded the claim could be built, and when the process group
    wants one the step has looked for it.  When it answers with a
    requeue, either a claim could not be built, and the requeue carries
    that error and is not delayed, or the last call of the step, a look-up
    or a creation, failed, and the requeue carries that error and is
    delayed; a look-up that finds nothing is not a failure. *)
Theorem add_pvcs_delays_the_errors_of_the_client
    (cluster : FoundationDBCluster) (h h' : list (Event OwnerReferences Rest))
    (answer : option requeue) :
  reconcile co cluster h = (h', answer) ->
  exists evs,
    h' = h ++ evs /\
    match answer with
    | None =>
        forall processGroup,
          processGroup ∈ ProcessGroups cluster ->
          IsMarkedForRemoval processGroup && IsExcluded processGroup = false ->
          exists wanted,
            GetPvc co cluster processGroup = inr wanted /\
            forall pvc, wanted = Some pvc -> CallGet (Namespace pvc) (Name pvc) ∈ evs
    | Some req =>
        (exists processGroup err,
           processGroup ∈ ProcessGroups cluster /\
           IsMarkedForRemoval processGroup && IsExcluded processGroup = false /\
           GetPvc co cluster processGroup = inl err /\
           req = requeueError err) \/
        (exists err pre ev,
           req = requeueDelayedError err /\ evs = pre ++ [ev] /\
           match ev with
           | CallGet namespace name =>
               Get co (h ++ pre) namespace name = Some err /\ IsNotFound co err = false
           | CallCreate pvc => Create co (h ++ pre) pvc = Some err
           end)
    end.
Proof.
  intros Hrun. apply loop_answer in Hrun as (evs & -> & Hres).
  exists evs. split; [reflexivity|].
  destruct answer as [req|].
  - destruct Hres as [(pg & err & Hin & Hlooks & Hpvc & ->)|Hres]; [left|now right].
    exists pg, err. repeat split; try assumption.
    unfold looksAt in Hlooks. now apply negb_true_iff in Hlooks.
  - intros pg Hin Hlooks. apply Hres; [assumption|].
    unfold looksAt. now rewrite Hlooks.
Qed.

End Step.

End AddPVCsProperties.

(** ** The step that updates the config map *)

Module UpdateConfigMapProperties.
Import UpdateConfigMap.

Section Step.
Context {Cluster ObjectMeta : Type}.
Context (co : Collaborators Cluster ObjectMeta).

(** X23: the step writes at most once, as its last call.  It creates the
    config map the cluster wants exactly when the look-up says that there
    is none.  It updates the config map it found exactly when the data
    differ from the data wanted or a merge of the labels or of the
    annotations changed the metadata; the update is announced by an event
    and sends the object found with the merged metadata and the data
    wanted.  Every failure, of building the config map, of the look-up or
    of the write, is answered with a requeue that carries the error of
    the failed call and is not delayed; the step answers nil when nothing
    is to be written and when the write succeeds. *)
Theorem config_map_is_written_once_and_only_when_needed
    (cluster : Cluster) (h h' : list (Event ObjectMeta)) (answer : option requeue) :
  reconcile co cluster h = (h', answer) ->
  (forall req, answer = Some req -> exists err, req = requeueError err) /\
  match GetConfigMap co cluster with
  | inl err => h' = h /\ answer = Some (requeueError err)
  | inr configMap =>
      exists writes,
        h' = h ++ CallGet (Namespace configMap) (Name configMap) :: writes /\
        match Get co h (Namespace configMap) (Name configMap) with
        | inl err =>
            if IsNotFound co err then
              writes = [CallCreate configMap] /\
              answer = requeueError <$>
                         Create co (h ++ [CallGet (Namespace configMap) (Name configMap)])
                           configMap
            else writes = [] /\ answer = Some (requeueError err)
        | inr existing =>
            let labels := MergeLabels co (ObjectMeta_ existing) (ObjectMeta_ configMap) in
            let annotations := MergeAnnotations co labels.1 (ObjectMeta_ configMap) in
            if bool_decide (Data existing = Data configMap)
               && negb labels.2 && negb annotations.2
            then writes = [] /\ answer = None
            else
              let sent := {| Namespace := Namespace existing;
                             Name := Name existing;
                             ObjectMeta_ := annotations.1;
                             Data := Data configMap |} in
              writes = [CallRecorderEvent "Normal" "UpdatingConfigMap" "";
                        CallUpdate sent] /\
              answer = requeueError <$>
                         Update co (h ++ [CallGet (Namespace configMap) (Name configMap);
                                          CallRecorderEvent "Normal" "UpdatingConfigMap" ""])
                           sent
        end
  end.
Proof.
  intros Hrun. unfold reconcile in Hrun. split.
  - intros req ->. unfold requeueIfError in Hrun.
    repeat case_match; simplify_eq; eauto.
  - destruct (GetConfigMap co cluster) as [err|configMap]; [now simplify_eq|].
    destruct (Get co h (Namespace configMap) (Name configMap)) as [err|existing].
    + destruct (IsNotFound co err); simplify_eq.
      * eexists. rewrite <- app_assoc. cbn [app]. split; [reflexivity|].
        split; [reflexivity|]. now destruct (Create co _ configMap).
      * eexists. split; [reflexivity|]. now split.
    + unfold updated, merged in Hrun. cbv zeta.
      destruct (MergeLabels co (ObjectMeta_ existing) (ObjectMeta_ configMap))
        as [meta1 labelsChanged].
      cbn [fst snd] in *.
      destruct (MergeAnnotations co meta1 (ObjectMeta_ configMap))
        as [meta2 annotationsChanged].
      cbn [fst snd] in *.
      destruct (bool_decide (Data existing = Data configMap)), labelsChanged,
        annotationsChanged; cbn in Hrun |- *; simplify_eq.
      all: eexists; rewrite <- ?app_assoc; cbn [app]; split; try reflexivity.
      all: split; try reflexivity.
      all: now destruct (Update co _ _).
Qed.

End Step.

End UpdateConfigMapProperties.

(** ** From a node to the clusters to reconcile *)

Module NodeTriggerProperties.
Import NodeTrigger.

(** The loop fills the slots of the pods one after the other. *)
Lemma fill_spec key items : forall done,
  fill key (length done) items (done ++ replicate (length items) zeroRequest) =
  done ++ (requestOf key <$> items).
Proof.
  induction items as [|item items IH]; intros done; [reflexivity|].
  cbn [fill length replicate fmap list_fmap].
  assert (Hnext : forall req,
            fill key (S (length done)) items
                 (done ++ req :: replicate (length items) zeroRequest) =
            done ++ req :: (requestOf key <$> items)).
  { intros req. rewrite (cons_middle req done), app_assoc.
    replace (S (length done)) with (length (done ++ [req]))
      by (rewrite length_app; cbn; lia).
    rewrite IH, <- app_assoc. reflexivity. }
  destruct (Labels item !! key) as [clusterName|] eqn:Hlabel.
  - replace (requestOf key item)
      with {| RequestName := clusterName; RequestNamespace := Namespace item |}
      by (unfold requestOf; now rewrite Hlabel).
    rewrite insert_app_r_alt by lia. rewrite Nat.sub_diag. cbn [insert list_insert].
    apply Hnext.
  - replace (requestOf key item) with zeroRequest
      by (unfold requestOf; now rewrite Hlabel).
    apply Hnext.
Qed.

(** X24: the function answers with one request per pod of the node that
    carries the cluster label, in the order of the pods: the request names
    the cluster of the label in the namespace of the pod.  A pod without
    the label is not left out: its slot holds the zero value of a
    request.  No request is made when the pods cannot be listed or there
    is none.  The pods are listed by the name of the node and the presence
    of the label, and by the namespace of the reconciler only when that
    is set. *)
Theorem one_request_per_pod_of_the_node
    (r : FoundationDBClusterReconciler) (node : string) :
  InNamespace (listOptions r node) =
    (if bool_decide (ReconcilerNamespace r = "") then None
     else Some (ReconcilerNamespace r)) /\
  match List_ r (listOptions r node) with
  | inl _ => findFoundationDBClusterForNode r node = []
  | inr pods =>
      findFoundationDBClusterForNode r node =
        (requestOf (ClusterLabelKeyForNodeTrigger r) <$> pods) /\
      length (findFoundationDBClusterForNode r node) = length pods /\
      forall i pod,
        pods !! i = Some pod ->
        Labels pod !! ClusterLabelKeyForNodeTrigger r = None ->
        findFoundationDBClusterForNode r node !! i = Some zeroRequest
  end.
Proof.
  split; [reflexivity|]. unfold findFoundationDBClusterForNode.
  destruct (List_ r (listOptions r node)) as [err|pods]; [reflexivity|].
  assert (Heq : (if Z.of_nat (length pods) =? 0 then []
                 else fill (ClusterLabelKeyForNodeTrigger r) 0 pods
                        (replicate (length pods) zeroRequest)) =
                requestOf (ClusterLabelKeyForNodeTrigger r) <$> pods).
  { destruct pods as [|pod pods]; [reflexivity|].
    replace (Z.of_nat (length (pod :: pods)) =? 0) with false
      by (symmetry; apply Z.eqb_neq; cbn [length]; lia).
    exact (fill_spec (ClusterLabelKeyForNodeTrigger r) (pod :: pods) []). }
  rewrite Heq. split; [reflexivity|]. split; [apply length_fmap|].
  intros i pod Hi Hlabel. rewrite list_lookup_fmap, Hi. cbn.
  unfold requestOf. now rewrite Hlabel.
Qed.

End NodeTriggerProperties.

(** ** The cordon command of the plugin *)

Module CordonProperties.
Import Cordon.

Section Command.
Context (co : Collaborators).

Lemma foldl_labels (label : string) (pods : list Pod) : forall acc,
  foldl (fun names pod =>
           match Labels pod !! label with
           | Some name => names ++ [name]
           | None => names
           end) acc pods
  = acc ++ omap (fun pod => Labels pod !! label) pods.
Proof.
  induction pods as [|pod pods IH]; intros acc; cbn.
  - now rewrite app_nil_r.
  - rewrite IH. destruct (Labels pod !! label); cbn; [|reflexivity].
    now rewrite <- app_assoc.
Qed.

Lemma length_zero_iff (s : string) : (Z.of_nat (String.length s) =? 0) = true <-> s = "".
Proof.
  destruct s; cbn; [now split|]. split; [|discriminate].
  intros Hz. apply Z.eqb_eq in Hz. lia.
Qed.

Lemma getClusterNames_spec inputClusterName namespace node customLabels h :
  getClusterNames co inputClusterName namespace node customLabels h =
    if bool_decide (inputClusterName = "") then
      (h ++ [CallList {| InNamespace := namespace;
                         HasLabels := Some customLabels;
                         MatchingLabels := None;
                         nodeName := node |}],
       match List_ co h {| InNamespace := namespace;
                           HasLabels := Some customLabels;
                           MatchingLabels := None;
                           nodeName := node |} with
       | inl _ => inl (errorFetchingPods co customLabels)
       | inr pods => inr (omap (fun pod => Labels pod !! "fdb-cluster-name") pods)
       end)
    else (h, inr [inputClusterName]).
Proof.
  unfold getClusterNames.
  destruct (Z.of_nat (String.length inputClusterName) =? 0) eqn:Hlen; cbn [negb].
  - apply length_zero_iff in Hlen. rewrite (bool_decide_eq_true_2 _ Hlen).
    destruct (List_ co h _) as [err|pods]; [reflexivity|].
    now rewrite foldl_labels.
  - rewrite bool_decide_eq_false_2; [reflexivity|].
    intros Hempty. apply length_zero_iff in Hempty. congruence.
Qed.

(** X25: when a cluster name is given, [getClusterNames] answers with it
    alone and lists nothing.  Otherwise it lists once, the pods of the
    node in the namespace that have the custom labels, and answers with
    the values of the label [fdb-cluster-name] of the pods that carry it,
    in the order of the pods: whatever the custom labels are, a pod
    without that label gives no name, and a cluster is named as often as
    it has pods on the node.  When the pods cannot be listed the error it
    returns names the custom labels, not the failure. *)
Theorem cluster_names_come_from_the_cluster_name_label
    (inputClusterName namespace node : string) (customLabels : list string)
    (h : list Event) :
  let options := {| InNamespace := namespace;
                    HasLabels := Some customLabels;
                    MatchingLabels := None;
                    nodeName := node |} in
  getClusterNames co inputClusterName namespace node customLabels h =
    if bool_decide (inputClusterName = "") then
      (h ++ [CallList options],
       match List_ co h options with
       | inl _ => inl (errorFetchingPods co customLabels)
       | inr pods => inr (omap (fun pod => Labels pod !! "fdb-cluster-name") pods)
       end)
    else (h, inr [inputClusterName]).
Proof. intros options. apply getClusterNames_spec. Qed.

Lemma allSucceeded_app h evs1 evs2 :
  allSucceeded co h (evs1 ++ evs2) =
  allSucceeded co h evs1 && allSucceeded co (h ++ evs1) evs2.
Proof.
  revert h. induction evs1 as [|ev evs1 IH]; intros h; cbn.
  - now rewrite app_nil_r.
  - rewrite IH, <- !app_assoc, andb_assoc. reflexivity.
Qed.

(** The process groups the inner loop collects. *)
Lemma processGroupsOf_spec cluster node pods :
  processGroupsOf cluster node pods =
  omap (fun pod => Labels pod !! GetProcessGroupIDLabel cluster)
       (List.filter (fun pod => bool_decide (NodeName pod = node)) pods).
Proof.
  unfold processGroupsOf.
  assert (Hgen : forall acc,
            foldl (fun processGroups pod =>
                     if negb (bool_decide (NodeName pod = node)) then processGroups
                     else match Labels pod !! GetProcessGroupIDLabel cluster with
                          | Some processGroup => processGroups ++ [processGroup]
                          | None => processGroups
                          end) acc pods =
            acc ++ omap (fun pod => Labels pod !! GetProcessGroupIDLabel cluster)
                        (List.filter (fun pod => bool_decide (NodeName pod = node)) pods)).
  { induction pods as [|pod pods IH]; intros acc; cbn.
    - now rewrite app_nil_r.
    - rewrite IH. destruct (bool_decide (NodeName pod = node)); cbn; [|reflexivity].
      destruct (Labels pod !! GetProcessGroupIDLabel cluster); [|reflexivity].
      now rewrite <- app_assoc. }
  apply Hgen.
Qed.

Lemma eachCall_app P h evs1 evs2 :
  eachCall P h (evs1 ++ evs2) <-> eachCall P h evs1 /\ eachCall P (h ++ evs1) evs2.
Proof.
  revert h. induction evs1 as [|ev evs1 IH]; intros h; cbn.
  - rewrite app_nil_r. tauto.
  - rewrite IH, <- !app_assoc. cbn. tauto.
Qed.

Lemma eachCall_split P evs : forall h,
  eachCall P h evs ->
  forall pre ev post, evs = pre ++ ev :: post -> P (h ++ pre) ev.
Proof.
  induction evs as [|e evs IH]; intros h Hall pre ev post Heq.
  - destruct pre; discriminate Heq.
  - destruct Hall as (He & Hall). destruct pre as [|e' pre]; cbn in Heq.
    + injection Heq as -> _. now rewrite app_nil_r.
    + injection Heq as -> Heq. specialize (IH _ Hall pre ev post Heq).
      now rewrite <- app_assoc in IH.
Qed.

Lemma eachCall_impl (P Q : list Event -> Event -> Prop) evs : forall h,
  (forall h ev, P h ev -> Q h ev) -> eachCall P h evs -> eachCall Q h evs.
Proof.
  induction evs as [|e evs IH]; intros h Himpl Hall; [exact I|].
  destruct Hall as (He & Hall). split; [now apply Himpl|now apply IH].
Qed.

Lemma replaceCallIsSound_weaken namespace withExclusion wait sleep nodes nodes' h ev :
  (forall node, node ∈ nodes -> node ∈ nodes') ->
  replaceCallIsSound co namespace withExclusion wait sleep nodes h ev ->
  replaceCallIsSound co namespace withExclusion wait sleep nodes' h ev.
Proof.
  intros Hsub Hs. destruct ev; try exact I. cbn in *.
  destruct Hs as (? & ? & ? & ? & ? & ? & pre & loaded & cluster & node & pods & Hin & Hrest).
  repeat (split; [assumption|]). exists pre, loaded, cluster, node, pods.
  split; [now apply Hsub|exact Hrest].
Qed.

Lemma loopSpec_nil namespace withExclusion wait sleep nodes h failed :
  loopSpec co namespace withExclusion wait sleep nodes h failed [] (GoOn failed).
Proof. split; [exact I|]. cbn. now rewrite orb_false_r. Qed.

Lemma loopSpec_weaken namespace withExclusion wait sleep nodes nodes' h failed evs res :
  (forall node, node ∈ nodes -> node ∈ nodes') ->
  loopSpec co namespace withExclusion wait sleep nodes h failed evs res ->
  loopSpec co namespace withExclusion wait sleep nodes' h failed evs res.
Proof.
  intros Hsub (Hsound & Hres). split; [|exact Hres].
  revert Hsound. apply eachCall_impl. intros h2 ev.
  now apply replaceCallIsSound_weaken.
Qed.

(** A loop that goes on, followed by more of the loop. *)
Lemma loopSpec_app namespace withExclusion wait sleep nodes h failed evs1 failed1 evs2 res :
  loopSpec co namespace withExclusion wait sleep nodes h failed evs1 (GoOn failed1) ->
  loopSpec co namespace withExclusion wait sleep nodes (h ++ evs1) failed1 evs2 res ->
  loopSpec co namespace withExclusion wait sleep nodes h failed (evs1 ++ evs2) res.
Proof.
  intros (Hsound1 & -> & Hlist1) (Hsound2 & Hres2).
  split; [apply eachCall_app; now split|].
  destruct res as [err|failed2].
  - destruct Hres2 as (pre & options & -> & Hlist2 & Hfail).
    exists (evs1 ++ pre), options. rewrite <- !app_assoc in *.
    split; [reflexivity|]. split; [apply eachCall_app; now split|assumption].
  - destruct Hres2 as (-> & Hlist2). rewrite allSucceeded_app.
    split; [|apply eachCall_app; now split].
    destruct failed, (allSucceeded co h evs1), (allSucceeded co (h ++ evs1) evs2);
      reflexivity.
Qed.

(** One iteration of the loop over the cluster names. *)
Lemma clusterStep_spec namespace node withExclusion wait sleep h failed clusterName h' res :
  clusterStep co namespace node withExclusion wait sleep h failed clusterName = (h', res) ->
  exists evs,
    h' = h ++ evs /\ loopSpec co namespace withExclusion wait sleep [node] h failed evs res.
Proof.
  intros Hrun. unfold clusterStep in Hrun. unfold loopSpec.
  destruct (loadCluster co h namespace clusterName) as [lerr|cluster] eqn:Hload.
  { simplify_eq. eexists. split; [reflexivity|]. cbn. rewrite Hload. cbn.
    split; [now split|]. split; [now rewrite orb_true_r|now split]. }
  destruct (List_ co (h ++ [CallLoadCluster namespace clusterName]) _) as [err|pods] eqn:Hlist.
  { simplify_eq. eexists. rewrite <- app_assoc. cbn [app]. split; [reflexivity|].
    split; [cbn; now repeat split|].
    eexists [_], _. split; [reflexivity|]. split; [cbn; now split|].
    rewrite Hlist. now left. }
  injection Hrun as <- <-.
  eexists. rewrite <- !app_assoc. cbn [app]. split; [reflexivity|].
  split.
  - cbn. split; [exact I|]. split; [exact I|]. split; [|exact I].
    repeat (split; [reflexivity|]).
    exists h, clusterName, cluster, node, pods.
    split; [left|]. split; [now rewrite <- app_assoc|].
    split; [assumption|]. split; [assumption|]. split; [reflexivity|].
    apply processGroupsOf_spec.
  - assert (Hlists : eachCall (listingSucceeded co) h
                       [CallLoadCluster namespace clusterName;
                        CallList {| InNamespace := namespace;
                                    HasLabels := None;
                                    MatchingLabels := Some (GetMatchLabels cluster);
                                    nodeName := node |};
                        CallReplaceProcessGroups (ClusterName cluster)
                          (processGroupsOf cluster node pods) namespace withExclusion
                          wait false true sleep]).
    { cbn. split; [exact I|]. split; [now exists pods|]. now split. }
    destruct (replaceProcessGroups co _ _ _ _ _ _ _ _ _) as [rerr|] eqn:Hrep.
    + split; [|exact Hlists]. cbn. rewrite Hload, Hlist. cbn.
      rewrite <- !app_assoc. cbn [app]. rewrite Hrep. cbn. now rewrite orb_true_r.
    + split; [|exact Hlists]. cbn. rewrite Hload, Hlist. cbn.
      rewrite <- !app_assoc. cbn [app]. rewrite Hrep. cbn. now rewrite orb_false_r.
Qed.

Lemma clusterLoop_spec namespace node withExclusion wait sleep clusterNames :
  forall h failed h' res,
  clusterLoop co namespace node withExclusion wait sleep clusterNames h failed = (h', res) ->
  exists evs,
    h' = h ++ evs /\ loopSpec co namespace withExclusion wait sleep [node] h failed evs res.
Proof.
  induction clusterNames as [|clusterName rest IH]; intros h failed h' res Hrun.
  - cbn in Hrun. simplify_eq. exists []. rewrite app_nil_r. split; [reflexivity|].
    apply loopSpec_nil.
  - cbn [clusterLoop] in Hrun.
    destruct (clusterStep co namespace node withExclusion wait sleep h failed clusterName)
      as [h1 res1] eqn:Hstep.
    apply clusterStep_spec in Hstep as (evs1 & -> & Hspec1).
    destruct res1 as [err|failed1].
    + simplify_eq. now exists evs1.
    + apply IH in Hrun as (evs2 & -> & Hspec2).
      exists (evs1 ++ evs2). split; [now rewrite <- app_assoc|].
      now apply (loopSpec_app _ _ _ _ _ _ _ _ failed1).
Qed.

Lemma nodeLoop_spec inputClusterName namespace withExclusion wait sleep customLabels nodes :
  forall h failed h' res,
  nodeLoop co inputClusterName namespace withExclusion wait sleep customLabels nodes h failed
    = (h', res) ->
  exists evs,
    h' = h ++ evs /\ loopSpec co namespace withExclusion wait sleep nodes h failed evs res.
Proof.
  induction nodes as [|node rest IH]; intros h failed h' res Hrun.
  - cbn in Hrun. simplify_eq. exists []. rewrite app_nil_r. split; [reflexivity|].
    apply loopSpec_nil.
  - cbn [nodeLoop] in Hrun. rewrite getClusterNames_spec in Hrun.
    set (options := {| InNamespace := namespace;
                       HasLabels := Some customLabels;
                       MatchingLabels := None;
                       nodeName := node |}) in *.
    assert (Hloop : forall clusterNames h0,
              (let '(h, lr) := clusterLoop co namespace node withExclusion wait sleep
                                 clusterNames h0 failed in
               match lr with
               | ReturnError err => (h, ReturnError err)
               | GoOn operationFailed =>
                   nodeLoop co inputClusterName namespace withExclusion wait sleep
                     customLabels rest h operationFailed
               end) = (h', res) ->
              exists evs,
                h' = h0 ++ evs /\
                loopSpec co namespace withExclusion wait sleep (node :: rest) h0 failed evs res).
    { intros clusterNames h0 Hrun0.
      destruct (clusterLoop co namespace node withExclusion wait sleep clusterNames
                  h0 failed) as [h1 res1] eqn:Hcl.
      apply clusterLoop_spec in Hcl as (evs1 & -> & Hspec1).
      apply (loopSpec_weaken _ _ _ _ _ (node :: rest)) in Hspec1;
        [|intros n Hn; apply list_elem_of_singleton in Hn as ->; left].
      destruct res1 as [err|failed1].
      - simplify_eq. now exists evs1.
      - apply IH in Hrun0 as (evs2 & -> & Hspec2).
        apply (loopSpec_weaken _ _ _ _ _ (node :: rest)) in Hspec2;
          [|intros n Hn; now right].
        exists (evs1 ++ evs2). split; [now rewrite <- app_assoc|].
        now apply (loopSpec_app _ _ _ _ _ _ _ _ failed1). }
    destruct (bool_decide (inputClusterName = "")).
    + destruct (List_ co h options) as [lerr|pods] eqn:Hlist.
      * simplify_eq. exists [CallList options]. split; [reflexivity|].
        split; [now split|].
        exists [], options. rewrite app_nil_r, Hlist. split; [reflexivity|].
        split; [exact I|now right].
      * apply Hloop in Hrun as (evs & -> & Hspec).
        exists ([CallList options] ++ evs). split; [now rewrite <- app_assoc|].
        apply (loopSpec_app _ _ _ _ _ _ _ _ failed); [|assumption].
        split; [now split|]. cbn. rewrite Hlist. cbn.
        split; [now rewrite orb_false_r|]. split; [now exists pods|exact I].
    + now apply Hloop in Hrun.
Qed.

(** *** The command goes on *)

Lemma loadsOf_app evs1 evs2 : loadsOf (evs1 ++ evs2) = loadsOf evs1 ++ loadsOf evs2.
Proof. unfold loadsOf. apply omap_app. Qed.

Lemma clusterStep_loads namespace node withExclusion wait sleep h failed clusterName h' res :
  clusterStep co namespace node withExclusion wait sleep h failed clusterName = (h', res) ->
  exists evs, h' = h ++ evs /\ loadsOf evs = [(namespace, clusterName)].
Proof.
  intros Hrun. unfold clusterStep in Hrun.
  destruct (loadCluster co h namespace clusterName) as [lerr|cluster].
  { simplify_eq. eexists. split; reflexivity. }
  destruct (List_ co (h ++ [CallLoadCluster namespace clusterName]) _) as [err|pods].
  { simplify_eq. eexists. rewrite <- app_assoc. split; reflexivity. }
  injection Hrun as <- _. eexists. rewrite <- !app_assoc. split; reflexivity.
Qed.

Lemma clusterLoop_loads namespace node withExclusion wait sleep clusterNames :
  forall h failed h' failed',
  clusterLoop co namespace node withExclusion wait sleep clusterNames h failed
    = (h', GoOn failed') ->
  exists evs,
    h' = h ++ evs /\
    loadsOf evs = (fun clusterName => (namespace, clusterName)) <$> clusterNames.
Proof.
  induction clusterNames as [|clusterName rest IH]; intros h failed h' failed' Hrun.
  - cbn in Hrun. simplify_eq. exists []. rewrite app_nil_r. split; reflexivity.
  - cbn [clusterLoop] in Hrun.
    destruct (clusterStep co namespace node withExclusion wait sleep h failed clusterName)
      as [h1 res1] eqn:Hstep.
    apply clusterStep_loads in Hstep as (evs1 & -> & Hloads1).
    destruct res1 as [err|failed1]; [discriminate Hrun|].
    apply IH in Hrun as (evs2 & -> & Hloads2).
    exists (evs1 ++ evs2). split; [now rewrite <- app_assoc|].
    rewrite loadsOf_app, Hloads1, Hloads2. reflexivity.
Qed.

Lemma nodeLoop_visits inputClusterName namespace withExclusion wait sleep customLabels nodes :
  forall h failed h' failed',
  nodeLoop co inputClusterName namespace withExclusion wait sleep customLabels nodes h failed
    = (h', GoOn failed') ->
  exists blocks,
    h' = h ++ concat blocks /\
    visitsEveryCluster co inputClusterName namespace customLabels h nodes blocks.
Proof.
  induction nodes as [|node rest IH]; intros h failed h' failed' Hrun.
  - cbn in Hrun. simplify_eq. exists []. cbn. rewrite app_nil_r. now split.
  - cbn [nodeLoop] in Hrun.
    destruct (getClusterNames co inputClusterName namespace node customLabels h)
      as [h0 names] eqn:Hnames.
    assert (Hpre : exists pre, h0 = h ++ pre /\ loadsOf pre = []).
    { rewrite getClusterNames_spec in Hnames.
      destruct (bool_decide (inputClusterName = "")); simplify_eq.
      - eexists. split; reflexivity.
      - exists []. now rewrite app_nil_r. }
    destruct Hpre as (pre & -> & Hpre).
    destruct names as [err|clusterNames]; [discriminate Hrun|].
    destruct (clusterLoop co namespace node withExclusion wait sleep clusterNames
                (h ++ pre) failed) as [h1 res1] eqn:Hcl.
    destruct res1 as [err|failed1]; [discriminate Hrun|].
    apply clusterLoop_loads in Hcl as (evs1 & -> & Hloads).
    apply IH in Hrun as (blocks & -> & Hvisits).
    exists ((pre ++ evs1) :: blocks). cbn [concat]. rewrite <- !app_assoc.
    split; [reflexivity|]. cbn [visitsEveryCluster]. split.
    + exists clusterNames. rewrite Hnames. split; [reflexivity|].
      now rewrite loadsOf_app, Hpre.
    + now rewrite <- app_assoc in Hvisits.
Qed.

(** *** What follows the load of a cluster *)

Lemma loadIsFollowedUp_more namespace withExclusion wait sleep nodes h ev rest more :
  loadIsFollowedUp co namespace withExclusion wait sleep nodes h ev rest ->
  loadIsFollowedUp co namespace withExclusion wait sleep nodes h ev (rest ++ more).
Proof.
  destruct ev as [|ns clusterName|]; try (intros _; exact I). cbn.
  destruct (loadCluster co h ns clusterName) as [lerr|cluster]; [intros _; exact I|].
  intros (node & rest' & Hin & -> & Hnext).
  exists node, (rest' ++ more). split; [assumption|]. split; [reflexivity|].
  destruct (List_ co _ _) as [err|pods]; [exact I|].
  destruct Hnext as (rest'' & ->). now exists (rest'' ++ more).
Qed.

Lemma loadIsFollowedUp_weaken namespace withExclusion wait sleep nodes nodes' h ev rest :
  (forall node, node ∈ nodes -> node ∈ nodes') ->
  loadIsFollowedUp co namespace withExclusion wait sleep nodes h ev rest ->
  loadIsFollowedUp co namespace withExclusion wait sleep nodes' h ev rest.
Proof.
  intros Hsub. destruct ev as [|ns clusterName|]; try (intros _; exact I). cbn.
  destruct (loadCluster co h ns clusterName) as [lerr|cluster]; [intros _; exact I|].
  intros (node & rest' & Hin & -> & Hnext).
  exists node, rest'. split; [now apply Hsub|]. now split.
Qed.

Lemma eachCallAndRest_impl (P Q : list Event -> Event -> list Event -> Prop) evs :
  forall h,
  (forall h ev rest, P h ev rest -> Q h ev rest) ->
  eachCallAndRest P h evs -> eachCallAndRest Q h evs.
Proof.
  induction evs as [|e evs IH]; intros h Himpl Hall; [exact I|].
  destruct Hall as (He & Hall). split; [now apply Himpl|now apply IH].
Qed.

Lemma eachCallAndRest_app (P : list Event -> Event -> list Event -> Prop) evs1 evs2 :
  (forall h ev rest, P h ev rest -> P h ev (rest ++ evs2)) ->
  forall h,
  eachCallAndRest P h evs1 -> eachCallAndRest P (h ++ evs1) evs2 ->
  eachCallAndRest P h (evs1 ++ evs2).
Proof.
  intros Hmore. induction evs1 as [|e evs1 IH]; intros h H1 H2; cbn.
  - now rewrite app_nil_r in H2.
  - destruct H1 as (He & H1). split; [now apply Hmore|].
    apply IH; [assumption|]. now rewrite <- app_assoc.
Qed.

Lemma eachCallAndRest_split (P : list Event -> Event -> list Event -> Prop) evs :
  forall h,
  eachCallAndRest P h evs ->
  forall pre ev post, evs = pre ++ ev :: post -> P (h ++ pre) ev post.
Proof.
  induction evs as [|e evs IH]; intros h Hall pre ev post Heq.
  - destruct pre; discriminate Heq.
  - destruct Hall as (He & Hall). destruct pre as [|e' pre]; cbn in Heq.
    + injection Heq as -> ->. now rewrite app_nil_r.
    + injection Heq as -> Heq. specialize (IH _ Hall pre ev post Heq).
      now rewrite <- app_assoc in IH.
Qed.

Lemma clusterStep_followed namespace node withExclusion wait sleep h failed clusterName
    h' res :
  clusterStep co namespace node withExclusion wait sleep h failed clusterName = (h', res) ->
  exists evs,
    h' = h ++ evs /\
    eachCallAndRest (loadIsFollowedUp co namespace withExclusion wait sleep [node]) h evs.
Proof.
  intros Hrun. unfold clusterStep in Hrun.
  destruct (loadCluster co h namespace clusterName) as [lerr|cluster] eqn:Hload.
  { simplify_eq. eexists. split; [reflexivity|]. cbn. rewrite Hload. now split. }
  destruct (List_ co (h ++ [CallLoadCluster namespace clusterName]) _) as [err|pods] eqn:Hlist.
  { simplify_eq. eexists. rewrite <- app_assoc. cbn [app]. split; [reflexivity|].
    cbn. rewrite Hload. split; [|now split].
    eexists node, []. split; [left|]. split; [reflexivity|]. now rewrite Hlist. }
  injection Hrun as <- _.
  eexists. rewrite <- !app_assoc. cbn [app]. split; [reflexivity|].
  cbn. rewrite Hload. split; [|now repeat split].
  eexists node, [_]. split; [left|]. split; [reflexivity|]. rewrite Hlist.
  exists []. now rewrite processGroupsOf_spec.
Qed.

Lemma clusterLoop_followed namespace node withExclusion wait sleep clusterNames :
  forall h failed h' res,
  clusterLoop co namespace node withExclusion wait sleep clusterNames h failed = (h', res) ->
  exists evs,
    h' = h ++ evs /\
    eachCallAndRest (loadIsFollowedUp co namespace withExclusion wait sleep [node]) h evs.
Proof.
  induction clusterNames as [|clusterName rest IH]; intros h failed h' res Hrun.
  - cbn in Hrun. simplify_eq. exists []. rewrite app_nil_r. now split.
  - cbn [clusterLoop] in Hrun.
    destruct (clusterStep co namespace node withExclusion wait sleep h failed clusterName)
      as [h1 res1] eqn:Hstep.
    apply clusterStep_followed in Hstep as (evs1 & -> & Hf1).
    destruct res1 as [err|failed1].
    + simplify_eq. now exists evs1.
    + apply IH in Hrun as (evs2 & -> & Hf2).
      exists (evs1 ++ evs2). split; [now rewrite <- app_assoc|].
      apply eachCallAndRest_app; try assumption.
      intros h0 ev rest0. apply loadIsFollowedUp_more.
Qed.

Lemma nodeLoop_followed inputClusterName namespace withExclusion wait sleep customLabels
    nodes :
  forall h failed h' res,
  nodeLoop co inputClusterName namespace withExclusion wait sleep customLabels nodes h failed
    = (h', res) ->
  exists evs,
    h' = h ++ evs /\
    eachCallAndRest (loadIsFollowedUp co namespace withExclusion wait sleep nodes) h evs.
Proof.
  induction nodes as [|node rest IH]; intros h failed h' res Hrun.
  - cbn in Hrun. simplify_eq. exists []. rewrite app_nil_r. now split.
  - cbn [nodeLoop] in Hrun.
    destruct (getClusterNames co inputClusterName namespace node customLabels h)
      as [h0 names] eqn:Hnames.
    assert (Hpre : exists pre,
               h0 = h ++ pre /\
               eachCallAndRest
                 (loadIsFollowedUp co namespace withExclusion wait sleep (node :: rest))
                 h pre).
    { rewrite getClusterNames_spec in Hnames.
      destruct (bool_decide (inputClusterName = "")); simplify_eq.
      - eexists. split; [reflexivity|]. now split.
      - exists []. now rewrite app_nil_r. }
    destruct Hpre as (pre & -> & Hpre).
    destruct names as [err|clusterNames]; [simplify_eq; now exists pre|].
    destruct (clusterLoop co namespace node withExclusion wait sleep clusterNames
                (h ++ pre) failed) as [h1 res1] eqn:Hcl.
    apply clusterLoop_followed in Hcl as (evs1 & -> & Hf1).
    apply (eachCallAndRest_impl _
             (loadIsFollowedUp co namespace withExclusion wait sleep (node :: rest)))
      in Hf1.
    2: { intros h0 ev rest0. apply loadIsFollowedUp_weaken.
         intros n Hn. apply list_elem_of_singleton in Hn as ->. left. }
    assert (Hboth : eachCallAndRest
                      (loadIsFollowedUp co namespace withExclusion wait sleep (node :: rest))
                      h (pre ++ evs1)).
    { apply eachCallAndRest_app; try assumption.
      intros h0 ev rest0. apply loadIsFollowedUp_more. }
    destruct res1 as [err|failed1].
    + simplify_eq. exists (pre ++ evs1). split; [now rewrite <- app_assoc|assumption].
    + apply IH in Hrun as (evs2 & -> & Hf2).
      apply (eachCallAndRest_impl _
               (loadIsFollowedUp co namespace withExclusion wait sleep (node :: rest)))
        in Hf2.
      2: { intros h0 ev rest0. apply loadIsFollowedUp_weaken. intros n Hn. now right. }
      exists ((pre ++ evs1) ++ evs2). split; [now rewrite <- !app_assoc|].
      apply eachCallAndRest_app; try assumption.
      * intros h0 ev rest0. apply loadIsFollowedUp_more.
      * now rewrite <- app_assoc in Hf2.
Qed.

(** X26: without nodes the command does nothing and succeeds.  Otherwise
    it returns no error exactly when every call it made succeeded: every
    listing of pods, every load of a cluster, every replacement.  A
    listing that fails ends the command at once, with the fixed error of
    the cluster names or with the error of the listing; a cluster that
    cannot be loaded or a replacement that fails does not: as long as no
    listing fails, the command goes through all the nodes and loads, for
    each of them, every cluster that [getClusterNames] answers with, and
    it returns its fixed error at the end. *)
Theorem cordon_succeeds_when_every_call_succeeds
    (inputClusterName : string) (nodes : list string) (namespace : string)
    (withExclusion wait : bool) (sleep : Z) (customLabels : list string)
    (evs : list Event) (result : option error) :
  cordonNode co inputClusterName nodes namespace withExclusion wait sleep customLabels
    = (evs, result) ->
  (nodes = [] -> evs = [] /\ result = None) /\
  (result = None <-> allSucceeded co [] evs = true) /\
  (forall pre options post err,
     evs = pre ++ CallList options :: post ->
     List_ co pre options = inl err ->
     post = [] /\ (result = Some err \/ result = Some "unable to fetch cluster names")) /\
  (forall err, result = Some err ->
     err = "one or more operation failed, please rechecka and retry" \/
     exists pre options lerr,
       evs = pre ++ [CallList options] /\ List_ co pre options = inl lerr /\
       (err = lerr \/ err = "unable to fetch cluster names")) /\
  ((forall pre options post,
      evs = pre ++ CallList options :: post ->
      exists pods, List_ co pre options = inr pods) ->
   exists blocks,
     evs = concat blocks /\
     visitsEveryCluster co inputClusterName namespace customLabels [] nodes blocks).
Proof.
  intros Hrun. unfold cordonNode in Hrun.
  destruct nodes as [|node nodes].
  { cbv in Hrun. injection Hrun as <- <-. split; [now intros _|].
    split; [split; intros _; reflexivity|].
    split; [intros [|? ?] ? ? ? Heq; discriminate Heq|].
    split; [intros ? Heq; discriminate Heq|]. intros _. now exists []. }
  replace (Z.of_nat (length (node :: nodes)) =? 0) with false in Hrun
    by (symmetry; apply Z.eqb_neq; cbn [length]; lia).
  destruct (nodeLoop co inputClusterName namespace withExclusion wait sleep customLabels
              (node :: nodes) [] false) as [h res] eqn:Hloop.
  assert (Hvisits : forall failed', res = GoOn failed' ->
            exists blocks,
              h = concat blocks /\
              visitsEveryCluster co inputClusterName namespace customLabels []
                (node :: nodes) blocks).
  { intros failed' ->. exact (nodeLoop_visits _ _ _ _ _ _ _ _ _ _ _ Hloop). }
  apply nodeLoop_spec in Hloop as (evs' & -> & _ & Hres). cbn [app] in *.
  split; [intros Heq; discriminate Heq|].
  assert (Hok : forall l pre options post err,
            eachCall (listingSucceeded co) [] l ->
            l = pre ++ CallList options :: post ->
            List_ co pre options = inl err -> False).
  { intros l pre options post err Hall Heq Hlist.
    pose proof (eachCall_split _ _ _ Hall pre _ post Heq) as (pods & Hpods).
    cbn in Hpods. congruence. }
  destruct res as [err|failed].
  - destruct Hres as (pre & options & -> & Hlists & Hfail). cbn [app] in Hfail.
    destruct (List_ co pre options) as [lerr|pods] eqn:Hlist; [|contradiction].
    injection Hrun as <- <-.
    split.
    { split; [intros Heq; discriminate Heq|]. intros Hall. exfalso.
      rewrite allSucceeded_app in Hall. cbn in Hall. rewrite Hlist in Hall.
      cbn in Hall. rewrite andb_false_r in Hall. discriminate Hall. }
    split.
    + intros pre' options' post err' Heq Hlist'.
      destruct post as [|e post _] using rev_ind.
      * apply app_inj_tail in Heq as (<- & [= <-]). split; [reflexivity|].
        rewrite Hlist in Hlist'. injection Hlist' as <-.
        destruct Hfail as [->| ->]; [now left|now right].
      * exfalso. rewrite app_comm_cons, app_assoc in Heq.
        apply app_inj_tail in Heq as (-> & _).
        exact (Hok _ _ _ _ _ Hlists eq_refl Hlist').
    + split; [intros err' [= <-]; right; now exists pre, options, lerr|].
      intros Hlistings. exfalso.
      destruct (Hlistings pre options [] eq_refl) as (pods & Hpods). congruence.
  - destruct Hres as (-> & Hlists). cbn [orb] in Hrun. injection Hrun as <- <-.
    specialize (Hvisits _ eq_refl).
    destruct (allSucceeded co [] evs') eqn:Hall; cbn.
    + split; [now split|]. split; [|split; [intros ? Heq; discriminate Heq|]].
      * intros pre options post err Heq Hlist. exfalso.
        exact (Hok _ _ _ _ _ Hlists Heq Hlist).
      * intros _. exact Hvisits.
    + split; [split; intros Heq; discriminate Heq|]. split; [|split].
      * intros pre options post err Heq Hlist. exfalso.
        exact (Hok _ _ _ _ _ Hlists Heq Hlist).
      * intros err [= <-]. now left.
      * intros _. exact Hvisits.
Qed.

(** X27: every call of [replaceProcessGroups] the command makes comes
    right after the cluster was loaded and the pods of that cluster on
    one of the nodes were listed, both with success.  It is handed the
    name of the loaded cluster, the namespace and the flags of the
    command, and as process groups the values of the process group label
    of the cluster on the listed pods that run on the node, in the order
    of the pods.  Conversely, every load of a cluster that succeeds is
    followed at once by the listing of its pods on one of the nodes, and
    when that listing succeeds, by the replacement: the replacement is
    called also when there is no such pod. *)
Theorem replacements_follow_a_load_and_a_listing
    (inputClusterName : string) (nodes : list string) (namespace : string)
    (withExclusion wait : bool) (sleep : Z) (customLabels : list string)
    (evs : list Event) (result : option error) :
  cordonNode co inputClusterName nodes namespace withExclusion wait sleep customLabels
    = (evs, result) ->
  (forall before clusterName processGroups ns we w seventh eighth sl post,
     evs = before ++ CallReplaceProcessGroups clusterName processGroups ns we w
                       seventh eighth sl :: post ->
     ns = namespace /\ we = withExclusion /\ w = wait /\
     seventh = false /\ eighth = true /\ sl = sleep /\
     exists pre loaded cluster node pods,
       node ∈ nodes /\
       before = pre ++ [CallLoadCluster namespace loaded;
                        CallList {| InNamespace := namespace;
                                    HasLabels := None;
                                    MatchingLabels := Some (GetMatchLabels cluster);
                                    nodeName := node |}] /\
       loadCluster co pre namespace loaded = inr cluster /\
       List_ co (pre ++ [CallLoadCluster namespace loaded])
             {| InNamespace := namespace;
                HasLabels := None;
                MatchingLabels := Some (GetMatchLabels cluster);
                nodeName := node |} = inr pods /\
       clusterName = ClusterName cluster /\
       processGroups =
         omap (fun pod => Labels pod !! GetProcessGroupIDLabel cluster)
              (List.filter (fun pod => bool_decide (NodeName pod = node)) pods)) /\
  (forall pre loaded post cluster,
     evs = pre ++ CallLoadCluster namespace loaded :: post ->
     loadCluster co pre namespace loaded = inr cluster ->
     exists node post',
       node ∈ nodes /\
       post = CallList {| InNamespace := namespace;
                          HasLabels := None;
                          MatchingLabels := Some (GetMatchLabels cluster);
                          nodeName := node |} :: post' /\
       forall pods,
         List_ co (pre ++ [CallLoadCluster namespace loaded])
               {| InNamespace := namespace;
                  HasLabels := None;
                  MatchingLabels := Some (GetMatchLabels cluster);
                  nodeName := node |} = inr pods ->
         exists post'',
           post' =
             CallReplaceProcessGroups (ClusterName cluster)
               (omap (fun pod => Labels pod !! GetProcessGroupIDLabel cluster)
                     (List.filter (fun pod => bool_decide (NodeName pod = node)) pods))
               namespace withExclusion wait false true sleep :: post'').
Proof.
  intros Hrun. unfold cordonNode in Hrun.
  destruct (Z.of_nat (length nodes) =? 0).
  { injection Hrun as <- <-.
    split; [intros [|? ?] ? ? ? ? ? ? ? ? ? Heq|intros [|? ?] ? ? ? Heq]; discriminate Heq. }
  destruct (nodeLoop co inputClusterName namespace withExclusion wait sleep customLabels
              nodes [] false) as [h res] eqn:Hloop.
  pose proof (nodeLoop_followed _ _ _ _ _ _ _ _ _ _ _ Hloop) as (evs2 & Hevs2 & Hfollowed).
  apply nodeLoop_spec in Hloop as (evs' & -> & Hsound & _). cbn [app] in *.
  subst evs2.
  assert (evs = evs') as -> by (destruct res; now injection Hrun as <- _).
  split.
  - intros before clusterName processGroups ns we w seventh eighth sl post Heq.
    exact (eachCall_split _ _ _ Hsound before _ post Heq).
  - intros pre loaded post cluster Heq Hload.
    pose proof (eachCallAndRest_split _ _ _ Hfollowed pre _ post Heq) as Hnext.
    cbn in Hnext. rewrite Hload in Hnext.
    destruct Hnext as (node & post' & Hin & -> & Hthen).
    exists node, post'. split; [assumption|]. split; [reflexivity|].
    intros pods Hlist. now rewrite Hlist in Hthen.
Qed.

End Command.

End CordonProperties.

(** ** Helpers of the end-to-end fixtures *)

Module FixturesProperties.
Import Fixtures.

Lemma PodsSelector_snoc pods pod :
  PodsSelector (pods ++ [pod]) =
  <[ Namespace pod := default [] (PodsSelector pods !! Namespace pod) ++ [Name pod] ]>
    (PodsSelector pods).
Proof. unfold PodsSelector. now rewrite foldl_app. Qed.

(** X28: [PodsSelector] lists under every namespace the names of the pods
    of that namespace, in the order of the pods and as often as they
    occur, and has no key for a namespace without a pod; for a single pod
    it gives what [PodSelector] gives. *)
Theorem pods_selector_groups_the_names_by_namespace (v1pods : list Pod) :
  (forall namespace,
     default [] (PodsSelector v1pods !! namespace) =
       Name <$> List.filter (fun pod => bool_decide (Namespace pod = namespace)) v1pods) /\
  (forall namespace,
     PodsSelector v1pods !! namespace = None <->
     forall pod, pod ∈ v1pods -> Namespace pod <> namespace) /\
  (forall pod, PodsSelector [pod] = PodSelector pod).
Proof.
  split; [|split].
  - induction v1pods as [|pod pods IH] using rev_ind; intros namespace; [reflexivity|].
    rewrite PodsSelector_snoc, List.filter_app, fmap_app. cbn [List.filter].
    destruct (decide (Namespace pod = namespace)) as [<-|Hne].
    + rewrite lookup_insert_eq, (bool_decide_eq_true_2 _ eq_refl). cbn.
      now rewrite IH.
    + rewrite lookup_insert_ne by assumption.
      rewrite (bool_decide_eq_false_2 _ Hne). cbn. rewrite app_nil_r. apply IH.
  - induction v1pods as [|pod pods IH] using rev_ind; intros namespace.
    + split; [intros _ pod Hin; inversion Hin|intros _; apply lookup_empty].
    + rewrite PodsSelector_snoc. destruct (decide (Namespace pod = namespace)) as [<-|Hne].
      * rewrite lookup_insert_eq. split; [discriminate|].
        intros Hall. exfalso. apply (Hall pod); [|reflexivity].
        apply elem_of_app. right. left.
      * rewrite lookup_insert_ne by assumption. rewrite IH. split.
        -- intros Hall p Hin. apply elem_of_app in Hin as [Hin|Hin]; [now apply Hall|].
           apply list_elem_of_singleton in Hin as ->. assumption.
        -- intros Hall p Hin. apply Hall. apply elem_of_app. now left.
  - intros pod. reflexivity.
Qed.

Section Conditions.
Context (ConditionAllInjected ConditionSelected ConditionTrue : string)
        {ChaosStatus : Type}.

(** X29: [conditionsAreTrue] is false for a nil status.  Otherwise it is
    true exactly when the last condition of type all-injected and the last
    condition of type selected both say true: a later condition of a type
    overrides the earlier ones, and a type without a condition counts as
    not true. *)
Theorem the_last_condition_of_a_type_decides
    (status : option ChaosStatus) (conditions : list ChaosCondition) :
  conditionsAreTrue ConditionAllInjected ConditionSelected ConditionTrue status conditions =
    match status with
    | None => false
    | Some _ =>
        lastSaysTrue ConditionTrue ConditionAllInjected conditions
        && lastSaysTrue ConditionTrue ConditionSelected conditions
    end.
Proof.
  unfold conditionsAreTrue. destruct status as [st|]; [|reflexivity].
  match goal with
  | |- (let '(_, _) := foldl ?f _ _ in _) = _ => set (step := f)
  end.
  assert (Hloop : foldl step (false, false) conditions =
                  (lastSaysTrue ConditionTrue ConditionAllInjected conditions,
                   lastSaysTrue ConditionTrue ConditionSelected conditions)).
  { induction conditions as [|condition conditions IH] using rev_ind; [reflexivity|].
    rewrite foldl_app, IH. cbn. unfold lastSaysTrue.
    rewrite !List.filter_app. cbn [List.filter].
    destruct (bool_decide (Type_ condition = ConditionAllInjected)),
      (bool_decide (Type_ condition = ConditionSelected));
      rewrite ?last_snoc, ?app_nil_r; reflexivity. }
  now rewrite Hloop.
Qed.

End Conditions.

Lemma dcStep_invariant seen st dc :
  dcInvariant seen st -> dcInvariant (seen ++ [ID dc]) (dcStep st dc).
Proof.
  destruct st as [dcSet dcIDs]. intros (Hset & Hnodup & Hseen & Hsub).
  cbn [fst snd] in *.
  unfold dcStep, dcInvariant.
  destruct (bool_decide (ID dc ∈ dcSet)) eqn:Hin; cbn [fst snd].
  - apply bool_decide_eq_true in Hin. repeat split; try assumption.
    + now apply Hset.
    + now apply Hset.
    + intros Hid. apply elem_of_app. left. now apply Hseen.
    + intros Hid. apply elem_of_app in Hid as [Hid|Hid]; [now apply Hseen|].
      apply list_elem_of_singleton in Hid as ->. now apply Hset.
    + now apply sublist_inserts_r.
  - apply bool_decide_eq_false in Hin. repeat split.
    + intros Hid. apply elem_of_union in Hid as [Hid|Hid].
      * apply elem_of_singleton in Hid as ->. apply elem_of_app. right. left.
      * apply elem_of_app. left. now apply Hset.
    + intros Hid. apply elem_of_app in Hid as [Hid|Hid].
      * apply elem_of_union. right. now apply Hset.
      * apply list_elem_of_singleton in Hid as ->. apply elem_of_union. left.
        now apply elem_of_singleton.
    + apply NoDup_app. split; [assumption|]. split; [|apply NoDup_singleton].
      intros id Hid Hid'. apply list_elem_of_singleton in Hid' as ->.
      apply Hin. now apply Hset.
    + intros Hid. apply elem_of_app in Hid as [Hid|Hid]; apply elem_of_app;
        [left; now apply Hseen|now right].
    + intros Hid. apply elem_of_app in Hid as [Hid|Hid]; apply elem_of_app;
        [left; now apply Hseen|now right].
    + now apply sublist_app.
Qed.

Lemma dcLoop_invariant dcs : forall seen st,
  dcInvariant seen st -> dcInvariant (seen ++ (ID <$> dcs)) (foldl dcStep st dcs).
Proof.
  induction dcs as [|dc dcs IH]; intros seen st Hinv; cbn.
  - now rewrite app_nil_r.
  - rewrite cons_middle, app_assoc. apply IH. now apply dcStep_invariant.
Qed.

Lemma firstOccurrences_snoc ids id :
  firstOccurrences (ids ++ [id]) =
    if bool_decide (id ∈ ids) then firstOccurrences ids else firstOccurrences ids ++ [id].
Proof.
  unfold firstOccurrences. rewrite reverse_snoc. cbn [remove_dups].
  destruct (decide_rel elem_of id (reverse ids)) as [Hin|Hnot].
  - rewrite elem_of_reverse in Hin. now rewrite (bool_decide_eq_true_2 _ Hin).
  - rewrite bool_decide_eq_false_2; [now rewrite reverse_cons|].
    intros Hin. apply Hnot. now rewrite elem_of_reverse.
Qed.

Lemma elem_of_firstOccurrences ids id : id ∈ firstOccurrences ids <-> id ∈ ids.
Proof.
  unfold firstOccurrences. now rewrite elem_of_reverse, elem_of_remove_dups, elem_of_reverse.
Qed.

(** An element that [firstOccurrences] lists before another occurs in the
    list before any occurrence of the other. *)
Lemma firstOccurrences_order ids : forall i j a b,
  firstOccurrences ids !! i = Some a ->
  firstOccurrences ids !! j = Some b ->
  (i < j)%nat ->
  exists k, ids !! k = Some a /\ forall k', (k' <= k)%nat -> ids !! k' <> Some b.
Proof.
  induction ids as [|id ids IH] using rev_ind; intros i j a b Hi Hj Hlt.
  - discriminate Hi.
  - rewrite firstOccurrences_snoc in Hi, Hj.
    assert (Hold : forall k,
              ids !! k = Some a ->
              (forall k', (k' <= k)%nat -> ids !! k' <> Some b) ->
              exists k, (ids ++ [id]) !! k = Some a /\
                        forall k', (k' <= k)%nat -> (ids ++ [id]) !! k' <> Some b).
    { intros k Hk Hbefore. exists k.
      pose proof (lookup_lt_Some _ _ _ Hk) as Hklt.
      split; [now rewrite lookup_app_l|].
      intros k' Hle. rewrite lookup_app_l by lia. now apply Hbefore. }
    destruct (bool_decide (id ∈ ids)) eqn:Hin.
    + destruct (IH i j a b Hi Hj Hlt) as (k & Hk & Hbefore). now apply (Hold k).
    + apply bool_decide_eq_false in Hin.
      apply lookup_app_Some in Hj as [Hj|(Hlen & Hj)].
      * apply lookup_app_Some in Hi as [Hi|(Hlen & _)];
          [|apply lookup_lt_Some in Hj; lia].
        destruct (IH i j a b Hi Hj Hlt) as (k & Hk & Hbefore). now apply (Hold k).
      * apply list_lookup_singleton_Some in Hj as (Hjz & <-).
        apply lookup_app_Some in Hi as [Hi|(Hlen' & Hi)].
        -- apply list_elem_of_lookup_2 in Hi. rewrite elem_of_firstOccurrences in Hi.
           apply list_elem_of_lookup_1 in Hi as (k & Hk).
           apply (Hold k Hk). intros k' _ Hk'.
           apply Hin. now apply list_elem_of_lookup_2 in Hk'.
        -- apply list_lookup_singleton_Some in Hi as (Hz & _). lia.
Qed.

Lemma dcStep_order seen st dc :
  dcInvariant seen st -> st.2 = firstOccurrences seen ->
  (dcStep st dc).2 = firstOccurrences (seen ++ [ID dc]).
Proof.
  destruct st as [dcSet dcIDs]. intros (Hset & _ & Hseen & _) Horder.
  cbn [fst snd] in *. rewrite firstOccurrences_snoc. unfold dcStep.
  destruct (bool_decide (ID dc ∈ dcSet)) eqn:Hin; cbn [snd].
  - apply bool_decide_eq_true in Hin. rewrite bool_decide_eq_true_2; [assumption|].
    now apply Hseen, Hset.
  - apply bool_decide_eq_false in Hin. rewrite bool_decide_eq_false_2; [now rewrite Horder|].
    intros Hid. now apply Hin, Hset, Hseen.
Qed.

Lemma dcLoop_order dcs : forall seen st,
  dcInvariant seen st -> st.2 = firstOccurrences seen ->
  (foldl dcStep st dcs).2 = firstOccurrences (seen ++ (ID <$> dcs)).
Proof.
  induction dcs as [|dc dcs IH]; intros seen st Hinv Horder; cbn.
  - now rewrite app_nil_r.
  - rewrite cons_middle, app_assoc. apply IH; [now apply dcStep_invariant|].
    now apply dcStep_order.
Qed.

(** X30: [GetDcIDsFromConfig] lists every ID of a data center of the
    configuration once: no ID twice, none that the configuration does not
    hold, none left out, and in the order in which the IDs first occur in
    the regions: it gives the IDs of the data centers, region by region,
    without the later occurrences of an ID. *)
Theorem dc_ids_are_listed_once (databaseConfiguration : DatabaseConfiguration) :
  NoDup (GetDcIDsFromConfig databaseConfiguration) /\
  (forall id, id ∈ GetDcIDsFromConfig databaseConfiguration <->
              id ∈ allDcIDs databaseConfiguration) /\
  GetDcIDsFromConfig databaseConfiguration `sublist_of` allDcIDs databaseConfiguration /\
  GetDcIDsFromConfig databaseConfiguration =
    firstOccurrences (allDcIDs databaseConfiguration) /\
  (forall i j a b,
     GetDcIDsFromConfig databaseConfiguration !! i = Some a ->
     GetDcIDsFromConfig databaseConfiguration !! j = Some b ->
     (i < j)%nat ->
     exists k,
       allDcIDs databaseConfiguration !! k = Some a /\
       forall k', (k' <= k)%nat -> allDcIDs databaseConfiguration !! k' <> Some b).
Proof.
  unfold GetDcIDsFromConfig, allDcIDs.
  assert (Hloop : forall regions seen st,
            dcInvariant seen st -> st.2 = firstOccurrences seen ->
            dcInvariant (seen ++ concat ((fun region => ID <$> DataCenters region) <$> regions))
                        (foldl (fun st region => foldl dcStep st (DataCenters region))
                               st regions) /\
            (foldl (fun st region => foldl dcStep st (DataCenters region)) st regions).2 =
              firstOccurrences
                (seen ++ concat ((fun region => ID <$> DataCenters region) <$> regions))).
  { induction regions as [|region regions IH]; intros seen st Hinv Horder; cbn.
    - now rewrite app_nil_r.
    - rewrite app_assoc. apply IH; [now apply dcLoop_invariant|now apply dcLoop_order]. }
  destruct (Hloop (Regions databaseConfiguration) [] (∅, []))
    as ((_ & Hnodup & Hseen & Hsub) & Horder).
  { split; [|split; [constructor|split; [tauto|constructor]]].
    intros id. cbn. split; intros Hin; [now apply not_elem_of_empty in Hin|inversion Hin]. }
  { reflexivity. }
  cbn [app] in *. split; [assumption|]. split; [exact Hseen|]. split; [assumption|].
  split; [exact Horder|].
  rewrite Horder. apply firstOccurrences_order.
Qed.

End FixturesProperties.

(** ** Examples for the code around the exclusion step *)

Module DriverExamples.
Import Driver DriverSample.

Lemma pipeline_stops_at_the_first_requeue_that_is_not_delayed_witness :
  exists evs,
    calls twoSteps.1 = calls start ++ evs /\
    (answersFrom co (calls start) evs).*1 `prefix_of` ["updateStatus"; "excludeProcesses"].
Proof.
  destruct (DriverProperties.pipeline_stops_at_the_first_requeue_that_is_not_delayed
              pkg co ["updateStatus"; "excludeProcesses"] start twoSteps.1 twoSteps.2
              (ExclusionExamples.pair_eta _))
    as (evs & Htr & _ & Hpre & _).
  now exists evs.
Defined.

Lemma requeue_after_is_the_longest_delay_or_two_seconds_witness :
  exists result,
    twoSteps.2 = Exit result None /\ RequeueAfter result = 5 * Duration.Minute.
Proof.
  destruct (DriverProperties.requeue_after_is_the_longest_delay_or_two_seconds
              pkg co ["updateStatus"; "excludeProcesses"] start twoSteps.1 twoSteps.2
              (ExclusionExamples.pair_eta _))
    as (evs & Htr & Hquiet).
  assert (Hevs : evs = calls twoSteps.1) by (now rewrite Htr).
  subst evs.
  destruct Hquiet as (result & Ho & _ & _ & Hlater).
  - vm_compute. repeat constructor.
  - exists result. split; [exact Ho|].
    destruct Hlater as [Hafter _].
    + right. vm_compute. apply Exists_cons_tl, Exists_cons_hd. discriminate.
    + rewrite Hafter. vm_compute. reflexivity.
Defined.

Lemma shutdown_needs_resolvable_coordinators_witness :
  status cached.1 = None /\
  exists err,
    (getStatusFromClusterOrDummyStatus co (calls start) (cluster start)).2 = inl err /\
    Contains err "FoundationDB error code 1512" = true.
Proof.
  destruct (DriverProperties.shutdown_needs_resolvable_coordinators
              pkg co true start cached.1 cached.2 (ExclusionExamples.pair_eta _))
    as (evs & Htr & Hsignal & _).
  assert (Hevs : evs = calls cached.1) by (now rewrite Htr).
  subst evs.
  destruct (Hsignal "SIGTERM") as (_ & _ & Hnil & err & coordinators & Hfetch & _ & Herr & _).
  - vm_compute. do 3 right. left.
  - split; [exact Hnil|]. now exists err.
Defined.

Lemma reconcile_closes_the_admin_client_it_obtained_witness :
  exists body result err,
    fullRun.1 = CallGet "default/test" :: CallGetAdminClient ::
                  CallVersionSupported "7.1.26" :: body ++ [CallClose] /\
    Forall (fun ev => bodyCall ev = true) body /\
    fullRun.2 = Exit result err /\
    body <> [].
Proof.
  exact (DriverProperties.reconcile_closes_the_admin_client_it_obtained
           pkg co true "default/test" fullRun.1 fullRun.2
           (ExclusionExamples.pair_eta _)).
Defined.

End DriverExamples.

Module StatusExamples.
Import StatusFetch StatusSample.

Lemma triple_eta {A B C} (p : A * B * C) : p = (p.1.1, p.1.2, p.2).
Proof. now destruct p as [[a b] c]. Qed.

Lemma status_or_error_but_not_both_witness :
  Some fetchedStatus = None <-> @None error <> None.
Proof.
  assert (Hrun : fetch.2 = Returns (Some fetchedStatus, None)) by reflexivity.
  exact (proj1 (proj2 (proj2 (StatusFetchProperties.status_or_error_but_not_both
                                tt (fun _ => false) reconciler cluster0
                                fetch.1.1 [] fetch.1.2 fetch.2 (triple_eta _)))
                  (Some fetchedStatus) None Hrun)).
Defined.

Lemma status_fetch_closes_the_client_and_keeps_the_connection_string_witness :
  exists evs,
    fetch.1.2 = [] ++ evs /\
    (exists middle,
       evs = CallGetAdminClientWithLogger :: [] ++ CallGetStatus :: middle ++ [CallClose] /\
       (middle = [] \/ middle = [CallGetVersionFromReachableCoordinators] \/
        exists message,
          middle = [CallRecorderEvent "Normal" "UpdatingConnectionString" message])) /\
    (ConnectionString cluster0 <> "" -> ConnectionString fetch.1.1 <> "").
Proof.
  destruct (StatusFetchProperties.status_fetch_closes_the_client_and_keeps_the_connection_string
              tt (fun _ => false) reconciler cluster0 fetch.1.1 [] fetch.1.2 fetch.2
              (triple_eta _))
    as (evs & Htr & Hshape & _ & _ & Hkept & _).
  exists evs. split; [exact Htr|]. split; [exact Hshape|exact Hkept].
Defined.

End StatusExamples.

Module BackupExamples.
Import BackupController BackupSample.

Lemma stop_backup_closes_the_client_it_obtained_witness :
  exists evs,
    stopped.1 = [] ++ evs /\
    evs = [CallGetCluster "default" "test-cluster"; CallGetAdminClient;
           CallSetKnobs ["--knob_http_verbose_level=3"];
           CallStopBackup "blobstore://test@test-service/test-backup?bucket=fdb-backups";
           CallClose] /\
    stopped.2 = Returns None.
Proof.
  destruct (BackupControllerProperties.stop_backup_closes_the_client_it_obtained
              reconciler co backup0 [] stopped.1 stopped.2 (ExclusionExamples.pair_eta _))
    as (evs & Htr & _ & Hacts & _).
  destruct (Hacts eq_refl) as [Hevs Hanswer].
  exists evs. split; [exact Htr|]. split; [exact Hevs|exact Hanswer].
Defined.

Lemma backup_pipeline_stops_at_any_requeue_witness :
  exists evs,
    run.1.2 = [] ++ evs /\
    (answersFrom reconciler co [] evs).*1 `prefix_of` subReconcilers.
Proof.
  destruct (BackupControllerProperties.backup_pipeline_stops_at_any_requeue
              reconciler co backup0 run.1.1 [] run.1.2 run.2 (StatusExamples.triple_eta _))
    as (evs & Htr & Hpre & _).
  now exists evs.
Defined.

End BackupExamples.

Module StepExamples.

Lemma claims_are_created_only_when_missing_witness :
  exists evs, PVCSample.run.1 = [] ++ evs.
Proof.
  destruct (AddPVCsProperties.claims_are_created_only_when_missing
              PVCSample.co Sample.five [] PVCSample.run.1 PVCSample.run.2
              (ExclusionExamples.pair_eta _))
    as (evs & Htr & _).
  now exists evs.
Defined.

Lemma add_pvcs_delays_the_errors_of_the_client_witness :
  exists evs, PVCSample.run.1 = [] ++ evs.
Proof.
  destruct (AddPVCsProperties.add_pvcs_delays_the_errors_of_the_client
              PVCSample.co Sample.five [] PVCSample.run.1 PVCSample.run.2
              (ExclusionExamples.pair_eta _))
    as (evs & Htr & _).
  now exists evs.
Defined.

Lemma config_map_is_written_once_and_only_when_needed_witness :
  exists writes,
    ConfigMapSample.run.1 =
      [] ++ UpdateConfigMap.CallGet "default" "test-cluster-config" :: writes /\
    writes = [UpdateConfigMap.CallRecorderEvent "Normal" "UpdatingConfigMap" "";
              UpdateConfigMap.CallUpdate ConfigMapSample.wanted] /\
    ConfigMapSample.run.2 = None.
Proof.
  exact (proj2 (UpdateConfigMapProperties.config_map_is_written_once_and_only_when_needed
                  ConfigMapSample.co tt [] ConfigMapSample.run.1 ConfigMapSample.run.2
                  (ExclusionExamples.pair_eta _))).
Defined.

End StepExamples.

Module CordonExamples.
Import Cordon CordonSample.

Lemma cordon_succeeds_when_every_call_succeeds_witness :
  (run.2 = None <-> allSucceeded co [] run.1 = true) /\
  exists blocks,
    run.1 = concat blocks /\
    visitsEveryCluster co "" "default" ["fdb-cluster-name"] [] ["node-1"] blocks.
Proof.
  destruct (CordonProperties.cordon_succeeds_when_every_call_succeeds
              co "" ["node-1"] "default" true false 0 ["fdb-cluster-name"]
              run.1 run.2 (ExclusionExamples.pair_eta _))
    as (_ & Hiff & _ & _ & Hvisits).
  split; [exact Hiff|]. apply Hvisits.
  intros pre options post _. now exists [pod].
Defined.

Lemma replacements_follow_a_load_and_a_listing_witness :
  exists node post',
    node ∈ ["node-1"] /\
    [CallList {| InNamespace := "default";
                 HasLabels := None;
                 MatchingLabels := Some (GetMatchLabels testCluster);
                 nodeName := "node-1" |};
     CallReplaceProcessGroups "test-cluster" ["storage-1"] "default" true false
       false true 0]
      = CallList {| InNamespace := "default";
                    HasLabels := None;
                    MatchingLabels := Some (GetMatchLabels testCluster);
                    nodeName := node |} :: post' /\
    forall pods,
      List_ co ([CallList {| InNamespace := "default";
                             HasLabels := Some ["fdb-cluster-name"];
                             MatchingLabels := None;
                             nodeName := "node-1" |}]
                ++ [CallLoadCluster "default" "test-cluster"])
            {| InNamespace := "default";
               HasLabels := None;
               MatchingLabels := Some (GetMatchLabels testCluster);
               nodeName := node |} = inr pods ->
      exists post'',
        post' =
          CallReplaceProcessGroups (ClusterName testCluster)
            (omap (fun pod => Labels pod !! GetProcessGroupIDLabel testCluster)
                  (List.filter (fun pod => bool_decide (NodeName pod = node)) pods))
            "default" true false false true 0 :: post''.
Proof.
  assert (Hsplit : run.1 =
                   [CallList {| InNamespace := "default";
                                HasLabels := Some ["fdb-cluster-name"];
                                MatchingLabels := None;
                                nodeName := "node-1" |}]
                   ++ CallLoadCluster "default" "test-cluster"
                   :: [CallList {| InNamespace := "default";
                                   HasLabels := None;
                                   MatchingLabels := Some (GetMatchLabels testCluster);
                                   nodeName := "node-1" |};
                       CallReplaceProcessGroups "test-cluster" ["storage-1"] "default"
                         true false false true 0])
    by (vm_compute; reflexivity).
  exact (proj2 (CordonProperties.replacements_follow_a_load_and_a_listing
                  co "" ["node-1"] "default" true false 0 ["fdb-cluster-name"]
                  run.1 run.2 (ExclusionExamples.pair_eta _))
               _ "test-cluster" _ testCluster Hsplit eq_refl).
Defined.

End CordonExamples.
